(** * jsonfs: a shallow embedding of the JSON codec and of the tree model

    The development follows the Go sources of [github.com/johnsiilver/jsonfs]:
    - the tree model ([File], [Directory], [NewDir], [NewArray], [remove],
      the encoder) of [jsonfs.go];
    - the state-machine decoder ([dictSM], [arraySM], [runSM],
      [UnmarshalJSON], [UnmarshalStream]) and its scalar codec
      ([getString], [isQuote], [decodeNumber], ...) of the unmarshal file.

    Go strings and byte slices are sequences of bytes; the reader is a
    [bufio.Reader] over a finite byte source.  Definitions come first, the
    theorems about them follow. *)

From stdpp Require Import gmap strings list fin_maps pretty.
From Stdlib Require Import ZArith Ascii String List Lia.

#[local] Set Warnings "-register-all".
#[local] Open Scope Z_scope.

(* ===================================================================== *)
(** * Bytes, runes and the parts of Go's standard library the code uses *)
(* ===================================================================== *)

Abbreviation byte := ascii.

(** A [rune] is Go's [int32] code point; the decoder only ever holds the
    values produced by [rune(b)] for a byte and by [utf8.DecodeRune]. *)
Definition rune : Type := Z.

(** [rune(b)] for a byte [b]. *)
Definition rune_of_byte (c : byte) : rune := Z.of_N (N_of_ascii c).

(** [byte(r)] for a rune [r]: the conversion keeps the low eight bits. *)
Definition byte_of_rune (r : rune) : byte := ascii_of_N (Z.to_N (r mod 256)).

(** [ByteSlice2String] and [unsafeGetBytes] reinterpret the same bytes. *)
Definition ByteSlice2String (bs : list byte) : string := string_of_list_ascii bs.
Definition unsafeGetBytes (s : string) : list byte := list_ascii_of_string s.

(** The rune constants of the decoder. *)
Definition doubleQuote : rune := 34.
Definition openBracket : rune := 91.
Definition closeBracket : rune := 93.
Definition openBrace : rune := 123.
Definition closeBrace : rune := 125.
Definition colon : rune := 58.
Definition comma : rune := 44.
Definition backslash : rune := 92.
Definition dot : rune := 46.

(** ** [unicode/utf8] *)

Definition RuneError : rune := 65533.

(** [utf8.first] and [utf8.acceptRanges]: for a leading byte, the length of
    the sequence and the range accepted for the second byte; [None] for the
    bytes that cannot start a multi-byte sequence. *)
Definition utf8_first (p0 : Z) : option (nat * Z * Z) :=
  if (194 <=? p0) && (p0 <=? 223) then Some (2%nat, 128, 191)
  else if p0 =? 224 then Some (3%nat, 160, 191)
  else if (225 <=? p0) && (p0 <=? 236) then Some (3%nat, 128, 191)
  else if p0 =? 237 then Some (3%nat, 128, 159)
  else if (238 <=? p0) && (p0 <=? 239) then Some (3%nat, 128, 191)
  else if p0 =? 240 then Some (4%nat, 144, 191)
  else if (241 <=? p0) && (p0 <=? 243) then Some (4%nat, 128, 191)
  else if p0 =? 244 then Some (4%nat, 128, 143)
  else None.

Definition is_cont (b : Z) : bool := (128 <=? b) && (b <=? 191).

(** [utf8.DecodeRune]: the rune at the head of [p] and its width in bytes;
    [(RuneError, 1)] for an encoding that is invalid or cut short. *)
Definition DecodeRune (p : list byte) : rune * nat :=
  match p with
  | [] => (RuneError, 0%nat)
  | c0 :: p1 =>
    let p0 := rune_of_byte c0 in
    if p0 <? 128 then (p0, 1%nat)
    else match utf8_first p0 with
    | None => (RuneError, 1%nat)
    | Some (sz, lo, hi) =>
      if (length p <? sz)%nat then (RuneError, 1%nat)
      else match p1 with
      | [] => (RuneError, 1%nat)
      | c1 :: p2 =>
        let b1 := rune_of_byte c1 in
        if (b1 <? lo) || (hi <? b1) then (RuneError, 1%nat)
        else if (sz <=? 2)%nat then
          (Z.lor (Z.shiftl (Z.land p0 31) 6) (Z.land b1 63), 2%nat)
        else match p2 with
        | [] => (RuneError, 1%nat)
        | c2 :: p3 =>
          let b2 := rune_of_byte c2 in
          if negb (is_cont b2) then (RuneError, 1%nat)
          else if (sz <=? 3)%nat then
            (Z.lor (Z.lor (Z.shiftl (Z.land p0 15) 12)
                          (Z.shiftl (Z.land b1 63) 6)) (Z.land b2 63), 3%nat)
          else match p3 with
          | [] => (RuneError, 1%nat)
          | c3 :: _ =>
            let b3 := rune_of_byte c3 in
            if negb (is_cont b3) then (RuneError, 1%nat)
            else
              (Z.lor (Z.lor (Z.lor (Z.shiftl (Z.land p0 7) 18)
                                   (Z.shiftl (Z.land b1 63) 12))
                            (Z.shiftl (Z.land b2 63) 6)) (Z.land b3 63), 4%nat)
          end
        end
      end
    end
  end.

(** ** [unicode] *)

Definition in_ranges (tbl : list (Z * Z)) (r : rune) : bool :=
  existsb (fun lh => (fst lh <=? r) && (r <=? snd lh)) tbl.

(** [unicode.White_Space] above Latin-1. *)
Definition White_Space_table : list (Z * Z) :=
  [(5760, 5760); (8192, 8202); (8232, 8233); (8239, 8239); (8287, 8287);
   (12288, 12288)].

(** [unicode.IsSpace]. *)
Definition IsSpace (r : rune) : bool :=
  if (0 <=? r) && (r <=? 255) then
    (r =? 9) || (r =? 10) || (r =? 11) || (r =? 12) || (r =? 13)
    || (r =? 32) || (r =? 133) || (r =? 160)
  else in_ranges White_Space_table r.

(** [unicode.Number] (categories Nd, Nl and No of the Unicode Character
    Database, version 14.0) above Latin-1. *)
Definition Number_table : list (Z * Z) :=
  [(1632, 1641); (1776, 1785); (1984, 1993); (2406, 2415); (2534, 2543);
   (2548, 2553); (2662, 2671); (2790, 2799); (2918, 2927); (2930, 2935);
   (3046, 3058); (3174, 3183); (3192, 3198); (3302, 3311); (3416, 3422);
   (3430, 3448); (3558, 3567); (3664, 3673); (3792, 3801); (3872, 3891);
   (4160, 4169); (4240, 4249); (4969, 4988); (5870, 5872); (6112, 6121);
   (6128, 6137); (6160, 6169); (6470, 6479); (6608, 6618); (6784, 6793);
   (6800, 6809); (6992, 7001); (7088, 7097); (7232, 7241); (7248, 7257);
   (8304, 8304); (8308, 8313); (8320, 8329); (8528, 8578); (8581, 8585);
   (9312, 9371); (9450, 9471); (10102, 10131); (11517, 11517);
   (12295, 12295); (12321, 12329); (12344, 12346); (12690, 12693);
   (12832, 12841); (12872, 12879); (12881, 12895); (12928, 12937);
   (12977, 12991); (42528, 42537); (42726, 42735); (43056, 43061);
   (43216, 43225); (43264, 43273); (43472, 43481); (43504, 43513);
   (43600, 43609); (44016, 44025); (65296, 65305); (65799, 65843);
   (65856, 65912); (65930, 65931); (66273, 66299); (66336, 66339);
   (66369, 66369); (66378, 66378); (66513, 66517); (66720, 66729);
   (67672, 67679); (67705, 67711); (67751, 67759); (67835, 67839);
   (67862, 67867); (68028, 68029); (68032, 68047); (68050, 68095);
   (68160, 68168); (68221, 68222); (68253, 68255); (68331, 68335);
   (68440, 68447); (68472, 68479); (68521, 68527); (68858, 68863);
   (68912, 68921); (69216, 69246); (69405, 69414); (69457, 69460);
   (69573, 69579); (69714, 69743); (69872, 69881); (69942, 69951);
   (70096, 70105); (70113, 70132); (70384, 70393); (70736, 70745);
   (70864, 70873); (71248, 71257); (71360, 71369); (71472, 71483);
   (71904, 71922); (72016, 72025); (72784, 72812); (73040, 73049);
   (73120, 73129); (73664, 73684); (74752, 74862); (92768, 92777);
   (92864, 92873); (93008, 93017); (93019, 93025); (93824, 93846);
   (119520, 119539); (119648, 119672); (120782, 120831); (123200, 123209);
   (123632, 123641); (125127, 125135); (125264, 125273); (126065, 126123);
   (126125, 126127); (126129, 126132); (126209, 126253); (126255, 126269);
   (127232, 127244); (130032, 130041)].

(** [unicode.IsNumber]. *)
Definition IsNumber (r : rune) : bool :=
  if (0 <=? r) && (r <=? 255) then
    ((48 <=? r) && (r <=? 57)) || (r =? 178) || (r =? 179) || (r =? 185)
    || ((188 <=? r) && (r <=? 190))
  else in_ranges Number_table r.

(** [strconv.Itoa]. *)
Definition Itoa (i : Z) : string := pretty i.

(** Go's [int] is 64 bits wide; [m.item++] wraps around. *)
Definition wrap_int (z : Z) : Z := (z + 2 ^ 63) mod 2 ^ 64 - 2 ^ 63.

(* ===================================================================== *)
(** * Errors *)
(* ===================================================================== *)

(** The kinds of value [valueCheck] announces. *)
Inductive next :=
  | unknownNext | msgNext | arrayNext | stringNext
  | trueNext | falseNext | numNext | nullNext.

(** One constructor per error value the code builds; the arguments are the
    values formatted into the message. *)
Inductive error :=
  | EOF                                   (* io.EOF *)
  | ErrUnexpectedEOF                      (* io.ErrUnexpectedEOF *)
  | ErrObjectStart                        (* object must start with { *)
  | ErrKeyQuote (r : rune)                (* object key expected but ... found r *)
  | ErrColon (r : rune)                   (* object key not followed by colon *)
  | ErrUnexpectedValue (r : rune)         (* unexpected value type after key, got r after quote *)
  | ErrDuplicateField (name : string)     (* had duplicate field named name *)
  | ErrValueTypeAfterKey (n : next)       (* unexpected value type after key, got n *)
  | ErrObjectEOL                          (* expecting comma after object or closing brace, found eol *)
  | ErrCommaOrBrace (r : rune)            (* expecting a comma after field value or closing brace *)
  | ErrCloseBrace (r : rune)              (* expecting close brace *)
  | ErrComma (r : rune)                   (* expecting comma *)
  | ErrOpenBracket (r : rune)             (* expected array open bracket *)
  | ErrArrayValueType (n : next)          (* unexpected array value type *)
  | ErrArrayEOL                           (* expecting comma after array value or closing bracket, found eol *)
  | ErrCommaOrBracket (r : rune)          (* expecting a comma after field value or closing bracket *)
  | ErrCloseBracket (r : rune)            (* expecting close bracket *)
  | ErrDecodingBool (e : error)           (* decoding bool, but unexpected error: e *)
  | ErrExpectedBool (s : string)          (* expected bool value true or false, got s *)
  | ErrDecodingNull (e : error)           (* decoding null, but unexpected error: e *)
  | ErrExpectedNull (s : string)          (* expected null, found s *)
  | ErrNoNumber                           (* expected key to have number, but did not *)
  | ErrStringNoQuote (e : error)          (* string did not end with a double quote: e *)
  | ErrFileNoName                         (* a passed File had no name *)
  | ErrDirNoName                          (* a passed Directory had no name *)
  | ErrUnsupportedType                    (* %T is not a supported type *)
  | ErrNotEmpty                           (* directory not empty *)
  | ErrMissingIndex (i : Z)               (* Directory was not a valid array, missing array index i *)
  | ErrFuel.                              (* the bound of the model's loops was reached *)

(** A Go pair [(v, err)]: either the value with a nil error, or the error
    (the value returned with it is the zero value). *)
Inductive result (A : Type) :=
  | Ok (a : A)
  | Err (e : error).
Arguments Ok {A} a.
Arguments Err {A} e.

(* ===================================================================== *)
(** * The tree model ([jsonfs.go]) *)
(* ===================================================================== *)

Definition time : Type := Z.

(** [time.Time{}]. *)
Definition zeroTime : time := 0.

Inductive FileType := FTNull | FTBool | FTInt | FTFloat | FTString.

(** [File]; [readValue] only serves [Read] and is nil in every File the
    codec builds. *)
Record File := mkFile {
  f_name : string;
  f_modTime : time;
  f_t : FileType;
  f_value : list byte }.

(** [Directory]; the two maps are Go maps keyed by the child's name.  The
    lock [mu] is nil in every Directory the codec builds. *)
Inductive Directory := mkDirectory {
  d_name : string;
  d_modTime : time;
  dirs : gmap string Directory;
  files : gmap string File;
  isArray : bool }.

(** [File{}] and [Directory{}]. *)
Definition zeroFile : File := mkFile EmptyString zeroTime FTNull [].
Definition zeroDirectory : Directory := mkDirectory EmptyString zeroTime ∅ ∅ false.

Definition set_name (n : string) (d : Directory) : Directory :=
  mkDirectory n (d_modTime d) (dirs d) (files d) (isArray d).
Definition set_modTime (t : time) (d : Directory) : Directory :=
  mkDirectory (d_name d) t (dirs d) (files d) (isArray d).
Definition set_dirs (ds : gmap string Directory) (d : Directory) : Directory :=
  mkDirectory (d_name d) (d_modTime d) ds (files d) (isArray d).
Definition set_files (fs : gmap string File) (d : Directory) : Directory :=
  mkDirectory (d_name d) (d_modTime d) (dirs d) fs (isArray d).
Definition set_isArray (a : bool) (d : Directory) : Directory :=
  mkDirectory (d_name d) (d_modTime d) (dirs d) (files d) a.
Definition file_set_name (n : string) (f : File) : File :=
  mkFile n (f_modTime f) (f_t f) (f_value f).

(** [len(d.files)+len(d.dirs)]. *)
Definition Len (d : Directory) : nat := (size (dirs d) + size (files d))%nat.

(** [newDir]: the [modTime] argument is not used by the source. *)
Definition newDir (name : string) (modTime : time) : Directory :=
  mkDirectory name zeroTime ∅ ∅ false.

(** The values a caller can pass as [...any]. *)
Inductive any :=
  | AnyFile (f : File)
  | AnyDirectory (d : Directory)
  | AnyOther.

Fixpoint NewDir_loop (d : Directory) (filesOrDirs : list any) : result Directory :=
  match filesOrDirs with
  | [] => Ok d
  | AnyFile x :: rest =>
    if decide (f_name x = EmptyString) then Err ErrFileNoName
    else NewDir_loop (set_files (<[f_name x := x]> (files d)) d) rest
  | AnyDirectory x :: rest =>
    if decide (d_name x = EmptyString) then Err ErrDirNoName
    else NewDir_loop (set_dirs (<[d_name x := x]> (dirs d)) d) rest
  | AnyOther :: _ => Err ErrUnsupportedType
  end.

(** [NewDir]; [now] is the value of [time.Now()]. *)
Definition NewDir (now : time) (name : string) (filesOrDirs : list any)
  : result Directory :=
  let d := newDir name now in
  let d := set_isArray true d in
  NewDir_loop d filesOrDirs.

Fixpoint NewArray_loop (d : Directory) (i : Z) (filesOrDirs : list any) : result Directory :=
  match filesOrDirs with
  | [] => Ok d
  | AnyDirectory x :: rest =>
    let x := set_name (Itoa i) x in
    NewArray_loop (set_dirs (<[Itoa i := x]> (dirs d)) d) (i + 1) rest
  | AnyFile x :: rest =>
    let x := file_set_name (Itoa i) x in
    NewArray_loop (set_files (<[Itoa i := x]> (files d)) d) (i + 1) rest
  | AnyOther :: _ => Err ErrUnsupportedType
  end.

(** [NewArray]. *)
Definition NewArray (now : time) (name : string) (filesOrDirs : list any)
  : result Directory :=
  let d := newDir name now in
  NewArray_loop d 0 filesOrDirs.

(** [Directory.remove]: the maps of [d] are updated in place, so the
    Directory after the call is returned with the error. *)
Definition remove (d : Directory) (name : string) (children : bool)
  : Directory * option error :=
  match files d !! name with
  | Some _ => (set_files (delete name (files d)) d, None)
  | None =>
    match dirs d !! name with
    | Some _ =>
      if negb (Nat.eqb (size (files d) + size (dirs d)) 0) && negb children
      then (d, Some ErrNotEmpty)
      else (set_dirs (delete name (dirs d)) d, None)
    | None => (d, None)
    end
  end.

Definition Remove (d : Directory) (name : string) := remove d name false.
Definition RemoveAll (d : Directory) (name : string) := remove d name true.

(** ** The encoder *)

(** The writer: the bytes written so far, and the number of [range]
    statements over a map executed so far.  Go leaves the iteration order
    of a map unspecified: the [k]-th [range] statement visits the entries
    in the order [mapOrder k] gives them. *)
Record Out := mkOut { written : list byte; ranged : nat }.

(** [writeOut] for a rune, a string and a byte slice.  The writer is an
    in-memory buffer: [Write] does not fail. *)
Definition writeRune (w : Out) (r : rune) : Out :=
  mkOut (written w ++ [byte_of_rune r]) (ranged w).
Definition writeString (w : Out) (s : string) : Out :=
  mkOut (written w ++ unsafeGetBytes s) (ranged w).
Definition writeBytes (w : Out) (b : list byte) : Out :=
  mkOut (written w ++ b) (ranged w).

(** [File.EncodeJSON]. *)
Definition File_EncodeJSON (f : File) (w : Out) : Out :=
  match f_t f with
  | FTString =>
    let w := writeRune w doubleQuote in
    let w := writeBytes w (f_value f) in
    writeRune w doubleQuote
  | _ => writeBytes w (f_value f)
  end.

Section Encoder.
(** The order in which the [k]-th [range] statement visits the entries
    of its map. *)
Variable mapOrder : nat -> forall A : Type, list A -> list A.

(** [for _, v := range m]: the entries of [m] in the order of this
    visit. *)
Definition rangeMap {V : Type} (w : Out) (m : gmap string V) : list (string * V) * Out :=
  (mapOrder (ranged w) _ (map_to_list m), mkOut (written w) (S (ranged w))).

(** The first loop of [encodeJSONDict]; [n] is [len(d.files)]. *)
Fixpoint encodeDict_files (fl : list (string * File)) (i : Z) (n : Z) (w : Out) : Out :=
  match fl with
  | [] => w
  | (_, file) :: rest =>
    let w := writeRune w doubleQuote in
    let w := writeString w (f_name file) in
    let w := writeRune w doubleQuote in
    let w := writeRune w colon in
    let w := File_EncodeJSON file w in
    let w := if i <? n - 1 then writeRune w comma else w in
    encodeDict_files rest (i + 1) n w
  end.

(** The second loop of [encodeJSONDict]; every entry carries the
    sub-directory and its [EncodeJSON]; [n] is [len(d.dirs)]. *)
Fixpoint encodeDict_dirs (dl : list (string * (Directory * (Out -> Out * option error))))
    (i : Z) (n : Z) (w : Out) : Out * option error :=
  match dl with
  | [] => (w, None)
  | (_, (dir, dir_EncodeJSON)) :: rest =>
    let w := writeRune w doubleQuote in
    let w := writeString w (d_name dir) in
    let w := writeRune w doubleQuote in
    let w := writeRune w colon in
    match dir_EncodeJSON w with
    | (w, Some e) => (w, Some e)
    | (w, None) =>
      let w := if i <? n - 1 then writeRune w comma else w in
      encodeDict_dirs rest (i + 1) n w
    end
  end.

(** [encodeJSONDict]. *)
Definition encodeJSONDict (fs : gmap string File)
    (ds : gmap string (Directory * (Out -> Out * option error))) (w : Out)
  : Out * option error :=
  let w := writeRune w openBrace in
  let filesExist := (0 <? size fs)%nat in
  let dirsExist := (0 <? size ds)%nat in
  let '(fl, w) := rangeMap w fs in
  let w := encodeDict_files fl 0 (Z.of_nat (size fs)) w in
  let w := if filesExist && dirsExist then writeRune w comma else w in
  let '(dl, w) := rangeMap w ds in
  match encodeDict_dirs dl 0 (Z.of_nat (size ds)) w with
  | (w, Some e) => (w, Some e)
  | (w, None) => (writeRune w closeBrace, None)
  end.

(** The loop of [encodeJSONArray]: [k] iterations remain, [i] is the
    index, [n] is [len(d.files)+len(d.dirs)]. *)
Fixpoint encodeArray_loop (fs : gmap string File)
    (ds : gmap string (Out -> Out * option error))
    (k : nat) (i : Z) (n : Z) (w : Out) : Out * option error :=
  match k with
  | O => (w, None)
  | S k =>
    let index := Itoa i in
    let step :=
      match fs !! index with
      | Some fv => (File_EncodeJSON fv w, None)
      | None =>
        match ds !! index with
        | None => (w, Some (ErrMissingIndex i))
        | Some fd_EncodeJSON => fd_EncodeJSON w
        end
      end in
    match step with
    | (w, Some e) => (w, Some e)
    | (w, None) =>
      let w := if i <? n - 1 then writeRune w comma else w in
      encodeArray_loop fs ds k (i + 1) n w
    end
  end.

(** [encodeJSONArray]. *)
Definition encodeJSONArray (fs : gmap string File)
    (ds : gmap string (Out -> Out * option error)) (w : Out)
  : Out * option error :=
  let w := writeRune w openBracket in
  let n := (size fs + size ds)%nat in
  match encodeArray_loop fs ds n 0 (Z.of_nat n) w with
  | (w, Some e) => (w, Some e)
  | (w, None) => (writeRune w closeBracket, None)
  end.

(** [Directory.EncodeJSON]: the sub-directories are encoded by the same
    method, according to their own [isArray]. *)
Fixpoint EncodeJSON (d : Directory) (w : Out) : Out * option error :=
  if isArray d then
    encodeJSONArray (files d) (EncodeJSON <$> dirs d) w
  else
    encodeJSONDict (files d) ((fun sub => (sub, EncodeJSON sub)) <$> dirs d) w.

(** [MarshalJSON]: the bytes [EncodeJSON] writes into the buffered writer
    [b], which is empty at the start, and the error it returns.  The
    source flushes [b] into [w] only when [EncodeJSON] returns no error;
    on an error it returns before [Flush], and the bytes stay in [b]. *)
Definition MarshalJSON (d : Directory) : list byte * option error :=
  let '(w, e) := EncodeJSON d (mkOut [] 0%nat) in (written w, e).
End Encoder.

(* ===================================================================== *)
(** * [bufio.Reader] over a finite source *)
(* ===================================================================== *)

(** The bytes not read yet, and the bytes of the last rune when the last
    operation was a successful [ReadRune] ([lastRuneSize >= 0]). *)
Record Reader := mkReader { unread : list byte; lastRune : option (list byte) }.

Definition NewReader (src : list byte) : Reader := mkReader src None.

(** [ReadRune]; the callers drop the size. *)
Definition ReadRune (b : Reader) : result rune * Reader :=
  match unread b with
  | [] => (Err EOF, mkReader [] None)
  | c :: _ =>
    let '(r, size) :=
      if rune_of_byte c <? 128 then (rune_of_byte c, 1%nat)
      else DecodeRune (unread b) in
    (Ok r, mkReader (drop size (unread b)) (Some (take size (unread b))))
  end.

(** [UnreadRune]; its error, when the last operation was not a successful
    [ReadRune], is dropped by every caller. *)
Definition UnreadRune (b : Reader) : Reader :=
  match lastRune b with
  | None => b
  | Some bs => mkReader (bs ++ unread b) None
  end.

(** [Peek(1)]. *)
Definition Peek1 (b : Reader) : result byte * Reader :=
  match unread b with
  | [] => (Err EOF, mkReader [] None)
  | c :: _ => (Ok c, mkReader (unread b) None)
  end.

(** The bytes up to and including the first [delim], and the rest. *)
Fixpoint split_delim (delim : byte) (l : list byte) : option (list byte * list byte) :=
  match l with
  | [] => None
  | c :: l' =>
    if Ascii.eqb c delim then Some ([c], l')
    else match split_delim delim l' with
         | Some (s, r) => Some (c :: s, r)
         | None => None
         end
  end.

(** [ReadBytes(delim)]. *)
Definition ReadBytes (b : Reader) (delim : byte) : result (list byte) * Reader :=
  match split_delim delim (unread b) with
  | Some (s, r) => (Ok s, mkReader r None)
  | None => (Err EOF, mkReader [] None)
  end.

(** [io.ReadFull(b, buff)] for a buffer of [n > 0] bytes. *)
Definition ReadFull (b : Reader) (n : nat) : result (list byte) * Reader :=
  if (n <=? length (unread b))%nat then
    (Ok (take n (unread b)), mkReader (drop n (unread b)) None)
  else
    (Err (match unread b with [] => EOF | _ => ErrUnexpectedEOF end),
     mkReader [] None).

(** [time.Now()]: the clock answers the [k]-th call with [now_at k]. *)
Record Clock := mkClock { now_at : nat -> time; asked : nat }.
Definition timeNow (c : Clock) : time * Clock :=
  (now_at c (asked c), mkClock (now_at c) (S (asked c))).

(* ===================================================================== *)
(** * The scalar codec *)
(* ===================================================================== *)

(** [skipSpace]; the loop reads at most one rune per unread byte and then
    meets the end of the input. *)
Fixpoint skipSpace_loop (fuel : nat) (b : Reader) : Reader :=
  match fuel with
  | O => b
  | S fuel =>
    match ReadRune b with
    | (Err _, b) => UnreadRune b
    | (Ok r, b) => if IsSpace r then skipSpace_loop fuel b else UnreadRune b
    end
  end.
Definition skipSpace (b : Reader) : Reader :=
  skipSpace_loop (S (length (unread b))) b.

(** [valueCheck]. *)
Definition valueCheck (b : Reader) : result next * Reader :=
  let b := skipSpace b in
  match Peek1 b with
  | (Err e, b) => (Err e, b)
  | (Ok x, b) =>
    let r := rune_of_byte x in
    if r =? openBrace then (Ok msgNext, b)
    else if r =? openBracket then (Ok arrayNext, b)
    else if r =? doubleQuote then (Ok stringNext, b)
    else if IsNumber r then (Ok numNext, b)
    else if r =? 116 then (Ok trueNext, b)
    else if r =? 102 then (Ok falseNext, b)
    else if r =? 110 then (Ok nullNext, b)
    else (Err (ErrUnexpectedValue r), b)
  end.

(** The loop of [isQuote], from index [length-2] down to [0]: [bs] holds
    the bytes in the order the loop visits them. *)
Fixpoint isQuote_loop (bs : list byte) (itIs : bool) : bool :=
  match bs with
  | [] => itIs
  | c :: bs' =>
    if rune_of_byte c =? backslash then isQuote_loop bs' (negb itIs)
    else itIs
  end.

(** [isQuote]. *)
Definition isQuote (b : list byte) : bool :=
  match b with
  | [] => false
  | [_] => true
  | [c0; _] => if rune_of_byte c0 =? backslash then false else true
  | _ => isQuote_loop (rev (take (length b - 1) b)) true
  end.

(** [getString]; every recursive call has read at least the quote that
    ended the previous segment. *)
Fixpoint getString_rec (fuel : nat) (b : Reader) (deleteFirst : bool)
  : result (list byte) * Reader :=
  match fuel with
  | O => (Err ErrFuel, b)
  | S fuel =>
    let first := if deleteFirst then ReadRune b else (Ok 0, b) in
    match first with
    | (Err e, b) => (Err e, b)
    | (Ok _, b) =>
      match ReadBytes b (byte_of_rune doubleQuote) with
      | (Err e, b) => (Err (ErrStringNoQuote e), b)
      | (Ok s, b) =>
        if negb (isQuote s) then
          match getString_rec fuel b false with
          | (Err e, b) => (Err e, b)
          | (Ok buff, b) => (Ok (s ++ buff), b)
          end
        else (Ok (take (length s - 1) s), b)
      end
    end
  end.
Definition getString (b : Reader) (deleteFirst : bool) : result (list byte) * Reader :=
  getString_rec (S (length (unread b))) b deleteFirst.

(** [decodeString]. *)
Definition decodeString (b : Reader) (name : string) (modTime : time)
  : result File * Reader :=
  match getString b true with
  | (Err e, b) => (Err e, b)
  | (Ok s, b) => (Ok (mkFile name modTime FTString s), b)
  end.

(** [decodeBool]. *)
Definition decodeBool (b : Reader) (name : string) (hint : next) (modTime : time)
  : result File * Reader :=
  let n := match hint with trueNext => 4%nat | _ => 5%nat end in
  match ReadFull b n with
  | (Err e, b) => (Err (ErrDecodingBool e), b)
  | (Ok buff, b) =>
    let s := ByteSlice2String buff in
    if String.eqb s "false" then (Ok (mkFile name modTime FTBool buff), b)
    else if String.eqb s "true" then (Ok (mkFile name modTime FTBool buff), b)
    else (Err (ErrExpectedBool s), b)
  end.

(** [decodeNull]. *)
Definition decodeNull (b : Reader) (name : string) (modTime : time)
  : result File * Reader :=
  match ReadFull b 4 with
  | (Err e, b) => (Err (ErrDecodingNull e), b)
  | (Ok buff, b) =>
    if negb (String.eqb (ByteSlice2String buff) "null")
    then (Err (ErrExpectedNull (ByteSlice2String buff)), b)
    else (Ok (mkFile name modTime FTNull buff), b)
  end.

(** The loop of [decodeNumber]: the bytes appended so far and the [float]
    flag. *)
Fixpoint decodeNumber_loop (fuel : nat) (b : Reader) (buff : list byte) (float : bool)
  : result (list byte * bool) * Reader :=
  match fuel with
  | O => (Err ErrFuel, b)
  | S fuel =>
    match ReadRune b with
    | (Err e, b) => (Err e, b)
    | (Ok r, b) =>
      if negb (IsNumber r) then
        if negb (r =? dot) then (Ok (buff, float), UnreadRune b)
        else decodeNumber_loop fuel b (buff ++ [byte_of_rune r]) true
      else decodeNumber_loop fuel b (buff ++ [byte_of_rune r]) float
    end
  end.

(** [decodeNumber]. *)
Definition decodeNumber (b : Reader) (name : string) (modTime : time)
  : result File * Reader :=
  match decodeNumber_loop (S (length (unread b))) b [] false with
  | (Err e, b) => (Err e, b)
  | (Ok (buff, float), b) =>
    if (length buff =? 0)%nat then (Err ErrNoNumber, b)
    else (Ok (mkFile name modTime (if float then FTFloat else FTInt) buff), b)
  end.

(** [duplicateField]. *)
Definition duplicateField (dir : Directory) (name : string) : option error :=
  match dirs dir !! name with
  | Some _ => Some (ErrDuplicateField name)
  | None =>
    match files dir !! name with
    | Some _ => Some (ErrDuplicateField name)
    | None => None
    end
  end.

(* ===================================================================== *)
(** * The decoder state machines *)
(* ===================================================================== *)

(** What the machines share: the reader [b] they all point to, and the
    clock. *)
Record World := mkWorld { w_b : Reader; w_clock : Clock }.

Definition with_b (b : Reader) (w : World) : World := mkWorld b (w_clock w).

(** [dictSM] without its pointer to the reader. *)
Record dictSM := mkDictSM {
  dm_dir : Directory;
  dm_modTime : time;
  dm_valueName : string;
  dm_err : option error }.

(** [arraySM] without its pointer to the reader. *)
Record arraySM := mkArraySM {
  am_dir : Directory;
  am_modTime : time;
  am_item : Z;
  am_err : option error }.

Definition dm_set_err (e : error) (m : dictSM) : dictSM :=
  mkDictSM (dm_dir m) (dm_modTime m) (dm_valueName m) (Some e).
Definition dm_set_dir (d : Directory) (m : dictSM) : dictSM :=
  mkDictSM d (dm_modTime m) (dm_valueName m) (dm_err m).
Definition dm_set_valueName (s : string) (m : dictSM) : dictSM :=
  mkDictSM (dm_dir m) (dm_modTime m) s (dm_err m).
Definition am_set_err (e : error) (m : arraySM) : arraySM :=
  mkArraySM (am_dir m) (am_modTime m) (am_item m) (Some e).
Definition am_set_dir (d : Directory) (m : arraySM) : arraySM :=
  mkArraySM d (am_modTime m) (am_item m) (am_err m).

(** [m.dir.dirs[x.name] = x] and [m.dir.files[name] = o]. *)
Definition put_dir (x : Directory) (d : Directory) : Directory :=
  set_dirs (<[d_name x := x]> (dirs d)) d.
Definition put_file (name : string) (o : File) (d : Directory) : Directory :=
  set_files (<[name := o]> (files d)) d.

(** [dictSM.reset] on a machine taken from [dictPool]: [modTime] keeps the
    value the pooled machine had ([start] overwrites it). *)
Definition dictSM_reset (dirName : string) : dictSM :=
  mkDictSM (newDir dirName zeroTime) zeroTime EmptyString None.

(** [arraySM.reset]. *)
Definition arraySM_reset (name : string) (modTime : time) : arraySM :=
  mkArraySM (set_isArray true (newDir name modTime)) modTime 0 None.

(** The state functions of [dictSM] and of [arraySM]; [None] stands for the
    nil [stateFn] that stops [runSM]. *)
Inductive dictState :=
  | dict_start | dict_openBrace | dict_parseKey | dict_colon
  | dict_valueCheck | dict_commaClose | dict_braceClose | dict_comma.

Inductive arrayState :=
  | array_start | array_openBracket | array_valueCheck
  | array_commaClose | array_close | array_comma.

(** [dictSM.start]. *)
Definition dictSM_start (m : dictSM) (w : World) : option dictState * dictSM * World :=
  let '(t, c) := timeNow (w_clock w) in
  let m := mkDictSM (set_modTime t (dm_dir m)) t (dm_valueName m) (dm_err m) in
  (Some dict_openBrace, m, mkWorld (w_b w) c).

(** [dictSM.openBrace]. *)
Definition dictSM_openBrace (m : dictSM) (w : World) : option dictState * dictSM * World :=
  let b := skipSpace (w_b w) in
  match ReadRune b with
  | (Err e, b) =>
    match e with
    | EOF => (None, m, with_b b w)
    | _ => (None, dm_set_err e m, with_b b w)
    end
  | (Ok r, b) =>
    if negb (r =? openBrace) then (None, dm_set_err ErrObjectStart m, with_b b w)
    else
      match Peek1 b with
      | (Err e, b) => (None, dm_set_err e m, with_b b w)
      | (Ok x, b) =>
        if rune_of_byte x =? closeBrace then (None, m, with_b (snd (ReadRune b)) w)
        else (Some dict_parseKey, m, with_b b w)
      end
  end.

(** [dictSM.parseKey]. *)
Definition dictSM_parseKey (m : dictSM) (w : World) : option dictState * dictSM * World :=
  let b := skipSpace (w_b w) in
  match ReadRune b with
  | (Err e, b) => (None, dm_set_err e m, with_b b w)
  | (Ok r, b) =>
    if negb (r =? doubleQuote) then (None, dm_set_err (ErrKeyQuote r) m, with_b b w)
    else
      let b := UnreadRune b in
      match getString b true with
      | (Err e, b) => (None, dm_set_err e m, with_b b w)
      | (Ok s, b) => (Some dict_colon, dm_set_valueName (ByteSlice2String s) m, with_b b w)
      end
  end.

(** [dictSM.colon]. *)
Definition dictSM_colon (m : dictSM) (w : World) : option dictState * dictSM * World :=
  let b := skipSpace (w_b w) in
  match ReadRune b with
  | (Err e, b) => (None, dm_set_err e m, with_b b w)
  | (Ok r, b) =>
    if negb (r =? colon) then (None, dm_set_err (ErrColon r) m, with_b b w)
    else (Some dict_valueCheck, m, with_b b w)
  end.

(** A scalar case of [dictSM.valueCheck]. *)
Definition dictSM_store (decoded : result File * Reader) (m : dictSM) (w : World)
  : option dictState * dictSM * World :=
  match decoded with
  | (Err e, b) => (None, dm_set_err e m, with_b b w)
  | (Ok o, b) =>
    (Some dict_commaClose, dm_set_dir (put_file (dm_valueName m) o (dm_dir m)) m, with_b b w)
  end.

(** [dictSM.valueCheck]; [runDict name] and [runArray name modTime] reset a
    machine of [dictPool], of [arrayPool], and run it from its [start] on
    the shared reader. *)
Definition dictSM_valueCheck
    (runDict : string -> World -> dictSM * World)
    (runArray : string -> time -> World -> arraySM * World)
    (m : dictSM) (w : World) : option dictState * dictSM * World :=
  let b := skipSpace (w_b w) in
  match valueCheck b with
  | (Err e, b) => (None, dm_set_err e m, with_b b w)
  | (Ok nxt, b) =>
    let w := with_b b w in
    match duplicateField (dm_dir m) (dm_valueName m) with
    | Some e => (None, dm_set_err e m, w)
    | None =>
      match nxt with
      | msgNext =>
        let '(nm, w) := runDict (dm_valueName m) w in
        match dm_err nm with
        | Some e => (None, dm_set_err e m, w)
        | None => (Some dict_commaClose, dm_set_dir (put_dir (dm_dir nm) (dm_dir m)) m, w)
        end
      | arrayNext =>
        let '(na, w) := runArray (dm_valueName m) (dm_modTime m) w in
        match am_err na with
        | Some e => (None, dm_set_err e m, w)
        | None => (Some dict_commaClose, dm_set_dir (put_dir (am_dir na) (dm_dir m)) m, w)
        end
      | stringNext =>
        dictSM_store (decodeString (w_b w) (dm_valueName m) (dm_modTime m)) m w
      | trueNext =>
        dictSM_store (decodeBool (w_b w) (dm_valueName m) trueNext (dm_modTime m)) m w
      | falseNext =>
        dictSM_store (decodeBool (w_b w) (dm_valueName m) falseNext (dm_modTime m)) m w
      | numNext =>
        dictSM_store (decodeNumber (w_b w) (dm_valueName m) (dm_modTime m)) m w
      | nullNext =>
        dictSM_store (decodeNull (w_b w) (dm_valueName m) (dm_modTime m)) m w
      | unknownNext => (None, dm_set_err (ErrValueTypeAfterKey nxt) m, w)
      end
    end
  end.

(** [dictSM.commaClose]. *)
Definition dictSM_commaClose (m : dictSM) (w : World) : option dictState * dictSM * World :=
  let b := skipSpace (w_b w) in
  match Peek1 b with
  | (Err _, b) => (None, dm_set_err ErrObjectEOL m, with_b b w)
  | (Ok x, b) =>
    let r := rune_of_byte x in
    if r =? closeBrace then (Some dict_braceClose, m, with_b b w)
    else if r =? comma then (Some dict_comma, m, with_b b w)
    else (None, dm_set_err (ErrCommaOrBrace r) m, with_b b w)
  end.

(** [dictSM.braceClose]. *)
Definition dictSM_braceClose (m : dictSM) (w : World) : option dictState * dictSM * World :=
  match ReadRune (w_b w) with
  | (Err e, b) => (None, dm_set_err e m, with_b b w)
  | (Ok r, b) =>
    if negb (r =? closeBrace) then (None, dm_set_err (ErrCloseBrace r) m, with_b b w)
    else (None, m, with_b b w)
  end.

(** [dictSM.comma]. *)
Definition dictSM_comma (m : dictSM) (w : World) : option dictState * dictSM * World :=
  match ReadRune (w_b w) with
  | (Err e, b) => (None, dm_set_err e m, with_b b w)
  | (Ok r, b) =>
    if negb (r =? comma) then (None, dm_set_err (ErrComma r) m, with_b b w)
    else (Some dict_parseKey, m, with_b b w)
  end.

(** [arraySM.start]. *)
Definition arraySM_start (m : arraySM) (w : World) : option arrayState * arraySM * World :=
  (Some array_openBracket, m, w).

(** [arraySM.openBracket]. *)
Definition arraySM_openBracket (m : arraySM) (w : World) : option arrayState * arraySM * World :=
  let b := skipSpace (w_b w) in
  match ReadRune b with
  | (Err e, b) => (None, am_set_err e m, with_b b w)
  | (Ok r, b) =>
    if negb (r =? openBracket) then (None, am_set_err (ErrOpenBracket r) m, with_b b w)
    else
      match Peek1 b with
      | (Err e, b) => (None, am_set_err e m, with_b b w)
      | (Ok x, b) =>
        if rune_of_byte x =? closeBracket then (None, m, with_b (snd (ReadRune b)) w)
        else (Some array_valueCheck, m, with_b b w)
      end
  end.

(** A scalar case of [arraySM.valueCheck]. *)
Definition arraySM_store (valueName : string) (decoded : result File * Reader)
    (m : arraySM) (w : World) : option arrayState * arraySM * World :=
  match decoded with
  | (Err e, b) => (None, am_set_err e m, with_b b w)
  | (Ok o, b) =>
    (Some array_commaClose, am_set_dir (put_file valueName o (am_dir m)) m, with_b b w)
  end.

(** The body of [arraySM.valueCheck], before the deferred [m.item++]. *)
Definition arraySM_valueCheck_body
    (runDict : string -> World -> dictSM * World)
    (runArray : string -> time -> World -> arraySM * World)
    (m : arraySM) (w : World) : option arrayState * arraySM * World :=
  let b := skipSpace (w_b w) in
  match valueCheck b with
  | (Err e, b) => (None, am_set_err e m, with_b b w)
  | (Ok nxt, b) =>
    let w := with_b b w in
    let valueName := Itoa (am_item m) in
    match nxt with
    | msgNext =>
      let '(nm, w) := runDict (Itoa (am_item m)) w in
      match dm_err nm with
      | Some e => (None, am_set_err e m, w)
      | None => (Some array_commaClose, am_set_dir (put_dir (dm_dir nm) (am_dir m)) m, w)
      end
    | arrayNext =>
      let '(na, w) := runArray (Itoa (am_item m)) (am_modTime m) w in
      match am_err na with
      | Some e => (None, am_set_err e m, w)
      | None => (Some array_commaClose, am_set_dir (put_dir (am_dir na) (am_dir m)) m, w)
      end
    | stringNext =>
      arraySM_store valueName (decodeString (w_b w) valueName (am_modTime m)) m w
    | trueNext =>
      arraySM_store valueName (decodeBool (w_b w) valueName trueNext (am_modTime m)) m w
    | falseNext =>
      arraySM_store valueName (decodeBool (w_b w) valueName falseNext (am_modTime m)) m w
    | numNext =>
      arraySM_store valueName (decodeNumber (w_b w) valueName (am_modTime m)) m w
    | nullNext =>
      arraySM_store valueName (decodeNull (w_b w) valueName (am_modTime m)) m w
    | unknownNext => (None, am_set_err (ErrArrayValueType nxt) m, w)
    end
  end.

(** [arraySM.valueCheck]: [defer func() { m.item++ }()] runs on every
    return. *)
Definition arraySM_valueCheck
    (runDict : string -> World -> dictSM * World)
    (runArray : string -> time -> World -> arraySM * World)
    (m : arraySM) (w : World) : option arrayState * arraySM * World :=
  let '(fn, m, w) := arraySM_valueCheck_body runDict runArray m w in
  (fn, mkArraySM (am_dir m) (am_modTime m) (wrap_int (am_item m + 1)) (am_err m), w).

(** [arraySM.commaClose]. *)
Definition arraySM_commaClose (m : arraySM) (w : World) : option arrayState * arraySM * World :=
  let b := skipSpace (w_b w) in
  match Peek1 b with
  | (Err _, b) => (None, am_set_err ErrArrayEOL m, with_b b w)
  | (Ok x, b) =>
    let r := rune_of_byte x in
    if r =? closeBracket then (Some array_close, m, with_b b w)
    else if r =? comma then (Some array_comma, m, with_b b w)
    else (None, am_set_err (ErrCommaOrBracket r) m, with_b b w)
  end.

(** [arraySM.close]. *)
Definition arraySM_close (m : arraySM) (w : World) : option arrayState * arraySM * World :=
  match ReadRune (w_b w) with
  | (Err e, b) => (None, am_set_err e m, with_b b w)
  | (Ok r, b) =>
    if negb (r =? closeBracket) then (None, am_set_err (ErrCloseBracket r) m, with_b b w)
    else (None, m, with_b b w)
  end.

(** [arraySM.comma]. *)
Definition arraySM_comma (m : arraySM) (w : World) : option arrayState * arraySM * World :=
  match ReadRune (w_b w) with
  | (Err e, b) => (None, am_set_err e m, with_b b w)
  | (Ok r, b) =>
    if negb (r =? comma) then (None, am_set_err (ErrComma r) m, with_b b w)
    else (Some array_valueCheck, m, with_b b w)
  end.

(** Calling the current state function. *)
Definition dictSM_call
    (runDict : string -> World -> dictSM * World)
    (runArray : string -> time -> World -> arraySM * World)
    (current : dictState) : dictSM -> World -> option dictState * dictSM * World :=
  match current with
  | dict_start => dictSM_start
  | dict_openBrace => dictSM_openBrace
  | dict_parseKey => dictSM_parseKey
  | dict_colon => dictSM_colon
  | dict_valueCheck => dictSM_valueCheck runDict runArray
  | dict_commaClose => dictSM_commaClose
  | dict_braceClose => dictSM_braceClose
  | dict_comma => dictSM_comma
  end.

Definition arraySM_call
    (runDict : string -> World -> dictSM * World)
    (runArray : string -> time -> World -> arraySM * World)
    (current : arrayState) : arraySM -> World -> option arrayState * arraySM * World :=
  match current with
  | array_start => arraySM_start
  | array_openBracket => arraySM_openBracket
  | array_valueCheck => arraySM_valueCheck runDict runArray
  | array_commaClose => arraySM_commaClose
  | array_close => arraySM_close
  | array_comma => arraySM_comma
  end.

(** [runSM] on a [dictSM] and on an [arraySM].  [fuel] bounds the number of
    state functions called, the nested machines included; a run that
    reaches the bound stops with [ErrFuel]. *)
Fixpoint runSM_dict (fuel : nat) (current : dictState) (m : dictSM) (w : World)
    {struct fuel} : dictSM * World :=
  match fuel with
  | O => (dm_set_err ErrFuel m, w)
  | S fuel =>
    let '(fn, m, w) :=
      dictSM_call
        (fun name w => runSM_dict fuel dict_start (dictSM_reset name) w)
        (fun name modTime w => runSM_array fuel array_start (arraySM_reset name modTime) w)
        current m w in
    match fn with
    | None => (m, w)
    | Some fn => runSM_dict fuel fn m w
    end
  end
with runSM_array (fuel : nat) (current : arrayState) (m : arraySM) (w : World)
    {struct fuel} : arraySM * World :=
  match fuel with
  | O => (am_set_err ErrFuel m, w)
  | S fuel =>
    let '(fn, m, w) :=
      arraySM_call
        (fun name w => runSM_dict fuel dict_start (dictSM_reset name) w)
        (fun name modTime w => runSM_array fuel array_start (arraySM_reset name modTime) w)
        current m w in
    match fn with
    | None => (m, w)
    | Some fn => runSM_array fuel fn m w
    end
  end.

(** A bound on the state functions a decode calls: no more than four per
    unread byte. *)
Definition decodeFuel (b : Reader) : nat := (4 * length (unread b) + 8)%nat.

(** [UnmarshalJSON] on the buffered reader of [w]. *)
Definition UnmarshalJSON (w : World) : result Directory * World :=
  let '(m, w) := runSM_dict (decodeFuel (w_b w)) dict_start (dictSM_reset EmptyString) w in
  match dm_err m with
  | Some e => (Err e, w)
  | None => (Ok (dm_dir m), w)
  end.

(** [Stream]. *)
Record Stream := mkStream { s_Dir : Directory; s_Err : option error }.

(** The loop of the goroutine of [UnmarshalStream]: the values sent on the
    channel before it is closed. *)
Fixpoint UnmarshalStream_loop (fuel : nat) (w : World) : list Stream * World :=
  match fuel with
  | O => ([mkStream zeroDirectory (Some ErrFuel)], w)
  | S fuel =>
    match UnmarshalJSON w with
    | (Err e, w) => ([mkStream zeroDirectory (Some e)], w)
    | (Ok dir, w) =>
      if String.eqb (d_name dir) EmptyString && (size (files dir) + size (dirs dir) =? 0)%nat
      then ([], w)
      else
        let '(rest, w) := UnmarshalStream_loop fuel w in
        (mkStream dir None :: rest, w)
    end
  end.

(** [UnmarshalStream]: every non-final round of the loop reads at least one
    byte. *)
Definition UnmarshalStream (w : World) : list Stream * World :=
  UnmarshalStream_loop (S (length (unread (w_b w)))) w.

(* ===================================================================== *)
(** * Test inputs *)
(* ===================================================================== *)

(** The bytes of a literal in which an apostrophe stands for a double
    quote. *)
Definition bytes (s : string) : list byte :=
  map (fun c => if Ascii.eqb c "'"%char then "034"%char else c) (list_ascii_of_string s).

(** A clock that answers the [k]-th call with [1000 + k]. *)
Definition testClock : Clock := mkClock (fun k => 1000 + Z.of_nat k) 0.

Definition world_of (src : list byte) : World := mkWorld (NewReader src) testClock.

(* ===================================================================== *)
(** * Vocabulary of the statements *)
(* ===================================================================== *)

(** ** Strings *)

(** The number of backslash bytes at the head of [l], and at the end of
    [pre]. *)
Fixpoint leading_backslashes (l : list byte) : nat :=
  match l with
  | c :: l' => if rune_of_byte c =? backslash then S (leading_backslashes l') else O
  | [] => O
  end.

Definition trailing_backslashes (pre : list byte) : nat :=
  leading_backslashes (rev pre).

Definition quoteByte : byte := byte_of_rune doubleQuote.

(** ** White space *)

(** [only_space src]: [src] is a sequence of white-space runes. *)
Inductive only_space : list byte -> Prop :=
  | only_space_nil : only_space []
  | only_space_rune src r n :
      src <> [] -> DecodeRune src = (r, n) -> IsSpace r = true ->
      only_space (drop n src) -> only_space src.

(** [first_rune src r]: [r] is the first rune of [src] that is not white
    space. *)
Inductive first_rune : list byte -> rune -> Prop :=
  | first_rune_here src r n :
      src <> [] -> DecodeRune src = (r, n) -> IsSpace r = false ->
      first_rune src r
  | first_rune_skip src r n r' :
      src <> [] -> DecodeRune src = (r, n) -> IsSpace r = true ->
      first_rune (drop n src) r' -> first_rune src r'.

(** ** Trees *)

(** [in_tree x d]: [x] is [d] or a Directory below it. *)
Inductive in_tree (x : Directory) : Directory -> Prop :=
  | in_tree_here : in_tree x x
  | in_tree_below d k sub :
      dirs d !! k = Some sub -> in_tree x sub -> in_tree x d.

(** No name denotes both a File and a sub-directory of [d].  (Two Files, or
    two sub-directories, of one name cannot be held by the maps.) *)
Definition unique_names (d : Directory) : Prop :=
  forall k, files d !! k = None \/ dirs d !! k = None.

(** The children of [d] are named by the decimal strings of
    [0 .. Len d - 1]. *)
Definition contiguous_names (d : Directory) : Prop :=
  forall k, (is_Some (files d !! k) \/ is_Some (dirs d !! k)) <->
            exists i, 0 <= i < Z.of_nat (Len d) /\ k = Itoa i.

(** The Directory without its modification times, at every level. *)
Definition untimed_file (f : File) : File :=
  mkFile (f_name f) zeroTime (f_t f) (f_value f).

Fixpoint untimed (d : Directory) : Directory :=
  mkDirectory (d_name d) zeroTime (untimed <$> dirs d) (untimed_file <$> files d)
              (isArray d).

(** The Directory of a machine that met the end of the input where the
    object was to start. *)
Definition emptyDirectory (t : time) : Directory :=
  mkDirectory EmptyString t ∅ ∅ false.

(** An input fits Go's [int] when its length does. *)
Definition fits_int (src : list byte) : Prop := Z.of_nat (length src) < 2 ^ 63.

(** ** Test values *)

Definition file_a1 : File := mkFile "a" 7 FTInt (bytes "1").

(** What is shown of a [Stream] value: the name and the Files of its
    Directory, and its error. *)
Definition stream_view (s : Stream) : string * list (string * File) * option error :=
  (d_name (s_Dir s), map_to_list (files (s_Dir s)), s_Err s).

(** ** Measures of a run *)

(** The number of unread bytes. *)
Definition rlen (b : Reader) : nat := length (unread b).
Definition wlen (w : World) : nat := rlen (w_b w).

(** What a state still costs besides four calls per unread byte. *)
Definition dict_weight (st : dictState) : nat :=
  match st with
  | dict_start => 2 | dict_openBrace => 1 | dict_parseKey => 4 | dict_colon => 3
  | dict_valueCheck => 6 | dict_commaClose => 2 | dict_braceClose => 1
  | dict_comma => 1
  end.

Definition array_weight (st : arrayState) : nat :=
  match st with
  | array_start => 4 | array_openBracket => 3 | array_valueCheck => 6
  | array_commaClose => 4 | array_close => 1 | array_comma => 3
  end.

(** ** JSON documents in the syntax the decoder reads *)

Definition commaByte : byte := byte_of_rune comma.
Definition colonByte : byte := byte_of_rune colon.
Definition openBraceByte : byte := byte_of_rune openBrace.
Definition closeBraceByte : byte := byte_of_rune closeBrace.
Definition openBracketByte : byte := byte_of_rune openBracket.
Definition closeBracketByte : byte := byte_of_rune closeBracket.

(** A document: a scalar with its kind and raw text, an object with its
    members in the order of the text (a key may occur twice), or an
    array. *)
Inductive jvalue :=
  | JScalar (t : FileType) (raw : list byte)
  | JObject (members : list (string * jvalue))
  | JArray (items : list jvalue).

Definition quoted (raw : list byte) : list byte := quoteByte :: raw ++ [quoteByte].

(** The texts [ts] with a comma between two of them, then [closing]. *)
Fixpoint join_close (ts : list (list byte)) (closing : byte) : list byte :=
  match ts with
  | [] => [closing]
  | t :: ts' =>
    t ++ match ts' with
         | [] => [closing]
         | _ => commaByte :: join_close ts' closing
         end
  end.

(** The text of a document, without white space. *)
Fixpoint print (j : jvalue) : list byte :=
  match j with
  | JScalar FTString raw => quoted raw
  | JScalar _ raw => raw
  | JObject ms =>
    openBraceByte ::
    join_close (map (fun kv => quoted (unsafeGetBytes (fst kv)) ++ colonByte :: print (snd kv)) ms)
               closeBraceByte
  | JArray vs => openBracketByte :: join_close (map print vs) closeBracketByte
  end.

(** The content of a string: a quote stands only after an odd number of
    backslashes, and the content does not end in an odd number of them.
    [esc] says that an odd number of backslashes has just been read. *)
Fixpoint escaped_from (esc : bool) (raw : list byte) : bool :=
  match raw with
  | [] => negb esc
  | c :: raw' =>
    if rune_of_byte c =? backslash then escaped_from (negb esc) raw'
    else if rune_of_byte c =? doubleQuote then esc && escaped_from false raw'
    else escaped_from false raw'
  end.
Definition escaped_ok (raw : list byte) : bool := escaped_from false raw.

Definition is_digit (c : byte) : bool :=
  (48 <=? rune_of_byte c) && (rune_of_byte c <=? 57).
Definition is_dot (c : byte) : bool := rune_of_byte c =? dot.

(** The text of a number: digits and dots, a digit first. *)
Definition number_ok (raw : list byte) : bool :=
  match raw with
  | [] => false
  | c :: _ => is_digit c && forallb (fun c => is_digit c || is_dot c) raw
  end.
Definition has_dot (raw : list byte) : bool := existsb is_dot raw.

(** The raw text of a scalar agrees with its kind. *)
Definition scalar_ok (t : FileType) (raw : list byte) : bool :=
  match t with
  | FTString => escaped_ok raw
  | FTBool => bool_decide (raw = bytes "true") || bool_decide (raw = bytes "false")
  | FTNull => bool_decide (raw = bytes "null")
  | FTInt => number_ok raw && negb (has_dot raw)
  | FTFloat => number_ok raw && has_dot raw
  end.

(** Every scalar agrees with its kind, every key is the content of a
    string, and the length of every array fits an [int]. *)
Fixpoint wf_value (j : jvalue) : bool :=
  match j with
  | JScalar t raw => scalar_ok t raw
  | JObject ms =>
    forallb (fun kv => escaped_ok (unsafeGetBytes (fst kv)) && wf_value (snd kv)) ms
  | JArray vs => forallb wf_value vs && (Z.of_nat (length vs) <? 2 ^ 63)
  end.

(** Some object of the document, at any depth, has two members of one
    key. *)
Inductive has_duplicate_key : jvalue -> Prop :=
  | duplicate_here ms : ~ NoDup (map fst ms) -> has_duplicate_key (JObject ms)
  | duplicate_in_member ms k v :
      In (k, v) ms -> has_duplicate_key v -> has_duplicate_key (JObject ms)
  | duplicate_in_item vs v :
      In v vs -> has_duplicate_key v -> has_duplicate_key (JArray vs).

(** The first key the decoder meets for the second time in one object,
    reading the text from left to right; [seen] holds the keys of the
    object read so far. *)
Definition first_dup_members (first_dup : jvalue -> option string) :=
  fix members (seen : list string) (ms : list (string * jvalue)) : option string :=
    match ms with
    | [] => None
    | kv :: ms' =>
      if bool_decide (fst kv ∈ seen) then Some (fst kv)
      else match first_dup (snd kv) with
           | Some k' => Some k'
           | None => members (fst kv :: seen) ms'
           end
    end.

Definition first_dup_items (first_dup : jvalue -> option string) :=
  fix items (vs : list jvalue) : option string :=
    match vs with
    | [] => None
    | v :: vs' =>
      match first_dup v with
      | Some k => Some k
      | None => items vs'
      end
    end.

Fixpoint first_dup (j : jvalue) : option string :=
  match j with
  | JScalar _ _ => None
  | JObject ms => first_dup_members first_dup [] ms
  | JArray vs => first_dup_items first_dup vs
  end.

(** The Directory a document of distinct keys stands for, without
    modification times. *)
Definition build_child (build : string -> jvalue -> Directory)
    (k : string) (v : jvalue) (acc : Directory) : Directory :=
  match v with
  | JScalar t raw => put_file k (mkFile k zeroTime t raw) acc
  | _ => put_dir (build k v) acc
  end.

Definition build_members (build : string -> jvalue -> Directory) :=
  fix members (ms : list (string * jvalue)) (acc : Directory) : Directory :=
    match ms with
    | [] => acc
    | kv :: ms' => members ms' (build_child build (fst kv) (snd kv) acc)
    end.

Definition build_items (build : string -> jvalue -> Directory) :=
  fix items (vs : list jvalue) (i : Z) (acc : Directory) : Directory :=
    match vs with
    | [] => acc
    | v :: vs' => items vs' (i + 1) (build_child build (Itoa i) v acc)
    end.

Fixpoint build (name : string) (j : jvalue) : Directory :=
  match j with
  | JScalar _ _ => zeroDirectory
  | JObject ms => build_members build ms (mkDirectory name zeroTime ∅ ∅ false)
  | JArray vs => build_items build vs 0 (mkDirectory name zeroTime ∅ ∅ true)
  end.

(** The state [escaped_from] is in after the bytes [seg]. *)
Fixpoint esc_after (esc : bool) (seg : list byte) : bool :=
  match seg with
  | [] => esc
  | c :: seg' => esc_after (if rune_of_byte c =? backslash then negb esc else false) seg'
  end.

Definition noquote (seg : list byte) : bool :=
  forallb (fun c => negb (Ascii.eqb c quoteByte)) seg.

(** An ASCII byte that is neither white space nor part of a number: the
    bytes that may follow a value. *)
Definition is_terminator (c : byte) : bool :=
  (rune_of_byte c <? 128) && negb (IsSpace (rune_of_byte c))
  && negb (IsNumber (rune_of_byte c)) && negb (rune_of_byte c =? dot).

(** ** What the decoder does on the text of a document *)

(** The nested runs a machine starts when [fuel] calls remain. *)
Definition nestedDict (fuel : nat) : string -> World -> dictSM * World :=
  fun name w => runSM_dict fuel dict_start (dictSM_reset name) w.
Definition nestedArray (fuel : nat) : string -> time -> World -> arraySM * World :=
  fun name modTime w => runSM_array fuel array_start (arraySM_reset name modTime) w.

(** The kind [valueCheck] announces for a scalar. *)
Definition kind_of (t : FileType) (raw : list byte) : next :=
  match t with
  | FTString => stringNext
  | FTBool => if bool_decide (raw = bytes "true") then trueNext else falseNext
  | FTNull => nullNext
  | FTInt | FTFloat => numNext
  end.

(** [dictSM.valueCheck] on the text of [j], for a key that is new: the
    machine stops with the duplicate-key error when [j] repeats a key, and
    stores the child [j] stands for otherwise. *)
Definition value_in_dict (j : jvalue) : Prop :=
  exists N, forall fuel m term rest lr c,
    (N <= fuel)%nat -> is_terminator term = true ->
    duplicateField (dm_dir m) (dm_valueName m) = None ->
    exists fn m' w',
      dictSM_valueCheck (nestedDict fuel) (nestedArray fuel) m
        (mkWorld (mkReader (print j ++ term :: rest) lr) c) = (fn, m', w') /\
      match first_dup j with
      | Some k => fn = None /\ dm_err m' = Some (ErrDuplicateField k)
      | None =>
        fn = Some dict_commaClose /\ dm_err m' = dm_err m /\
        untimed (dm_dir m') =
          build_child build (dm_valueName m) j (untimed (dm_dir m)) /\
        unread (w_b w') = term :: rest
      end.

(** [arraySM.valueCheck] on the text of [j]. *)
Definition value_in_array (j : jvalue) : Prop :=
  exists N, forall fuel m term rest lr c,
    (N <= fuel)%nat -> is_terminator term = true ->
    exists fn m' w',
      arraySM_valueCheck (nestedDict fuel) (nestedArray fuel) m
        (mkWorld (mkReader (print j ++ term :: rest) lr) c) = (fn, m', w') /\
      am_item m' = wrap_int (am_item m + 1) /\
      match first_dup j with
      | Some k => fn = None /\ am_err m' = Some (ErrDuplicateField k)
      | None =>
        fn = Some array_commaClose /\ am_err m' = am_err m /\
        untimed (am_dir m') =
          build_child build (Itoa (am_item m)) j (untimed (am_dir m)) /\
        unread (w_b w') = term :: rest
      end.

(** A fresh [dictSM] on the text of the object [j]. *)
Definition object_run (j : jvalue) : Prop :=
  exists N, forall fuel name rest lr c,
    (N <= fuel)%nat ->
    exists m' w',
      nestedDict fuel name (mkWorld (mkReader (print j ++ rest) lr) c) = (m', w') /\
      match first_dup j with
      | Some k => dm_err m' = Some (ErrDuplicateField k)
      | None =>
        dm_err m' = None /\ untimed (dm_dir m') = build name j /\
        unread (w_b w') = rest
      end.

(** A fresh [arraySM] on the text of the array [j]. *)
Definition array_run (j : jvalue) : Prop :=
  exists N, forall fuel name modTime rest lr c,
    (N <= fuel)%nat ->
    exists m' w',
      nestedArray fuel name modTime (mkWorld (mkReader (print j ++ rest) lr) c) = (m', w') /\
      match first_dup j with
      | Some k => am_err m' = Some (ErrDuplicateField k)
      | None =>
        am_err m' = None /\ untimed (am_dir m') = build name j /\
        unread (w_b w') = rest
      end.

(** The keys [seen] are the names of the children of [d]. *)
Definition seen_in (seen : list string) (d : Directory) : Prop :=
  forall k, k ∈ seen <-> is_Some (files d !! k) \/ is_Some (dirs d !! k).

(** The text of a member of an object. *)
Definition member_text (kv : string * jvalue) : list byte :=
  quoted (unsafeGetBytes (fst kv)) ++ colonByte :: print (snd kv).

(** A member the decoder reads as the document says. *)
Definition member_ok (kv : string * jvalue) : Prop :=
  escaped_ok (unsafeGetBytes (fst kv)) = true /\ wf_value (snd kv) = true /\
  value_in_dict (snd kv).

Definition item_ok (v : jvalue) : Prop :=
  wf_value v = true /\ value_in_array v.

(** An object whose first member holds a negative number, and which names
    [a] twice. *)
Definition negative_then_duplicate : jvalue :=
  JObject [("x"%string, JScalar FTInt (bytes "-1"));
           ("a"%string, JScalar FTInt (bytes "1"));
           ("a"%string, JScalar FTInt (bytes "2"))].

Definition duplicate_a : jvalue :=
  JObject [("a"%string, JScalar FTInt (bytes "1"));
           ("a"%string, JScalar FTInt (bytes "2"))].

(** ** What the decoder builds *)

(** Every child is held under its own name. *)
Definition keyed_by_name (d : Directory) : Prop :=
  (forall k f, files d !! k = Some f -> f_name f = k) /\
  (forall k sub, dirs d !! k = Some sub -> d_name sub = k).

(** The children of [d] are named by the decimal strings of [0 .. n-1]. *)
Definition numbered (n : Z) (d : Directory) : Prop :=
  forall k, (is_Some (files d !! k) \/ is_Some (dirs d !! k)) <->
            exists i, 0 <= i < n /\ k = Itoa i.

(** The raw value of a File that is not a number agrees with its kind. *)
Definition decoded_file (f : File) : Prop :=
  match f_t f with
  | FTInt | FTFloat => True
  | t => scalar_ok t (f_value f) = true
  end.

(** A name that is the content of a string. *)
Definition key_ok (k : string) : Prop := escaped_ok (unsafeGetBytes k) = true.

Definition children_ok (tree_ok : Directory -> Prop) (d : Directory) : Prop :=
  unique_names d /\ keyed_by_name d /\
  (forall k f, files d !! k = Some f -> decoded_file f) /\
  (forall k sub, dirs d !! k = Some sub -> tree_ok sub).

(** The trees the decoder builds from an input of no more than [L]
    bytes. *)
Inductive tree_ok (L : Z) : Directory -> Prop :=
  | tree_ok_object d :
      isArray d = false -> children_ok (tree_ok L) d ->
      (forall k, is_Some (files d !! k) \/ is_Some (dirs d !! k) -> key_ok k) ->
      tree_ok L d
  | tree_ok_array d :
      isArray d = true -> children_ok (tree_ok L) d ->
      numbered (Z.of_nat (Len d)) d -> Z.of_nat (Len d) <= L ->
      tree_ok L d.

(** The invariant of a [dictSM] and of an [arraySM] in the state [st]; the
    states of an [arraySM] after [valueCheck] have counted the item whose
    comma or bracket is still unread. *)
Definition dict_inv (L : Z) (m : dictSM) (w : World) : Prop :=
  dm_err m = None /\ tree_ok L (dm_dir m) /\ isArray (dm_dir m) = false /\
  key_ok (dm_valueName m) /\ Z.of_nat (wlen w) <= L.

Definition array_slack (st : arrayState) : Z :=
  match st with
  | array_commaClose | array_comma | array_close => 1
  | _ => 0
  end.

Definition array_inv (L : Z) (st : arrayState) (m : arraySM) (w : World) : Prop :=
  am_err m = None /\ isArray (am_dir m) = true /\ children_ok (tree_ok L) (am_dir m) /\
  numbered (am_item m) (am_dir m) /\ am_item m = Z.of_nat (Len (am_dir m)) /\
  am_item m + Z.of_nat (wlen w) <= L + array_slack st /\ Z.of_nat (wlen w) <= L.

(** What the machines assume of the nested runs: a run without error on
    no more than [L] unread bytes returns a tree of the decoder under the
    name it was given, and reads forward. *)
Definition nested_dict_ok (L : Z) (runDict : string -> World -> dictSM * World) : Prop :=
  forall name w, Z.of_nat (wlen w) <= L -> dm_err (fst (runDict name w)) = None ->
    tree_ok L (dm_dir (fst (runDict name w))) /\
    d_name (dm_dir (fst (runDict name w))) = name /\
    (wlen (snd (runDict name w)) <= wlen w)%nat.

Definition nested_array_ok (L : Z) (runArray : string -> time -> World -> arraySM * World)
  : Prop :=
  forall name t w, Z.of_nat (wlen w) <= L -> am_err (fst (runArray name t w)) = None ->
    tree_ok L (am_dir (fst (runArray name t w))) /\
    d_name (am_dir (fst (runArray name t w))) = name /\
    (wlen (snd (runArray name t w)) <= wlen w)%nat.

(** The names of the children of [d]: of its Files, then of its
    sub-directories. *)
Definition child_names (d : Directory) : list string :=
  (f_name <$> (map_to_list (files d)).*2) ++ (d_name <$> (map_to_list (dirs d)).*2).

(** The two invariants of the model on one Directory: no two children
    share a name, and the children of an array are named by the decimal
    strings of [0 .. n-1], [n] their number. *)
Definition model_invariants (d : Directory) : Prop :=
  base.NoDup (child_names d) /\
  (isArray d = true ->
   forall s, s ∈ child_names d <-> exists i, 0 <= i < Z.of_nat (Len d) /\ s = Itoa i).

(** ** What the encoder writes *)

(** The texts [ts] with a comma between two of them. *)
Fixpoint join_commas (ts : list (list byte)) : list byte :=
  match ts with
  | [] => []
  | t :: ts' =>
    t ++ match ts' with
         | [] => []
         | _ => commaByte :: join_commas ts'
         end
  end.

(** The document a File stands for, and the member it is in an object. *)
Definition file_value (f : File) : jvalue := JScalar (f_t f) (f_value f).
Definition file_member (kf : string * File) : string * jvalue :=
  (f_name (snd kf), file_value (snd kf)).

Definition is_scalar (j : jvalue) : bool :=
  match j with JScalar _ _ => true | _ => false end.

(** [j] is a document of the syntax the decoder reads, without repeated
    keys, that stands for [sub]. *)
Definition reads_back (sub : Directory) (j : jvalue) : Prop :=
  wf_value j = true /\ first_dup j = None /\
  build (d_name sub) j = untimed sub /\ is_scalar j = false.

(** Every number of the tree is written with digits and dots, starts
    with a digit, and is a Float exactly when it has a dot. *)
Definition plain_numbers (d : Directory) : Prop :=
  forall x k f, in_tree x d -> files x !! k = Some f ->
    f_t f = FTInt \/ f_t f = FTFloat -> scalar_ok (f_t f) (f_value f) = true.

(** An encoder that writes, after what is written, a document that
    stands for [sub]. *)
Definition writes_document (sub : Directory) (enc : Out -> Out * option error) : Prop :=
  forall w, exists j n,
    enc w = (mkOut (written w ++ print j) n, None) /\ reads_back sub j.

(** The members [ms] stand for the children of [d]: one member for every
    child, under the child's name. *)
Definition stands_for (d : Directory) (ms : list (string * jvalue)) : Prop :=
  base.NoDup ms.*1 /\
  (forall k v, (k, v) ∈ ms ->
     (exists f, files d !! k = Some f /\ v = file_value f) \/
     (exists sub, dirs d !! k = Some sub /\ reads_back sub v)) /\
  (forall k, is_Some (files d !! k) \/ is_Some (dirs d !! k) -> k ∈ ms.*1).

(** The items of an array as members under their indices. *)
Definition indexed (i : Z) (vs : list jvalue) : list (string * jvalue) :=
  imap (fun p v => (Itoa (i + Z.of_nat p), v)) vs.

(** [plain_numbers], computed. *)
Definition plain_file (f : File) : bool :=
  match f_t f with
  | FTInt | FTFloat => scalar_ok (f_t f) (f_value f)
  | _ => true
  end.

Fixpoint plain_numbersb (d : Directory) : bool :=
  forallb (fun kf => plain_file (snd kf)) (map_to_list (files d)) &&
  map_fold (fun _ sub acc => plain_numbersb sub && acc) true (dirs d).

(** The order of a Go map iteration that visits the keys in the order of
    [map_to_list]. *)
Definition listOrder : nat -> forall A : Type, list A -> list A := fun _ _ l => l.

(* ===================================================================== *)
(** * Documents with white space *)
(* ===================================================================== *)

(** The white space of JSON: space, tab, line feed, carriage return. *)
Definition json_space (c : byte) : bool :=
  (rune_of_byte c =? 32) || (rune_of_byte c =? 9) || (rune_of_byte c =? 10)
  || (rune_of_byte c =? 13).
Definition blank (ws : list byte) : bool := forallb json_space ws.

(** A member of an object with the white space around its tokens: before
    the key, before the colon, before the value and after the value; an
    item of an array with the white space before and after it. *)
Record spaced_member (V : Type) := SMember {
  m_before : list byte;
  m_key : string;
  m_colon : list byte;
  m_mid : list byte;
  m_value : V;
  m_after : list byte }.
Arguments SMember {V} _ _ _ _ _ _.
Arguments m_before {V} _.
Arguments m_key {V} _.
Arguments m_colon {V} _.
Arguments m_mid {V} _.
Arguments m_value {V} _.
Arguments m_after {V} _.

Record spaced_item (V : Type) := SItem {
  i_before : list byte;
  i_value : V;
  i_after : list byte }.
Arguments SItem {V} _ _ _.
Arguments i_before {V} _.
Arguments i_value {V} _.
Arguments i_after {V} _.

(** A document as it is written: the document of [jvalue] with the white
    space between its tokens.  An object or an array without a member is
    written without white space between its brackets. *)
Inductive svalue :=
  | SScalar (t : FileType) (raw : list byte)
  | SObject (members : list (spaced_member svalue))
  | SArray (items : list (spaced_item svalue)).

(** The text of a written document. *)
Fixpoint sprint (s : svalue) : list byte :=
  match s with
  | SScalar t raw => print (JScalar t raw)
  | SObject ms =>
    openBraceByte ::
    join_close
      (map (fun m => m_before m ++ quoted (unsafeGetBytes (m_key m)) ++ m_colon m
                     ++ colonByte :: m_mid m ++ sprint (m_value m) ++ m_after m) ms)
      closeBraceByte
  | SArray vs =>
    openBracketByte ::
    join_close (map (fun i => i_before i ++ sprint (i_value i) ++ i_after i) vs)
               closeBracketByte
  end.

(** The document that is written. *)
Fixpoint erase (s : svalue) : jvalue :=
  match s with
  | SScalar t raw => JScalar t raw
  | SObject ms => JObject (map (fun m => (m_key m, erase (m_value m))) ms)
  | SArray vs => JArray (map (fun i => erase (i_value i)) vs)
  end.

(** Nothing but white space stands between the tokens. *)
Fixpoint spaces_ok (s : svalue) : bool :=
  match s with
  | SScalar _ _ => true
  | SObject ms =>
    forallb (fun m => blank (m_before m) && blank (m_colon m) && blank (m_mid m)
                      && blank (m_after m) && spaces_ok (m_value m)) ms
  | SArray vs =>
    forallb (fun i => blank (i_before i) && blank (i_after i) && spaces_ok (i_value i)) vs
  end.

(** A document written without white space. *)
Fixpoint compact (j : jvalue) : svalue :=
  match j with
  | JScalar t raw => SScalar t raw
  | JObject ms =>
    SObject (map (fun kv => SMember [] (fst kv) [] [] (compact (snd kv)) []) ms)
  | JArray vs => SArray (map (fun v => SItem [] (compact v) []) vs)
  end.

(** The text of a member, and of an item. *)
Definition smember_text (m : spaced_member svalue) : list byte :=
  m_before m ++ quoted (unsafeGetBytes (m_key m)) ++ m_colon m
  ++ colonByte :: m_mid m ++ sprint (m_value m) ++ m_after m.
Definition sitem_text (i : spaced_item svalue) : list byte :=
  i_before i ++ sprint (i_value i) ++ i_after i.

(** A byte that ends a number: an ASCII byte that is neither a digit nor
    a dot (white space, a comma, a closing bracket). *)
Definition ends_value (x : byte) : bool :=
  (rune_of_byte x <? 128) && negb (IsNumber (rune_of_byte x))
  && negb (rune_of_byte x =? dot).

(** [dictSM.valueCheck] on the white space before a value and the text of
    the value, for a key that is new. *)
Definition svalue_in_dict (s : svalue) : Prop :=
  exists N, forall fuel m ws x rest lr c,
    (N <= fuel)%nat -> blank ws = true -> ends_value x = true ->
    duplicateField (dm_dir m) (dm_valueName m) = None ->
    exists fn m' w',
      dictSM_valueCheck (nestedDict fuel) (nestedArray fuel) m
        (mkWorld (mkReader (ws ++ sprint s ++ x :: rest) lr) c) = (fn, m', w') /\
      match first_dup (erase s) with
      | Some k => fn = None /\ dm_err m' = Some (ErrDuplicateField k)
      | None =>
        fn = Some dict_commaClose /\ dm_err m' = dm_err m /\
        untimed (dm_dir m') =
          build_child build (dm_valueName m) (erase s) (untimed (dm_dir m)) /\
        unread (w_b w') = x :: rest
      end.

(** [arraySM.valueCheck] on the white space before an item and the text
    of the item. *)
Definition svalue_in_array (s : svalue) : Prop :=
  exists N, forall fuel m ws x rest lr c,
    (N <= fuel)%nat -> blank ws = true -> ends_value x = true ->
    exists fn m' w',
      arraySM_valueCheck (nestedDict fuel) (nestedArray fuel) m
        (mkWorld (mkReader (ws ++ sprint s ++ x :: rest) lr) c) = (fn, m', w') /\
      am_item m' = wrap_int (am_item m + 1) /\
      match first_dup (erase s) with
      | Some k => fn = None /\ am_err m' = Some (ErrDuplicateField k)
      | None =>
        fn = Some array_commaClose /\ am_err m' = am_err m /\
        untimed (am_dir m') =
          build_child build (Itoa (am_item m)) (erase s) (untimed (am_dir m)) /\
        unread (w_b w') = x :: rest
      end.

(** A fresh [dictSM] on white space and the text of the object [s]. *)
Definition sobject_run (s : svalue) : Prop :=
  exists N, forall fuel name ws rest lr c,
    (N <= fuel)%nat -> blank ws = true ->
    exists m' w',
      nestedDict fuel name (mkWorld (mkReader (ws ++ sprint s ++ rest) lr) c) = (m', w') /\
      match first_dup (erase s) with
      | Some k => dm_err m' = Some (ErrDuplicateField k)
      | None =>
        dm_err m' = None /\ untimed (dm_dir m') = build name (erase s) /\
        unread (w_b w') = rest
      end.

(** A fresh [arraySM] on white space and the text of the array [s]. *)
Definition sarray_run (s : svalue) : Prop :=
  exists N, forall fuel name modTime ws rest lr c,
    (N <= fuel)%nat -> blank ws = true ->
    exists m' w',
      nestedArray fuel name modTime (mkWorld (mkReader (ws ++ sprint s ++ rest) lr) c)
      = (m', w') /\
      match first_dup (erase s) with
      | Some k => am_err m' = Some (ErrDuplicateField k)
      | None =>
        am_err m' = None /\ untimed (am_dir m') = build name (erase s) /\
        unread (w_b w') = rest
      end.

(** A member, and an item, that the decoder reads as it is written. *)
Definition smember_ok (m : spaced_member svalue) : Prop :=
  escaped_ok (unsafeGetBytes (m_key m)) = true /\ wf_value (erase (m_value m)) = true /\
  blank (m_before m) = true /\ blank (m_colon m) = true /\ blank (m_mid m) = true /\
  blank (m_after m) = true /\ svalue_in_dict (m_value m).
Definition sitem_ok (i : spaced_item svalue) : Prop :=
  wf_value (erase (i_value i)) = true /\ blank (i_before i) = true /\
  blank (i_after i) = true /\ svalue_in_array (i_value i).

(** The members of an object, and the items of an array, as they are
    written. *)
Definition erase_member (m : spaced_member svalue) : string * jvalue :=
  (m_key m, erase (m_value m)).
Definition erase_item (i : spaced_item svalue) : jvalue := erase (i_value i).

(** The object [{"a": 1, "a": 2}], with a space after each colon and
    after the comma. *)
Definition spaced_duplicate_a : svalue :=
  SObject [SMember [] "a" [] (bytes " ") (SScalar FTInt (bytes "1")) [];
           SMember (bytes " ") "a" [] (bytes " ") (SScalar FTInt (bytes "2")) []].

(* ===================================================================== *)
(** * More of the tree model ([jsonfs.go]) *)
(* ===================================================================== *)

(** The errors of the operations below: an error of the list above, or
    one of the errors these operations build ([ErrPath] is
    [&fs.PathError{Op, Path, Err}]). *)
Inductive fserror :=
  | ErrOf (e : error)
  | ErrSetOnArray                          (* Set() does not work on arrays *)
  | ErrArraySetNotArray                    (* cannot call ArraySet() on a Dictionary that is not an array *)
  | ErrIndexOutOfBounds                    (* index is out of bounds *)
  | ErrAppendNotArray                      (* cannot append to a Dictionary that is not an array *)
  | ErrNameIsPath (name : string)          (* name(%s) must not be a path, just a filename *)
  | ErrCouldNotReadRune (e : error)        (* could not read rune in WriteFile data: e *)
  | ErrFileIsObject                        (* file cannot be a JSON object *)
  | ErrFileIsArray                         (* file cannot be a JSON array *)
  | ErrInvalidPath                         (* invalid name for a path as reported by fs.ValidPath() *)
  | ErrPathIsInvalid                       (* path is invalid *)
  | ErrNoDirectory (path : string)         (* could not find directory path *)
  | ErrNoFile (name : string)              (* could not find file name *)
  | ErrIsFile (name : string)              (* name is a file not a directory *)
  | ErrIsDirectory (name : string)         (* name is a directory *)
  | ErrNotBool (t : FileType)              (* was t, not bool *)
  | ErrMalformedBool                       (* malformed bool value *)
  | ErrNotString (t : FileType)            (* was t, not string *)
  | ErrNotADirectory                       (* not a directory *)
  | ErrPath (op path : string) (e : fserror).

Inductive res (A : Type) :=
  | ROk (a : A)
  | RErr (e : fserror).
Arguments ROk {A} a.
Arguments RErr {A} e.

(** A Go map is nil until it is made.  A nil map reads as an empty one (a
    lookup finds nothing, its length is 0, a [delete] does nothing), but
    an assignment to an entry of a nil map panics.  [newDir] makes both
    maps of the Directory it returns, and the constructors and the decoder
    start from [newDir]; the zero value [Directory{}], which the error
    paths return, and the Directories [FS.MkdirAll] builds
    ([Directory{name: ..., modTime: ...}]) have both maps nil.  The record
    [Directory] holds the entries of the maps; a value of [maps] says
    whether the maps of a Directory are made or nil. *)
Inductive maps := Made | Nil.

(** What a call does: it returns a value, or it panics. *)
Inductive outcome (A : Type) :=
  | Returns (a : A)
  | Panics.
Arguments Returns {A} a.
Arguments Panics {A}.

(** ** [File]: [NewFile] and the accessors *)

(** The values [NewFile] is given: any of the four signed integer types
    (as the integer), a float (as the text [strconv.FormatFloat] returns
    for it with format ['f'] and precision [-1]), a bool, a string, nil, or
    a value of another type. *)
Inductive value :=
  | VInt (x : Z)
  | VFloat (formatted : string)
  | VBool (x : bool)
  | VString (x : string)
  | VNil
  | VOther.

(** [NewFile]; [now] is the value of [time.Now()]. *)
Definition NewFile (now : time) (name : string) (v : value) : res File :=
  match v with
  | VInt x => ROk (mkFile name now FTInt (unsafeGetBytes (Itoa x)))
  | VFloat s => ROk (mkFile name now FTFloat (unsafeGetBytes s))
  | VBool x => ROk (mkFile name now FTBool (if x then bytes "true" else bytes "false"))
  | VString x =>
    let b := [] in
    let b := b ++ [byte_of_rune doubleQuote] in
    let b := b ++ unsafeGetBytes x in
    let b := b ++ [byte_of_rune doubleQuote] in
    ROk (mkFile name now FTString b)
  | VNil => ROk (mkFile name now FTNull (bytes "null"))
  | VOther => RErr (ErrOf ErrUnsupportedType)
  end.

(** [File.Bool]. *)
Definition File_Bool (f : File) : res bool :=
  match f_t f with
  | FTBool =>
    if String.eqb (ByteSlice2String (f_value f)) "true" then ROk true
    else if String.eqb (ByteSlice2String (f_value f)) "false" then ROk false
    else RErr ErrMalformedBool
  | t => RErr (ErrNotBool t)
  end.

(** [File.BoolorZV]. *)
Definition File_BoolorZV (f : File) : bool :=
  match f_t f with
  | FTNull => false
  | _ =>
    match File_Bool f with
    | RErr _ => false
    | ROk b => b
    end
  end.

(** [File.String]. *)
Definition File_String (f : File) : res string :=
  match f_t f with
  | FTString => ROk (ByteSlice2String (f_value f))
  | t => RErr (ErrNotString t)
  end.

(** [File.StringOrZV]. *)
Definition File_StringOrZV (f : File) : string :=
  match f_t f with
  | FTNull => EmptyString
  | _ =>
    match File_String f with
    | RErr _ => EmptyString
    | ROk s => s
    end
  end.

(** ** [Directory.Set] *)

(** The first loop of [Set]: the names and the types are checked before
    anything is changed. *)
Fixpoint Set_validate (filesOrDirs : list any) : option fserror :=
  match filesOrDirs with
  | [] => None
  | AnyFile x :: rest =>
    if decide (f_name x = EmptyString) then Some (ErrOf ErrFileNoName)
    else Set_validate rest
  | AnyDirectory x :: rest =>
    if decide (d_name x = EmptyString) then Some (ErrOf ErrDirNoName)
    else Set_validate rest
  | AnyOther :: _ => Some (ErrOf ErrUnsupportedType)
  end.

(** The second loop of [Set], on maps that are made. *)
Fixpoint Set_update (d : Directory) (filesOrDirs : list any) : Directory :=
  match filesOrDirs with
  | [] => d
  | AnyFile x :: rest => Set_update (set_files (<[f_name x := x]> (files d)) d) rest
  | AnyDirectory x :: rest => Set_update (set_dirs (<[d_name x := x]> (dirs d)) d) rest
  | AnyOther :: rest => Set_update d rest
  end.

(** [Directory.Set] on a Directory whose maps are [mp]: the maps of [d]
    are updated in place, so the Directory after the call is returned
    with the error.  After the first loop every argument is a File or a
    Directory, so the first round of the second loop assigns to an entry
    of [d.files] or of [d.dirs]: on nil maps the call panics there,
    unless it was given no argument. *)
Definition Directory_Set (mp : maps) (d : Directory) (filesOrDirs : list any)
  : outcome (Directory * option fserror) :=
  if isArray d then Returns (d, Some ErrSetOnArray)
  else match Set_validate filesOrDirs with
       | Some e => Returns (d, Some e)
       | None =>
         match mp, filesOrDirs with
         | Nil, _ :: _ => Panics
         | _, _ => Returns (Set_update d filesOrDirs, None)
         end
       end.

(** ** [ArraySet] and [Append] *)

(** A value of a type of the constraint [FileOrDir]: a File, a Directory,
    or the nil interface value. *)
Inductive FileOrDir :=
  | FD_File (f : File)
  | FD_Directory (d : Directory)
  | FD_nil.

(** [File{t: FTNull, value: unsafeGetBytes("null")}]. *)
Definition nullFile : File := mkFile EmptyString zeroTime FTNull (bytes "null").

Definition has_key {V : Type} (m : gmap string V) (k : string) : bool :=
  match m !! k with Some _ => true | None => false end.

(** [ArraySet]; [index] is a Go [int].  A Directory flagged as an array
    comes from [NewDir] or from the decoder, which make its maps; the
    zero Directory is not flagged, and is refused before any
    assignment. *)
Definition ArraySet (array : Directory) (index : Z) (fd : FileOrDir)
  : Directory * option fserror :=
  if negb (isArray array) then (array, Some ErrArraySetNotArray)
  else
    let indexS := Itoa index in
    if Z.of_nat (Len array) <=? index then (array, Some ErrIndexOutOfBounds)
    else
      match fd with
      | FD_Directory x =>
        let array :=
          if has_key (dirs array) indexS
          then set_dirs (<[indexS := x]> (dirs array)) array else array in
        let array :=
          if has_key (files array) indexS
          then
            let array := set_files (delete indexS (files array)) array in
            set_dirs (<[indexS := x]> (dirs array)) array
          else array in
        (array, None)
      | FD_File x =>
        let array :=
          if has_key (files array) indexS
          then set_files (<[indexS := x]> (files array)) array else array in
        let array :=
          if has_key (dirs array) indexS
          then
            let array := set_dirs (delete indexS (dirs array)) array in
            set_files (<[indexS := x]> (files array)) array
          else array in
        (array, None)
      | FD_nil =>
        let f := nullFile in
        let array :=
          if has_key (files array) indexS
          then set_files (<[indexS := f]> (files array)) array else array in
        let array :=
          if has_key (dirs array) indexS
          then
            let array := set_dirs (delete indexS (dirs array)) array in
            set_files (<[indexS := f]> (files array)) array
          else array in
        (array, None)
      end.

(** The loop of [Append]; [i] is the index of the [range], [start] the
    length of the array before the loop. *)
Fixpoint Append_loop (array : Directory) (start : Z) (i : Z) (filesOrDirs : list FileOrDir)
  : Directory :=
  match filesOrDirs with
  | [] => array
  | fd :: rest =>
    let index := Itoa (wrap_int (i + start)) in
    let array :=
      match fd with
      | FD_Directory x => set_dirs (<[index := set_name index x]> (dirs array)) array
      | FD_File x => set_files (<[index := file_set_name index x]> (files array)) array
      | FD_nil => set_files (<[index := nullFile]> (files array)) array
      end in
    Append_loop array start (i + 1) rest
  end.

(** [Append]. *)
Definition Append (array : Directory) (filesOrDirs : list FileOrDir)
  : Directory * option fserror :=
  if negb (isArray array) then (array, Some ErrAppendNotArray)
  else
    let start := Z.of_nat (size (dirs array) + size (files array)) in
    (Append_loop array start 0 filesOrDirs, None).

(** ** [dataToFile] and [Directory.WriteFile] *)

(** The loop of [dataToFile] on the runes after the first: [Some t] when
    it returns a number of type [t], [None] when it is left by [break].
    The [break] after the [switch] ends the loop for every rune but the
    first dot. *)
Fixpoint dataToFile_loop (fuel : nat) (b : Reader) (seenDot : bool) : option FileType :=
  match fuel with
  | O => None
  | S fuel =>
    match ReadRune b with
    | (Err _, _) => Some (if seenDot then FTFloat else FTInt)
    | (Ok r, b) =>
      if IsNumber r then None
      else if (r =? dot) && negb seenDot then dataToFile_loop fuel b true
      else None
    end
  end.

(** [dataToFile]; [bytes.Buffer.ReadRune] reads as [bufio]'s does, and
    fails only at the end of the data. *)
Definition dataToFile (now : time) (name : string) (data : list byte) : res File :=
  match ReadRune (NewReader data) with
  | (Err e, _) => RErr (ErrCouldNotReadRune e)
  | (Ok r, b) =>
    if r =? openBrace then RErr ErrFileIsObject
    else if r =? openBracket then RErr ErrFileIsArray
    else if (r =? 116) && (length data =? 4)%nat
            && String.eqb (ByteSlice2String data) "true"
    then ROk (mkFile name now FTBool data)
    else if (r =? 102) && (length data =? 5)%nat
            && String.eqb (ByteSlice2String data) "false"
    then ROk (mkFile name now FTBool data)
    else if (r =? 110) && (length data =? 4)%nat
            && String.eqb (ByteSlice2String data) "null"
    then ROk (mkFile name now FTNull data)
    else
      match (if IsNumber r then dataToFile_loop (S (length data)) b false else None) with
      | Some t => ROk (mkFile name now t data)
      | None => ROk (mkFile name now FTString data)
      end
  end.

(** *** [path] and [strings] *)

Definition slash : byte := "/"%char.
Definition dotByte : byte := "."%char.

(** [lazybuf]: the bytes written, the last one first.  After [out.w--],
    [out.index(out.w)] is the byte just dropped; the loop
    [for out.w > dotdot && out.index(out.w) != '/' { out.w-- }] follows. *)
Fixpoint Clean_backtrack (rout : list byte) (dotdot : nat) : list byte :=
  match rout with
  | [] => []
  | c :: rout' =>
    if (dotdot <? length rout')%nat && negb (Ascii.eqb c slash)
    then Clean_backtrack rout' dotdot
    else rout'
  end.

(** The bytes of [p] before its first slash, and the rest. *)
Fixpoint span_elem (p : list byte) : list byte * list byte :=
  match p with
  | [] => ([], [])
  | c :: p' =>
    if Ascii.eqb c slash then ([], p)
    else let '(e, rest) := span_elem p' in (c :: e, rest)
  end.

(** The loop of [path.Clean]: [p] is [path[r:]]; every round reads at
    least one byte. *)
Fixpoint Clean_loop (fuel : nat) (rooted : bool) (p : list byte) (rout : list byte)
    (dotdot : nat) : list byte :=
  match fuel with
  | O => rout
  | S fuel =>
    match p with
    | [] => rout
    | c :: p1 =>
      if Ascii.eqb c slash then Clean_loop fuel rooted p1 rout dotdot
      else if Ascii.eqb c dotByte
              && match p1 with [] => true | c1 :: _ => Ascii.eqb c1 slash end
      then Clean_loop fuel rooted p1 rout dotdot
      else if Ascii.eqb c dotByte
              && match p1 with
                 | c1 :: p2 =>
                   Ascii.eqb c1 dotByte
                   && match p2 with [] => true | c2 :: _ => Ascii.eqb c2 slash end
                 | [] => false
                 end
      then
        let p2 := drop 1 p1 in
        if (dotdot <? length rout)%nat
        then Clean_loop fuel rooted p2 (Clean_backtrack rout dotdot) dotdot
        else if negb rooted then
          let rout := if (0 <? length rout)%nat then slash :: rout else rout in
          let rout := dotByte :: dotByte :: rout in
          Clean_loop fuel rooted p2 rout (length rout)
        else Clean_loop fuel rooted p2 rout dotdot
      else
        let rout :=
          if (rooted && negb (length rout =? 1)%nat)
             || (negb rooted && negb (length rout =? 0)%nat)
          then slash :: rout else rout in
        let '(elem, rest) := span_elem p in
        Clean_loop fuel rooted rest (rev elem ++ rout) dotdot
    end
  end.

(** [path.Clean]. *)
Definition Clean_bytes (path : list byte) : list byte :=
  match path with
  | [] => [dotByte]
  | c :: p1 =>
    let rooted := Ascii.eqb c slash in
    let rout :=
      if rooted then Clean_loop (S (length path)) rooted p1 [slash] 1
      else Clean_loop (S (length path)) rooted path [] 0 in
    match rout with
    | [] => [dotByte]
    | _ => rev rout
    end
  end.
Definition path_Clean (path : string) : string :=
  ByteSlice2String (Clean_bytes (unsafeGetBytes path)).

(** [path.Split]: the path up to and including its last slash, and what
    follows it. *)
Definition Split_bytes (path : list byte) : list byte * list byte :=
  let '(rfile, rdir) := span_elem (rev path) in (rev rdir, rev rfile).
Definition path_Split (path : string) : string * string :=
  let '(dir, file) := Split_bytes (unsafeGetBytes path) in
  (ByteSlice2String dir, ByteSlice2String file).

(** [strings.TrimPrefix(s, "/")]. *)
Definition TrimSlash (s : list byte) : list byte :=
  match s with
  | c :: s' => if Ascii.eqb c slash then s' else s
  | [] => []
  end.

(** [strings.Split(s, "/")]. *)
Fixpoint Split_slash (s : list byte) : list (list byte) :=
  match s with
  | [] => [[]]
  | c :: s' =>
    if Ascii.eqb c slash then [] :: Split_slash s'
    else match Split_slash s' with
         | e :: es => (c :: e) :: es
         | [] => [[c]]
         end
  end.

(** [strings.Join(p, "/")]. *)
Fixpoint Join_slash (p : list (list byte)) : list byte :=
  match p with
  | [] => []
  | [e] => e
  | e :: p' => e ++ slash :: Join_slash p'
  end.

(** [utf8.ValidString]: no rune of [s] is an invalid or cut encoding,
    which [DecodeRune] reports with the width 1. *)
Fixpoint ValidString_loop (fuel : nat) (s : list byte) : bool :=
  match fuel with
  | O => true
  | S fuel =>
    match s with
    | [] => true
    | c :: s' =>
      if rune_of_byte c <? 128 then ValidString_loop fuel s'
      else
        let '(_, size) := DecodeRune s in
        if (size =? 1)%nat then false else ValidString_loop fuel (drop size s)
    end
  end.
Definition ValidString (s : list byte) : bool := ValidString_loop (length s) s.

(** The loop of [fs.ValidPath] over the elements of [name]. *)
Fixpoint ValidPath_loop (fuel : nat) (name : list byte) : bool :=
  match fuel with
  | O => false
  | S fuel =>
    let '(elem, rest) := span_elem name in
    if bool_decide (elem = []) || bool_decide (elem = [dotByte])
       || bool_decide (elem = [dotByte; dotByte])
    then false
    else match rest with
         | [] => true
         | _ :: name' => ValidPath_loop fuel name'
         end
  end.

(** [fs.ValidPath]. *)
Definition ValidPath (name : list byte) : bool :=
  if negb (ValidString name) then false
  else if bool_decide (name = [dotByte]) then true
  else ValidPath_loop (S (length name)) name.

(** [Directory.WriteFile] on a Directory whose maps are [mp]:
    [d.files[name] = o] panics on nil maps. *)
Definition Directory_WriteFile (mp : maps) (now : time) (d : Directory) (name : string)
    (data : list byte) : outcome (Directory * option fserror) :=
  let name := path_Clean name in
  let '(dir, file) := path_Split name in
  if negb (String.eqb dir EmptyString) then Returns (d, Some (ErrNameIsPath name))
  else
    match dataToFile now file data with
    | RErr e => Returns (d, Some e)
    | ROk o =>
      match mp with
      | Nil => Panics
      | Made => Returns (set_files (<[name := o]> (files d)) d, None)
      end
    end.

(** ** [FS.Open], [Directory.GetDir] and [Directory.GetFile] *)

(** What [Open] returns as an [fs.File]. *)
Inductive fsFile :=
  | OpenedFile (f : File)
  | OpenedDirectory (d : Directory).

(** The walk of [Open] from the Directory [d] along the elements [p];
    [name] and [whole] are the cleaned name and all its elements, for the
    errors. *)
Fixpoint Open_walk (name : string) (whole : list (list byte)) (d : Directory)
    (p : list (list byte)) : res fsFile :=
  match p with
  | [] => RErr (ErrPath "open" name ErrPathIsInvalid)
  | [fn] =>
    match files d !! ByteSlice2String fn with
    | Some v => ROk (OpenedFile v)
    | None =>
      match dirs d !! ByteSlice2String fn with
      | Some x => ROk (OpenedDirectory x)
      | None => RErr (ErrPath "open" name (ErrNoFile (String slash name)))
      end
    end
  | e :: p' =>
    match dirs d !! ByteSlice2String e with
    | None =>
      RErr (ErrPath "open" name (ErrNoDirectory (ByteSlice2String (Join_slash whole))))
    | Some v => Open_walk name whole v p'
    end
  end.

(** [FS.Open] on the file system of root [root]. *)
Definition FS_Open (root : Directory) (name : string) : res fsFile :=
  let name := TrimSlash (Clean_bytes (unsafeGetBytes name)) in
  if negb (ValidPath name) then RErr ErrInvalidPath
  else
    let p := Split_slash name in
    Open_walk (ByteSlice2String name) p root p.

(** [Directory.GetDir]. *)
Definition GetDir (d : Directory) (name : string) : res Directory :=
  match FS_Open d name with
  | RErr e => RErr e
  | ROk (OpenedFile _) => RErr (ErrIsFile name)
  | ROk (OpenedDirectory x) => ROk x
  end.

(** [Directory.GetFile]. *)
Definition GetFile (d : Directory) (name : string) : res File :=
  match FS_Open d name with
  | RErr e => RErr e
  | ROk (OpenedDirectory _) => RErr (ErrIsDirectory name)
  | ROk (OpenedFile f) => ROk f
  end.

(** [FS.Sub]: the root of the file system it returns. *)
Definition FS_Sub (root : Directory) (dir : string) : res Directory :=
  match FS_Open root dir with
  | RErr e => RErr e
  | ROk (OpenedFile _) => RErr (ErrPath "Sub" dir ErrNotADirectory)
  | ROk (OpenedDirectory x) => ROk x
  end.

(* ===================================================================== *)
(** * Vocabulary of the further statements *)
(* ===================================================================== *)

(** An argument [NewDir] and [Set] accept: a File or a Directory with a
    name. *)
Definition named (x : any) : Prop :=
  match x with
  | AnyFile f => f_name f <> EmptyString
  | AnyDirectory d => d_name d <> EmptyString
  | AnyOther => False
  end.

(** An argument [NewArray] accepts. *)
Definition supported (x : any) : Prop :=
  match x with AnyOther => False | _ => True end.

(** The last File, and the last Directory, of the name [k] among the
    arguments [l]. *)
Fixpoint last_file (l : list any) (k : string) : option File :=
  match l with
  | [] => None
  | x :: rest =>
    match last_file rest k with
    | Some g => Some g
    | None =>
      match x with
      | AnyFile f => if decide (f_name f = k) then Some f else None
      | _ => None
      end
    end
  end.

Fixpoint last_dir (l : list any) (k : string) : option Directory :=
  match l with
  | [] => None
  | x :: rest =>
    match last_dir rest k with
    | Some g => Some g
    | None =>
      match x with
      | AnyDirectory d => if decide (d_name d = k) then Some d else None
      | _ => None
      end
    end
  end.

(** The File, or the Directory, an array holds at the index [k] for the
    argument [x] of [NewArray]. *)
Definition array_file (k : string) (x : any) : option File :=
  match x with AnyFile f => Some (file_set_name k f) | _ => None end.
Definition array_dir (k : string) (x : any) : option Directory :=
  match x with AnyDirectory d => Some (set_name k d) | _ => None end.


(** The shape of an array: the children are named by the decimal strings
    of [0 .. Len d - 1], and no name denotes both a File and a
    sub-directory. *)
Definition well_numbered (d : Directory) : Prop :=
  contiguous_names d /\ unique_names d.

(** A path element: not empty, without a slash, and neither [.] nor
    [..]. *)
Definition simple_name (e : list byte) : Prop :=
  e <> [] /\ e <> [dotByte] /\ e <> [dotByte; dotByte] /\
  Forall (fun c => c <> slash) e.

(** The Directory reached from [d] along the sub-directories [p]. *)
Fixpoint descend (d : Directory) (p : list (list byte)) : option Directory :=
  match p with
  | [] => Some d
  | e :: p' =>
    match dirs d !! ByteSlice2String e with
    | Some v => descend v p'
    | None => None
    end
  end.

(** The path of the elements [p]. *)
Definition path_of (p : list (list byte)) : string := ByteSlice2String (Join_slash p).

(** The type [dataToFile] gives to the text of a number: a lone digit is
    an Int, a digit and a dot a Float, and every longer text a String. *)
Definition stored_type (data : list byte) : FileType :=
  match data with
  | [_] => FTInt
  | [_; d] => if is_dot d then FTFloat else FTString
  | _ => FTString
  end.

(** The members of a document of a stream: at least one member, every
    scalar and key well formed, and no key twice in one object. *)
Definition document (ms : list (string * jvalue)) : Prop :=
  ms <> [] /\ wf_value (JObject ms) = true /\ first_dup (JObject ms) = None.

(** The text of a stream of documents, one object after the other. *)
Definition stream_text (docs : list (list (string * jvalue))) : list byte :=
  concat (map (fun ms => print (JObject ms)) docs).

(** What follows an element in a path: nothing, or a slash. *)
Definition ends_element (rest : list byte) : Prop :=
  rest = [] \/ exists rest', rest = slash :: rest'.

(** Whether [path.Clean] writes a slash before the next element: not at
    the start of the output. *)
Definition needs_slash (rooted : bool) (rout : list byte) : bool :=
  (rooted && negb (length rout =? 1)%nat) || (negb rooted && negb (length rout =? 0)%nat).

(* ===================================================================== *)
(** * The constructors [NewDir] and [NewArray] *)
(* ===================================================================== *)

Lemma NewDir_loop_isArray l : forall d d',
  NewDir_loop d l = Ok d' -> isArray d' = isArray d.
Proof.
  induction l as [|[x|x|] l IH]; intros d d' H; simpl in H.
  - by inversion H.
  - destruct (decide _); [discriminate|]. by rewrite (IH _ _ H).
  - destruct (decide _); [discriminate|]. by rewrite (IH _ _ H).
  - discriminate.
Qed.

Lemma NewArray_loop_isArray l : forall d i d',
  NewArray_loop d i l = Ok d' -> isArray d' = isArray d.
Proof.
  induction l as [|[x|x|] l IH]; intros d i d' H; simpl in H.
  - by inversion H.
  - by rewrite (IH _ _ _ H).
  - by rewrite (IH _ _ _ H).
  - discriminate.
Qed.

(** Every Directory [NewDir] returns is flagged as an array. *)
Lemma NewDir_isArray now name l d :
  NewDir now name l = Ok d -> isArray d = true.
Proof. intros H. by rewrite (NewDir_loop_isArray _ _ _ H). Qed.

(** No Directory [NewArray] returns is flagged as an array. *)
Lemma NewArray_isArray now name l d :
  NewArray now name l = Ok d -> isArray d = false.
Proof. intros H. by rewrite (NewArray_loop_isArray _ _ _ _ H). Qed.

(** C1 (the code departs from the claim).  [NewDir] on one named File
    returns a Directory whose [isArray] is [true]: it is encoded as an
    array, and the encoder stops at the missing index 0 after the opening
    bracket.  [NewArray] on the same File returns a Directory whose
    [isArray] is [false]: it is encoded as the object with the member
    ["0"]. *)
Theorem C1_constructors_flag_is_swapped :
  (exists d, NewDir 7 "obj" [AnyFile file_a1] = Ok d /\ isArray d = true /\
     MarshalJSON (fun _ _ l => l) d = (bytes "[", Some (ErrMissingIndex 0))) /\
  (exists d, NewArray 7 "arr" [AnyFile file_a1] = Ok d /\ isArray d = false /\
     MarshalJSON (fun _ _ l => l) d = (bytes "{'0':1}", None)).
Proof.
  split; eexists; (split; [reflexivity|]); split; vm_compute; reflexivity.
Qed.

(* ===================================================================== *)
(** * [remove] *)
(* ===================================================================== *)

(** C5, as stated, fails: removing a name that denotes no child returns no
    error. *)
Lemma C5_remove_missing_returns_nil :
  files zeroDirectory !! "x" = None /\ dirs zeroDirectory !! "x" = None /\
  Remove zeroDirectory "x" = (zeroDirectory, None).
Proof. repeat split. Qed.

(** C5, amended.  [Remove d n] returns no error and leaves [d] as it is
    when no child is named [n]; returns no error and deletes the File when
    [n] names a File; returns the "not empty" error and leaves [d] as it is
    when [n] names a sub-directory that has children. *)
Theorem C5_remove_amended (d : Directory) (n : string) :
  (files d !! n = None -> dirs d !! n = None -> Remove d n = (d, None)) /\
  (forall f, files d !! n = Some f ->
     Remove d n = (set_files (delete n (files d)) d, None)) /\
  (forall sub, files d !! n = None -> dirs d !! n = Some sub -> Len sub <> 0%nat ->
     Remove d n = (d, Some ErrNotEmpty)).
Proof.
  unfold Remove, remove. split; [|split].
  - intros -> ->. done.
  - intros f ->. done.
  - intros sub -> Hsub _. rewrite Hsub.
    assert (size (dirs d) <> 0%nat) as Hne.
    { intros H0. apply map_size_empty_inv in H0. rewrite H0 in Hsub.
      by rewrite lookup_empty in Hsub. }
    destruct (Nat.eqb_spec (size (files d) + size (dirs d)) 0); [lia|done].
Qed.

(* ===================================================================== *)
(** * [isQuote] *)
(* ===================================================================== *)

Lemma isQuote_loop_parity l : forall itIs,
  isQuote_loop l itIs = if Nat.even (leading_backslashes l) then itIs else negb itIs.
Proof.
  induction l as [|c l IH]; intros itIs; simpl; [done|].
  destruct (rune_of_byte c =? backslash); [|done].
  rewrite IH, Nat.even_succ, <-Nat.negb_even.
  destruct (Nat.even _), itIs; done.
Qed.

Lemma isQuote_long c0 c1 c2 l :
  isQuote (c0 :: c1 :: c2 :: l) =
  isQuote_loop (rev (take (length (c0 :: c1 :: c2 :: l) - 1) (c0 :: c1 :: c2 :: l))) true.
Proof. reflexivity. Qed.

Lemma isQuote_snoc pre q :
  isQuote (pre ++ [q]) = Nat.even (trailing_backslashes pre).
Proof.
  unfold trailing_backslashes.
  destruct pre as [|c0 [|c1 pre]]; [done| |].
  - simpl. by destruct (rune_of_byte c0 =? backslash).
  - assert (exists c2 l, pre ++ [q] = c2 :: l) as (c2 & l & Hl).
    { destruct pre; simpl; eauto. }
    change ((c0 :: c1 :: pre) ++ [q]) with (c0 :: c1 :: (pre ++ [q])).
    rewrite Hl, isQuote_long, <-Hl.
    change (c0 :: c1 :: (pre ++ [q])) with ((c0 :: c1 :: pre) ++ [q]).
    rewrite length_app. simpl length.
    replace (S (S (length pre)) + 1 - 1)%nat with (length (c0 :: c1 :: pre)) by (simpl; lia).
    rewrite take_app_length, isQuote_loop_parity.
    by destruct (Nat.even _).
Qed.


(* ===================================================================== *)
(** * The reader *)
(* ===================================================================== *)

Lemma DecodeRune_width c l r n :
  DecodeRune (c :: l) = (r, n) -> (1 <= n <= length (c :: l))%nat.
Proof.
  unfold DecodeRune. simpl length.
  destruct (rune_of_byte c <? 128); [intros [= <- <-]; lia|].
  destruct (utf8_first _) as [[[sz lo] hi]|]; [|intros [= <- <-]; lia].
  destruct (S (length l) <? sz)%nat; [intros [= <- <-]; lia|].
  destruct l as [|c1 l]; [intros [= <- <-]; simpl; lia|].
  destruct (_ || _); [intros [= <- <-]; simpl; lia|].
  destruct (sz <=? 2)%nat; [intros [= <- <-]; simpl; lia|].
  destruct l as [|c2 l]; [intros [= <- <-]; simpl; lia|].
  destruct (negb _); [intros [= <- <-]; simpl; lia|].
  destruct (sz <=? 3)%nat; [intros [= <- <-]; simpl; lia|].
  destruct l as [|c3 l]; [intros [= <- <-]; simpl; lia|].
  destruct (negb _); intros [= <- <-]; simpl; lia.
Qed.

(** [ReadRune] decodes the rune at the head of the unread bytes. *)
Lemma ReadRune_cons c l lr :
  ReadRune (mkReader (c :: l) lr) =
  (Ok (fst (DecodeRune (c :: l))),
   mkReader (drop (snd (DecodeRune (c :: l))) (c :: l))
            (Some (take (snd (DecodeRune (c :: l))) (c :: l)))).
Proof.
  unfold ReadRune. cbn [unread].
  assert ((if rune_of_byte c <? 128 then (rune_of_byte c, 1%nat)
           else DecodeRune (c :: l)) = DecodeRune (c :: l)) as ->.
  { unfold DecodeRune. by destruct (rune_of_byte c <? 128). }
  by destruct (DecodeRune (c :: l)).
Qed.

Lemma ReadRune_nil lr : ReadRune (mkReader [] lr) = (Err EOF, mkReader [] None).
Proof. reflexivity. Qed.

(** A rune of one ASCII byte. *)
Lemma ReadRune_ascii c l lr :
  rune_of_byte c < 128 ->
  ReadRune (mkReader (c :: l) lr) = (Ok (rune_of_byte c), mkReader l (Some [c])).
Proof.
  intros Hc. unfold ReadRune. cbn [unread].
  destruct (Z.ltb_spec (rune_of_byte c) 128); [done|lia].
Qed.

Lemma UnreadRune_ReadRune c l lr :
  UnreadRune (snd (ReadRune (mkReader (c :: l) lr))) = mkReader (c :: l) None.
Proof.
  rewrite ReadRune_cons. unfold UnreadRune. cbn [snd lastRune unread].
  by rewrite take_drop.
Qed.

Lemma ReadRune_shorter c l lr :
  (length (unread (snd (ReadRune (mkReader (c :: l) lr)))) < length (c :: l))%nat.
Proof.
  rewrite ReadRune_cons. cbn [snd unread].
  destruct (DecodeRune (c :: l)) as [r n] eqn:E.
  apply DecodeRune_width in E. cbn [snd]. rewrite length_drop. lia.
Qed.

(* ===================================================================== *)
(** * [skipSpace] *)
(* ===================================================================== *)

Lemma skipSpace_loop_only_space src :
  only_space src -> forall fuel lr, (length src < fuel)%nat ->
  skipSpace_loop fuel (mkReader src lr) = mkReader [] None.
Proof.
  induction 1 as [|src r n Hne Hdec Hsp _ IH]; intros fuel lr Hfuel.
  - destruct fuel; [simpl in Hfuel; lia|]. reflexivity.
  - destruct fuel; [lia|]. destruct src as [|c l]; [done|].
    cbn [skipSpace_loop]. rewrite ReadRune_cons, Hdec. cbn [fst snd].
    rewrite Hsp. apply IH.
    apply DecodeRune_width in Hdec. rewrite length_drop. simpl in *. lia.
Qed.

Lemma skipSpace_loop_first_rune src r :
  first_rune src r -> forall fuel lr, (length src < fuel)%nat ->
  exists c rest,
    skipSpace_loop fuel (mkReader src lr) = mkReader (c :: rest) None /\
    fst (DecodeRune (c :: rest)) = r /\ IsSpace r = false /\
    (length (c :: rest) <= length src)%nat.
Proof.
  induction 1 as [src r n Hne Hdec Hsp|src r n r' Hne Hdec Hsp _ IH];
    intros fuel lr Hfuel.
  - destruct fuel; [lia|]. destruct src as [|c l]; [done|].
    exists c, l. cbn [skipSpace_loop].
    pose proof (UnreadRune_ReadRune c l lr) as Hun.
    rewrite ReadRune_cons in Hun |- *. rewrite Hdec in Hun |- *.
    cbn [fst snd] in Hun |- *. rewrite Hsp, Hun. done.
  - destruct fuel; [lia|]. destruct src as [|c l]; [done|].
    cbn [skipSpace_loop]. rewrite ReadRune_cons, Hdec. cbn [fst snd].
    rewrite Hsp.
    assert (length (drop n (c :: l)) < length (c :: l))%nat as Hlen.
    { apply DecodeRune_width in Hdec. rewrite length_drop. simpl in *. lia. }
    destruct (IH fuel (Some (take n (c :: l)))) as (c' & rest & -> & ? & ? & ?).
    { simpl in *. lia. }
    exists c', rest. repeat split; [done..|lia].
Qed.

(* ===================================================================== *)
(** * The entry point on inputs that hold no object *)
(* ===================================================================== *)

Lemma runSM_dict_S fuel current m w :
  runSM_dict (S fuel) current m w =
  let '(fn, m, w) :=
    dictSM_call
      (fun name w => runSM_dict fuel dict_start (dictSM_reset name) w)
      (fun name modTime w => runSM_array fuel array_start (arraySM_reset name modTime) w)
      current m w in
  match fn with
  | None => (m, w)
  | Some fn => runSM_dict fuel fn m w
  end.
Proof. reflexivity. Qed.

Lemma runSM_array_S fuel current m w :
  runSM_array (S fuel) current m w =
  let '(fn, m, w) :=
    arraySM_call
      (fun name w => runSM_dict fuel dict_start (dictSM_reset name) w)
      (fun name modTime w => runSM_array fuel array_start (arraySM_reset name modTime) w)
      current m w in
  match fn with
  | None => (m, w)
  | Some fn => runSM_array fuel fn m w
  end.
Proof. reflexivity. Qed.

Lemma decodeFuel_SS b : exists k, decodeFuel b = S (S k).
Proof. exists (4 * length (unread b) + 6)%nat. unfold decodeFuel. lia. Qed.

(** C10.  On an input that is empty or holds white space only,
    [UnmarshalJSON] returns no error and the unnamed Directory without
    children (its modification time is the time of the call). *)
Theorem C10_blank_input_decodes_to_empty_directory
    (src : list byte) (lr : option (list byte)) (clock : Clock) :
  only_space src ->
  UnmarshalJSON (mkWorld (mkReader src lr) clock) =
  (Ok (emptyDirectory (fst (timeNow clock))),
   mkWorld (mkReader [] None) (snd (timeNow clock))).
Proof.
  intros Hsp. unfold UnmarshalJSON.
  destruct (decodeFuel_SS (w_b (mkWorld (mkReader src lr) clock))) as [k ->].
  rewrite runSM_dict_S. cbn [dictSM_call dictSM_start w_clock w_b timeNow].
  rewrite runSM_dict_S. cbn [dictSM_call].
  unfold dictSM_openBrace, skipSpace. cbn [w_b unread].
  rewrite (skipSpace_loop_only_space src Hsp) by lia.
  rewrite ReadRune_nil. reflexivity.
Qed.

Lemma C10_witness :
  only_space (bytes "  ") /\
  UnmarshalJSON (world_of (bytes "  ")) =
  (Ok (emptyDirectory 1000), mkWorld (mkReader [] None) (mkClock (now_at testClock) 1)).
Proof.
  assert (only_space (bytes "  ")) as H.
  { eapply only_space_rune; [done|reflexivity|reflexivity|].
    eapply only_space_rune; [done|reflexivity|reflexivity|]. constructor. }
  split; [exact H|].
  exact (C10_blank_input_decodes_to_empty_directory (bytes "  ") None testClock H).
Defined.

(** C9.  On an input whose first rune after the leading white space is not
    an opening brace, [UnmarshalJSON] returns the error "object must start
    with {" and no Directory. *)
Theorem C9_input_not_starting_with_brace_is_rejected
    (src : list byte) (lr : option (list byte)) (clock : Clock) (r : rune) :
  first_rune src r -> r <> openBrace ->
  exists w', UnmarshalJSON (mkWorld (mkReader src lr) clock) = (Err ErrObjectStart, w').
Proof.
  intros Hfirst Hr. unfold UnmarshalJSON.
  destruct (decodeFuel_SS (w_b (mkWorld (mkReader src lr) clock))) as [k ->].
  rewrite runSM_dict_S. cbn [dictSM_call dictSM_start w_clock w_b timeNow].
  rewrite runSM_dict_S. cbn [dictSM_call].
  unfold dictSM_openBrace, skipSpace. cbn [w_b unread].
  destruct (skipSpace_loop_first_rune src r Hfirst (S (length src)) lr)
    as (c & rest & -> & Hdec & _ & _); [lia|].
  rewrite ReadRune_cons, Hdec.
  destruct (Z.eqb_spec r openBrace) as [|_]; [done|].
  cbn. eauto.
Qed.

Lemma C9_witness :
  first_rune (bytes " [1]") openBracket /\ openBracket <> openBrace /\
  exists w', UnmarshalJSON (world_of (bytes " [1]")) = (Err ErrObjectStart, w').
Proof.
  assert (first_rune (bytes " [1]") openBracket) as H.
  { eapply first_rune_skip; [done|reflexivity|reflexivity|].
    eapply first_rune_here; [done|reflexivity|reflexivity]. }
  assert (openBracket <> openBrace) as Hne by done.
  split; [exact H|]. split; [exact Hne|].
  exact (C9_input_not_starting_with_brace_is_rejected (bytes " [1]") None testClock
           openBracket H Hne).
Defined.

(* ===================================================================== *)
(** * [decodeNumber] and [UnmarshalStream] on chosen inputs *)
(* ===================================================================== *)

(** C4 (the code departs from the claim).  [decodeNumber] does not stop at
    a second dot: on [1.2.3}] it reads the five bytes [1.2.3] into a Float
    and pushes back the brace, and [UnmarshalJSON] accepts the object with
    that member.  Dots count as digits for the emptiness test as well:
    called on [.}] (its callers pass a digit first, [valueCheck] sends
    no dot to it), the decoder returns the Float [.] although it read no
    digit. *)
Theorem C4_decodeNumber_reads_every_dot :
  decodeNumber (NewReader (bytes "1.2.3}")) "a" 7 =
    (Ok (mkFile "a" 7 FTFloat (bytes "1.2.3")), mkReader (bytes "}") None) /\
  fst (UnmarshalJSON (world_of (bytes "{'a':1.2.3}"))) =
    Ok (mkDirectory "" 1000 ∅ {["a" := mkFile "a" 1000 FTFloat (bytes "1.2.3")]} false) /\
  decodeNumber (NewReader (bytes ".}")) "a" 7 =
    (Ok (mkFile "a" 7 FTFloat (bytes ".")), mkReader (bytes "}") None).
Proof. repeat split; vm_compute; reflexivity. Qed.

(** C6 (the code departs from the claim).  The stream of the empty object
    followed by a second object yields nothing: the loop takes the empty
    unnamed Directory of [{}] for the end of the input and stops, leaving
    the second object unread.  The stream of two non-empty objects yields
    the two Directories, in order, and no error. *)
Theorem C6_stream_stops_at_an_empty_object :
  fst (UnmarshalStream (world_of (bytes "{}{'a':1}"))) = [] /\
  unread (w_b (snd (UnmarshalStream (world_of (bytes "{}{'a':1}"))))) = bytes "{'a':1}" /\
  map stream_view (fst (UnmarshalStream (world_of (bytes "{'a':1}{'b':2}")))) =
    [ ("", [("a", mkFile "a" 1000 FTInt (bytes "1"))], None);
      ("", [("b", mkFile "b" 1001 FTInt (bytes "2"))], None) ].
Proof. repeat split; vm_compute; reflexivity. Qed.

(* ===================================================================== *)
(** * What the reader operations consume *)
(* ===================================================================== *)

Lemma ReadRune_ok b r b1 :
  ReadRune b = (Ok r, b1) ->
  (rlen b1 + 1 <= rlen b)%nat /\ unread (UnreadRune b1) = unread b /\
  lastRune (UnreadRune b1) = None.
Proof.
  destruct b as [[|c l] lr]; [rewrite ReadRune_nil; done|].
  intros H. pose proof (ReadRune_shorter c l lr) as Hlen.
  pose proof (UnreadRune_ReadRune c l lr) as Hun.
  rewrite H in Hlen, Hun. cbn [snd] in Hlen, Hun. rewrite Hun.
  unfold rlen. cbn [unread lastRune] in *. repeat split; lia.
Qed.

Lemma ReadRune_err b e b1 :
  ReadRune b = (Err e, b1) -> e = EOF /\ b1 = mkReader [] None /\ unread b = [].
Proof.
  destruct b as [[|c l] lr]; [rewrite ReadRune_nil; by intros [= <- <-]|].
  rewrite ReadRune_cons. discriminate.
Qed.

Lemma ReadRune_len b : (rlen (snd (ReadRune b)) <= rlen b)%nat.
Proof.
  destruct (ReadRune b) as [[r|e] b1] eqn:E; cbn [snd].
  - apply ReadRune_ok in E. lia.
  - apply ReadRune_err in E as (_ & -> & _). unfold rlen. simpl. lia.
Qed.

Lemma Peek1_ok b x b1 :
  Peek1 b = (Ok x, b1) -> b1 = mkReader (unread b) None /\ exists l, unread b = x :: l.
Proof.
  unfold Peek1. destruct (unread b) as [|c l] eqn:E; [discriminate|].
  intros [= <- <-]. eauto.
Qed.

Lemma Peek1_err b e b1 :
  Peek1 b = (Err e, b1) -> e = EOF /\ b1 = mkReader [] None /\ unread b = [].
Proof.
  unfold Peek1. destruct (unread b) as [|c l] eqn:E; [|discriminate].
  by intros [= <- <-].
Qed.

Lemma Peek1_len b : (rlen (snd (Peek1 b)) <= rlen b)%nat.
Proof.
  unfold Peek1, rlen. destruct (unread b) eqn:E; cbn [snd unread]; rewrite ?E; simpl; lia.
Qed.

Lemma split_delim_length delim l s r :
  split_delim delim l = Some (s, r) -> l = s ++ r /\ s <> [].
Proof.
  revert s r. induction l as [|c l IH]; intros s r; simpl; [discriminate|].
  destruct (Ascii.eqb c delim).
  - intros [= <- <-]. done.
  - destruct (split_delim delim l) as [[s' r']|]; [|discriminate].
    intros [= <- <-]. destruct (IH _ _ eq_refl) as [-> _]. done.
Qed.

Lemma ReadBytes_ok b delim s b1 :
  ReadBytes b delim = (Ok s, b1) ->
  unread b = s ++ unread b1 /\ s <> [] /\ lastRune b1 = None.
Proof.
  unfold ReadBytes. destruct (split_delim delim (unread b)) as [[s' r']|] eqn:E;
    [|discriminate].
  intros [= <- <-]. apply split_delim_length in E as [-> ?]. done.
Qed.

Lemma ReadBytes_err b delim e b1 :
  ReadBytes b delim = (Err e, b1) -> e = EOF /\ b1 = mkReader [] None.
Proof.
  unfold ReadBytes. destruct (split_delim delim (unread b)) as [[s' r']|];
    [discriminate|]. by intros [= <- <-].
Qed.

Lemma ReadFull_ok b n s b1 :
  ReadFull b n = (Ok s, b1) ->
  unread b = s ++ unread b1 /\ length s = n /\ lastRune b1 = None.
Proof.
  unfold ReadFull. destruct (Nat.leb_spec n (length (unread b))); [|discriminate].
  intros [= <- <-]. cbn [unread lastRune].
  rewrite take_drop, length_take. repeat split; lia.
Qed.

Lemma ReadFull_len b n : (rlen (snd (ReadFull b n)) <= rlen b)%nat.
Proof.
  unfold ReadFull, rlen. destruct (n <=? length (unread b))%nat; cbn [snd unread].
  - rewrite length_drop. lia.
  - simpl. lia.
Qed.

(** ** [skipSpace] *)

Lemma skipSpace_loop_len fuel : forall b,
  (rlen (skipSpace_loop fuel b) <= rlen b)%nat.
Proof.
  induction fuel as [|fuel IH]; intros b; cbn [skipSpace_loop]; [lia|].
  destruct (ReadRune b) as [[r|e] b1] eqn:E.
  - pose proof (ReadRune_ok _ _ _ E) as (Hlen & Hun & _).
    destruct (IsSpace r).
    + specialize (IH b1). lia.
    + unfold rlen. rewrite Hun. lia.
  - apply ReadRune_err in E as (_ & -> & _). unfold rlen. simpl. lia.
Qed.

Lemma skipSpace_len b : (rlen (skipSpace b) <= rlen b)%nat.
Proof. apply skipSpace_loop_len. Qed.

(** ** The scalar codec *)

Lemma valueCheck_len b : (rlen (snd (valueCheck b)) <= rlen b)%nat.
Proof.
  unfold valueCheck. pose proof (skipSpace_len b) as Hs.
  pose proof (Peek1_len (skipSpace b)) as Hp.
  destruct (Peek1 (skipSpace b)) as [[x|e] b1]; cbn [snd] in *; [|lia].
  repeat (match goal with |- context [if ?c then _ else _] => destruct c end);
    cbn [snd]; lia.
Qed.

Lemma valueCheck_err b e b1 : valueCheck b = (Err e, b1) -> e <> ErrFuel.
Proof.
  unfold valueCheck.
  destruct (Peek1 (skipSpace b)) as [[x|e'] b'] eqn:E.
  - repeat (match goal with |- context [if ?c then _ else _] => destruct c end);
      intros [= <- <-]; done.
  - apply Peek1_err in E as (-> & _). by intros [= <- <-].
Qed.

Lemma getString_rec_props fuel : forall b deleteFirst,
  (rlen b < fuel)%nat ->
  (rlen (snd (getString_rec fuel b deleteFirst)) <= rlen b)%nat /\
  match fst (getString_rec fuel b deleteFirst) with
  | Ok s => (rlen (snd (getString_rec fuel b deleteFirst)) + 1
             + (if deleteFirst then 1 else 0) <= rlen b)%nat
  | Err e => e <> ErrFuel
  end.
Proof.
  induction fuel as [|fuel IH]; intros b df Hfuel; [lia|].
  cbn [getString_rec].
  assert ((exists b0, (if df then ReadRune b else (Ok 0, b)) = (Err EOF, b0) /\
                     (rlen b0 <= rlen b)%nat) \/
          exists r b0, (if df then ReadRune b else (Ok 0, b)) = (Ok r, b0) /\
                     (rlen b0 + (if df then 1 else 0) <= rlen b)%nat)
    as [(b0 & -> & Hb0)|(r & b0 & -> & Hb0)].
  { destruct df.
    - destruct (ReadRune b) as [[r|e] b0] eqn:E.
      + right. exists r, b0. apply ReadRune_ok in E as (? & _). split; [done|lia].
      + left. exists b0. apply ReadRune_err in E as (-> & -> & _).
        split; [done|]. unfold rlen. simpl. lia.
    - right. exists 0, b. split; [done|lia]. }
  - cbn [fst snd]. done.
  - destruct (ReadBytes b0 _) as [[s|e] b1] eqn:E.
    + apply ReadBytes_ok in E as (Hs & Hne & _).
      assert (rlen b1 + 1 <= rlen b0)%nat as Hb1.
      { unfold rlen. rewrite Hs, length_app. destruct s; [done|]. simpl. lia. }
      destruct (negb (isQuote s)).
      * destruct (IH b1 false) as [Hlen Hres]; [lia|].
        destruct (getString_rec fuel b1 false) as [[buff|e] b2];
          cbn [fst snd] in *; split; try done; lia.
      * cbn [fst snd]. split; lia.
    + apply ReadBytes_err in E as (-> & ->). cbn [fst snd].
      split; [unfold rlen; simpl; lia|done].
Qed.

Lemma getString_ok b s b1 :
  getString b true = (Ok s, b1) -> (rlen b1 + 2 <= rlen b)%nat.
Proof.
  intros H. destruct (getString_rec_props (S (rlen b)) b true) as [_ H2]; [lia|].
  unfold getString in H. fold (rlen b) in H. rewrite H in H2. cbn [fst snd] in H2. lia.
Qed.

Lemma getString_err b df e b1 :
  getString b df = (Err e, b1) -> e <> ErrFuel /\ (rlen b1 <= rlen b)%nat.
Proof.
  intros H. destruct (getString_rec_props (S (rlen b)) b df) as [H1 H2]; [lia|].
  unfold getString in H. fold (rlen b) in H. rewrite H in H1, H2. done.
Qed.

Lemma decodeString_props b name modTime :
  (rlen (snd (decodeString b name modTime)) <= rlen b)%nat /\
  forall e, fst (decodeString b name modTime) = Err e -> e <> ErrFuel.
Proof.
  unfold decodeString. destruct (getString b true) as [[s|e] b1] eqn:E; cbn [fst snd].
  - apply getString_ok in E. split; [lia|done].
  - apply getString_err in E as [? ?]. split; [done|]. by intros ? [= <-].
Qed.

Lemma decodeBool_props b name hint modTime :
  (rlen (snd (decodeBool b name hint modTime)) <= rlen b)%nat /\
  forall e, fst (decodeBool b name hint modTime) = Err e -> e <> ErrFuel.
Proof.
  unfold decodeBool.
  pose proof (ReadFull_len b (match hint with trueNext => 4 | _ => 5 end)) as Hl.
  destruct (ReadFull b _) as [[buff|e] b1]; cbn [fst snd] in *.
  - repeat (match goal with |- context [if ?c then _ else _] => destruct c end);
      cbn [fst snd]; split; try done; by intros ? [= <-].
  - split; [done|]. by intros ? [= <-].
Qed.

Lemma decodeNull_props b name modTime :
  (rlen (snd (decodeNull b name modTime)) <= rlen b)%nat /\
  forall e, fst (decodeNull b name modTime) = Err e -> e <> ErrFuel.
Proof.
  unfold decodeNull. pose proof (ReadFull_len b 4) as Hl.
  destruct (ReadFull b 4) as [[buff|e] b1]; cbn [fst snd] in *.
  - destruct (negb _); cbn [fst snd]; split; try done; by intros ? [= <-].
  - split; [done|]. by intros ? [= <-].
Qed.

Lemma decodeNumber_loop_props fuel : forall b buff float,
  (rlen b < fuel)%nat ->
  (rlen (snd (decodeNumber_loop fuel b buff float)) <= rlen b)%nat /\
  forall e, fst (decodeNumber_loop fuel b buff float) = Err e -> e <> ErrFuel.
Proof.
  induction fuel as [|fuel IH]; intros b buff float Hfuel; [lia|].
  cbn [decodeNumber_loop].
  destruct (ReadRune b) as [[r|e] b1] eqn:E.
  - apply ReadRune_ok in E as (Hlen & Hun & _).
    destruct (negb (IsNumber r)); [destruct (negb (r =? dot))|].
    + cbn [fst snd]. unfold rlen at 1. rewrite Hun. split; [done|]. done.
    + destruct (IH b1 (buff ++ [byte_of_rune r]) true) as [? ?]; [lia|]. split; [lia|done].
    + destruct (IH b1 (buff ++ [byte_of_rune r]) float) as [? ?]; [lia|]. split; [lia|done].
  - apply ReadRune_err in E as (-> & -> & _). cbn [fst snd].
    split; [unfold rlen; simpl; lia|]. by intros ? [= <-].
Qed.

Lemma decodeNumber_props b name modTime :
  (rlen (snd (decodeNumber b name modTime)) <= rlen b)%nat /\
  forall e, fst (decodeNumber b name modTime) = Err e -> e <> ErrFuel.
Proof.
  unfold decodeNumber.
  destruct (decodeNumber_loop_props (S (length (unread b))) b [] false) as [Hl He].
  { unfold rlen. lia. }
  destruct (decodeNumber_loop _ b [] false) as [[[buff float]|e] b1]; cbn [fst snd] in *.
  - destruct (length buff =? 0)%nat; cbn [fst snd]; split; try done; by intros ? [= <-].
  - split; [done|]. intros ? [= <-]. by apply He.
Qed.

(* ===================================================================== *)
(** * Every state function pays for itself *)
(* ===================================================================== *)

(** Case analysis on the next reader operation of the goal. *)
Ltac read_step :=
  cbv zeta;
  match goal with
  | |- context [ReadRune ?rd] =>
    let E := fresh "E" in
    let r := fresh "r" in let e := fresh "e" in let b := fresh "b" in
    destruct (ReadRune rd) as [[r|e] b] eqn:E;
    [ apply ReadRune_ok in E as (? & ? & ?)
    | apply ReadRune_err in E as (-> & -> & ?) ]
  | |- context [Peek1 ?rd] =>
    let E := fresh "E" in
    let x := fresh "x" in let e := fresh "e" in let b := fresh "b" in
    destruct (Peek1 rd) as [[x|e] b] eqn:E;
    [ apply Peek1_ok in E as (-> & ? & ?)
    | apply Peek1_err in E as (-> & -> & ?) ]
  end.

Ltac len_lia :=
  unfold wlen, rlen in *; cbn [w_b with_b unread length] in *;
  repeat match goal with H : unread _ = _ |- _ => rewrite H in * end;
  cbn [length] in *; lia.

Ltac split_ifs :=
  repeat match goal with
  | |- context [if ?c then _ else _] => destruct c
  end.

Lemma wlen_with_b b w : wlen (with_b b w) = rlen b.
Proof. reflexivity. Qed.

Lemma rlen_mk l lr : rlen (mkReader l lr) = length l.
Proof. reflexivity. Qed.

Lemma dictSM_start_potential m w fn m' w' :
  dictSM_start m w = (fn, m', w') ->
  dm_err m' = dm_err m /\ wlen w' = wlen w /\ fn = Some dict_openBrace.
Proof. unfold dictSM_start. cbn. by intros [= <- <- <-]. Qed.

Lemma dictSM_openBrace_potential m w fn m' w' :
  dictSM_openBrace m w = (fn, m', w') -> dm_err m <> Some ErrFuel ->
  dm_err m' <> Some ErrFuel /\ (wlen w' <= wlen w)%nat /\
  (fn = None \/ fn = Some dict_parseKey /\ (wlen w' + 1 <= wlen w)%nat).
Proof.
  unfold dictSM_openBrace. intros H Herr.
  pose proof (skipSpace_len (w_b w)) as Hs. fold (wlen w) in Hs.
  revert H. read_step.
  - split_ifs.
    + intros [= <- <- <-]. rewrite wlen_with_b. cbn. split; [done|]. split; [lia|by left].
    + read_step.
      * split_ifs.
        -- intros [= <- <- <-]. rewrite wlen_with_b.
           pose proof (ReadRune_len (mkReader (unread b) None)) as Hr.
           rewrite rlen_mk in Hr. fold (rlen b) in Hr.
           split; [done|]. split; [lia|by left].
        -- intros [= <- <- <-]. rewrite wlen_with_b, rlen_mk. fold (rlen b).
           split; [done|]. split; [lia|]. right. split; [done|lia].
      * intros [= <- <- <-]. rewrite wlen_with_b, rlen_mk. cbn.
        split; [done|]. split; [lia|by left].
  - intros [= <- <- <-]. rewrite wlen_with_b, rlen_mk. cbn.
    split; [done|]. split; [lia|by left].
Qed.

Lemma dictSM_parseKey_potential m w fn m' w' :
  dictSM_parseKey m w = (fn, m', w') -> dm_err m <> Some ErrFuel ->
  dm_err m' <> Some ErrFuel /\ (wlen w' <= wlen w)%nat /\
  (fn = None \/ fn = Some dict_colon /\ (wlen w' + 2 <= wlen w)%nat).
Proof.
  unfold dictSM_parseKey. intros H Herr.
  pose proof (skipSpace_len (w_b w)) as Hs. fold (wlen w) in Hs.
  revert H. read_step.
  - split_ifs.
    + intros [= <- <- <-]. rewrite wlen_with_b. cbn. split; [done|]. split; [lia|by left].
    + assert (rlen (UnreadRune b) = rlen (skipSpace (w_b w))) as Hun.
      { unfold rlen. congruence. }
      destruct (getString (UnreadRune b) true) as [[s|e] b2] eqn:E.
      * apply getString_ok in E. intros [= <- <- <-]. rewrite wlen_with_b.
        cbn. split; [done|]. split; [lia|]. right. split; [done|lia].
      * apply getString_err in E as [? ?]. intros [= <- <- <-]. rewrite wlen_with_b.
        cbn. split; [congruence|]. split; [lia|by left].
  - intros [= <- <- <-]. rewrite wlen_with_b, rlen_mk. cbn.
    split; [done|]. split; [lia|by left].
Qed.

(** The states that read one rune and compare it. *)
Lemma dictSM_colon_potential m w fn m' w' :
  dictSM_colon m w = (fn, m', w') -> dm_err m <> Some ErrFuel ->
  dm_err m' <> Some ErrFuel /\ (wlen w' <= wlen w)%nat /\
  (fn = None \/ fn = Some dict_valueCheck /\ (wlen w' + 1 <= wlen w)%nat).
Proof.
  unfold dictSM_colon. intros H Herr.
  pose proof (skipSpace_len (w_b w)) as Hs. fold (wlen w) in Hs.
  revert H. read_step.
  - split_ifs; intros [= <- <- <-]; rewrite wlen_with_b; cbn;
      (split; [done|]); (split; [lia|]); [by left|right; split; [done|lia]].
  - intros [= <- <- <-]. rewrite wlen_with_b, rlen_mk. cbn.
    split; [done|]. split; [lia|by left].
Qed.

Lemma dictSM_commaClose_potential m w fn m' w' :
  dictSM_commaClose m w = (fn, m', w') -> dm_err m <> Some ErrFuel ->
  dm_err m' <> Some ErrFuel /\ (wlen w' <= wlen w)%nat /\
  (fn = None \/ fn = Some dict_braceClose \/ fn = Some dict_comma).
Proof.
  unfold dictSM_commaClose. intros H Herr.
  pose proof (skipSpace_len (w_b w)) as Hs.
  revert H. read_step.
  - cbn zeta. split_ifs; intros [= <- <- <-]; cbn [dm_err dm_set_err];
      (split; [done|]); (split; [len_lia|]); auto.
  - intros [= <- <- <-]. cbn [dm_err dm_set_err].
    split; [done|]. split; [len_lia|by left].
Qed.

Lemma dictSM_braceClose_potential m w fn m' w' :
  dictSM_braceClose m w = (fn, m', w') -> dm_err m <> Some ErrFuel ->
  dm_err m' <> Some ErrFuel /\ (wlen w' <= wlen w)%nat /\ fn = None.
Proof.
  unfold dictSM_braceClose. intros H Herr. fold (wlen w). revert H. read_step.
  - split_ifs; intros [= <- <- <-]; rewrite wlen_with_b; cbn;
      (split; [done|]); (split; [unfold wlen; lia|]); done.
  - intros [= <- <- <-]. rewrite wlen_with_b, rlen_mk. cbn.
    split; [done|]. split; [lia|done].
Qed.

Lemma dictSM_comma_potential m w fn m' w' :
  dictSM_comma m w = (fn, m', w') -> dm_err m <> Some ErrFuel ->
  dm_err m' <> Some ErrFuel /\ (wlen w' <= wlen w)%nat /\
  (fn = None \/ fn = Some dict_parseKey /\ (wlen w' + 1 <= wlen w)%nat).
Proof.
  unfold dictSM_comma. intros H Herr. revert H. read_step.
  - split_ifs; intros [= <- <- <-]; rewrite wlen_with_b; cbn;
      (split; [done|]); (split; [unfold wlen; lia|]);
      [by left|right; split; [done|unfold wlen; lia]].
  - intros [= <- <- <-]. rewrite wlen_with_b, rlen_mk. cbn.
    split; [done|]. split; [lia|by left].
Qed.

Lemma dictSM_store_potential decoded m w fn m' w' :
  dictSM_store decoded m w = (fn, m', w') -> dm_err m <> Some ErrFuel ->
  (forall e, fst decoded = Err e -> e <> ErrFuel) ->
  dm_err m' <> Some ErrFuel /\ wlen w' = rlen (snd decoded) /\
  (fn = None \/ fn = Some dict_commaClose).
Proof.
  unfold dictSM_store. destruct decoded as [[o|e] b]; intros [= <- <- <-] Herr He; cbn.
  - auto.
  - split; [|auto]. intros [= ->]. by eapply He.
Qed.

Lemma duplicateField_err dir name e :
  duplicateField dir name = Some e -> e = ErrDuplicateField name.
Proof.
  unfold duplicateField. destruct (dirs dir !! name); [by intros [= <-]|].
  destruct (files dir !! name); [by intros [= <-]|done].
Qed.

Lemma dictSM_valueCheck_potential runD runA m w fn m' w' :
  dictSM_valueCheck runD runA m w = (fn, m', w') ->
  (forall name w0, (wlen w0 <= wlen w)%nat ->
     (wlen (snd (runD name w0)) <= wlen w0)%nat /\
     dm_err (fst (runD name w0)) <> Some ErrFuel) ->
  (forall name t w0, (wlen w0 <= wlen w)%nat ->
     (wlen (snd (runA name t w0)) <= wlen w0)%nat /\
     am_err (fst (runA name t w0)) <> Some ErrFuel) ->
  dm_err m <> Some ErrFuel ->
  dm_err m' <> Some ErrFuel /\ (wlen w' <= wlen w)%nat /\
  (fn = None \/ fn = Some dict_commaClose).
Proof.
  unfold dictSM_valueCheck. intros H HD HA Herr.
  pose proof (skipSpace_len (w_b w)) as Hs. fold (wlen w) in Hs.
  pose proof (valueCheck_len (skipSpace (w_b w))) as Hv.
  revert H. destruct (valueCheck (skipSpace (w_b w))) as [[nxt|e] b] eqn:E; cbn [snd] in Hv.
  - cbn zeta. destruct (duplicateField _ _) as [e|] eqn:Edup.
    { apply duplicateField_err in Edup as ->.
      intros [= <- <- <-]. rewrite wlen_with_b. cbn. split; [done|]. split; [lia|auto]. }
    assert (wlen (with_b b w) <= wlen w)%nat as Hb by (rewrite wlen_with_b; lia).
    destruct nxt.
    + intros [= <- <- <-]. cbn [dm_err dm_set_err]. split; [done|]. split; [done|auto].
    + destruct (HD (dm_valueName m) (with_b b w) Hb) as [Hl He].
      destruct (runD _ _) as [nm w1]. cbn [fst snd] in *.
      destruct (dm_err nm) as [e|]; intros [= <- <- <-]; cbn;
        (split; [congruence|]); (split; [lia|auto]).
    + destruct (HA (dm_valueName m) (dm_modTime m) (with_b b w) Hb) as [Hl He].
      destruct (runA _ _ _) as [na w1]. cbn [fst snd] in *.
      destruct (am_err na) as [e|]; intros [= <- <- <-]; cbn;
        (split; [congruence|]); (split; [lia|auto]).
    + intros H. pose proof (decodeString_props (w_b (with_b b w)) (dm_valueName m) (dm_modTime m)) as [Hl He].
      eapply dictSM_store_potential in H as (? & Hw & ?); [|done|done].
      split; [done|]. split; [|done]. rewrite Hw. cbn [w_b with_b] in *. lia.
    + intros H. pose proof (decodeBool_props (w_b (with_b b w)) (dm_valueName m) trueNext (dm_modTime m)) as [Hl He].
      eapply dictSM_store_potential in H as (? & Hw & ?); [|done|done].
      split; [done|]. split; [|done]. rewrite Hw. cbn [w_b with_b] in *. lia.
    + intros H. pose proof (decodeBool_props (w_b (with_b b w)) (dm_valueName m) falseNext (dm_modTime m)) as [Hl He].
      eapply dictSM_store_potential in H as (? & Hw & ?); [|done|done].
      split; [done|]. split; [|done]. rewrite Hw. cbn [w_b with_b] in *. lia.
    + intros H. pose proof (decodeNumber_props (w_b (with_b b w)) (dm_valueName m) (dm_modTime m)) as [Hl He].
      eapply dictSM_store_potential in H as (? & Hw & ?); [|done|done].
      split; [done|]. split; [|done]. rewrite Hw. cbn [w_b with_b] in *. lia.
    + intros H. pose proof (decodeNull_props (w_b (with_b b w)) (dm_valueName m) (dm_modTime m)) as [Hl He].
      eapply dictSM_store_potential in H as (? & Hw & ?); [|done|done].
      split; [done|]. split; [|done]. rewrite Hw. cbn [w_b with_b] in *. lia.
  - apply valueCheck_err in E. intros [= <- <- <-]. rewrite wlen_with_b. cbn.
    split; [congruence|]. split; [lia|auto].
Qed.

Lemma arraySM_openBracket_potential m w fn m' w' :
  arraySM_openBracket m w = (fn, m', w') -> am_err m <> Some ErrFuel ->
  am_err m' <> Some ErrFuel /\ (wlen w' <= wlen w)%nat /\
  (fn = None \/ fn = Some array_valueCheck /\ (wlen w' + 1 <= wlen w)%nat).
Proof.
  unfold arraySM_openBracket. intros H Herr.
  pose proof (skipSpace_len (w_b w)) as Hs.
  revert H. read_step.
  - split_ifs.
    + intros [= <- <- <-]. cbn [am_err am_set_err]. split; [done|]. split; [len_lia|by left].
    + read_step.
      * split_ifs.
        -- intros [= <- <- <-].
           pose proof (ReadRune_len (mkReader (unread b) None)) as Hr.
           split; [done|]. split; [len_lia|by left].
        -- intros [= <- <- <-].
           split; [done|]. split; [len_lia|]. right. split; [done|len_lia].
      * intros [= <- <- <-]. cbn [am_err am_set_err].
        split; [done|]. split; [len_lia|by left].
  - intros [= <- <- <-]. cbn [am_err am_set_err].
    split; [done|]. split; [len_lia|by left].
Qed.

Lemma arraySM_commaClose_potential m w fn m' w' :
  arraySM_commaClose m w = (fn, m', w') -> am_err m <> Some ErrFuel ->
  am_err m' <> Some ErrFuel /\ (wlen w' <= wlen w)%nat /\
  (fn = None \/ fn = Some array_close \/ fn = Some array_comma).
Proof.
  unfold arraySM_commaClose. intros H Herr.
  pose proof (skipSpace_len (w_b w)) as Hs.
  revert H. read_step.
  - cbn zeta. split_ifs; intros [= <- <- <-]; cbn [am_err am_set_err];
      (split; [done|]); (split; [len_lia|]); auto.
  - intros [= <- <- <-]. cbn [am_err am_set_err].
    split; [done|]. split; [len_lia|by left].
Qed.

Lemma arraySM_close_potential m w fn m' w' :
  arraySM_close m w = (fn, m', w') -> am_err m <> Some ErrFuel ->
  am_err m' <> Some ErrFuel /\ (wlen w' <= wlen w)%nat /\ fn = None.
Proof.
  unfold arraySM_close. intros H Herr. revert H. read_step.
  - split_ifs; intros [= <- <- <-]; cbn [am_err am_set_err];
      (split; [done|]); (split; [len_lia|]); done.
  - intros [= <- <- <-]. cbn [am_err am_set_err].
    split; [done|]. split; [len_lia|done].
Qed.

Lemma arraySM_comma_potential m w fn m' w' :
  arraySM_comma m w = (fn, m', w') -> am_err m <> Some ErrFuel ->
  am_err m' <> Some ErrFuel /\ (wlen w' <= wlen w)%nat /\
  (fn = None \/ fn = Some array_valueCheck /\ (wlen w' + 1 <= wlen w)%nat).
Proof.
  unfold arraySM_comma. intros H Herr. revert H. read_step.
  - split_ifs; intros [= <- <- <-]; cbn [am_err am_set_err];
      (split; [done|]); (split; [len_lia|]);
      [by left|right; split; [done|len_lia]].
  - intros [= <- <- <-]. cbn [am_err am_set_err].
    split; [done|]. split; [len_lia|by left].
Qed.

Lemma arraySM_store_potential valueName decoded m w fn m' w' :
  arraySM_store valueName decoded m w = (fn, m', w') -> am_err m <> Some ErrFuel ->
  (forall e, fst decoded = Err e -> e <> ErrFuel) ->
  am_err m' <> Some ErrFuel /\ wlen w' = rlen (snd decoded) /\
  (fn = None \/ fn = Some array_commaClose).
Proof.
  unfold arraySM_store. destruct decoded as [[o|e] b]; intros [= <- <- <-] Herr He; cbn.
  - auto.
  - split; [|auto]. intros [= ->]. by eapply He.
Qed.

Lemma arraySM_valueCheck_body_potential runD runA m w fn m' w' :
  arraySM_valueCheck_body runD runA m w = (fn, m', w') ->
  (forall name w0, (wlen w0 <= wlen w)%nat ->
     (wlen (snd (runD name w0)) <= wlen w0)%nat /\
     dm_err (fst (runD name w0)) <> Some ErrFuel) ->
  (forall name t w0, (wlen w0 <= wlen w)%nat ->
     (wlen (snd (runA name t w0)) <= wlen w0)%nat /\
     am_err (fst (runA name t w0)) <> Some ErrFuel) ->
  am_err m <> Some ErrFuel ->
  am_err m' <> Some ErrFuel /\ (wlen w' <= wlen w)%nat /\
  (fn = None \/ fn = Some array_commaClose).
Proof.
  unfold arraySM_valueCheck_body. intros H HD HA Herr.
  pose proof (skipSpace_len (w_b w)) as Hs. fold (wlen w) in Hs.
  pose proof (valueCheck_len (skipSpace (w_b w))) as Hv.
  revert H. destruct (valueCheck (skipSpace (w_b w))) as [[nxt|e] b] eqn:E; cbn [snd] in Hv.
  - cbn zeta.
    assert (wlen (with_b b w) <= wlen w)%nat as Hb by (rewrite wlen_with_b; lia).
    destruct nxt.
    + intros [= <- <- <-]. cbn [am_err am_set_err]. split; [done|]. split; [done|auto].
    + destruct (HD (Itoa (am_item m)) (with_b b w) Hb) as [Hl He].
      destruct (runD _ _) as [nm w1]. cbn [fst snd] in *.
      destruct (dm_err nm) as [e|]; intros [= <- <- <-]; cbn;
        (split; [congruence|]); (split; [lia|auto]).
    + destruct (HA (Itoa (am_item m)) (am_modTime m) (with_b b w) Hb) as [Hl He].
      destruct (runA _ _ _) as [na w1]. cbn [fst snd] in *.
      destruct (am_err na) as [e|]; intros [= <- <- <-]; cbn;
        (split; [congruence|]); (split; [lia|auto]).
    + intros H. pose proof (decodeString_props (w_b (with_b b w)) (Itoa (am_item m)) (am_modTime m)) as [Hl He].
      eapply arraySM_store_potential in H as (? & Hw & ?); [|done|done].
      split; [done|]. split; [|done]. rewrite Hw. cbn [w_b with_b] in *. lia.
    + intros H. pose proof (decodeBool_props (w_b (with_b b w)) (Itoa (am_item m)) trueNext (am_modTime m)) as [Hl He].
      eapply arraySM_store_potential in H as (? & Hw & ?); [|done|done].
      split; [done|]. split; [|done]. rewrite Hw. cbn [w_b with_b] in *. lia.
    + intros H. pose proof (decodeBool_props (w_b (with_b b w)) (Itoa (am_item m)) falseNext (am_modTime m)) as [Hl He].
      eapply arraySM_store_potential in H as (? & Hw & ?); [|done|done].
      split; [done|]. split; [|done]. rewrite Hw. cbn [w_b with_b] in *. lia.
    + intros H. pose proof (decodeNumber_props (w_b (with_b b w)) (Itoa (am_item m)) (am_modTime m)) as [Hl He].
      eapply arraySM_store_potential in H as (? & Hw & ?); [|done|done].
      split; [done|]. split; [|done]. rewrite Hw. cbn [w_b with_b] in *. lia.
    + intros H. pose proof (decodeNull_props (w_b (with_b b w)) (Itoa (am_item m)) (am_modTime m)) as [Hl He].
      eapply arraySM_store_potential in H as (? & Hw & ?); [|done|done].
      split; [done|]. split; [|done]. rewrite Hw. cbn [w_b with_b] in *. lia.
  - apply valueCheck_err in E. intros [= <- <- <-]. rewrite wlen_with_b. cbn.
    split; [congruence|]. split; [lia|auto].
Qed.

(** The potential of a run: four calls per unread byte and the weight of
    the state.  Every call of a state function lowers it. *)
Lemma dictSM_call_potential runD runA st m w fn m' w' :
  dictSM_call runD runA st m w = (fn, m', w') ->
  (forall name w0, (wlen w0 <= wlen w)%nat ->
     (wlen (snd (runD name w0)) <= wlen w0)%nat /\
     dm_err (fst (runD name w0)) <> Some ErrFuel) ->
  (forall name t w0, (wlen w0 <= wlen w)%nat ->
     (wlen (snd (runA name t w0)) <= wlen w0)%nat /\
     am_err (fst (runA name t w0)) <> Some ErrFuel) ->
  dm_err m <> Some ErrFuel ->
  dm_err m' <> Some ErrFuel /\ (wlen w' <= wlen w)%nat /\
  match fn with
  | None => True
  | Some st' =>
    (4 * wlen w' + dict_weight st' + 1 <= 4 * wlen w + dict_weight st)%nat
  end.
Proof.
  intros H HD HA Herr. destruct st; cbn [dictSM_call] in H.
  - apply dictSM_start_potential in H as (-> & -> & ->). repeat split; try done; simpl; lia.
  - apply dictSM_openBrace_potential in H as (? & ? & [-> | [-> ?]]); [| |done];
      repeat split; try done; simpl; lia.
  - apply dictSM_parseKey_potential in H as (? & ? & [-> | [-> ?]]); [| |done];
      repeat split; try done; simpl; lia.
  - apply dictSM_colon_potential in H as (? & ? & [-> | [-> ?]]); [| |done];
      repeat split; try done; simpl; lia.
  - eapply dictSM_valueCheck_potential in H as (? & ? & [-> | ->]); [| |done..];
      repeat split; try done; simpl; lia.
  - apply dictSM_commaClose_potential in H as (? & ? & [-> | [-> | ->]]); [| | |done];
      repeat split; try done; simpl; lia.
  - apply dictSM_braceClose_potential in H as (? & ? & ->); [|done]. done.
  - apply dictSM_comma_potential in H as (? & ? & [-> | [-> ?]]); [| |done];
      repeat split; try done; simpl; lia.
Qed.

Lemma arraySM_call_potential runD runA st m w fn m' w' :
  arraySM_call runD runA st m w = (fn, m', w') ->
  (forall name w0, (wlen w0 <= wlen w)%nat ->
     (wlen (snd (runD name w0)) <= wlen w0)%nat /\
     dm_err (fst (runD name w0)) <> Some ErrFuel) ->
  (forall name t w0, (wlen w0 <= wlen w)%nat ->
     (wlen (snd (runA name t w0)) <= wlen w0)%nat /\
     am_err (fst (runA name t w0)) <> Some ErrFuel) ->
  am_err m <> Some ErrFuel ->
  am_err m' <> Some ErrFuel /\ (wlen w' <= wlen w)%nat /\
  match fn with
  | None => True
  | Some st' =>
    (4 * wlen w' + array_weight st' + 1 <= 4 * wlen w + array_weight st)%nat
  end.
Proof.
  intros H HD HA Herr. destruct st; cbn [arraySM_call] in H.
  - unfold arraySM_start in H. injection H as <- <- <-. repeat split; try done; simpl; lia.
  - apply arraySM_openBracket_potential in H as (? & ? & [-> | [-> ?]]); [| |done];
      repeat split; try done; simpl; lia.
  - unfold arraySM_valueCheck in H.
    destruct (arraySM_valueCheck_body runD runA m w) as [[fn0 m0] w0] eqn:E.
    injection H as <- <- <-.
    eapply arraySM_valueCheck_body_potential in E as (? & ? & [-> | ->]); [| |done..];
      repeat split; try done; simpl; lia.
  - apply arraySM_commaClose_potential in H as (? & ? & [-> | [-> | ->]]); [| | |done];
      repeat split; try done; simpl; lia.
  - apply arraySM_close_potential in H as (? & ? & ->); [|done]. done.
  - apply arraySM_comma_potential in H as (? & ? & [-> | [-> ?]]); [| |done];
      repeat split; try done; simpl; lia.
Qed.

(* ===================================================================== *)
(** * The bound of [UnmarshalJSON] is never reached *)
(* ===================================================================== *)

Lemma runSM_total fuel :
  (forall st m w,
     (4 * wlen w + dict_weight st <= fuel)%nat -> dm_err m <> Some ErrFuel ->
     dm_err (fst (runSM_dict fuel st m w)) <> Some ErrFuel /\
     (wlen (snd (runSM_dict fuel st m w)) <= wlen w)%nat) /\
  (forall st m w,
     (4 * wlen w + array_weight st <= fuel)%nat -> am_err m <> Some ErrFuel ->
     am_err (fst (runSM_array fuel st m w)) <> Some ErrFuel /\
     (wlen (snd (runSM_array fuel st m w)) <= wlen w)%nat).
Proof.
  induction fuel as [|fuel [IHd IHa]].
  { split; intros [] m w Hf; simpl in Hf; lia. }
  split; intros st m w Hfuel Herr.
  - rewrite runSM_dict_S.
    destruct (dictSM_call _ _ st m w) as [[fn m1] w1] eqn:E.
    assert (st = dict_valueCheck \/ st <> dict_valueCheck) as [->|Hst]
      by (destruct st; auto).
    + eapply dictSM_call_potential in E as (He & Hl & Hpot); [| | |done].
      * destruct fn as [st'|]; cbn [fst snd]; [|done].
        destruct (IHd st' m1 w1) as [? ?]; [simpl in *; lia|done|]. split; [done|lia].
      * intros name w0 Hw0. cbn beta.
        destruct (IHd dict_start (dictSM_reset name) w0) as [? ?];
          [simpl in *; lia|done|]. done.
      * intros name t w0 Hw0. cbn beta.
        destruct (IHa array_start (arraySM_reset name t) w0) as [? ?];
          [simpl in *; lia|done|]. done.
    + assert (forall rD rA, dictSM_call rD rA st m w =
                dictSM_call (fun _ w0 => (dictSM_reset EmptyString, w0))
                            (fun _ _ w0 => (arraySM_reset EmptyString 0, w0)) st m w) as Hind.
      { intros. destruct st; done. }
      rewrite Hind in E.
      eapply dictSM_call_potential in E as (He & Hl & Hpot); [| | |done].
      * destruct fn as [st'|]; cbn [fst snd]; [|done].
        destruct (IHd st' m1 w1) as [? ?]; [simpl in *; lia|done|]. split; [done|lia].
      * intros name w0 Hw0. cbn. done.
      * intros name t w0 Hw0. cbn. done.
  - rewrite runSM_array_S.
    destruct (arraySM_call _ _ st m w) as [[fn m1] w1] eqn:E.
    assert (st = array_valueCheck \/ st <> array_valueCheck) as [->|Hst]
      by (destruct st; auto).
    + eapply arraySM_call_potential in E as (He & Hl & Hpot); [| | |done].
      * destruct fn as [st'|]; cbn [fst snd]; [|done].
        destruct (IHa st' m1 w1) as [? ?]; [simpl in *; lia|done|]. split; [done|lia].
      * intros name w0 Hw0. cbn beta.
        destruct (IHd dict_start (dictSM_reset name) w0) as [? ?];
          [simpl in *; lia|done|]. done.
      * intros name t w0 Hw0. cbn beta.
        destruct (IHa array_start (arraySM_reset name t) w0) as [? ?];
          [simpl in *; lia|done|]. done.
    + assert (forall rD rA, arraySM_call rD rA st m w =
                arraySM_call (fun _ w0 => (dictSM_reset EmptyString, w0))
                             (fun _ _ w0 => (arraySM_reset EmptyString 0, w0)) st m w) as Hind.
      { intros. destruct st; done. }
      rewrite Hind in E.
      eapply arraySM_call_potential in E as (He & Hl & Hpot); [| | |done].
      * destruct fn as [st'|]; cbn [fst snd]; [|done].
        destruct (IHa st' m1 w1) as [? ?]; [simpl in *; lia|done|]. split; [done|lia].
      * intros name w0 Hw0. cbn. done.
      * intros name t w0 Hw0. cbn. done.
Qed.

(** [UnmarshalJSON] never stops for lack of fuel, and never un-reads. *)
Theorem UnmarshalJSON_total w :
  fst (UnmarshalJSON w) <> Err ErrFuel /\ (wlen (snd (UnmarshalJSON w)) <= wlen w)%nat.
Proof.
  unfold UnmarshalJSON.
  destruct (proj1 (runSM_total (decodeFuel (w_b w))) dict_start (dictSM_reset EmptyString) w)
    as [He Hl]; [unfold decodeFuel, wlen, rlen; simpl; lia|done|].
  destruct (runSM_dict _ _ _ w) as [m w1]. cbn [fst snd] in *.
  destruct (dm_err m) as [e|]; cbn [fst snd]; split; try done. congruence.
Qed.

(* ===================================================================== *)
(** * A run that ends within its bound does not depend on the bound *)
(* ===================================================================== *)

Lemma is_ErrFuel_dec (e : error) : e = ErrFuel \/ e <> ErrFuel.
Proof. destruct e; (by left) || (by right). Qed.

(** Two ways to run the nested machines give the same call, unless a
    nested run of the first way ended for lack of fuel. *)
Lemma dictSM_call_ext runD runA runD' runA' st m w :
  (forall name w0, dm_err (fst (runD name w0)) <> Some ErrFuel ->
     runD' name w0 = runD name w0) ->
  (forall name t w0, am_err (fst (runA name t w0)) <> Some ErrFuel ->
     runA' name t w0 = runA name t w0) ->
  dictSM_call runD' runA' st m w = dictSM_call runD runA st m w \/
  exists m1 w1, dictSM_call runD runA st m w = (None, m1, w1) /\
                dm_err m1 = Some ErrFuel.
Proof.
  intros HD HA. destruct st; try (by left).
  cbn [dictSM_call]. unfold dictSM_valueCheck.
  destruct (valueCheck _) as [[nxt|e] b]; [|by left]. cbv zeta.
  destruct (duplicateField _ _); [by left|].
  destruct nxt; try (by left).
  - specialize (HD (dm_valueName m) (with_b b w)).
    destruct (runD _ _) as [nm w1] eqn:E. cbn [fst] in HD.
    destruct (dm_err nm) as [e|] eqn:Ee.
    + destruct (is_ErrFuel_dec e) as [->|Hne].
      * right. eauto.
      * left. rewrite HD by congruence. by rewrite Ee.
    + left. rewrite HD by congruence. by rewrite Ee.
  - specialize (HA (dm_valueName m) (dm_modTime m) (with_b b w)).
    destruct (runA _ _ _) as [na w1] eqn:E. cbn [fst] in HA.
    destruct (am_err na) as [e|] eqn:Ee.
    + destruct (is_ErrFuel_dec e) as [->|Hne].
      * right. eauto.
      * left. rewrite HA by congruence. by rewrite Ee.
    + left. rewrite HA by congruence. by rewrite Ee.
Qed.

Lemma arraySM_call_ext runD runA runD' runA' st m w :
  (forall name w0, dm_err (fst (runD name w0)) <> Some ErrFuel ->
     runD' name w0 = runD name w0) ->
  (forall name t w0, am_err (fst (runA name t w0)) <> Some ErrFuel ->
     runA' name t w0 = runA name t w0) ->
  arraySM_call runD' runA' st m w = arraySM_call runD runA st m w \/
  exists m1 w1, arraySM_call runD runA st m w = (None, m1, w1) /\
                am_err m1 = Some ErrFuel.
Proof.
  intros HD HA. destruct st; try (by left).
  cbn [arraySM_call]. unfold arraySM_valueCheck, arraySM_valueCheck_body.
  destruct (valueCheck _) as [[nxt|e] b]; [|by left]. cbv zeta.
  destruct nxt; try (by left).
  - specialize (HD (Itoa (am_item m)) (with_b b w)).
    destruct (runD _ _) as [nm w1] eqn:E. cbn [fst] in HD.
    destruct (dm_err nm) as [e|] eqn:Ee.
    + destruct (is_ErrFuel_dec e) as [->|Hne].
      * right. eauto.
      * left. rewrite HD by congruence. by rewrite Ee.
    + left. rewrite HD by congruence. by rewrite Ee.
  - specialize (HA (Itoa (am_item m)) (am_modTime m) (with_b b w)).
    destruct (runA _ _ _) as [na w1] eqn:E. cbn [fst] in HA.
    destruct (am_err na) as [e|] eqn:Ee.
    + destruct (is_ErrFuel_dec e) as [->|Hne].
      * right. eauto.
      * left. rewrite HA by congruence. by rewrite Ee.
    + left. rewrite HA by congruence. by rewrite Ee.
Qed.

Lemma runSM_more_fuel_S fuel :
  (forall st m w, dm_err (fst (runSM_dict fuel st m w)) <> Some ErrFuel ->
     runSM_dict (S fuel) st m w = runSM_dict fuel st m w) /\
  (forall st m w, am_err (fst (runSM_array fuel st m w)) <> Some ErrFuel ->
     runSM_array (S fuel) st m w = runSM_array fuel st m w).
Proof.
  induction fuel as [|fuel [IHd IHa]].
  { split; intros st m w H; exfalso; apply H; reflexivity. }
  split; intros st m w H.
  - rewrite (runSM_dict_S (S fuel)). rewrite (runSM_dict_S fuel) in H |- *.
    destruct (dictSM_call_ext
      (fun name w => runSM_dict fuel dict_start (dictSM_reset name) w)
      (fun name modTime w => runSM_array fuel array_start (arraySM_reset name modTime) w)
      (fun name w => runSM_dict (S fuel) dict_start (dictSM_reset name) w)
      (fun name modTime w => runSM_array (S fuel) array_start (arraySM_reset name modTime) w)
      st m w) as [->|(m1 & w1 & E & Herr)]; [intros; by apply IHd|intros; by apply IHa| |].
    + destruct (dictSM_call _ _ st m w) as [[[st'|] m1] w1]; [|done].
      by apply IHd.
    + rewrite E in H. cbn [fst] in H. done.
  - rewrite (runSM_array_S (S fuel)). rewrite (runSM_array_S fuel) in H |- *.
    destruct (arraySM_call_ext
      (fun name w => runSM_dict fuel dict_start (dictSM_reset name) w)
      (fun name modTime w => runSM_array fuel array_start (arraySM_reset name modTime) w)
      (fun name w => runSM_dict (S fuel) dict_start (dictSM_reset name) w)
      (fun name modTime w => runSM_array (S fuel) array_start (arraySM_reset name modTime) w)
      st m w) as [->|(m1 & w1 & E & Herr)]; [intros; by apply IHd|intros; by apply IHa| |].
    + destruct (arraySM_call _ _ st m w) as [[[st'|] m1] w1]; [|done].
      by apply IHa.
    + rewrite E in H. cbn [fst] in H. done.
Qed.

Lemma runSM_dict_more_fuel fuel fuel' st m w :
  (fuel <= fuel')%nat -> dm_err (fst (runSM_dict fuel st m w)) <> Some ErrFuel ->
  runSM_dict fuel' st m w = runSM_dict fuel st m w.
Proof.
  induction 1 as [|fuel' _ IH]; intros H; [done|].
  rewrite <-(IH H). apply runSM_more_fuel_S. by rewrite (IH H).
Qed.

Lemma runSM_array_more_fuel fuel fuel' st m w :
  (fuel <= fuel')%nat -> am_err (fst (runSM_array fuel st m w)) <> Some ErrFuel ->
  runSM_array fuel' st m w = runSM_array fuel st m w.
Proof.
  induction 1 as [|fuel' _ IH]; intros H; [done|].
  rewrite <-(IH H). apply runSM_more_fuel_S. by rewrite (IH H).
Qed.

(** What a run of an unnamed top-level machine gives, with any bound it
    does not reach, is what [UnmarshalJSON] gives. *)
Lemma UnmarshalJSON_run fuel w m w' :
  runSM_dict fuel dict_start (dictSM_reset EmptyString) w = (m, w') ->
  dm_err m <> Some ErrFuel ->
  UnmarshalJSON w =
  (match dm_err m with Some e => Err e | None => Ok (dm_dir m) end, w').
Proof.
  intros Hrun Herr. unfold UnmarshalJSON.
  destruct (proj1 (runSM_total (decodeFuel (w_b w))) dict_start (dictSM_reset EmptyString) w)
    as [He _]; [unfold decodeFuel, wlen, rlen; simpl; lia|done|].
  destruct (Nat.le_ge_cases fuel (decodeFuel (w_b w))) as [Hle|Hle].
  - rewrite (runSM_dict_more_fuel _ _ _ _ _ Hle), Hrun by (by rewrite Hrun).
    by destruct (dm_err m).
  - rewrite <-(runSM_dict_more_fuel _ _ _ _ _ Hle He), Hrun.
    by destruct (dm_err m).
Qed.

(* ===================================================================== *)
(** * Bytes *)
(* ===================================================================== *)

Lemma rune_of_byte_range c : 0 <= rune_of_byte c < 256.
Proof.
  unfold rune_of_byte. pose proof (N_ascii_bounded c). lia.
Qed.

Lemma byte_of_rune_of_byte c : byte_of_rune (rune_of_byte c) = c.
Proof.
  unfold byte_of_rune. pose proof (rune_of_byte_range c).
  rewrite Z.mod_small by lia. unfold rune_of_byte.
  rewrite N2Z.id. apply ascii_N_embedding.
Qed.

Lemma rune_of_byte_inj c c' : rune_of_byte c = rune_of_byte c' -> c = c'.
Proof.
  intros H. by rewrite <-(byte_of_rune_of_byte c), H, byte_of_rune_of_byte.
Qed.

Lemma eqb_quoteByte c :
  Ascii.eqb c quoteByte = (rune_of_byte c =? doubleQuote).
Proof.
  destruct (Ascii.eqb_spec c quoteByte) as [->|Hne]; [done|].
  destruct (Z.eqb_spec (rune_of_byte c) doubleQuote) as [E|]; [|done].
  destruct Hne. by apply rune_of_byte_inj.
Qed.

Lemma IsNumber_digit c : is_digit c = true -> IsNumber (rune_of_byte c) = true.
Proof.
  unfold is_digit, IsNumber. intros H%andb_prop. destruct H as [H1 H2].
  rewrite H1, H2. apply Z.leb_le in H1, H2.
  destruct (Z.leb_spec 0 (rune_of_byte c)); [|lia].
  destruct (Z.leb_spec (rune_of_byte c) 255); [|lia]. done.
Qed.

Lemma is_digit_ascii c : is_digit c = true -> rune_of_byte c < 128.
Proof. unfold is_digit. intros [H1 H2%Z.leb_le]%andb_prop. lia. Qed.

(* ===================================================================== *)
(** * Reading ASCII text *)
(* ===================================================================== *)

Lemma skipSpace_nonspace c l lr :
  rune_of_byte c < 128 -> IsSpace (rune_of_byte c) = false ->
  skipSpace (mkReader (c :: l) lr) = mkReader (c :: l) None.
Proof.
  intros Hc Hsp. unfold skipSpace. cbn [unread length skipSpace_loop].
  rewrite ReadRune_ascii, Hsp by done. reflexivity.
Qed.

Lemma is_terminator_spec c :
  is_terminator c = true ->
  rune_of_byte c < 128 /\ IsSpace (rune_of_byte c) = false /\
  IsNumber (rune_of_byte c) = false /\ (rune_of_byte c =? dot) = false.
Proof.
  unfold is_terminator. intros [[[H1%Z.ltb_lt H2%negb_true_iff]%andb_prop H3%negb_true_iff]%andb_prop
                                  H4%negb_true_iff]%andb_prop. done.
Qed.

(** ** Strings *)

Lemma split_delim_noquote seg tl :
  noquote seg = true ->
  split_delim quoteByte (seg ++ quoteByte :: tl) = Some (seg ++ [quoteByte], tl).
Proof.
  induction seg as [|c seg IH]; intros H; simpl.
  - done.
  - simpl in H. apply andb_prop in H as [Hc Hseg].
    apply negb_true_iff in Hc. fold quoteByte. rewrite Hc, (IH Hseg). done.
Qed.

Lemma split_delim_spec l s r :
  split_delim quoteByte l = Some (s, r) ->
  exists seg, s = seg ++ [quoteByte] /\ l = seg ++ quoteByte :: r /\ noquote seg = true.
Proof.
  revert s r. induction l as [|c l IH]; intros s r; simpl; [discriminate|].
  destruct (Ascii.eqb_spec c quoteByte) as [->|Hne].
  - intros [= <- <-]. by exists [].
  - destruct (split_delim quoteByte l) as [[s' r']|]; [|discriminate].
    intros [= <- <-]. destruct (IH _ _ eq_refl) as (seg & -> & -> & Hseg).
    exists (c :: seg). repeat split. simpl. rewrite Hseg.
    by destruct (Ascii.eqb_spec c quoteByte).
Qed.

Lemma first_quote raw :
  noquote raw = true \/
  exists seg raw', raw = seg ++ quoteByte :: raw' /\ noquote seg = true.
Proof.
  induction raw as [|c raw IH]; [by left|].
  destruct (Ascii.eqb_spec c quoteByte) as [->|Hne].
  - right. by exists [], raw.
  - assert (negb (Ascii.eqb c quoteByte) = true) as Hc
      by (by destruct (Ascii.eqb_spec c quoteByte)).
    destruct IH as [H|(seg & raw' & -> & H)].
    + left. simpl. by rewrite Hc, H.
    + right. exists (c :: seg), raw'. split; [done|]. simpl. by rewrite Hc, H.
Qed.

Lemma escaped_from_noquote seg : forall esc tl,
  noquote seg = true ->
  escaped_from esc (seg ++ tl) = escaped_from (esc_after esc seg) tl.
Proof.
  induction seg as [|c seg IH]; intros esc tl H; [done|].
  simpl in H. apply andb_prop in H as [Hc Hseg].
  rewrite eqb_quoteByte in Hc. apply negb_true_iff in Hc.
  simpl. destruct (rune_of_byte c =? backslash); [by apply IH|].
  rewrite Hc. by apply IH.
Qed.

Lemma esc_after_snoc esc seg c :
  esc_after esc (seg ++ [c]) =
  if rune_of_byte c =? backslash then negb (esc_after esc seg) else false.
Proof.
  revert esc. induction seg as [|c' seg IH]; intros esc; simpl; [done|]. apply IH.
Qed.

Lemma trailing_backslashes_snoc seg c :
  trailing_backslashes (seg ++ [c]) =
  if rune_of_byte c =? backslash then S (trailing_backslashes seg) else O.
Proof. unfold trailing_backslashes. by rewrite rev_unit. Qed.

Lemma esc_after_parity seg :
  esc_after false seg = Nat.odd (trailing_backslashes seg).
Proof.
  induction seg as [|c seg IH] using rev_ind; [done|].
  rewrite esc_after_snoc, trailing_backslashes_snoc, IH.
  destruct (rune_of_byte c =? backslash); [|done].
  by rewrite Nat.odd_succ, <-Nat.negb_odd.
Qed.

Lemma escaped_ok_noquote seg :
  noquote seg = true -> escaped_ok seg = isQuote (seg ++ [quoteByte]).
Proof.
  intros H. unfold escaped_ok.
  rewrite <-(app_nil_r seg) at 1. rewrite (escaped_from_noquote seg false [] H).
  simpl. rewrite esc_after_parity, isQuote_snoc. by rewrite Nat.negb_odd.
Qed.

Lemma escaped_ok_quote seg raw' :
  noquote seg = true ->
  escaped_ok (seg ++ quoteByte :: raw') =
  negb (isQuote (seg ++ [quoteByte])) && escaped_ok raw'.
Proof.
  intros H. unfold escaped_ok.
  rewrite (escaped_from_noquote seg false _ H). simpl.
  rewrite esc_after_parity, isQuote_snoc, Nat.negb_even. done.
Qed.

(** The text of a string between quotes is read back as it is. *)
Lemma getString_rec_escaped fuel : forall raw rest lr,
  escaped_ok raw = true -> (length raw < fuel)%nat ->
  getString_rec fuel (mkReader (raw ++ quoteByte :: rest) lr) false =
  (Ok raw, mkReader rest None).
Proof.
  induction fuel as [|fuel IH]; intros raw rest lr Hok Hfuel; [lia|].
  cbn [getString_rec]. unfold ReadBytes. cbn [unread]. fold quoteByte.
  destruct (first_quote raw) as [Hnq|(seg & raw' & -> & Hnq)].
  - rewrite (split_delim_noquote raw rest Hnq).
    rewrite escaped_ok_noquote in Hok by done. rewrite Hok. cbn [negb].
    rewrite length_app. simpl length.
    replace (length raw + 1 - 1)%nat with (length raw) by lia.
    by rewrite take_app_length.
  - rewrite <-app_assoc. cbn [app].
    rewrite (split_delim_noquote seg (raw' ++ quoteByte :: rest) Hnq).
    rewrite escaped_ok_quote in Hok by done.
    apply andb_prop in Hok as [Hq Hraw']. rewrite Hq.
    rewrite (IH raw' rest None Hraw').
    + by rewrite <-app_assoc.
    + rewrite length_app in Hfuel. simpl in Hfuel. lia.
Qed.

Lemma getString_quoted raw rest lr :
  escaped_ok raw = true ->
  getString (mkReader (quoted raw ++ rest) lr) true = (Ok raw, mkReader rest None).
Proof.
  intros Hok. unfold getString, quoted. cbn [unread app length].
  cbn [getString_rec]. rewrite ReadRune_ascii by done.
  rewrite <-app_assoc. cbn [app].
  pose proof (getString_rec_escaped (S (S (length (raw ++ quoteByte :: rest)))) raw rest
                (Some [quoteByte]) Hok) as H.
  cbn [getString_rec] in H. apply H. rewrite length_app. simpl. lia.
Qed.

(** What [getString] returns is the content of a string. *)
Lemma getString_rec_is_escaped fuel : forall b s b1,
  getString_rec fuel b false = (Ok s, b1) -> escaped_ok s = true.
Proof.
  induction fuel as [|fuel IH]; intros b s b1; [discriminate|].
  cbn [getString_rec]. unfold ReadBytes. fold quoteByte.
  destruct (split_delim quoteByte (unread b)) as [[s0 r]|] eqn:E; [|discriminate].
  apply split_delim_spec in E as (seg & -> & _ & Hnq).
  destruct (isQuote (seg ++ [quoteByte])) eqn:Hq; cbn [negb].
  - intros [= <- <-]. rewrite length_app. simpl length.
    replace (length seg + 1 - 1)%nat with (length seg) by lia.
    rewrite take_app_length. by rewrite escaped_ok_noquote.
  - destruct (getString_rec fuel _ false) as [[buff|e] b2] eqn:E2; [|discriminate].
    intros [= <- <-]. rewrite <-app_assoc. cbn [app].
    rewrite escaped_ok_quote, Hq by done. by rewrite (IH _ _ _ E2).
Qed.

Lemma getString_is_escaped b s b1 :
  getString b true = (Ok s, b1) -> escaped_ok s = true.
Proof.
  unfold getString. generalize (length (unread b)). intros n.
  cbn [getString_rec]. destruct (ReadRune b) as [[r|e] b0]; [|discriminate].
  intros H.
  apply (getString_rec_is_escaped (S n) b0 s b1). exact H.
Qed.

(** ** Numbers *)

Lemma decodeNumber_loop_plain raw : forall fuel buff float term rest lr,
  forallb (fun c => is_digit c || is_dot c) raw = true ->
  is_terminator term = true -> (length raw < fuel)%nat ->
  decodeNumber_loop fuel (mkReader (raw ++ term :: rest) lr) buff float =
  (Ok (buff ++ raw, float || has_dot raw), mkReader (term :: rest) None).
Proof.
  induction raw as [|c raw IH]; intros fuel buff float term rest lr Hraw Hterm Hfuel.
  - destruct fuel; [simpl in Hfuel; lia|]. cbn [app decodeNumber_loop].
    apply is_terminator_spec in Hterm as (Hc & _ & Hn & Hd).
    rewrite ReadRune_ascii, Hn, Hd by done. cbn [negb].
    rewrite app_nil_r, orb_false_r. done.
  - destruct fuel; [simpl in Hfuel; lia|]. cbn [app decodeNumber_loop].
    simpl in Hraw. apply andb_prop in Hraw as [Hc Hraw].
    assert (rune_of_byte c < 128) as Hascii.
    { apply orb_prop in Hc as [Hc|Hc]; [by apply is_digit_ascii|].
      unfold is_dot in Hc. apply Z.eqb_eq in Hc. rewrite Hc. done. }
    rewrite ReadRune_ascii by done. rewrite byte_of_rune_of_byte.
    destruct (is_digit c) eqn:Hdig.
    + rewrite (IsNumber_digit c Hdig). cbn [negb].
      rewrite (IH fuel) by (try done; simpl in Hfuel; lia).
      rewrite <-app_assoc. cbn [app has_dot existsb].
      assert (is_dot c = false) as ->.
      { unfold is_dot, is_digit in *. apply andb_prop in Hdig as [H1%Z.leb_le H2%Z.leb_le].
        apply Z.eqb_neq. unfold dot. lia. }
      done.
    + cbn [orb] in Hc. pose proof Hc as Hdot. unfold is_dot in Hdot.
      assert (IsNumber (rune_of_byte c) = false) as ->.
      { apply Z.eqb_eq in Hdot. rewrite Hdot. done. }
      cbn [negb]. rewrite Hdot. cbn [negb].
      rewrite (IH fuel) by (try done; simpl in Hfuel; lia).
      rewrite <-app_assoc. cbn [app has_dot existsb]. rewrite Hc.
      by rewrite orb_true_r.
Qed.

Lemma decodeNumber_plain raw term rest lr name modTime :
  number_ok raw = true -> is_terminator term = true ->
  decodeNumber (mkReader (raw ++ term :: rest) lr) name modTime =
  (Ok (mkFile name modTime (if has_dot raw then FTFloat else FTInt) raw),
   mkReader (term :: rest) None).
Proof.
  intros Hraw Hterm. unfold decodeNumber. cbn [unread].
  destruct raw as [|c raw]; [done|].
  unfold number_ok in Hraw. apply andb_prop in Hraw as [_ Hraw].
  rewrite (decodeNumber_loop_plain (c :: raw)); [|done|done|rewrite length_app; simpl; lia].
  done.
Qed.

(* ===================================================================== *)
(** * C3: the quote that ends a string *)
(* ===================================================================== *)

(** What [getString] returns does not depend on a bound it does not
    reach. *)
Lemma getString_rec_fuel fuel : forall fuel' b,
  (rlen b < fuel)%nat -> (rlen b < fuel')%nat ->
  getString_rec fuel b false = getString_rec fuel' b false.
Proof.
  induction fuel as [|fuel IH]; intros fuel' b Hf Hf'; [lia|].
  destruct fuel' as [|fuel']; [lia|]. cbn [getString_rec].
  destruct (ReadBytes b (byte_of_rune doubleQuote)) as [[s|e] b1] eqn:E; [|done].
  destruct (negb (isQuote s)); [|done].
  apply ReadBytes_ok in E as (Hu & Hs & _).
  assert (rlen b1 < rlen b)%nat as Hlt.
  { unfold rlen. rewrite Hu, length_app. destruct s; [done|]. cbn [length]. lia. }
  rewrite (IH fuel' b1) by lia. done.
Qed.

Lemma getString_rec_first fuel c l lr :
  rune_of_byte c < 128 ->
  getString_rec (S fuel) (mkReader (c :: l) lr) true =
  getString_rec (S fuel) (mkReader l (Some [c])) false.
Proof. intros Hc. cbn [getString_rec]. by rewrite ReadRune_ascii. Qed.

(** [getString] at a segment without a quote, the quote after it, and
    what follows. *)
Lemma getString_at_quote seg rest lr :
  noquote seg = true ->
  getString (mkReader (seg ++ quoteByte :: rest) lr) false =
  if Nat.even (trailing_backslashes seg) then (Ok seg, mkReader rest None)
  else match getString (mkReader rest None) false with
       | (Ok buff, b) => (Ok (seg ++ quoteByte :: buff), b)
       | (Err e, b) => (Err e, b)
       end.
Proof.
  intros Hnq.
  assert (getString (mkReader rest None) false =
          getString_rec (S (length rest)) (mkReader rest None) false) as HR by reflexivity.
  set (R := getString (mkReader rest None) false) in *.
  unfold getString. cbn [unread getString_rec].
  unfold ReadBytes. cbn [unread]. fold quoteByte.
  rewrite (split_delim_noquote seg rest Hnq), isQuote_snoc.
  destruct (Nat.even (trailing_backslashes seg)); cbn [negb].
  - rewrite length_app. cbn [length].
    replace (length seg + 1 - 1)%nat with (length seg) by lia.
    by rewrite take_app_length.
  - rewrite (getString_rec_fuel _ (S (length rest)) (mkReader rest None))
      by (unfold rlen; cbn [unread]; rewrite ?length_app; cbn [length]; lia).
    rewrite <-HR. destruct R as [[buff|e] b]; [|done].
    by rewrite <-app_assoc.
Qed.

(** C3.  For a byte sequence that ends in a double quote, [isQuote] says
    that the quote ends the string exactly when the number of backslashes
    right before it is even, and [getString] acts on that answer: reading
    a segment without a quote and the quote after it, it stops at the
    quote and returns the segment when that number is even, and when it is
    odd it keeps the quote as content and goes on reading behind it (so
    the string ends at a later quote, or the call fails with the error of
    the rest).  This holds for the call on the rest of a string
    ([deleteFirst] false) and for the call of [decodeString] on the
    opening quote.  On the four fragments of [TestIsQuote] the answer is
    no, yes, no, yes. *)
Theorem C3_quote_ends_string_iff_even_backslashes :
  (forall pre : list byte,
     isQuote (pre ++ [quoteByte]) = Nat.even (trailing_backslashes pre)) /\
  (forall (seg rest : list byte) (lr : option (list byte)),
     noquote seg = true ->
     getString (mkReader (seg ++ quoteByte :: rest) lr) false =
     if Nat.even (trailing_backslashes seg) then (Ok seg, mkReader rest None)
     else match getString (mkReader rest None) false with
          | (Ok buff, b) => (Ok (seg ++ quoteByte :: buff), b)
          | (Err e, b) => (Err e, b)
          end) /\
  (forall (seg rest : list byte) (lr : option (list byte)),
     noquote seg = true ->
     getString (mkReader (quoteByte :: seg ++ quoteByte :: rest) lr) true =
     if Nat.even (trailing_backslashes seg) then (Ok seg, mkReader rest None)
     else match getString (mkReader rest None) false with
          | (Ok buff, b) => (Ok (seg ++ quoteByte :: buff), b)
          | (Err e, b) => (Err e, b)
          end) /\
  isQuote (bytes "\'") = false /\
  isQuote (bytes "\\'") = true /\
  isQuote (bytes "\\\'") = false /\
  isQuote (bytes "\\\\'") = true.
Proof.
  split; [intros; apply isQuote_snoc|].
  split; [intros; by apply getString_at_quote|].
  split; [|repeat split].
  intros seg rest lr Hnq. rewrite <-(getString_at_quote seg rest (Some [quoteByte]) Hnq).
  unfold getString. cbn [unread length].
  rewrite getString_rec_first by done.
  apply getString_rec_fuel; unfold rlen; cbn [unread]; lia.
Qed.

Lemma C3_witness :
  noquote (bytes "a\") = true /\ Nat.even (trailing_backslashes (bytes "a\")) = false /\
  noquote (bytes "b") = true /\ Nat.even (trailing_backslashes (bytes "b")) = true /\
  getString (mkReader (bytes "'a\'b'c") None) true = (Ok (bytes "a\'b"), mkReader (bytes "c") None).
Proof.
  destruct C3_quote_ends_string_iff_even_backslashes as (_ & Hrest & Hfirst & _).
  split; [reflexivity|]. split; [reflexivity|]. split; [reflexivity|]. split; [reflexivity|].
  change (bytes "'a\'b'c") with (quoteByte :: bytes "a\" ++ quoteByte :: bytes "b'c").
  rewrite (Hfirst (bytes "a\") (bytes "b'c") None eq_refl).
  change (Nat.even (trailing_backslashes (bytes "a\"))) with false. cbv iota.
  change (bytes "b'c") with (bytes "b" ++ quoteByte :: bytes "c").
  rewrite (Hrest (bytes "b") (bytes "c") None eq_refl).
  reflexivity.
Defined.

(* ===================================================================== *)
(** * The state functions on the punctuation of a document *)
(* ===================================================================== *)

Lemma dictSM_openBrace_empty m rest lr c :
  dictSM_openBrace m (mkWorld (mkReader (openBraceByte :: closeBraceByte :: rest) lr) c) =
  (None, m, mkWorld (mkReader rest (Some [closeBraceByte])) c).
Proof. reflexivity. Qed.

Lemma dictSM_openBrace_members m x l lr c :
  (rune_of_byte x =? closeBrace) = false ->
  dictSM_openBrace m (mkWorld (mkReader (openBraceByte :: x :: l) lr) c) =
  (Some dict_parseKey, m, mkWorld (mkReader (x :: l) None) c).
Proof.
  intros Hx. unfold dictSM_openBrace. cbn [w_b].
  rewrite skipSpace_nonspace, ReadRune_ascii by done.
  change (rune_of_byte openBraceByte =? openBrace) with true. cbn [negb Peek1 unread].
  by rewrite Hx.
Qed.

Lemma dictSM_parseKey_quoted m k rest lr c :
  escaped_ok k = true ->
  dictSM_parseKey m (mkWorld (mkReader (quoted k ++ rest) lr) c) =
  (Some dict_colon, dm_set_valueName (ByteSlice2String k) m,
   mkWorld (mkReader rest None) c).
Proof.
  intros Hk. unfold dictSM_parseKey. cbn [w_b].
  unfold quoted at 1 2. cbn [app].
  rewrite skipSpace_nonspace, ReadRune_ascii by done.
  change (rune_of_byte quoteByte =? doubleQuote) with true. cbn [negb].
  change (UnreadRune _) with (mkReader (quoted k ++ rest) None).
  by rewrite getString_quoted.
Qed.

Lemma dictSM_colon_colon m rest lr c :
  dictSM_colon m (mkWorld (mkReader (colonByte :: rest) lr) c) =
  (Some dict_valueCheck, m, mkWorld (mkReader rest (Some [colonByte])) c).
Proof. reflexivity. Qed.

Lemma dictSM_commaClose_comma m rest lr c :
  dictSM_commaClose m (mkWorld (mkReader (commaByte :: rest) lr) c) =
  (Some dict_comma, m, mkWorld (mkReader (commaByte :: rest) None) c).
Proof. reflexivity. Qed.

Lemma dictSM_commaClose_brace m rest lr c :
  dictSM_commaClose m (mkWorld (mkReader (closeBraceByte :: rest) lr) c) =
  (Some dict_braceClose, m, mkWorld (mkReader (closeBraceByte :: rest) None) c).
Proof. reflexivity. Qed.

Lemma dictSM_comma_comma m rest lr c :
  dictSM_comma m (mkWorld (mkReader (commaByte :: rest) lr) c) =
  (Some dict_parseKey, m, mkWorld (mkReader rest (Some [commaByte])) c).
Proof. reflexivity. Qed.

Lemma dictSM_braceClose_brace m rest lr c :
  dictSM_braceClose m (mkWorld (mkReader (closeBraceByte :: rest) lr) c) =
  (None, m, mkWorld (mkReader rest (Some [closeBraceByte])) c).
Proof. reflexivity. Qed.

Lemma arraySM_openBracket_empty m rest lr c :
  arraySM_openBracket m (mkWorld (mkReader (openBracketByte :: closeBracketByte :: rest) lr) c) =
  (None, m, mkWorld (mkReader rest (Some [closeBracketByte])) c).
Proof. reflexivity. Qed.

Lemma arraySM_openBracket_items m x l lr c :
  (rune_of_byte x =? closeBracket) = false ->
  arraySM_openBracket m (mkWorld (mkReader (openBracketByte :: x :: l) lr) c) =
  (Some array_valueCheck, m, mkWorld (mkReader (x :: l) None) c).
Proof.
  intros Hx. unfold arraySM_openBracket. cbn [w_b].
  rewrite skipSpace_nonspace, ReadRune_ascii by done.
  change (rune_of_byte openBracketByte =? openBracket) with true. cbn [negb Peek1 unread].
  by rewrite Hx.
Qed.

Lemma arraySM_commaClose_comma m rest lr c :
  arraySM_commaClose m (mkWorld (mkReader (commaByte :: rest) lr) c) =
  (Some array_comma, m, mkWorld (mkReader (commaByte :: rest) None) c).
Proof. reflexivity. Qed.

Lemma arraySM_commaClose_bracket m rest lr c :
  arraySM_commaClose m (mkWorld (mkReader (closeBracketByte :: rest) lr) c) =
  (Some array_close, m, mkWorld (mkReader (closeBracketByte :: rest) None) c).
Proof. reflexivity. Qed.

Lemma arraySM_comma_comma m rest lr c :
  arraySM_comma m (mkWorld (mkReader (commaByte :: rest) lr) c) =
  (Some array_valueCheck, m, mkWorld (mkReader rest (Some [commaByte])) c).
Proof. reflexivity. Qed.

Lemma arraySM_close_bracket m rest lr c :
  arraySM_close m (mkWorld (mkReader (closeBracketByte :: rest) lr) c) =
  (None, m, mkWorld (mkReader rest (Some [closeBracketByte])) c).
Proof. reflexivity. Qed.

(* ===================================================================== *)
(** * Scalars *)
(* ===================================================================== *)

Lemma is_digit_nonspace c : is_digit c = true -> IsSpace (rune_of_byte c) = false.
Proof.
  unfold is_digit, IsSpace. intros [H1%Z.leb_le H2%Z.leb_le]%andb_prop.
  destruct (Z.leb_spec 0 (rune_of_byte c)); [|lia].
  destruct (Z.leb_spec (rune_of_byte c) 255); [|lia]. cbn [andb].
  repeat (match goal with |- context [?a =? ?b] => destruct (Z.eqb_spec a b); [lia|] end).
  done.
Qed.

Lemma scalar_ok_cases t raw :
  scalar_ok t raw = true ->
  (t = FTString /\ escaped_ok raw = true) \/
  (t = FTBool /\ raw = bytes "true") \/ (t = FTBool /\ raw = bytes "false") \/
  (t = FTNull /\ raw = bytes "null") \/
  ((t = FTInt \/ t = FTFloat) /\ number_ok raw = true /\
   t = if has_dot raw then FTFloat else FTInt).
Proof.
  destruct t; simpl; intros H.
  - apply bool_decide_eq_true in H. auto 10.
  - apply orb_prop in H as [H|H]; apply bool_decide_eq_true in H; auto 10.
  - apply andb_prop in H as [H1 H2]. apply negb_true_iff in H2. rewrite H2. auto 10.
  - apply andb_prop in H as [H1 H2]. rewrite H2. auto 10.
  - auto 10.
Qed.

(** The first byte of the text of a document. *)
Lemma print_head j :
  wf_value j = true ->
  exists x l, print j = x :: l /\ rune_of_byte x < 128 /\
    IsSpace (rune_of_byte x) = false /\
    (rune_of_byte x =? closeBrace) = false /\
    (rune_of_byte x =? closeBracket) = false.
Proof.
  destruct j as [t raw|ms|vs]; intros Hwf.
  - cbn [wf_value] in Hwf.
    destruct (scalar_ok_cases _ _ Hwf)
      as [[-> _]|[[-> ->]|[[-> ->]|[[-> ->]|(Ht & Hn & _)]]]].
    + eexists _, _. split; [reflexivity|done].
    + eexists _, _. split; [reflexivity|done].
    + eexists _, _. split; [reflexivity|done].
    + eexists _, _. split; [reflexivity|done].
    + destruct raw as [|x raw]; [done|]. unfold number_ok in Hn.
      apply andb_prop in Hn as [Hx _].
      exists x, raw. split; [by destruct Ht as [-> | ->]|].
      split; [by apply is_digit_ascii|]. split; [by apply is_digit_nonspace|].
      unfold is_digit in Hx. apply andb_prop in Hx as [H1%Z.leb_le H2%Z.leb_le].
      split; apply Z.eqb_neq; unfold closeBrace, closeBracket; lia.
  - eexists _, _. split; [reflexivity|done].
  - eexists _, _. split; [reflexivity|done].
Qed.

Lemma valueCheck_scalar t raw tl lr :
  scalar_ok t raw = true ->
  valueCheck (mkReader (print (JScalar t raw) ++ tl) lr) =
  (Ok (kind_of t raw), mkReader (print (JScalar t raw) ++ tl) None).
Proof.
  intros Hok.
  destruct (scalar_ok_cases _ _ Hok)
    as [[-> _]|[[-> ->]|[[-> ->]|[[-> ->]|(Ht & Hn & _)]]]]; try reflexivity.
  assert (print (JScalar t raw) = raw) as -> by (by destruct Ht as [-> | ->]).
  assert (kind_of t raw = numNext) as -> by (by destruct Ht as [-> | ->]).
  destruct raw as [|x raw]; [done|]. unfold number_ok in Hn.
  apply andb_prop in Hn as [Hx _]. cbn [app].
  unfold valueCheck.
  rewrite skipSpace_nonspace by (by (apply is_digit_ascii || apply is_digit_nonspace)).
  cbn [Peek1 unread]. rewrite (IsNumber_digit x Hx).
  unfold is_digit in Hx. apply andb_prop in Hx as [H1%Z.leb_le H2%Z.leb_le].
  repeat (match goal with
          | |- context [rune_of_byte x =? ?b] =>
            destruct (Z.eqb_spec (rune_of_byte x) b) as [Hb|_];
            [unfold openBrace, openBracket, doubleQuote in Hb; lia|]
          end).
  done.
Qed.

(** The decoder of the announced kind reads the scalar back. *)
Lemma decode_scalar t raw term rest lr name modTime :
  scalar_ok t raw = true -> is_terminator term = true ->
  match kind_of t raw with
  | stringNext => decodeString (mkReader (print (JScalar t raw) ++ term :: rest) lr) name modTime
  | trueNext => decodeBool (mkReader (print (JScalar t raw) ++ term :: rest) lr) name trueNext modTime
  | falseNext => decodeBool (mkReader (print (JScalar t raw) ++ term :: rest) lr) name falseNext modTime
  | nullNext => decodeNull (mkReader (print (JScalar t raw) ++ term :: rest) lr) name modTime
  | _ => decodeNumber (mkReader (print (JScalar t raw) ++ term :: rest) lr) name modTime
  end = (Ok (mkFile name modTime t raw), mkReader (term :: rest) None).
Proof.
  intros Hok Hterm.
  destruct (scalar_ok_cases _ _ Hok)
    as [[-> Hs]|[[-> ->]|[[-> ->]|[[-> ->]|(Ht & Hn & Hdot)]]]]; try reflexivity.
  - cbn [kind_of print]. unfold decodeString. by rewrite getString_quoted.
  - assert (print (JScalar t raw) = raw) as -> by (by destruct Ht as [-> | ->]).
    assert (kind_of t raw = numNext) as -> by (by destruct Ht as [-> | ->]).
    rewrite decodeNumber_plain by done. by rewrite <-Hdot.
Qed.

Lemma skipSpace_print j tl lr :
  wf_value j = true ->
  skipSpace (mkReader (print j ++ tl) lr) = mkReader (print j ++ tl) None.
Proof.
  intros Hwf. destruct (print_head j Hwf) as (x & l & -> & ? & ? & _).
  cbn [app]. by apply skipSpace_nonspace.
Qed.

Lemma untimed_eq d :
  untimed d = mkDirectory (d_name d) zeroTime (untimed <$> dirs d)
                          (untimed_file <$> files d) (isArray d).
Proof. by destruct d. Qed.

Lemma untimed_put_file k o d :
  untimed (put_file k o d) = put_file k (untimed_file o) (untimed d).
Proof.
  rewrite !untimed_eq. unfold put_file, set_files. cbn. by rewrite fmap_insert.
Qed.

Lemma untimed_put_dir x d :
  untimed (put_dir x d) = put_dir (untimed x) (untimed d).
Proof.
  rewrite (untimed_eq (put_dir x d)), (untimed_eq d). unfold put_dir, set_dirs. cbn.
  rewrite fmap_insert. by destruct x.
Qed.

Lemma value_in_dict_scalar t raw :
  scalar_ok t raw = true -> value_in_dict (JScalar t raw).
Proof.
  intros Hok. exists 0%nat. intros fuel m term rest lr c _ Hterm Hdup.
  unfold dictSM_valueCheck. cbn [w_b].
  rewrite (skipSpace_print (JScalar t raw)) by done.
  rewrite valueCheck_scalar by done. cbv zeta. rewrite Hdup.
  pose proof (decode_scalar t raw term rest None (dm_valueName m) (dm_modTime m) Hok Hterm)
    as Hdec.
  cbn [w_b with_b].
  exists (Some dict_commaClose),
    (dm_set_dir (put_file (dm_valueName m)
                   (mkFile (dm_valueName m) (dm_modTime m) t raw) (dm_dir m)) m),
    (mkWorld (mkReader (term :: rest) None) c).
  split.
  - revert Hdec. destruct (kind_of t raw) eqn:Ek; intros Hdec;
      try (rewrite Hdec; reflexivity);
      destruct t; simpl in Ek; try discriminate; by destruct (bool_decide _).
  - cbn [first_dup dm_err dm_dir dm_set_dir w_b unread build_child].
    rewrite untimed_put_file. done.
Qed.

Lemma value_in_array_scalar t raw :
  scalar_ok t raw = true -> value_in_array (JScalar t raw).
Proof.
  intros Hok. exists 0%nat. intros fuel m term rest lr c _ Hterm.
  unfold arraySM_valueCheck, arraySM_valueCheck_body. cbn [w_b].
  rewrite (skipSpace_print (JScalar t raw)) by done.
  rewrite valueCheck_scalar by done. cbv zeta.
  pose proof (decode_scalar t raw term rest None (Itoa (am_item m)) (am_modTime m) Hok Hterm)
    as Hdec.
  cbn [w_b with_b].
  exists (Some array_commaClose),
    (mkArraySM (put_file (Itoa (am_item m))
                  (mkFile (Itoa (am_item m)) (am_modTime m) t raw) (am_dir m))
               (am_modTime m) (wrap_int (am_item m + 1)) (am_err m)),
    (mkWorld (mkReader (term :: rest) None) c).
  split.
  - revert Hdec. destruct (kind_of t raw) eqn:Ek; intros Hdec;
      try (rewrite Hdec; reflexivity);
      destruct t; simpl in Ek; try discriminate; by destruct (bool_decide _).
  - cbn [first_dup am_err am_dir am_item w_b unread build_child].
    rewrite untimed_put_file. done.
Qed.

(* ===================================================================== *)
(** * Objects and arrays as values *)
(* ===================================================================== *)

Lemma runSM_dict_step fuel current m w :
  runSM_dict (S fuel) current m w =
  let '(fn, m, w) := dictSM_call (nestedDict fuel) (nestedArray fuel) current m w in
  match fn with
  | None => (m, w)
  | Some fn => runSM_dict fuel fn m w
  end.
Proof. reflexivity. Qed.

Lemma runSM_array_step fuel current m w :
  runSM_array (S fuel) current m w =
  let '(fn, m, w) := arraySM_call (nestedDict fuel) (nestedArray fuel) current m w in
  match fn with
  | None => (m, w)
  | Some fn => runSM_array fuel fn m w
  end.
Proof. reflexivity. Qed.

Lemma with_b_mk b b0 c : with_b b (mkWorld b0 c) = mkWorld b c.
Proof. reflexivity. Qed.

Lemma valueCheck_object ms tl lr :
  valueCheck (mkReader (print (JObject ms) ++ tl) lr) =
  (Ok msgNext, mkReader (print (JObject ms) ++ tl) None).
Proof. reflexivity. Qed.

Lemma valueCheck_array vs tl lr :
  valueCheck (mkReader (print (JArray vs) ++ tl) lr) =
  (Ok arrayNext, mkReader (print (JArray vs) ++ tl) None).
Proof. reflexivity. Qed.

Lemma skipSpace_object ms tl lr :
  skipSpace (mkReader (print (JObject ms) ++ tl) lr) =
  mkReader (print (JObject ms) ++ tl) None.
Proof. reflexivity. Qed.

Lemma skipSpace_array vs tl lr :
  skipSpace (mkReader (print (JArray vs) ++ tl) lr) =
  mkReader (print (JArray vs) ++ tl) None.
Proof. reflexivity. Qed.

(** [valueCheck] accepts the first byte of every document. *)
Lemma valueCheck_print j tl lr :
  wf_value j = true ->
  exists nxt, valueCheck (mkReader (print j ++ tl) lr) =
              (Ok nxt, mkReader (print j ++ tl) None).
Proof.
  destruct j as [t raw|ms|vs]; intros Hwf.
  - eexists. by apply valueCheck_scalar.
  - eexists. apply valueCheck_object.
  - eexists. apply valueCheck_array.
Qed.

Lemma value_in_dict_object ms :
  object_run (JObject ms) -> value_in_dict (JObject ms).
Proof.
  intros [N Hrun]. exists N. intros fuel m term rest lr c Hfuel Hterm Hdup.
  unfold dictSM_valueCheck. cbn [w_b].
  rewrite skipSpace_object.
  rewrite valueCheck_object. cbv zeta. rewrite Hdup, with_b_mk.
  destruct (Hrun fuel (dm_valueName m) (term :: rest) None c Hfuel) as (nm & w1 & -> & Hout).
  destruct (first_dup (JObject ms)) as [k|].
  - rewrite Hout. eexists _, _, _. split; [reflexivity|done].
  - destruct Hout as (-> & Hdir & Hw).
    eexists _, _, _. split; [reflexivity|].
    cbn [dm_err dm_set_dir dm_dir build_child].
    rewrite untimed_put_dir, Hdir. done.
Qed.

Lemma value_in_dict_array vs :
  array_run (JArray vs) -> value_in_dict (JArray vs).
Proof.
  intros [N Hrun]. exists N. intros fuel m term rest lr c Hfuel Hterm Hdup.
  unfold dictSM_valueCheck. cbn [w_b].
  rewrite skipSpace_array.
  rewrite valueCheck_array. cbv zeta. rewrite Hdup, with_b_mk.
  destruct (Hrun fuel (dm_valueName m) (dm_modTime m) (term :: rest) None c Hfuel)
    as (na & w1 & -> & Hout).
  destruct (first_dup (JArray vs)) as [k|].
  - rewrite Hout. eexists _, _, _. split; [reflexivity|done].
  - destruct Hout as (-> & Hdir & Hw).
    eexists _, _, _. split; [reflexivity|].
    cbn [dm_err dm_set_dir dm_dir build_child].
    rewrite untimed_put_dir, Hdir. done.
Qed.

Lemma value_in_array_object ms :
  object_run (JObject ms) -> value_in_array (JObject ms).
Proof.
  intros [N Hrun]. exists N. intros fuel m term rest lr c Hfuel Hterm.
  unfold arraySM_valueCheck, arraySM_valueCheck_body. cbn [w_b].
  rewrite skipSpace_object.
  rewrite valueCheck_object. cbv zeta. rewrite with_b_mk.
  destruct (Hrun fuel (Itoa (am_item m)) (term :: rest) None c Hfuel) as (nm & w1 & -> & Hout).
  destruct (first_dup (JObject ms)) as [k|].
  - rewrite Hout. eexists _, _, _. split; [reflexivity|done].
  - destruct Hout as (-> & Hdir & Hw).
    eexists _, _, _. split; [reflexivity|].
    cbn [am_err am_set_dir am_dir am_item build_child].
    rewrite untimed_put_dir, Hdir. done.
Qed.

Lemma value_in_array_array vs :
  array_run (JArray vs) -> value_in_array (JArray vs).
Proof.
  intros [N Hrun]. exists N. intros fuel m term rest lr c Hfuel Hterm.
  unfold arraySM_valueCheck, arraySM_valueCheck_body. cbn [w_b].
  rewrite skipSpace_array.
  rewrite valueCheck_array. cbv zeta. rewrite with_b_mk.
  destruct (Hrun fuel (Itoa (am_item m)) (am_modTime m) (term :: rest) None c Hfuel)
    as (na & w1 & -> & Hout).
  destruct (first_dup (JArray vs)) as [k|].
  - rewrite Hout. eexists _, _, _. split; [reflexivity|done].
  - destruct Hout as (-> & Hdir & Hw).
    eexists _, _, _. split; [reflexivity|].
    cbn [am_err am_set_dir am_dir am_item build_child].
    rewrite untimed_put_dir, Hdir. done.
Qed.

(* ===================================================================== *)
(** * The names of the children *)
(* ===================================================================== *)

Lemma duplicateField_None d k :
  duplicateField d k = None <-> ~ (is_Some (files d !! k) \/ is_Some (dirs d !! k)).
Proof.
  unfold duplicateField.
  destruct (dirs d !! k) as [x|], (files d !! k) as [f|];
    split; try done; intros H; try (destruct H; eauto).
  intros [[? [=]]|[? [=]]].
Qed.

Lemma duplicateField_Some d k :
  is_Some (files d !! k) \/ is_Some (dirs d !! k) ->
  duplicateField d k = Some (ErrDuplicateField k).
Proof.
  unfold duplicateField. intros [[f Hf]|[x Hx]].
  - rewrite Hf. by destruct (dirs d !! k).
  - by rewrite Hx.
Qed.

Lemma build_members_name bd ms : forall acc,
  d_name (build_members bd ms acc) = d_name acc.
Proof.
  induction ms as [|[k v] ms IH]; intros acc; [done|].
  cbn [build_members]. rewrite IH. by destruct v.
Qed.

Lemma build_items_name bd vs : forall i acc,
  d_name (build_items bd vs i acc) = d_name acc.
Proof.
  induction vs as [|v vs IH]; intros i acc; [done|].
  cbn [build_items]. rewrite IH. by destruct v.
Qed.

Lemma build_name name j :
  (forall t raw, j <> JScalar t raw) -> d_name (build name j) = name.
Proof.
  destruct j as [t raw|ms|vs]; intros Hj.
  - by destruct (Hj t raw).
  - cbn [build]. by rewrite build_members_name.
  - cbn [build]. by rewrite build_items_name.
Qed.

Lemma untimed_files_is_Some d k :
  is_Some (files (untimed d) !! k) <-> is_Some (files d !! k).
Proof. rewrite untimed_eq. cbn. by rewrite lookup_fmap, fmap_is_Some. Qed.

Lemma untimed_dirs_is_Some d k :
  is_Some (dirs (untimed d) !! k) <-> is_Some (dirs d !! k).
Proof. rewrite untimed_eq. cbn. by rewrite lookup_fmap, fmap_is_Some. Qed.

(** The children after [build_child] are the children before, and [k]. *)
Lemma build_child_names k v acc k' :
  (is_Some (files (build_child build k v acc) !! k') \/
   is_Some (dirs (build_child build k v acc) !! k')) <->
  k' = k \/ is_Some (files acc !! k') \/ is_Some (dirs acc !! k').
Proof.
  assert (forall (A : Type) (m : gmap string A) (x : A),
            is_Some (<[k:=x]> m !! k') <-> k' = k \/ is_Some (m !! k')) as Hins.
  { intros A m x. rewrite lookup_insert_is_Some. split.
    - intros [->|[_ H]]; auto.
    - intros [->|H]; [auto|]. destruct (decide (k = k')); auto. }
  destruct v as [t raw|ms|vs]; unfold build_child, put_file, put_dir, set_files, set_dirs;
    cbn [files dirs]; rewrite ?build_name by done; rewrite Hins; tauto.
Qed.

Lemma seen_in_build_child seen k v d d' :
  seen_in seen d ->
  untimed d' = build_child build k v (untimed d) ->
  seen_in (k :: seen) d'.
Proof.
  intros Hseen Hd k'. rewrite elem_of_cons, (Hseen k').
  rewrite <-(untimed_files_is_Some d'), <-(untimed_dirs_is_Some d'), Hd.
  rewrite build_child_names, untimed_files_is_Some, untimed_dirs_is_Some. done.
Qed.

(* ===================================================================== *)
(** * The members of an object, one after the other *)
(* ===================================================================== *)

Lemma ByteSlice2String_unsafeGetBytes k : ByteSlice2String (unsafeGetBytes k) = k.
Proof. apply string_of_list_ascii_of_string. Qed.

Lemma unsafeGetBytes_ByteSlice2String s : unsafeGetBytes (ByteSlice2String s) = s.
Proof. apply list_ascii_of_string_of_list_ascii. Qed.

Lemma print_object ms :
  print (JObject ms) = openBraceByte :: join_close (map member_text ms) closeBraceByte.
Proof. reflexivity. Qed.

Lemma print_array vs :
  print (JArray vs) = openBracketByte :: join_close (map print vs) closeBracketByte.
Proof. reflexivity. Qed.

(** The text from a member on: the member, the byte that ends its value,
    and what follows. *)
Lemma join_close_cons t ts closing rest :
  exists term tl,
    join_close (t :: ts) closing ++ rest = t ++ term :: tl /\
    (ts = [] /\ term = closing /\ tl = rest \/
     ts <> [] /\ term = commaByte /\ tl = join_close ts closing ++ rest).
Proof.
  destruct ts as [|t' ts].
  - exists closing, rest. split; [|by left]. cbn [join_close]. by rewrite <-app_assoc.
  - exists commaByte, (join_close (t' :: ts) closing ++ rest).
    split; [|by right]. cbn [join_close]. rewrite <-app_assoc. done.
Qed.

Lemma dictSM_valueCheck_duplicate rD rA m v tl lr c e :
  wf_value v = true -> duplicateField (dm_dir m) (dm_valueName m) = Some e ->
  dictSM_valueCheck rD rA m (mkWorld (mkReader (print v ++ tl) lr) c) =
  (None, dm_set_err e m, mkWorld (mkReader (print v ++ tl) None) c).
Proof.
  intros Hwf Hdup. unfold dictSM_valueCheck. cbn [w_b].
  rewrite skipSpace_print by done.
  destruct (valueCheck_print v tl None Hwf) as [nxt ->]. cbv zeta.
  by rewrite Hdup, with_b_mk.
Qed.

Lemma dict_members_run ms :
  ms <> [] -> Forall member_ok ms ->
  exists N, forall fuel m seen rest lr c,
    (N <= fuel)%nat -> dm_err m = None -> seen_in seen (dm_dir m) ->
    exists m' w',
      runSM_dict fuel dict_parseKey m
        (mkWorld (mkReader (join_close (map member_text ms) closeBraceByte ++ rest) lr) c)
      = (m', w') /\
      match first_dup_members first_dup seen ms with
      | Some k => dm_err m' = Some (ErrDuplicateField k)
      | None =>
        dm_err m' = None /\
        untimed (dm_dir m') = build_members build ms (untimed (dm_dir m)) /\
        unread (w_b w') = rest
      end.
Proof.
  induction ms as [|[k v] ms IH]; [done|]. intros _ HF.
  apply Forall_cons_iff in HF. destruct HF as [(Hk & Hwf & [Nv Hv]) HF]. cbn [fst snd] in *.
  assert (exists N', ms <> [] -> forall fuel m seen rest lr c,
    (N' <= fuel)%nat -> dm_err m = None -> seen_in seen (dm_dir m) ->
    exists m' w',
      runSM_dict fuel dict_parseKey m
        (mkWorld (mkReader (join_close (map member_text ms) closeBraceByte ++ rest) lr) c)
      = (m', w') /\
      match first_dup_members first_dup seen ms with
      | Some k => dm_err m' = Some (ErrDuplicateField k)
      | None =>
        dm_err m' = None /\
        untimed (dm_dir m') = build_members build ms (untimed (dm_dir m)) /\
        unread (w_b w') = rest
      end) as [N' IH'].
  { destruct ms as [|kv ms]; [by exists 0%nat|].
    destruct (IH ltac:(done) HF) as [N' H]. exists N'. intros _. exact H. }
  clear IH. exists (6 + Nv + N')%nat.
  intros fuel m seen rest lr c Hfuel Herr Hseen.
  do 6 (destruct fuel as [|fuel]; [lia|]).
  cbn [map].
  destruct (join_close_cons (member_text (k, v)) (map member_text ms) closeBraceByte rest)
    as (term & tl & -> & Hcases).
  assert (is_terminator term = true) as Hterm.
  { destruct Hcases as [(_ & -> & _)|(_ & -> & _)]; reflexivity. }
  unfold member_text at 1. cbn [fst snd]. rewrite <-app_assoc. cbn [app].
  (* parseKey *)
  rewrite runSM_dict_step. cbn [dictSM_call].
  rewrite dictSM_parseKey_quoted, ByteSlice2String_unsafeGetBytes by done.
  (* colon *)
  rewrite runSM_dict_step. cbn [dictSM_call]. rewrite dictSM_colon_colon.
  (* valueCheck *)
  rewrite runSM_dict_step. cbn [dictSM_call]. cbn [first_dup_members fst snd].
  destruct (bool_decide_reflect (k ∈ seen)) as [Hin|Hnotin].
  { rewrite (dictSM_valueCheck_duplicate _ _ _ v (term :: tl) _ c (ErrDuplicateField k))
      by (try done; apply duplicateField_Some, Hseen, Hin).
    eexists _, _. split; [reflexivity|done]. }
  destruct (Hv (S (S (S fuel))) (dm_set_valueName k m) term tl (Some [colonByte]) c)
    as (fn & m3 & w3 & -> & Hout); [lia|done| |].
  { apply duplicateField_None. intros H. by apply Hnotin, Hseen. }
  destruct (first_dup v) as [k'|].
  { destruct Hout as [-> Hout]. eexists _, _. split; [reflexivity|done]. }
  destruct Hout as (-> & Herr3 & Hdir3 & Hw3).
  destruct w3 as [[u3 lr3] c3]. cbn [w_b unread] in Hw3. subst u3.
  cbn [dm_err dm_dir dm_set_valueName dm_valueName] in Herr3, Hdir3.
  (* commaClose *)
  rewrite runSM_dict_step. cbn [dictSM_call].
  destruct Hcases as [(Hnil & -> & ->)|(Hms & -> & ->)].
  - apply map_eq_nil in Hnil. subst ms.
    rewrite dictSM_commaClose_brace.
    rewrite runSM_dict_step. cbn [dictSM_call]. rewrite dictSM_braceClose_brace.
    eexists _, _. split; [reflexivity|]. cbn [first_dup_members build_members fst snd].
    rewrite Herr3, Hdir3. done.
  - rewrite dictSM_commaClose_comma.
    rewrite runSM_dict_step. cbn [dictSM_call]. rewrite dictSM_comma_comma.
    assert (ms <> []) as Hms' by (by destruct ms).
    destruct (IH' Hms' (S fuel) m3 (k :: seen) rest (Some [commaByte]) c3)
      as (m' & w' & -> & Hfin); [lia|by rewrite Herr3| |].
    { eapply seen_in_build_child; [exact Hseen|exact Hdir3]. }
    eexists _, _. split; [reflexivity|].
    destruct (first_dup_members first_dup (k :: seen) ms) as [k'|]; [done|].
    destruct Hfin as (? & Hd & ?). split; [done|]. split; [|done].
    rewrite Hd, Hdir3. done.
Qed.

Lemma dictSM_start_eq m b c :
  dictSM_start m (mkWorld b c) =
  (Some dict_openBrace,
   mkDictSM (set_modTime (now_at c (asked c)) (dm_dir m)) (now_at c (asked c))
            (dm_valueName m) (dm_err m),
   mkWorld b (mkClock (now_at c) (S (asked c)))).
Proof. reflexivity. Qed.

Lemma seen_in_empty name t : seen_in [] (set_modTime t (newDir name zeroTime)).
Proof.
  intros k. cbn. rewrite !lookup_empty. split.
  - by intros ?%elem_of_nil.
  - intros [[? [=]]|[? [=]]].
Qed.

(** A fresh [dictSM] on the text of an object whose members are read as
    the document says. *)
Lemma object_run_members ms :
  Forall member_ok ms -> object_run (JObject ms).
Proof.
  intros HF. destruct ms as [|kv ms].
  - exists 2%nat. intros fuel name rest lr c Hfuel.
    do 2 (destruct fuel as [|fuel]; [lia|]).
    unfold nestedDict. rewrite runSM_dict_step. cbn [dictSM_call].
    rewrite dictSM_start_eq. rewrite runSM_dict_step. cbn [dictSM_call].
    rewrite print_object. cbn [map join_close app].
    rewrite dictSM_openBrace_empty.
    eexists _, _. split; [reflexivity|]. done.
  - destruct (dict_members_run (kv :: ms)) as [N Hrun]; [done|done|].
    exists (2 + N)%nat. intros fuel name rest lr c Hfuel.
    do 2 (destruct fuel as [|fuel]; [lia|]).
    unfold nestedDict. rewrite runSM_dict_step. cbn [dictSM_call].
    rewrite dictSM_start_eq. rewrite runSM_dict_step. cbn [dictSM_call].
    rewrite print_object.
    assert (exists l, join_close (map member_text (kv :: ms)) closeBraceByte
                      = quoteByte :: l) as [l Hl].
    { cbn [map join_close]. unfold member_text at 1, quoted. cbn [app]. eauto. }
    cbn [app]. rewrite Hl. cbn [app].
    rewrite dictSM_openBrace_members by reflexivity.
    change (quoteByte :: l ++ rest) with ((quoteByte :: l) ++ rest). rewrite <-Hl.
    match goal with
    | |- context [runSM_dict fuel dict_parseKey ?m0 (mkWorld (mkReader _ ?lr0) ?c0)] =>
      destruct (Hrun fuel m0 [] rest lr0 c0) as (m' & w' & -> & Hfin);
        [lia|done|apply seen_in_empty|]
    end.
    eexists _, _. split; [reflexivity|]. cbn [first_dup].
    destruct (first_dup_members first_dup [] (kv :: ms)); [done|].
    destruct Hfin as (? & Hd & ?). split; [done|]. split; [|done].
    rewrite Hd. reflexivity.
Qed.

(* ===================================================================== *)
(** * The items of an array, one after the other *)
(* ===================================================================== *)

Lemma wrap_int_small z : - 2 ^ 63 <= z < 2 ^ 63 -> wrap_int z = z.
Proof.
  intros H. unfold wrap_int. rewrite Z.mod_small; lia.
Qed.

Lemma array_items_run vs :
  vs <> [] -> Forall item_ok vs ->
  exists N, forall fuel m rest lr c,
    (N <= fuel)%nat -> am_err m = None ->
    0 <= am_item m -> am_item m + Z.of_nat (length vs) < 2 ^ 63 ->
    exists m' w',
      runSM_array fuel array_valueCheck m
        (mkWorld (mkReader (join_close (map print vs) closeBracketByte ++ rest) lr) c)
      = (m', w') /\
      match first_dup_items first_dup vs with
      | Some k => am_err m' = Some (ErrDuplicateField k)
      | None =>
        am_err m' = None /\
        untimed (am_dir m') = build_items build vs (am_item m) (untimed (am_dir m)) /\
        unread (w_b w') = rest
      end.
Proof.
  induction vs as [|v vs IH]; [done|]. intros _ HF.
  apply Forall_cons_iff in HF. destruct HF as [(Hwf & [Nv Hv]) HF].
  assert (exists N', vs <> [] -> forall fuel m rest lr c,
    (N' <= fuel)%nat -> am_err m = None ->
    0 <= am_item m -> am_item m + Z.of_nat (length vs) < 2 ^ 63 ->
    exists m' w',
      runSM_array fuel array_valueCheck m
        (mkWorld (mkReader (join_close (map print vs) closeBracketByte ++ rest) lr) c)
      = (m', w') /\
      match first_dup_items first_dup vs with
      | Some k => am_err m' = Some (ErrDuplicateField k)
      | None =>
        am_err m' = None /\
        untimed (am_dir m') = build_items build vs (am_item m) (untimed (am_dir m)) /\
        unread (w_b w') = rest
      end) as [N' IH'].
  { destruct vs as [|v' vs]; [by exists 0%nat|].
    destruct (IH ltac:(done) HF) as [N' H]. exists N'. intros _. exact H. }
  clear IH. exists (4 + Nv + N')%nat.
  intros fuel m rest lr c Hfuel Herr Hitem Hlen.
  do 3 (destruct fuel as [|fuel]; [lia|]).
  cbn [map].
  destruct (join_close_cons (print v) (map print vs) closeBracketByte rest)
    as (term & tl & -> & Hcases).
  assert (is_terminator term = true) as Hterm.
  { destruct Hcases as [(_ & -> & _)|(_ & -> & _)]; reflexivity. }
  cbn [length] in Hlen.
  (* valueCheck *)
  rewrite runSM_array_step. cbn [arraySM_call]. cbn [first_dup_items].
  destruct (Hv (S (S fuel)) m term tl lr c) as (fn & m3 & w3 & -> & Hitem3 & Hout);
    [lia|done|].
  rewrite wrap_int_small in Hitem3 by lia.
  destruct (first_dup v) as [k'|].
  { destruct Hout as [-> Hout]. eexists _, _. split; [reflexivity|done]. }
  destruct Hout as (-> & Herr3 & Hdir3 & Hw3).
  destruct w3 as [[u3 lr3] c3]. cbn [w_b unread] in Hw3. subst u3.
  (* commaClose *)
  rewrite runSM_array_step. cbn [arraySM_call].
  destruct Hcases as [(Hnil & -> & ->)|(Hvs & -> & ->)].
  - apply map_eq_nil in Hnil. subst vs.
    rewrite arraySM_commaClose_bracket.
    rewrite runSM_array_step. cbn [arraySM_call]. rewrite arraySM_close_bracket.
    eexists _, _. split; [reflexivity|]. cbn [first_dup_items build_items].
    rewrite Herr3, Hdir3. done.
  - rewrite arraySM_commaClose_comma.
    rewrite runSM_array_step. cbn [arraySM_call]. rewrite arraySM_comma_comma.
    assert (vs <> []) as Hvs' by (by destruct vs).
    destruct (IH' Hvs' fuel m3 rest (Some [commaByte]) c3)
      as (m' & w' & -> & Hfin); [lia|by rewrite Herr3|lia|lia|].
    eexists _, _. split; [reflexivity|].
    destruct (first_dup_items first_dup vs) as [k'|]; [done|].
    destruct Hfin as (? & Hd & ?). split; [done|]. split; [|done].
    rewrite Hd, Hdir3, Hitem3. done.
Qed.

Lemma print_head_not_closeBracket v :
  wf_value v = true ->
  exists x l, print v = x :: l /\ (rune_of_byte x =? closeBracket) = false.
Proof.
  intros Hwf. destruct v as [t raw|ms|vs].
  - cbn [wf_value] in Hwf. apply scalar_ok_cases in Hwf.
    destruct Hwf as [[-> _]|[[-> ->]|[[-> ->]|[[-> ->]|(Ht & Hn & _)]]]];
      try (eexists _, _; split; [reflexivity|reflexivity]).
    destruct raw as [|x raw]; [done|]. exists x, raw.
    assert (print (JScalar t (x :: raw)) = x :: raw) as ->.
    { by destruct Ht as [-> | ->]. }
    split; [done|]. cbn [number_ok] in Hn. apply andb_prop in Hn as [Hd _].
    unfold is_digit in Hd. apply andb_prop in Hd as [H1%Z.leb_le H2%Z.leb_le].
    apply Z.eqb_neq. unfold closeBracket. lia.
  - eexists _, _. split; [apply print_object|reflexivity].
  - eexists _, _. split; [apply print_array|reflexivity].
Qed.

(** A fresh [arraySM] on the text of an array whose items are read as the
    document says. *)
Lemma array_run_items vs :
  Z.of_nat (length vs) < 2 ^ 63 -> Forall item_ok vs -> array_run (JArray vs).
Proof.
  intros Hlen HF. destruct vs as [|v vs].
  - exists 2%nat. intros fuel name modTime rest lr c Hfuel.
    do 2 (destruct fuel as [|fuel]; [lia|]).
    unfold nestedArray. rewrite runSM_array_step. cbn [arraySM_call arraySM_start].
    rewrite runSM_array_step. cbn [arraySM_call].
    rewrite print_array. cbn [map join_close app].
    rewrite arraySM_openBracket_empty.
    eexists _, _. split; [reflexivity|]. done.
  - destruct (array_items_run (v :: vs)) as [N Hrun]; [done|done|].
    exists (2 + N)%nat. intros fuel name modTime rest lr c Hfuel.
    do 2 (destruct fuel as [|fuel]; [lia|]).
    unfold nestedArray. rewrite runSM_array_step. cbn [arraySM_call arraySM_start].
    rewrite runSM_array_step. cbn [arraySM_call].
    rewrite print_array.
    assert (exists x l, join_close (map print (v :: vs)) closeBracketByte = x :: l /\
                        (rune_of_byte x =? closeBracket) = false) as (x & l & Hl & Hx).
    { apply Forall_cons_iff in HF. destruct HF as [[Hwf _] _].
      destruct (print_head_not_closeBracket v Hwf) as (x & l & Hp & Hx).
      cbn [map]. destruct (map print vs); cbn [join_close]; rewrite Hp;
        eexists _, _; (split; [reflexivity|done]). }
    cbn [app]. rewrite Hl. cbn [app].
    rewrite arraySM_openBracket_items by done.
    change (x :: l ++ rest) with ((x :: l) ++ rest). rewrite <-Hl.
    match goal with
    | |- context [runSM_array fuel array_valueCheck ?m0 (mkWorld (mkReader _ ?lr0) ?c0)] =>
      destruct (Hrun fuel m0 rest lr0 c0) as (m' & w' & -> & Hfin);
        [lia|done|done|cbn [am_item arraySM_reset]; lia|]
    end.
    eexists _, _. split; [reflexivity|]. cbn [first_dup].
    destruct (first_dup_items first_dup (v :: vs)); [done|].
    destruct Hfin as (? & Hd & ?). split; [done|]. split; [|done].
    rewrite Hd. reflexivity.
Qed.

(* ===================================================================== *)
(** * Every document is read as it says *)
(* ===================================================================== *)

Lemma jvalue_nested_ind (P : jvalue -> Prop) :
  (forall t raw, P (JScalar t raw)) ->
  (forall ms, Forall (fun kv => P (snd kv)) ms -> P (JObject ms)) ->
  (forall vs, Forall P vs -> P (JArray vs)) ->
  forall j, P j.
Proof.
  intros Hs Ho Ha. fix IH 1. intros [t raw|ms|vs].
  - apply Hs.
  - apply Ho. induction ms as [|[k v] ms IHms]; constructor; [apply IH|apply IHms].
  - apply Ha. induction vs as [|v vs IHvs]; constructor; [apply IH|apply IHvs].
Qed.

Lemma decode_print j :
  wf_value j = true -> value_in_dict j /\ value_in_array j.
Proof.
  induction j as [t raw|ms IH|vs IH] using jvalue_nested_ind; intros Hwf.
  - split; [by apply value_in_dict_scalar|by apply value_in_array_scalar].
  - assert (object_run (JObject ms)) as Hrun.
    { apply object_run_members. cbn [wf_value] in Hwf.
      rewrite forallb_forall in Hwf. rewrite List.Forall_forall in IH.
      apply List.Forall_forall. intros kv Hin.
      specialize (Hwf kv Hin). apply andb_prop in Hwf as [Hk Hv].
      repeat split; [done|done|]. by apply (IH kv Hin). }
    split; [by apply value_in_dict_object|by apply value_in_array_object].
  - cbn [wf_value] in Hwf. apply andb_prop in Hwf as [Hall Hlen%Z.ltb_lt].
    assert (array_run (JArray vs)) as Hrun.
    { apply array_run_items; [done|].
      rewrite forallb_forall in Hall. rewrite List.Forall_forall in IH.
      apply List.Forall_forall. intros v Hin.
      split; [by apply Hall|]. by apply (IH v Hin), Hall. }
    split; [by apply value_in_dict_array|by apply value_in_array_array].
Qed.

Lemma object_run_print ms : wf_value (JObject ms) = true -> object_run (JObject ms).
Proof.
  intros Hwf. apply object_run_members. cbn [wf_value] in Hwf.
  rewrite forallb_forall in Hwf. apply List.Forall_forall. intros kv Hin.
  specialize (Hwf kv Hin). apply andb_prop in Hwf as [Hk Hv].
  repeat split; [done|done|]. by apply decode_print.
Qed.

(** [UnmarshalJSON] on the text of an object. *)
Lemma UnmarshalJSON_print ms rest lr c :
  wf_value (JObject ms) = true ->
  exists w',
    match first_dup (JObject ms) with
    | Some k =>
      UnmarshalJSON (mkWorld (mkReader (print (JObject ms) ++ rest) lr) c)
      = (Err (ErrDuplicateField k), w')
    | None =>
      exists d,
        UnmarshalJSON (mkWorld (mkReader (print (JObject ms) ++ rest) lr) c) = (Ok d, w') /\
        untimed d = build EmptyString (JObject ms) /\ unread (w_b w') = rest
    end.
Proof.
  intros Hwf. destruct (object_run_print ms Hwf) as [N Hrun].
  destruct (Hrun N EmptyString rest lr c) as (m & w' & Hm & Hout); [lia|].
  unfold nestedDict in Hm. exists w'.
  destruct (first_dup (JObject ms)) as [k|].
  - rewrite (UnmarshalJSON_run _ _ _ _ Hm) by (by rewrite Hout). by rewrite Hout.
  - destruct Hout as (Herr & Hd & Hrest). exists (dm_dir m).
    rewrite (UnmarshalJSON_run _ _ _ _ Hm) by (by rewrite Herr). by rewrite Herr.
Qed.

(* ===================================================================== *)
(** * Repeated keys *)
(* ===================================================================== *)

Lemma first_dup_members_None ms : forall seen,
  first_dup_members first_dup seen ms = None ->
  NoDup (map fst ms) /\ (forall k, In k (map fst ms) -> k ∉ seen) /\
  (forall k v, In (k, v) ms -> first_dup v = None).
Proof.
  induction ms as [|[k v] ms IH]; intros seen H.
  - repeat split; [constructor|intros ? []|intros ? ? []].
  - cbn [first_dup_members fst snd] in H.
    destruct (bool_decide_reflect (k ∈ seen)) as [|Hk]; [done|].
    destruct (first_dup v) as [k'|] eqn:Hv; [done|].
    destruct (IH _ H) as (Hnd & Hseen & Hsub).
    cbn [map fst]. repeat split.
    + constructor; [|done]. intros Hin.
      apply (Hseen k Hin). left.
    + intros k0 [<-|Hin]; [done|]. intros Hk0. apply (Hseen k0 Hin). by right.
    + intros k0 v0 [[= <- <-]|Hin]; [done|]. by apply (Hsub k0 v0).
Qed.

Lemma first_dup_items_None vs :
  first_dup_items first_dup vs = None -> forall v, In v vs -> first_dup v = None.
Proof.
  induction vs as [|v vs IH]; intros H v0; [intros []|].
  cbn [first_dup_items] in H. destruct (first_dup v) eqn:Hv; [done|].
  intros [<-|Hin]; [done|]. by apply IH.
Qed.

Lemma has_duplicate_key_first_dup j :
  has_duplicate_key j -> exists k, first_dup j = Some k.
Proof.
  intros H. assert (first_dup j <> None) as Hne.
  { induction H as [ms Hnd|ms k v Hin _ IH|vs v Hin _ IH]; cbn [first_dup]; intros Hnone.
    - by apply Hnd, (first_dup_members_None ms []).
    - apply IH. by apply (first_dup_members_None ms [] Hnone) in Hin.
    - apply IH. by apply (first_dup_items_None vs Hnone). }
  destruct (first_dup j) as [k|]; [by exists k|done].
Qed.

(* ===================================================================== *)
(** * The decoder on a document with white space *)
(* ===================================================================== *)

Lemma json_space_spec c :
  json_space c = true ->
  rune_of_byte c < 128 /\ IsSpace (rune_of_byte c) = true /\ ends_value c = true.
Proof.
  unfold json_space, ends_value. intros H.
  repeat (apply orb_prop in H as [H|H]); apply Z.eqb_eq in H; rewrite H; done.
Qed.

Lemma skipSpace_loop_blank ws : forall fuel x l lr,
  blank ws = true -> rune_of_byte x < 128 -> IsSpace (rune_of_byte x) = false ->
  (length ws < fuel)%nat ->
  skipSpace_loop fuel (mkReader (ws ++ x :: l) lr) = mkReader (x :: l) None.
Proof.
  induction ws as [|c ws IH]; intros fuel x l lr Hws Hx Hsp Hfuel;
    (destruct fuel as [|fuel]; [cbn [length] in Hfuel; lia|]); cbn [app skipSpace_loop].
  - rewrite ReadRune_ascii, Hsp by done. reflexivity.
  - cbn [blank forallb] in Hws. apply andb_prop in Hws as [Hc Hws].
    destruct (json_space_spec c Hc) as (Hc1 & Hc2 & _).
    rewrite ReadRune_ascii, Hc2 by done. apply IH; try done. cbn [length] in Hfuel. lia.
Qed.

Lemma skipSpace_blank ws x l lr :
  blank ws = true -> rune_of_byte x < 128 -> IsSpace (rune_of_byte x) = false ->
  skipSpace (mkReader (ws ++ x :: l) lr) = mkReader (x :: l) None.
Proof.
  intros Hws Hx Hsp. unfold skipSpace. cbn [unread].
  apply skipSpace_loop_blank; try done. rewrite length_app. cbn [length]. lia.
Qed.

(** What follows white space and a byte that ends a value starts with a
    byte that ends a value. *)
Lemma blank_then ws term tl :
  blank ws = true -> ends_value term = true ->
  exists x r, ws ++ term :: tl = x :: r /\ ends_value x = true.
Proof.
  intros Hws Hterm. destruct ws as [|c ws].
  - by exists term, tl.
  - cbn [blank forallb] in Hws. apply andb_prop in Hws as [Hc _].
    exists c, (ws ++ term :: tl). split; [done|]. by apply json_space_spec.
Qed.

(** ** The state functions after white space *)

Lemma dictSM_openBrace_blank_empty m ws rest lr c :
  blank ws = true ->
  dictSM_openBrace m (mkWorld (mkReader (ws ++ openBraceByte :: closeBraceByte :: rest) lr) c) =
  (None, m, mkWorld (mkReader rest (Some [closeBraceByte])) c).
Proof.
  intros Hws. unfold dictSM_openBrace. cbn [w_b].
  rewrite skipSpace_blank by done. reflexivity.
Qed.

Lemma dictSM_openBrace_blank_members m ws x l lr c :
  blank ws = true -> (rune_of_byte x =? closeBrace) = false ->
  dictSM_openBrace m (mkWorld (mkReader (ws ++ openBraceByte :: x :: l) lr) c) =
  (Some dict_parseKey, m, mkWorld (mkReader (x :: l) None) c).
Proof.
  intros Hws Hx. unfold dictSM_openBrace. cbn [w_b].
  rewrite skipSpace_blank, ReadRune_ascii by done.
  change (rune_of_byte openBraceByte =? openBrace) with true. cbn [negb Peek1 unread].
  by rewrite Hx.
Qed.

Lemma dictSM_parseKey_blank m ws k rest lr c :
  blank ws = true -> escaped_ok k = true ->
  dictSM_parseKey m (mkWorld (mkReader (ws ++ quoted k ++ rest) lr) c) =
  (Some dict_colon, dm_set_valueName (ByteSlice2String k) m,
   mkWorld (mkReader rest None) c).
Proof.
  intros Hws Hk. rewrite <-(dictSM_parseKey_quoted m k rest None c Hk).
  unfold dictSM_parseKey. cbn [w_b]. unfold quoted. cbn [app].
  rewrite skipSpace_blank, skipSpace_nonspace by done. reflexivity.
Qed.

Lemma dictSM_colon_blank m ws rest lr c :
  blank ws = true ->
  dictSM_colon m (mkWorld (mkReader (ws ++ colonByte :: rest) lr) c) =
  (Some dict_valueCheck, m, mkWorld (mkReader rest (Some [colonByte])) c).
Proof.
  intros Hws. unfold dictSM_colon. cbn [w_b]. rewrite skipSpace_blank by done. reflexivity.
Qed.

Lemma dictSM_commaClose_blank_comma m ws rest lr c :
  blank ws = true ->
  dictSM_commaClose m (mkWorld (mkReader (ws ++ commaByte :: rest) lr) c) =
  (Some dict_comma, m, mkWorld (mkReader (commaByte :: rest) None) c).
Proof.
  intros Hws. unfold dictSM_commaClose. cbn [w_b]. rewrite skipSpace_blank by done.
  reflexivity.
Qed.

Lemma dictSM_commaClose_blank_brace m ws rest lr c :
  blank ws = true ->
  dictSM_commaClose m (mkWorld (mkReader (ws ++ closeBraceByte :: rest) lr) c) =
  (Some dict_braceClose, m, mkWorld (mkReader (closeBraceByte :: rest) None) c).
Proof.
  intros Hws. unfold dictSM_commaClose. cbn [w_b]. rewrite skipSpace_blank by done.
  reflexivity.
Qed.

Lemma arraySM_openBracket_blank_empty m ws rest lr c :
  blank ws = true ->
  arraySM_openBracket m
    (mkWorld (mkReader (ws ++ openBracketByte :: closeBracketByte :: rest) lr) c) =
  (None, m, mkWorld (mkReader rest (Some [closeBracketByte])) c).
Proof.
  intros Hws. unfold arraySM_openBracket. cbn [w_b].
  rewrite skipSpace_blank by done. reflexivity.
Qed.

Lemma arraySM_openBracket_blank_items m ws x l lr c :
  blank ws = true -> (rune_of_byte x =? closeBracket) = false ->
  arraySM_openBracket m (mkWorld (mkReader (ws ++ openBracketByte :: x :: l) lr) c) =
  (Some array_valueCheck, m, mkWorld (mkReader (x :: l) None) c).
Proof.
  intros Hws Hx. unfold arraySM_openBracket. cbn [w_b].
  rewrite skipSpace_blank, ReadRune_ascii by done.
  change (rune_of_byte openBracketByte =? openBracket) with true. cbn [negb Peek1 unread].
  by rewrite Hx.
Qed.

Lemma arraySM_commaClose_blank_comma m ws rest lr c :
  blank ws = true ->
  arraySM_commaClose m (mkWorld (mkReader (ws ++ commaByte :: rest) lr) c) =
  (Some array_comma, m, mkWorld (mkReader (commaByte :: rest) None) c).
Proof.
  intros Hws. unfold arraySM_commaClose. cbn [w_b]. rewrite skipSpace_blank by done.
  reflexivity.
Qed.

Lemma arraySM_commaClose_blank_bracket m ws rest lr c :
  blank ws = true ->
  arraySM_commaClose m (mkWorld (mkReader (ws ++ closeBracketByte :: rest) lr) c) =
  (Some array_close, m, mkWorld (mkReader (closeBracketByte :: rest) None) c).
Proof.
  intros Hws. unfold arraySM_commaClose. cbn [w_b]. rewrite skipSpace_blank by done.
  reflexivity.
Qed.

(** ** Scalars before white space *)

Lemma ends_value_spec x :
  ends_value x = true ->
  rune_of_byte x < 128 /\ IsNumber (rune_of_byte x) = false /\ (rune_of_byte x =? dot) = false.
Proof.
  unfold ends_value.
  intros [[H1%Z.ltb_lt H2%negb_true_iff]%andb_prop H3%negb_true_iff]%andb_prop. done.
Qed.

Lemma decodeNumber_loop_ends raw : forall fuel buff float x rest lr,
  forallb (fun c => is_digit c || is_dot c) raw = true ->
  ends_value x = true -> (length raw < fuel)%nat ->
  decodeNumber_loop fuel (mkReader (raw ++ x :: rest) lr) buff float =
  (Ok (buff ++ raw, float || has_dot raw), mkReader (x :: rest) None).
Proof.
  induction raw as [|c raw IH]; intros fuel buff float x rest lr Hraw Hx Hfuel.
  - destruct fuel; [simpl in Hfuel; lia|]. cbn [app decodeNumber_loop].
    apply ends_value_spec in Hx as (Hc & Hn & Hd).
    rewrite ReadRune_ascii, Hn, Hd by done. cbn [negb].
    rewrite app_nil_r, orb_false_r. done.
  - destruct fuel; [simpl in Hfuel; lia|]. cbn [app decodeNumber_loop].
    simpl in Hraw. apply andb_prop in Hraw as [Hc Hraw].
    assert (rune_of_byte c < 128) as Hascii.
    { apply orb_prop in Hc as [Hc|Hc]; [by apply is_digit_ascii|].
      unfold is_dot in Hc. apply Z.eqb_eq in Hc. rewrite Hc. done. }
    rewrite ReadRune_ascii by done. rewrite byte_of_rune_of_byte.
    destruct (is_digit c) eqn:Hdig.
    + rewrite (IsNumber_digit c Hdig). cbn [negb].
      rewrite (IH fuel) by (try done; simpl in Hfuel; lia).
      rewrite <-app_assoc. cbn [app has_dot existsb].
      assert (is_dot c = false) as ->.
      { unfold is_dot, is_digit in *. apply andb_prop in Hdig as [H1%Z.leb_le H2%Z.leb_le].
        apply Z.eqb_neq. unfold dot. lia. }
      done.
    + cbn [orb] in Hc. pose proof Hc as Hdot. unfold is_dot in Hdot.
      assert (IsNumber (rune_of_byte c) = false) as ->.
      { apply Z.eqb_eq in Hdot. rewrite Hdot. done. }
      cbn [negb]. rewrite Hdot. cbn [negb].
      rewrite (IH fuel) by (try done; simpl in Hfuel; lia).
      rewrite <-app_assoc. cbn [app has_dot existsb]. rewrite Hc.
      by rewrite orb_true_r.
Qed.

Lemma decodeNumber_ends raw x rest lr name modTime :
  number_ok raw = true -> ends_value x = true ->
  decodeNumber (mkReader (raw ++ x :: rest) lr) name modTime =
  (Ok (mkFile name modTime (if has_dot raw then FTFloat else FTInt) raw),
   mkReader (x :: rest) None).
Proof.
  intros Hraw Hx. unfold decodeNumber. cbn [unread].
  destruct raw as [|c raw]; [done|].
  unfold number_ok in Hraw. apply andb_prop in Hraw as [_ Hraw].
  rewrite (decodeNumber_loop_ends (c :: raw)); [|done|done|rewrite length_app; simpl; lia].
  done.
Qed.

(** The decoder of the announced kind reads the scalar back, whatever
    byte that ends a value follows it. *)
Lemma decode_scalar_ends t raw x rest lr name modTime :
  scalar_ok t raw = true -> ends_value x = true ->
  match kind_of t raw with
  | stringNext => decodeString (mkReader (print (JScalar t raw) ++ x :: rest) lr) name modTime
  | trueNext => decodeBool (mkReader (print (JScalar t raw) ++ x :: rest) lr) name trueNext modTime
  | falseNext => decodeBool (mkReader (print (JScalar t raw) ++ x :: rest) lr) name falseNext modTime
  | nullNext => decodeNull (mkReader (print (JScalar t raw) ++ x :: rest) lr) name modTime
  | _ => decodeNumber (mkReader (print (JScalar t raw) ++ x :: rest) lr) name modTime
  end = (Ok (mkFile name modTime t raw), mkReader (x :: rest) None).
Proof.
  intros Hok Hx.
  destruct (scalar_ok_cases _ _ Hok)
    as [[-> Hs]|[[-> ->]|[[-> ->]|[[-> ->]|(Ht & Hn & Hdot)]]]]; try reflexivity.
  - cbn [kind_of print]. unfold decodeString. by rewrite getString_quoted.
  - assert (print (JScalar t raw) = raw) as -> by (by destruct Ht as [-> | ->]).
    assert (kind_of t raw = numNext) as -> by (by destruct Ht as [-> | ->]).
    rewrite decodeNumber_ends by done. by rewrite <-Hdot.
Qed.

(** ** The first byte of a written document *)

Lemma erase_object ms : erase (SObject ms) = JObject (map erase_member ms).
Proof. reflexivity. Qed.

Lemma erase_array vs : erase (SArray vs) = JArray (map erase_item vs).
Proof. reflexivity. Qed.

Lemma sprint_object ms :
  sprint (SObject ms) = openBraceByte :: join_close (map smember_text ms) closeBraceByte.
Proof. reflexivity. Qed.

Lemma sprint_array vs :
  sprint (SArray vs) = openBracketByte :: join_close (map sitem_text vs) closeBracketByte.
Proof. reflexivity. Qed.

Lemma sprint_head s :
  wf_value (erase s) = true ->
  exists x l, sprint s = x :: l /\ rune_of_byte x < 128 /\
    IsSpace (rune_of_byte x) = false /\
    (rune_of_byte x =? closeBrace) = false /\
    (rune_of_byte x =? closeBracket) = false.
Proof.
  destruct s as [t raw|ms|vs]; intros Hwf.
  - apply (print_head (JScalar t raw) Hwf).
  - eexists _, _. split; [apply sprint_object|done].
  - eexists _, _. split; [apply sprint_array|done].
Qed.

Lemma skipSpace_sprint ws s tl lr :
  blank ws = true -> wf_value (erase s) = true ->
  skipSpace (mkReader (ws ++ sprint s ++ tl) lr) = mkReader (sprint s ++ tl) None.
Proof.
  intros Hws Hwf. destruct (sprint_head s Hwf) as (x & l & -> & ? & ? & _).
  cbn [app]. by apply skipSpace_blank.
Qed.

(** [valueCheck] accepts the first byte of every written document. *)
Lemma valueCheck_sprint s tl lr :
  wf_value (erase s) = true ->
  exists nxt, valueCheck (mkReader (sprint s ++ tl) lr) =
              (Ok nxt, mkReader (sprint s ++ tl) None).
Proof.
  destruct s as [t raw|ms|vs]; intros Hwf.
  - eexists. by apply valueCheck_scalar.
  - eexists. reflexivity.
  - eexists. reflexivity.
Qed.

Lemma dictSM_valueCheck_blank_duplicate rD rA m ws s tl lr c e :
  blank ws = true -> wf_value (erase s) = true ->
  duplicateField (dm_dir m) (dm_valueName m) = Some e ->
  dictSM_valueCheck rD rA m (mkWorld (mkReader (ws ++ sprint s ++ tl) lr) c) =
  (None, dm_set_err e m, mkWorld (mkReader (sprint s ++ tl) None) c).
Proof.
  intros Hws Hwf Hdup. unfold dictSM_valueCheck. cbn [w_b].
  rewrite skipSpace_sprint by done.
  destruct (valueCheck_sprint s tl None Hwf) as [nxt ->]. cbv zeta.
  by rewrite Hdup, with_b_mk.
Qed.

Lemma svalue_in_dict_scalar t raw :
  scalar_ok t raw = true -> svalue_in_dict (SScalar t raw).
Proof.
  intros Hok. exists 0%nat. intros fuel m ws x rest lr c _ Hws Hx Hdup.
  unfold dictSM_valueCheck. cbn [w_b].
  rewrite (skipSpace_sprint ws (SScalar t raw)) by done. cbn [sprint].
  rewrite valueCheck_scalar by done. cbv zeta. rewrite Hdup.
  pose proof (decode_scalar_ends t raw x rest None (dm_valueName m) (dm_modTime m) Hok Hx)
    as Hdec.
  cbn [w_b with_b].
  exists (Some dict_commaClose),
    (dm_set_dir (put_file (dm_valueName m)
                   (mkFile (dm_valueName m) (dm_modTime m) t raw) (dm_dir m)) m),
    (mkWorld (mkReader (x :: rest) None) c).
  split.
  - revert Hdec. destruct (kind_of t raw) eqn:Ek; intros Hdec;
      try (rewrite Hdec; reflexivity);
      destruct t; simpl in Ek; try discriminate; by destruct (bool_decide _).
  - cbn [erase first_dup dm_err dm_dir dm_set_dir w_b unread build_child].
    rewrite untimed_put_file. done.
Qed.

Lemma svalue_in_array_scalar t raw :
  scalar_ok t raw = true -> svalue_in_array (SScalar t raw).
Proof.
  intros Hok. exists 0%nat. intros fuel m ws x rest lr c _ Hws Hx.
  unfold arraySM_valueCheck, arraySM_valueCheck_body. cbn [w_b].
  rewrite (skipSpace_sprint ws (SScalar t raw)) by done. cbn [sprint].
  rewrite valueCheck_scalar by done. cbv zeta.
  pose proof (decode_scalar_ends t raw x rest None (Itoa (am_item m)) (am_modTime m) Hok Hx)
    as Hdec.
  cbn [w_b with_b].
  exists (Some array_commaClose),
    (mkArraySM (put_file (Itoa (am_item m))
                  (mkFile (Itoa (am_item m)) (am_modTime m) t raw) (am_dir m))
               (am_modTime m) (wrap_int (am_item m + 1)) (am_err m)),
    (mkWorld (mkReader (x :: rest) None) c).
  split.
  - revert Hdec. destruct (kind_of t raw) eqn:Ek; intros Hdec;
      try (rewrite Hdec; reflexivity);
      destruct t; simpl in Ek; try discriminate; by destruct (bool_decide _).
  - cbn [erase first_dup am_err am_dir am_item w_b unread build_child].
    rewrite untimed_put_file. done.
Qed.

(** ** Objects and arrays as values *)

Lemma svalue_in_dict_object ms :
  wf_value (erase (SObject ms)) = true ->
  sobject_run (SObject ms) -> svalue_in_dict (SObject ms).
Proof.
  intros Hwf [N Hrun]. exists N. intros fuel m ws x rest lr c Hfuel Hws Hx Hdup.
  unfold dictSM_valueCheck. cbn [w_b].
  rewrite skipSpace_sprint by done.
  destruct (valueCheck_sprint (SObject ms) (x :: rest) None Hwf) as [nxt Hvc].
  assert (nxt = msgNext) as -> by (by injection Hvc).
  rewrite Hvc. cbv zeta. rewrite Hdup, with_b_mk.
  destruct (Hrun fuel (dm_valueName m) [] (x :: rest) None c Hfuel eq_refl)
    as (nm & w1 & Hnm & Hout).
  cbn [app] in Hnm. rewrite Hnm.
  destruct (first_dup (erase (SObject ms))) as [k|].
  - rewrite Hout. eexists _, _, _. split; [reflexivity|done].
  - destruct Hout as (-> & Hdir & Hw).
    eexists _, _, _. split; [reflexivity|].
    cbn [dm_err dm_set_dir dm_dir build_child erase].
    rewrite untimed_put_dir, Hdir. done.
Qed.

Lemma svalue_in_dict_array vs :
  wf_value (erase (SArray vs)) = true ->
  sarray_run (SArray vs) -> svalue_in_dict (SArray vs).
Proof.
  intros Hwf [N Hrun]. exists N. intros fuel m ws x rest lr c Hfuel Hws Hx Hdup.
  unfold dictSM_valueCheck. cbn [w_b].
  rewrite skipSpace_sprint by done.
  destruct (valueCheck_sprint (SArray vs) (x :: rest) None Hwf) as [nxt Hvc].
  assert (nxt = arrayNext) as -> by (by injection Hvc).
  rewrite Hvc. cbv zeta. rewrite Hdup, with_b_mk.
  destruct (Hrun fuel (dm_valueName m) (dm_modTime m) [] (x :: rest) None c Hfuel eq_refl)
    as (na & w1 & Hna & Hout).
  cbn [app] in Hna. rewrite Hna.
  destruct (first_dup (erase (SArray vs))) as [k|].
  - rewrite Hout. eexists _, _, _. split; [reflexivity|done].
  - destruct Hout as (-> & Hdir & Hw).
    eexists _, _, _. split; [reflexivity|].
    cbn [dm_err dm_set_dir dm_dir build_child erase].
    rewrite untimed_put_dir, Hdir. done.
Qed.

Lemma svalue_in_array_object ms :
  wf_value (erase (SObject ms)) = true ->
  sobject_run (SObject ms) -> svalue_in_array (SObject ms).
Proof.
  intros Hwf [N Hrun]. exists N. intros fuel m ws x rest lr c Hfuel Hws Hx.
  unfold arraySM_valueCheck, arraySM_valueCheck_body. cbn [w_b].
  rewrite skipSpace_sprint by done.
  destruct (valueCheck_sprint (SObject ms) (x :: rest) None Hwf) as [nxt Hvc].
  assert (nxt = msgNext) as -> by (by injection Hvc).
  rewrite Hvc. cbv zeta. rewrite with_b_mk.
  destruct (Hrun fuel (Itoa (am_item m)) [] (x :: rest) None c Hfuel eq_refl)
    as (nm & w1 & Hnm & Hout).
  cbn [app] in Hnm. rewrite Hnm.
  destruct (first_dup (erase (SObject ms))) as [k|].
  - rewrite Hout. eexists _, _, _. split; [reflexivity|done].
  - destruct Hout as (-> & Hdir & Hw).
    eexists _, _, _. split; [reflexivity|].
    cbn [am_err am_set_dir am_dir am_item build_child erase].
    rewrite untimed_put_dir, Hdir. done.
Qed.

Lemma svalue_in_array_array vs :
  wf_value (erase (SArray vs)) = true ->
  sarray_run (SArray vs) -> svalue_in_array (SArray vs).
Proof.
  intros Hwf [N Hrun]. exists N. intros fuel m ws x rest lr c Hfuel Hws Hx.
  unfold arraySM_valueCheck, arraySM_valueCheck_body. cbn [w_b].
  rewrite skipSpace_sprint by done.
  destruct (valueCheck_sprint (SArray vs) (x :: rest) None Hwf) as [nxt Hvc].
  assert (nxt = arrayNext) as -> by (by injection Hvc).
  rewrite Hvc. cbv zeta. rewrite with_b_mk.
  destruct (Hrun fuel (Itoa (am_item m)) (am_modTime m) [] (x :: rest) None c Hfuel eq_refl)
    as (na & w1 & Hna & Hout).
  cbn [app] in Hna. rewrite Hna.
  destruct (first_dup (erase (SArray vs))) as [k|].
  - rewrite Hout. eexists _, _, _. split; [reflexivity|done].
  - destruct Hout as (-> & Hdir & Hw).
    eexists _, _, _. split; [reflexivity|].
    cbn [am_err am_set_dir am_dir am_item build_child erase].
    rewrite untimed_put_dir, Hdir. done.
Qed.

(** ** The members of an object, one after the other *)

Lemma sdict_members_run ms :
  ms <> [] -> Forall smember_ok ms ->
  exists N, forall fuel m seen rest lr c,
    (N <= fuel)%nat -> dm_err m = None -> seen_in seen (dm_dir m) ->
    exists m' w',
      runSM_dict fuel dict_parseKey m
        (mkWorld (mkReader (join_close (map smember_text ms) closeBraceByte ++ rest) lr) c)
      = (m', w') /\
      match first_dup_members first_dup seen (map erase_member ms) with
      | Some k => dm_err m' = Some (ErrDuplicateField k)
      | None =>
        dm_err m' = None /\
        untimed (dm_dir m') = build_members build (map erase_member ms) (untimed (dm_dir m)) /\
        unread (w_b w') = rest
      end.
Proof.
  induction ms as [|m0 ms IH]; [done|]. intros _ HF.
  apply Forall_cons_iff in HF.
  destruct HF as [(Hk & Hwf & Hb1 & Hb2 & Hb3 & Hb4 & [Nv Hv]) HF].
  assert (exists N', ms <> [] -> forall fuel m seen rest lr c,
    (N' <= fuel)%nat -> dm_err m = None -> seen_in seen (dm_dir m) ->
    exists m' w',
      runSM_dict fuel dict_parseKey m
        (mkWorld (mkReader (join_close (map smember_text ms) closeBraceByte ++ rest) lr) c)
      = (m', w') /\
      match first_dup_members first_dup seen (map erase_member ms) with
      | Some k => dm_err m' = Some (ErrDuplicateField k)
      | None =>
        dm_err m' = None /\
        untimed (dm_dir m') = build_members build (map erase_member ms) (untimed (dm_dir m)) /\
        unread (w_b w') = rest
      end) as [N' IH'].
  { destruct ms as [|m1 ms]; [by exists 0%nat|].
    destruct (IH ltac:(done) HF) as [N' H]. exists N'. intros _. exact H. }
  clear IH. exists (6 + Nv + N')%nat.
  intros fuel m seen rest lr c Hfuel Herr Hseen.
  do 6 (destruct fuel as [|fuel]; [lia|]).
  cbn [map].
  destruct (join_close_cons (smember_text m0) (map smember_text ms) closeBraceByte rest)
    as (term & tl & -> & Hcases).
  assert (ends_value term = true) as Hterm.
  { destruct Hcases as [(_ & -> & _)|(_ & -> & _)]; reflexivity. }
  destruct (blank_then (m_after m0) term tl Hb4 Hterm) as (x & r & Hxr & Hx).
  assert (smember_text m0 ++ term :: tl =
          m_before m0 ++ quoted (unsafeGetBytes (m_key m0)) ++
          (m_colon m0 ++ colonByte :: (m_mid m0 ++ sprint (m_value m0) ++ x :: r))) as ->.
  { unfold smember_text. rewrite <-Hxr. rewrite <-!app_assoc. cbn [app].
    rewrite <-!app_assoc. done. }
  (* parseKey *)
  rewrite runSM_dict_step. cbn [dictSM_call].
  rewrite dictSM_parseKey_blank, ByteSlice2String_unsafeGetBytes by done.
  (* colon *)
  rewrite runSM_dict_step. cbn [dictSM_call]. rewrite dictSM_colon_blank by done.
  (* valueCheck *)
  rewrite runSM_dict_step. cbn [dictSM_call].
  change (erase_member m0) with (m_key m0, erase (m_value m0)).
  cbn [first_dup_members fst snd].
  destruct (bool_decide_reflect (m_key m0 ∈ seen)) as [Hin|Hnotin].
  { rewrite (dictSM_valueCheck_blank_duplicate _ _ _ (m_mid m0) (m_value m0) (x :: r) _ c
               (ErrDuplicateField (m_key m0)))
      by (try done; apply duplicateField_Some, Hseen, Hin).
    eexists _, _. split; [reflexivity|done]. }
  destruct (Hv (S (S (S fuel))) (dm_set_valueName (m_key m0) m) (m_mid m0) x r
              (Some [colonByte]) c)
    as (fn & m3 & w3 & -> & Hout); [lia|done|done| |].
  { apply duplicateField_None. intros H. by apply Hnotin, Hseen. }
  destruct (first_dup (erase (m_value m0))) as [k'|].
  { destruct Hout as [-> Hout]. eexists _, _. split; [reflexivity|done]. }
  destruct Hout as (-> & Herr3 & Hdir3 & Hw3).
  destruct w3 as [[u3 lr3] c3]. cbn [w_b unread] in Hw3. subst u3.
  cbn [dm_err dm_dir dm_set_valueName dm_valueName] in Herr3, Hdir3.
  (* commaClose *)
  rewrite runSM_dict_step. cbn [dictSM_call]. rewrite <-Hxr.
  destruct Hcases as [(Hnil & -> & ->)|(Hms & -> & ->)].
  - apply map_eq_nil in Hnil. subst ms.
    rewrite dictSM_commaClose_blank_brace by done.
    rewrite runSM_dict_step. cbn [dictSM_call]. rewrite dictSM_braceClose_brace.
    eexists _, _. split; [reflexivity|]. cbn [map first_dup_members build_members fst snd].
    rewrite Herr3, Hdir3. done.
  - rewrite dictSM_commaClose_blank_comma by done.
    rewrite runSM_dict_step. cbn [dictSM_call]. rewrite dictSM_comma_comma.
    assert (ms <> []) as Hms' by (by destruct ms).
    destruct (IH' Hms' (S fuel) m3 (m_key m0 :: seen) rest (Some [commaByte]) c3)
      as (m' & w' & -> & Hfin); [lia|by rewrite Herr3| |].
    { eapply seen_in_build_child; [exact Hseen|exact Hdir3]. }
    eexists _, _. split; [reflexivity|].
    destruct (first_dup_members first_dup (m_key m0 :: seen) (map erase_member ms)) as [k'|];
      [done|].
    destruct Hfin as (? & Hd & ?). split; [done|]. split; [|done].
    cbn [build_members fst snd]. rewrite Hd, Hdir3. done.
Qed.

(** A fresh [dictSM] on the text of an object whose members are read as
    they are written. *)
Lemma sobject_run_members ms :
  Forall smember_ok ms -> sobject_run (SObject ms).
Proof.
  intros HF. destruct ms as [|m0 ms].
  - exists 2%nat. intros fuel name ws rest lr c Hfuel Hws.
    do 2 (destruct fuel as [|fuel]; [lia|]).
    unfold nestedDict. rewrite runSM_dict_step. cbn [dictSM_call].
    rewrite dictSM_start_eq. rewrite runSM_dict_step. cbn [dictSM_call].
    rewrite sprint_object. cbn [map join_close app].
    rewrite dictSM_openBrace_blank_empty by done.
    eexists _, _. split; [reflexivity|]. done.
  - destruct (sdict_members_run (m0 :: ms)) as [N Hrun]; [done|done|].
    exists (2 + N)%nat. intros fuel name ws rest lr c Hfuel Hws.
    do 2 (destruct fuel as [|fuel]; [lia|]).
    unfold nestedDict. rewrite runSM_dict_step. cbn [dictSM_call].
    rewrite dictSM_start_eq. rewrite runSM_dict_step. cbn [dictSM_call].
    rewrite sprint_object.
    assert (exists x l, join_close (map smember_text (m0 :: ms)) closeBraceByte = x :: l /\
                        (rune_of_byte x =? closeBrace) = false) as (x & l & Hl & Hx).
    { apply Forall_cons_iff in HF. destruct HF as [(_ & _ & Hb1 & _) _].
      cbn [map]. unfold smember_text at 1, quoted.
      destruct (m_before m0) as [|b0 bs] eqn:Eb.
      - destruct (map smember_text ms); cbn [join_close app];
          eexists _, _; (split; [reflexivity|done]).
      - cbn [blank forallb] in Hb1. apply andb_prop in Hb1 as [Hb0 _].
        assert ((rune_of_byte b0 =? closeBrace) = false) as Hne.
        { unfold json_space in Hb0.
          repeat (apply orb_prop in Hb0 as [Hb0|Hb0]); apply Z.eqb_eq in Hb0;
            rewrite Hb0; done. }
        destruct (map smember_text ms); cbn [join_close app];
          eexists _, _; (split; [reflexivity|done]). }
    cbn [app]. rewrite Hl. cbn [app].
    rewrite dictSM_openBrace_blank_members by done.
    change (x :: l ++ rest) with ((x :: l) ++ rest). rewrite <-Hl.
    match goal with
    | |- context [runSM_dict fuel dict_parseKey ?m0 (mkWorld (mkReader _ ?lr0) ?c0)] =>
      destruct (Hrun fuel m0 [] rest lr0 c0) as (m' & w' & -> & Hfin);
        [lia|done|apply seen_in_empty|]
    end.
    eexists _, _. split; [reflexivity|]. rewrite erase_object. cbn [first_dup].
    destruct (first_dup_members first_dup [] (map erase_member (m0 :: ms))); [done|].
    destruct Hfin as (? & Hd & ?). split; [done|]. split; [|done].
    rewrite Hd. reflexivity.
Qed.

(** ** The items of an array, one after the other *)

Lemma sarray_items_run vs :
  vs <> [] -> Forall sitem_ok vs ->
  exists N, forall fuel m rest lr c,
    (N <= fuel)%nat -> am_err m = None ->
    0 <= am_item m -> am_item m + Z.of_nat (length vs) < 2 ^ 63 ->
    exists m' w',
      runSM_array fuel array_valueCheck m
        (mkWorld (mkReader (join_close (map sitem_text vs) closeBracketByte ++ rest) lr) c)
      = (m', w') /\
      match first_dup_items first_dup (map erase_item vs) with
      | Some k => am_err m' = Some (ErrDuplicateField k)
      | None =>
        am_err m' = None /\
        untimed (am_dir m') =
          build_items build (map erase_item vs) (am_item m) (untimed (am_dir m)) /\
        unread (w_b w') = rest
      end.
Proof.
  induction vs as [|v vs IH]; [done|]. intros _ HF.
  apply Forall_cons_iff in HF. destruct HF as [(Hwf & Hb1 & Hb2 & [Nv Hv]) HF].
  assert (exists N', vs <> [] -> forall fuel m rest lr c,
    (N' <= fuel)%nat -> am_err m = None ->
    0 <= am_item m -> am_item m + Z.of_nat (length vs) < 2 ^ 63 ->
    exists m' w',
      runSM_array fuel array_valueCheck m
        (mkWorld (mkReader (join_close (map sitem_text vs) closeBracketByte ++ rest) lr) c)
      = (m', w') /\
      match first_dup_items first_dup (map erase_item vs) with
      | Some k => am_err m' = Some (ErrDuplicateField k)
      | None =>
        am_err m' = None /\
        untimed (am_dir m') =
          build_items build (map erase_item vs) (am_item m) (untimed (am_dir m)) /\
        unread (w_b w') = rest
      end) as [N' IH'].
  { destruct vs as [|v' vs]; [by exists 0%nat|].
    destruct (IH ltac:(done) HF) as [N' H]. exists N'. intros _. exact H. }
  clear IH. exists (4 + Nv + N')%nat.
  intros fuel m rest lr c Hfuel Herr Hitem Hlen.
  do 3 (destruct fuel as [|fuel]; [lia|]).
  cbn [map].
  destruct (join_close_cons (sitem_text v) (map sitem_text vs) closeBracketByte rest)
    as (term & tl & -> & Hcases).
  assert (ends_value term = true) as Hterm.
  { destruct Hcases as [(_ & -> & _)|(_ & -> & _)]; reflexivity. }
  destruct (blank_then (i_after v) term tl Hb2 Hterm) as (x & r & Hxr & Hx).
  assert (sitem_text v ++ term :: tl = i_before v ++ sprint (i_value v) ++ x :: r) as ->.
  { unfold sitem_text. rewrite <-Hxr. by rewrite <-!app_assoc. }
  cbn [length] in Hlen.
  (* valueCheck *)
  rewrite runSM_array_step. cbn [arraySM_call].
  change (erase_item v) with (erase (i_value v)). cbn [first_dup_items].
  destruct (Hv (S (S fuel)) m (i_before v) x r lr c) as (fn & m3 & w3 & -> & Hitem3 & Hout);
    [lia|done|done|].
  rewrite wrap_int_small in Hitem3 by lia.
  destruct (first_dup (erase (i_value v))) as [k'|].
  { destruct Hout as [-> Hout]. eexists _, _. split; [reflexivity|done]. }
  destruct Hout as (-> & Herr3 & Hdir3 & Hw3).
  destruct w3 as [[u3 lr3] c3]. cbn [w_b unread] in Hw3. subst u3.
  (* commaClose *)
  rewrite runSM_array_step. cbn [arraySM_call]. rewrite <-Hxr.
  destruct Hcases as [(Hnil & -> & ->)|(Hvs & -> & ->)].
  - apply map_eq_nil in Hnil. subst vs.
    rewrite arraySM_commaClose_blank_bracket by done.
    rewrite runSM_array_step. cbn [arraySM_call]. rewrite arraySM_close_bracket.
    eexists _, _. split; [reflexivity|]. cbn [map first_dup_items build_items].
    rewrite Herr3, Hdir3. done.
  - rewrite arraySM_commaClose_blank_comma by done.
    rewrite runSM_array_step. cbn [arraySM_call]. rewrite arraySM_comma_comma.
    assert (vs <> []) as Hvs' by (by destruct vs).
    destruct (IH' Hvs' fuel m3 rest (Some [commaByte]) c3)
      as (m' & w' & -> & Hfin); [lia|by rewrite Herr3|lia|lia|].
    eexists _, _. split; [reflexivity|].
    destruct (first_dup_items first_dup (map erase_item vs)) as [k'|]; [done|].
    destruct Hfin as (? & Hd & ?). split; [done|]. split; [|done].
    cbn [build_items]. rewrite Hd, Hdir3, Hitem3. done.
Qed.

(** A fresh [arraySM] on the text of an array whose items are read as
    they are written. *)
Lemma sarray_run_items vs :
  Z.of_nat (length vs) < 2 ^ 63 -> Forall sitem_ok vs -> sarray_run (SArray vs).
Proof.
  intros Hlen HF. destruct vs as [|v vs].
  - exists 2%nat. intros fuel name modTime ws rest lr c Hfuel Hws.
    do 2 (destruct fuel as [|fuel]; [lia|]).
    unfold nestedArray. rewrite runSM_array_step. cbn [arraySM_call arraySM_start].
    rewrite runSM_array_step. cbn [arraySM_call].
    rewrite sprint_array. cbn [map join_close app].
    rewrite arraySM_openBracket_blank_empty by done.
    eexists _, _. split; [reflexivity|]. done.
  - destruct (sarray_items_run (v :: vs)) as [N Hrun]; [done|done|].
    exists (2 + N)%nat. intros fuel name modTime ws rest lr c Hfuel Hws.
    do 2 (destruct fuel as [|fuel]; [lia|]).
    unfold nestedArray. rewrite runSM_array_step. cbn [arraySM_call arraySM_start].
    rewrite runSM_array_step. cbn [arraySM_call].
    rewrite sprint_array.
    assert (exists x l, join_close (map sitem_text (v :: vs)) closeBracketByte = x :: l /\
                        (rune_of_byte x =? closeBracket) = false) as (x & l & Hl & Hx).
    { apply Forall_cons_iff in HF. destruct HF as [(Hwf & Hb1 & _) _].
      cbn [map]. unfold sitem_text at 1.
      destruct (i_before v) as [|b0 bs] eqn:Eb.
      - destruct (sprint_head (i_value v) Hwf) as (x & l & Hp & _ & _ & _ & Hx).
        cbn [app]. rewrite Hp.
        destruct (map sitem_text vs); cbn [join_close app];
          eexists _, _; (split; [reflexivity|done]).
      - cbn [blank forallb] in Hb1. apply andb_prop in Hb1 as [Hb0 _].
        assert ((rune_of_byte b0 =? closeBracket) = false) as Hne.
        { unfold json_space in Hb0.
          repeat (apply orb_prop in Hb0 as [Hb0|Hb0]); apply Z.eqb_eq in Hb0;
            rewrite Hb0; done. }
        destruct (map sitem_text vs); cbn [join_close app];
          eexists _, _; (split; [reflexivity|done]). }
    cbn [app]. rewrite Hl. cbn [app].
    rewrite arraySM_openBracket_blank_items by done.
    change (x :: l ++ rest) with ((x :: l) ++ rest). rewrite <-Hl.
    match goal with
    | |- context [runSM_array fuel array_valueCheck ?m0 (mkWorld (mkReader _ ?lr0) ?c0)] =>
      destruct (Hrun fuel m0 rest lr0 c0) as (m' & w' & -> & Hfin);
        [lia|done|done|cbn [am_item arraySM_reset]; lia|]
    end.
    eexists _, _. split; [reflexivity|]. rewrite erase_array. cbn [first_dup].
    destruct (first_dup_items first_dup (map erase_item (v :: vs))); [done|].
    destruct Hfin as (? & Hd & ?). split; [done|]. split; [|done].
    rewrite Hd. reflexivity.
Qed.

(** ** Every written document is read as it is written *)

Lemma svalue_nested_ind (P : svalue -> Prop) :
  (forall t raw, P (SScalar t raw)) ->
  (forall ms, Forall (fun m => P (m_value m)) ms -> P (SObject ms)) ->
  (forall vs, Forall (fun i => P (i_value i)) vs -> P (SArray vs)) ->
  forall s, P s.
Proof.
  intros Hs Ho Ha. fix IH 1. intros [t raw|ms|vs].
  - apply Hs.
  - apply Ho. induction ms as [|[b k c0 md v a] ms IHms]; constructor; [apply IH|apply IHms].
  - apply Ha. induction vs as [|[b v a] vs IHvs]; constructor; [apply IH|apply IHvs].
Qed.

Lemma wf_spaced_members ms :
  wf_value (erase (SObject ms)) = true -> spaces_ok (SObject ms) = true ->
  Forall (fun m => svalue_in_dict (m_value m)) ms ->
  Forall smember_ok ms.
Proof.
  rewrite erase_object. cbn [wf_value spaces_ok]. intros Hwf Hsp HP.
  rewrite forallb_forall in Hwf, Hsp. rewrite List.Forall_forall in HP.
  apply List.Forall_forall. intros m Hin.
  specialize (Hwf (erase_member m) (in_map erase_member ms m Hin)).
  apply andb_prop in Hwf as [Hk Hv]. cbn [erase_member fst snd] in Hk, Hv.
  specialize (Hsp m Hin).
  apply andb_prop in Hsp as [Hsp _]. apply andb_prop in Hsp as [Hsp H4].
  apply andb_prop in Hsp as [Hsp H3]. apply andb_prop in Hsp as [H1 H2].
  unfold smember_ok. split; [done|]. split; [done|]. split; [done|]. split; [done|].
  split; [done|]. split; [done|]. by apply HP.
Qed.

Lemma wf_spaced_items vs :
  wf_value (erase (SArray vs)) = true -> spaces_ok (SArray vs) = true ->
  Forall (fun i => svalue_in_array (i_value i)) vs ->
  Z.of_nat (length vs) < 2 ^ 63 /\ Forall sitem_ok vs.
Proof.
  rewrite erase_array. cbn [wf_value spaces_ok]. intros Hwf Hsp HP.
  apply andb_prop in Hwf as [Hall Hlen%Z.ltb_lt]. rewrite length_map in Hlen.
  split; [done|].
  rewrite forallb_forall in Hall, Hsp. rewrite List.Forall_forall in HP.
  apply List.Forall_forall. intros i Hin.
  specialize (Hall (erase_item i) (in_map erase_item vs i Hin)).
  specialize (Hsp i Hin).
  apply andb_prop in Hsp as [Hsp _]. apply andb_prop in Hsp as [H1 H2].
  unfold sitem_ok. split; [done|]. split; [done|]. split; [done|]. by apply HP.
Qed.

Lemma spaces_ok_member ms m :
  spaces_ok (SObject ms) = true -> In m ms -> spaces_ok (m_value m) = true.
Proof.
  cbn [spaces_ok]. rewrite forallb_forall. intros H Hin.
  specialize (H m Hin). by apply andb_prop in H as [_ H].
Qed.

Lemma spaces_ok_item vs i :
  spaces_ok (SArray vs) = true -> In i vs -> spaces_ok (i_value i) = true.
Proof.
  cbn [spaces_ok]. rewrite forallb_forall. intros H Hin.
  specialize (H i Hin). by apply andb_prop in H as [_ H].
Qed.

Lemma wf_member ms m :
  wf_value (erase (SObject ms)) = true -> In m ms -> wf_value (erase (m_value m)) = true.
Proof.
  rewrite erase_object. cbn [wf_value]. rewrite forallb_forall. intros H Hin.
  specialize (H (erase_member m) (in_map erase_member ms m Hin)).
  by apply andb_prop in H as [_ H].
Qed.

Lemma wf_item vs i :
  wf_value (erase (SArray vs)) = true -> In i vs -> wf_value (erase (i_value i)) = true.
Proof.
  rewrite erase_array. cbn [wf_value]. intros [H _]%andb_prop Hin.
  rewrite forallb_forall in H. apply (H (erase_item i) (in_map erase_item vs i Hin)).
Qed.

Lemma decode_sprint s :
  wf_value (erase s) = true -> spaces_ok s = true ->
  svalue_in_dict s /\ svalue_in_array s.
Proof.
  induction s as [t raw|ms IH|vs IH] using svalue_nested_ind; intros Hwf Hsp.
  - split; [by apply svalue_in_dict_scalar|by apply svalue_in_array_scalar].
  - assert (sobject_run (SObject ms)) as Hrun.
    { apply sobject_run_members, wf_spaced_members; [done|done|].
      rewrite List.Forall_forall in IH. apply List.Forall_forall. intros m Hin.
      apply (IH m Hin); [by eapply wf_member|by eapply spaces_ok_member]. }
    split; [by apply svalue_in_dict_object|by apply svalue_in_array_object].
  - assert (sarray_run (SArray vs)) as Hrun.
    { destruct (wf_spaced_items vs Hwf Hsp) as [Hlen HF].
      - rewrite List.Forall_forall in IH. apply List.Forall_forall. intros i Hin.
        apply (IH i Hin); [by eapply wf_item|by eapply spaces_ok_item].
      - by apply sarray_run_items. }
    split; [by apply svalue_in_dict_array|by apply svalue_in_array_array].
Qed.

Lemma sobject_run_sprint ms :
  wf_value (erase (SObject ms)) = true -> spaces_ok (SObject ms) = true ->
  sobject_run (SObject ms).
Proof.
  intros Hwf Hsp. apply sobject_run_members, wf_spaced_members; [done|done|].
  apply List.Forall_forall. intros m Hin.
  apply decode_sprint; [by eapply wf_member|by eapply spaces_ok_member].
Qed.

(** [UnmarshalJSON] on white space and the text of a written object. *)
Lemma UnmarshalJSON_sprint ms lead rest lr c :
  blank lead = true ->
  wf_value (erase (SObject ms)) = true -> spaces_ok (SObject ms) = true ->
  exists w',
    match first_dup (erase (SObject ms)) with
    | Some k =>
      UnmarshalJSON (mkWorld (mkReader (lead ++ sprint (SObject ms) ++ rest) lr) c)
      = (Err (ErrDuplicateField k), w')
    | None =>
      exists d,
        UnmarshalJSON (mkWorld (mkReader (lead ++ sprint (SObject ms) ++ rest) lr) c)
        = (Ok d, w') /\
        untimed d = build EmptyString (erase (SObject ms)) /\ unread (w_b w') = rest
    end.
Proof.
  intros Hlead Hwf Hsp. destruct (sobject_run_sprint ms Hwf Hsp) as [N Hrun].
  destruct (Hrun N EmptyString lead rest lr c) as (m & w' & Hm & Hout); [lia|done|].
  unfold nestedDict in Hm. exists w'.
  destruct (first_dup (erase (SObject ms))) as [k|].
  - rewrite (UnmarshalJSON_run _ _ _ _ Hm) by (by rewrite Hout). by rewrite Hout.
  - destruct Hout as (Herr & Hd & Hrest). exists (dm_dir m).
    rewrite (UnmarshalJSON_run _ _ _ _ Hm) by (by rewrite Herr). by rewrite Herr.
Qed.

(** The text without white space is the text of [print]. *)
Lemma compact_spec j :
  sprint (compact j) = print j /\ erase (compact j) = j /\ spaces_ok (compact j) = true.
Proof.
  induction j as [t raw|ms IH|vs IH] using jvalue_nested_ind.
  - done.
  - cbn [compact sprint erase spaces_ok print]. rewrite !List.map_map.
    cbn [m_before m_key m_colon m_mid m_value m_after app].
    split; [|split].
    + do 2 f_equal. apply map_ext_Forall. eapply Forall_impl; [|exact IH].
      intros [k v] (-> & _ & _). cbn [fst snd]. by rewrite app_nil_r.
    + f_equal. rewrite <-(List.map_id ms) at 2. apply map_ext_Forall.
      eapply Forall_impl; [|exact IH]. intros [k v] (_ & -> & _). done.
    + apply forallb_forall. intros m [kv [<- Hin]]%in_map_iff.
      cbn [m_before m_key m_colon m_mid m_value m_after blank forallb andb].
      rewrite List.Forall_forall in IH. apply (IH kv Hin).
  - cbn [compact sprint erase spaces_ok print]. rewrite !List.map_map.
    cbn [i_before i_value i_after app].
    split; [|split].
    + do 2 f_equal. apply map_ext_Forall. eapply Forall_impl; [|exact IH].
      intros v (-> & _ & _). by rewrite app_nil_r.
    + f_equal. rewrite <-(List.map_id vs) at 2. apply map_ext_Forall.
      eapply Forall_impl; [|exact IH]. intros v (_ & -> & _). done.
    + apply forallb_forall. intros i [v [<- Hin]]%in_map_iff.
      cbn [i_before i_value i_after blank forallb andb].
      rewrite List.Forall_forall in IH. apply (IH v Hin).
Qed.

(* ===================================================================== *)
(** * C7: two members of one key *)
(* ===================================================================== *)

Lemma duplicate_a_has_duplicate_key : has_duplicate_key duplicate_a.
Proof.
  apply duplicate_here. cbn [map fst]. intros Hnd.
  apply NoDup_cons_iff in Hnd as [Hnotin _]. apply Hnotin. by left.
Qed.

(** C7, as stated, does not hold: each of the objects
    [{"x":-1,"a":1,"a":2}] and [{"x":{ },"a":1,"a":2}] has two members of
    the key [a], and [UnmarshalJSON] fails on it with another error than
    the duplicate-key error: on the first with the error of [valueCheck]
    on the minus sign (rune 45), on the second with the error of
    [parseKey] on the closing brace (rune 125) that follows the space
    inside the empty object.  Both are met before the second [a].  And
    the decoder compares the keys as they are written between the quotes:
    [{"a":1,"\u0061":2}], whose second key is an escape for [a], is read
    without an error, into two Files. *)
Lemma C7_other_error_before_the_duplicate :
  has_duplicate_key negative_then_duplicate /\
  print negative_then_duplicate = bytes "{'x':-1,'a':1,'a':2}" /\
  fst (UnmarshalJSON (world_of (print negative_then_duplicate)))
  = Err (ErrUnexpectedValue 45) /\
  fst (UnmarshalJSON (world_of (bytes "{'x':{ },'a':1,'a':2}")))
  = Err (ErrKeyQuote 125) /\
  exists d,
    fst (UnmarshalJSON (world_of (bytes "{'a':1,'\u0061':2}"))) = Ok d /\
    f_value <$> files d !! "a"%string = Some (bytes "1") /\
    f_value <$> files d !! "\u0061"%string = Some (bytes "2").
Proof.
  split; [|split; [|split; [|split]]]; try (vm_compute; reflexivity).
  - apply duplicate_here. cbn [map fst]. intros Hnd.
    apply NoDup_cons_iff in Hnd as [_ Hnd].
    apply NoDup_cons_iff in Hnd as [Hnotin _]. apply Hnotin. by left.
  - eexists. split; [vm_compute; reflexivity|]. split; vm_compute; reflexivity.
Qed.

(** C7, amended: take any object text made of strings, [true], [false],
    [null], numbers of digits and dots, objects and arrays (the syntax
    [wf_value] describes), written with any JSON white space (space, tab,
    line feed, carriage return) before the opening brace, before and after
    every key, and before and after every value, but none between the
    brackets of an empty object or array; any bytes may follow the
    closing brace.  If some object of it, at any depth, has two members
    of one key (the same bytes between the quotes), [UnmarshalJSON] fails
    with the duplicate-key error and returns no Directory; the key it
    names is the first one it meets for the second time.  The text
    without white space is the case [compact j] of [compact_spec]. *)
Theorem C7_duplicate_key_is_rejected
    (ms : list (spaced_member svalue)) (lead rest : list byte) (clock : Clock) :
  blank lead = true -> spaces_ok (SObject ms) = true ->
  wf_value (erase (SObject ms)) = true -> has_duplicate_key (erase (SObject ms)) ->
  exists k w',
    first_dup (erase (SObject ms)) = Some k /\
    UnmarshalJSON (mkWorld (NewReader (lead ++ sprint (SObject ms) ++ rest)) clock)
    = (Err (ErrDuplicateField k), w').
Proof.
  intros Hlead Hsp Hwf Hdup. destruct (has_duplicate_key_first_dup _ Hdup) as [k Hk].
  destruct (UnmarshalJSON_sprint ms lead rest None clock Hlead Hwf Hsp) as [w' H].
  rewrite Hk in H. by exists k, w'.
Qed.

Lemma C7_witness :
  (sprint spaced_duplicate_a = bytes "{'a': 1, 'a': 2}" /\
   exists k w',
     first_dup (erase spaced_duplicate_a) = Some k /\
     UnmarshalJSON (mkWorld (NewReader ([] ++ sprint spaced_duplicate_a ++ [])) testClock)
     = (Err (ErrDuplicateField k), w')) /\
  (sprint (compact duplicate_a) = bytes "{'a':1,'a':2}" /\
   exists k w',
     first_dup (erase (compact duplicate_a)) = Some k /\
     UnmarshalJSON
       (mkWorld (NewReader (bytes " " ++ sprint (compact duplicate_a) ++ bytes " x")) testClock)
     = (Err (ErrDuplicateField k), w')).
Proof.
  split; (split; [reflexivity|]).
  - exact (C7_duplicate_key_is_rejected
             [SMember [] "a"%string [] (bytes " ") (SScalar FTInt (bytes "1")) [];
              SMember (bytes " ") "a"%string [] (bytes " ") (SScalar FTInt (bytes "2")) []]
             [] [] testClock eq_refl eq_refl eq_refl duplicate_a_has_duplicate_key).
  - exact (C7_duplicate_key_is_rejected
             [SMember [] "a"%string [] [] (SScalar FTInt (bytes "1")) [];
              SMember [] "a"%string [] [] (SScalar FTInt (bytes "2")) []]
             (bytes " ") (bytes " x") testClock eq_refl eq_refl eq_refl
             duplicate_a_has_duplicate_key).
Defined.

(* ===================================================================== *)
(** * The trees the decoder builds *)
(* ===================================================================== *)

(** ** Adding a child *)

Lemma put_file_proj k o d :
  d_name (put_file k o d) = d_name d /\ isArray (put_file k o d) = isArray d /\
  files (put_file k o d) = <[k := o]> (files d) /\ dirs (put_file k o d) = dirs d.
Proof. done. Qed.

Lemma put_dir_proj x d :
  d_name (put_dir x d) = d_name d /\ isArray (put_dir x d) = isArray d /\
  files (put_dir x d) = files d /\ dirs (put_dir x d) = <[d_name x := x]> (dirs d).
Proof. done. Qed.

Lemma children_ok_put_file P k o d :
  children_ok P d -> files d !! k = None -> dirs d !! k = None ->
  f_name o = k -> decoded_file o -> children_ok P (put_file k o d).
Proof.
  intros (Hu & [Hkf Hkd] & Hf & Hd) Hfk Hdk Hname Hdec.
  destruct (put_file_proj k o d) as (_ & _ & Efiles & Edirs).
  unfold children_ok, unique_names, keyed_by_name. rewrite Efiles, Edirs.
  split; [|split; [split|split]].
  - intros k'. destruct (decide (k = k')) as [<-|Hne]; [by right|].
    rewrite lookup_insert_ne by done. apply Hu.
  - intros k' f. destruct (decide (k = k')) as [<-|Hne].
    + rewrite lookup_insert_eq. by intros [= <-].
    + rewrite lookup_insert_ne by done. apply Hkf.
  - done.
  - intros k' f. destruct (decide (k = k')) as [<-|Hne].
    + rewrite lookup_insert_eq. by intros [= <-].
    + rewrite lookup_insert_ne by done. apply Hf.
  - done.
Qed.

Lemma children_ok_put_dir (P : Directory -> Prop) x d :
  children_ok P d -> files d !! d_name x = None -> dirs d !! d_name x = None ->
  P x -> children_ok P (put_dir x d).
Proof.
  intros (Hu & [Hkf Hkd] & Hf & Hd) Hfk Hdk Hx.
  destruct (put_dir_proj x d) as (_ & _ & Efiles & Edirs).
  unfold children_ok, unique_names, keyed_by_name. rewrite Efiles, Edirs.
  split; [|split; [split|split]].
  - intros k'. destruct (decide (d_name x = k')) as [<-|Hne]; [by left|].
    rewrite lookup_insert_ne by done. apply Hu.
  - done.
  - intros k' f. destruct (decide (d_name x = k')) as [<-|Hne].
    + rewrite lookup_insert_eq. by intros [= <-].
    + rewrite lookup_insert_ne by done. apply Hkd.
  - done.
  - intros k' f. destruct (decide (d_name x = k')) as [<-|Hne].
    + rewrite lookup_insert_eq. by intros [= <-].
    + rewrite lookup_insert_ne by done. apply Hd.
Qed.

Lemma Len_put_file k o d :
  files d !! k = None -> Len (put_file k o d) = S (Len d).
Proof.
  intros H. unfold Len. destruct (put_file_proj k o d) as (_ & _ & -> & ->).
  rewrite map_size_insert_None by done. lia.
Qed.

Lemma Len_put_dir x d :
  dirs d !! d_name x = None -> Len (put_dir x d) = S (Len d).
Proof.
  intros H. unfold Len. destruct (put_dir_proj x d) as (_ & _ & -> & ->).
  rewrite map_size_insert_None by done. lia.
Qed.

(** The names of the children after one more. *)
Lemma children_put_file k o d k' :
  is_Some (files (put_file k o d) !! k') \/ is_Some (dirs (put_file k o d) !! k') <->
  k' = k \/ is_Some (files d !! k') \/ is_Some (dirs d !! k').
Proof.
  destruct (put_file_proj k o d) as (_ & _ & -> & ->).
  destruct (decide (k = k')) as [<-|Hne].
  - rewrite lookup_insert_eq. split; [auto|]. intros _. left. by eexists.
  - rewrite lookup_insert_ne by done. split; [auto|]. intros [->|H]; done.
Qed.

Lemma children_put_dir x d k' :
  is_Some (files (put_dir x d) !! k') \/ is_Some (dirs (put_dir x d) !! k') <->
  k' = d_name x \/ is_Some (files d !! k') \/ is_Some (dirs d !! k').
Proof.
  destruct (put_dir_proj x d) as (_ & _ & -> & ->).
  destruct (decide (d_name x = k')) as [<-|Hne].
  - rewrite lookup_insert_eq. split; [auto|]. intros _. right. by eexists.
  - rewrite lookup_insert_ne by done. split; [tauto|]. intros [->|H]; [done|tauto].
Qed.

Lemma numbered_fresh n d :
  0 <= n -> numbered n d -> files d !! Itoa n = None /\ dirs d !! Itoa n = None.
Proof.
  intros Hn Hnum.
  assert (~ (is_Some (files d !! Itoa n) \/ is_Some (dirs d !! Itoa n))) as H.
  { intros (i & Hi & Heq)%Hnum. apply (inj pretty) in Heq. lia. }
  split; apply eq_None_not_Some; tauto.
Qed.

Lemma numbered_next n d d' :
  0 <= n -> numbered n d ->
  (forall k, is_Some (files d' !! k) \/ is_Some (dirs d' !! k) <->
             k = Itoa n \/ is_Some (files d !! k) \/ is_Some (dirs d !! k)) ->
  numbered (n + 1) d'.
Proof.
  intros Hn Hnum Hd' k. rewrite Hd', (Hnum k). split.
  - intros [->|(i & Hi & ->)]; [exists n|exists i]; split; (lia || done).
  - intros (i & Hi & ->). destruct (decide (i = n)) as [->|Hne]; [by left|].
    right. exists i. split; [lia|done].
Qed.

(** ** The Files of the scalar decoders *)

Lemma decodeString_file b name t o b1 :
  decodeString b name t = (Ok o, b1) ->
  f_name o = name /\ decoded_file o /\ (rlen b1 <= rlen b)%nat.
Proof.
  intros H. pose proof (decodeString_props b name t) as [Hl _]. rewrite H in Hl.
  unfold decodeString in H.
  destruct (getString b true) as [[s|e] b2] eqn:E; [|done].
  injection H as <- <-. split; [done|]. split; [|done].
  unfold decoded_file. cbn. by apply getString_is_escaped in E.
Qed.

Lemma decodeBool_file b name hint t o b1 :
  decodeBool b name hint t = (Ok o, b1) ->
  f_name o = name /\ decoded_file o /\ (rlen b1 <= rlen b)%nat.
Proof.
  intros H. pose proof (decodeBool_props b name hint t) as [Hl _]. rewrite H in Hl.
  unfold decodeBool in H.
  destruct (ReadFull _ _) as [[buff|e] b2] eqn:E; [|done]. revert H.
  destruct (String.eqb_spec (ByteSlice2String buff) "false") as [Hf|_].
  { intros [= <- <-]. split; [done|]. split; [|done]. unfold decoded_file. cbn.
    apply (f_equal unsafeGetBytes) in Hf. rewrite unsafeGetBytes_ByteSlice2String in Hf.
    rewrite Hf. reflexivity. }
  destruct (String.eqb_spec (ByteSlice2String buff) "true") as [Hf|_]; [|done].
  intros [= <- <-]. split; [done|]. split; [|done]. unfold decoded_file. cbn.
  apply (f_equal unsafeGetBytes) in Hf. rewrite unsafeGetBytes_ByteSlice2String in Hf.
  rewrite Hf. reflexivity.
Qed.

Lemma decodeNull_file b name t o b1 :
  decodeNull b name t = (Ok o, b1) ->
  f_name o = name /\ decoded_file o /\ (rlen b1 <= rlen b)%nat.
Proof.
  intros H. pose proof (decodeNull_props b name t) as [Hl _]. rewrite H in Hl.
  unfold decodeNull in H.
  destruct (ReadFull _ _) as [[buff|e] b2] eqn:E; [|done]. revert H.
  destruct (String.eqb_spec (ByteSlice2String buff) "null") as [Hf|_]; [|done].
  intros [= <- <-]. split; [done|]. split; [|done]. unfold decoded_file. cbn.
  apply (f_equal unsafeGetBytes) in Hf. rewrite unsafeGetBytes_ByteSlice2String in Hf.
  rewrite Hf. reflexivity.
Qed.

Lemma decodeNumber_file b name t o b1 :
  decodeNumber b name t = (Ok o, b1) ->
  f_name o = name /\ decoded_file o /\ (rlen b1 <= rlen b)%nat.
Proof.
  intros H. pose proof (decodeNumber_props b name t) as [Hl _]. rewrite H in Hl.
  unfold decodeNumber in H.
  destruct (decodeNumber_loop _ _ _ _) as [[[buff float]|e] b2]; [|done].
  destruct (length buff =? 0)%nat; [done|].
  injection H as <- <-. split; [done|]. split; [|done].
  unfold decoded_file. cbn. by destruct float.
Qed.

(** ** The steps of a [dictSM] *)

Lemma tree_ok_object_put_file L k o d :
  tree_ok L d -> isArray d = false -> key_ok k ->
  files d !! k = None -> dirs d !! k = None -> f_name o = k -> decoded_file o ->
  tree_ok L (put_file k o d).
Proof.
  intros Ht Ha Hk Hf Hd Hn Ho. destruct Ht as [d _ Hc Hkeys|d Ha' _ _ _]; [|congruence].
  apply tree_ok_object; [done|by apply children_ok_put_file|].
  intros k' [->|H]%children_put_file; [done|by apply Hkeys].
Qed.

Lemma tree_ok_object_put_dir L x d :
  tree_ok L d -> isArray d = false -> key_ok (d_name x) ->
  files d !! d_name x = None -> dirs d !! d_name x = None -> tree_ok L x ->
  tree_ok L (put_dir x d).
Proof.
  intros Ht Ha Hk Hf Hd Hx. destruct Ht as [d _ Hc Hkeys|d Ha' _ _ _]; [|congruence].
  apply tree_ok_object; [done|by apply children_ok_put_dir|].
  intros k' [->|H]%children_put_dir; [done|by apply Hkeys].
Qed.

Lemma tree_ok_set_modTime L t d : tree_ok L d -> tree_ok L (set_modTime t d).
Proof.
  intros [d' Ha Hc Hk|d' Ha Hc Hn Hl]; [by apply tree_ok_object|by apply tree_ok_array].
Qed.

Lemma duplicateField_fresh d k :
  duplicateField d k = None -> files d !! k = None /\ dirs d !! k = None.
Proof.
  intros H%duplicateField_None. split; apply eq_None_not_Some; tauto.
Qed.

Lemma dictSM_call_unchanged rD rA st m w fn m1 w1 :
  dictSM_call rD rA st m w = (fn, m1, w1) ->
  st <> dict_start -> st <> dict_parseKey -> st <> dict_valueCheck ->
  dm_dir m1 = dm_dir m /\ dm_valueName m1 = dm_valueName m.
Proof.
  intros H ? ? ?. destruct st; try done; cbn [dictSM_call] in H;
    unfold dictSM_openBrace, dictSM_colon, dictSM_commaClose, dictSM_braceClose,
      dictSM_comma in H; cbv zeta in H;
    repeat case_match; simplify_eq; done.
Qed.

Lemma dictSM_call_err rD rA st m w st' m1 w1 :
  dictSM_call rD rA st m w = (Some st', m1, w1) -> dm_err m1 = dm_err m.
Proof.
  intros H. destruct st; cbn [dictSM_call] in H;
    unfold dictSM_start, dictSM_openBrace, dictSM_parseKey, dictSM_colon,
      dictSM_valueCheck, dictSM_store, dictSM_commaClose, dictSM_braceClose,
      dictSM_comma in H; cbv zeta in H;
    repeat case_match; simplify_eq; done.
Qed.

Lemma dictSM_parseKey_inv m w fn m1 w1 :
  dictSM_parseKey m w = (fn, m1, w1) -> key_ok (dm_valueName m) ->
  dm_dir m1 = dm_dir m /\ key_ok (dm_valueName m1).
Proof.
  unfold dictSM_parseKey. cbv zeta. intros H Hk.
  repeat case_match; simplify_eq; try done.
  split; [done|]. cbn. unfold key_ok. rewrite unsafeGetBytes_ByteSlice2String.
  by eapply getString_is_escaped.
Qed.

Lemma dictSM_valueCheck_inv L rD rA m w fn m1 w1 :
  dictSM_valueCheck rD rA m w = (fn, m1, w1) ->
  nested_dict_ok L rD -> nested_array_ok L rA -> dict_inv L m w ->
  dm_err m1 = None ->
  dict_inv L m1 w1 /\ d_name (dm_dir m1) = d_name (dm_dir m) /\ (wlen w1 <= wlen w)%nat.
Proof.
  unfold dictSM_valueCheck. intros H HD HA (Herr & Ht & Ha & Hk & Hl) Herr1.
  pose proof (skipSpace_len (w_b w)) as Hs. fold (wlen w) in Hs.
  pose proof (valueCheck_len (skipSpace (w_b w))) as Hv.
  revert H. destruct (valueCheck (skipSpace (w_b w))) as [[nxt|e] b] eqn:E; cbn [snd] in Hv;
    [|by intros [= <- <- <-]].
  cbv zeta. destruct (duplicateField _ _) as [e|] eqn:Edup; [by intros [= <- <- <-]|].
  apply duplicateField_fresh in Edup as [Hff Hfd].
  assert (wlen (with_b b w) <= wlen w)%nat as Hb by (rewrite wlen_with_b; lia).
  assert (forall decoded,
    (forall o b1, decoded = (Ok o, b1) ->
       f_name o = dm_valueName m /\ decoded_file o /\ (rlen b1 <= rlen (w_b (with_b b w)))%nat) ->
    dictSM_store decoded m (with_b b w) = (fn, m1, w1) ->
    dict_inv L m1 w1 /\ d_name (dm_dir m1) = d_name (dm_dir m) /\ (wlen w1 <= wlen w)%nat)
    as Hstore.
  { intros [[o|e] b1] Hdec; unfold dictSM_store; intros [= <- <- <-]; [|done].
    destruct (Hdec o b1 eq_refl) as (Hn & Ho & Hlen).
    unfold dict_inv. rewrite !wlen_with_b. cbn [w_b with_b] in Hlen.
    assert (rlen b1 <= wlen w)%nat by (rewrite wlen_with_b in Hb; lia).
    split; [|split; [done|lia]].
    split; [done|]. split; [by apply tree_ok_object_put_file|].
    split; [done|]. split; [done|lia]. }
  destruct nxt.
  - by intros [= <- <- <-].
  - specialize (HD (dm_valueName m) (with_b b w) ltac:(lia)).
    destruct (rD _ _) as [nm w2]. cbn [fst snd] in HD.
    destruct (dm_err nm) as [e|]; intros [= <- <- <-]; [done|].
    destruct (HD eq_refl) as (Hnt & Hnn & Hnl).
    split; [|split; [done|lia]].
    split; [done|]. split; [apply tree_ok_object_put_dir; rewrite ?Hnn; done|].
    split; [done|]. split; [done|lia].
  - specialize (HA (dm_valueName m) (dm_modTime m) (with_b b w) ltac:(lia)).
    destruct (rA _ _ _) as [na w2]. cbn [fst snd] in HA.
    destruct (am_err na) as [e|]; intros [= <- <- <-]; [done|].
    destruct (HA eq_refl) as (Hnt & Hnn & Hnl).
    split; [|split; [done|lia]].
    split; [done|]. split; [apply tree_ok_object_put_dir; rewrite ?Hnn; done|].
    split; [done|]. split; [done|lia].
  - apply Hstore. intros o b1. apply decodeString_file.
  - apply Hstore. intros o b1. apply decodeBool_file.
  - apply Hstore. intros o b1. apply decodeBool_file.
  - apply Hstore. intros o b1. apply decodeNumber_file.
  - apply Hstore. intros o b1. apply decodeNull_file.
Qed.

Lemma dictSM_call_inv L rD rA st m w fn m1 w1 :
  dictSM_call rD rA st m w = (fn, m1, w1) ->
  nested_dict_ok L rD -> nested_array_ok L rA -> dict_inv L m w ->
  dm_err m1 = None ->
  dict_inv L m1 w1 /\ d_name (dm_dir m1) = d_name (dm_dir m) /\ (wlen w1 <= wlen w)%nat.
Proof.
  intros H HD HA Hinv Herr1.
  assert (st = dict_valueCheck \/ st <> dict_valueCheck) as [->|Hst]
    by (destruct st; auto).
  { cbn [dictSM_call] in H. by eapply dictSM_valueCheck_inv. }
  destruct Hinv as (Herr & Ht & Ha & Hk & Hl).
  assert (wlen w1 <= wlen w)%nat as Hlen.
  { assert (dm_err m <> Some ErrFuel) as Hne by congruence.
    destruct st; cbn [dictSM_call] in H; try done.
    - apply dictSM_start_potential in H as (_ & -> & _). done.
    - by apply dictSM_openBrace_potential in H as (_ & ? & _).
    - by apply dictSM_parseKey_potential in H as (_ & ? & _).
    - by apply dictSM_colon_potential in H as (_ & ? & _).
    - by apply dictSM_commaClose_potential in H as (_ & ? & _).
    - by apply dictSM_braceClose_potential in H as (_ & ? & _).
    - by apply dictSM_comma_potential in H as (_ & ? & _). }
  assert (st = dict_start \/ st = dict_parseKey \/
          (st <> dict_start /\ st <> dict_parseKey)) as [->|[->|[? ?]]]
    by (destruct st; auto).
  - cbn [dictSM_call] in H. unfold dictSM_start in H.
    destruct (timeNow _) as [t c]. injection H as <- <- <-.
    split; [|split; [done|lia]].
    split; [done|]. split; [by apply tree_ok_set_modTime|].
    split; [done|]. split; [done|unfold wlen in *; cbn in *; lia].
  - cbn [dictSM_call] in H. apply dictSM_parseKey_inv in H as [Hd Hk']; [|done].
    unfold dict_inv. rewrite Hd. repeat split; try done; lia.
  - apply dictSM_call_unchanged in H as [Hd Hn]; try done.
    rewrite Hd. unfold dict_inv. rewrite Hd, Hn. repeat split; try done; lia.
Qed.

(** ** The steps of an [arraySM] *)

Lemma valueCheck_ok_nonempty b nxt b1 :
  valueCheck b = (Ok nxt, b1) -> (1 <= rlen b)%nat.
Proof.
  unfold valueCheck. pose proof (skipSpace_len b) as Hs. cbv zeta.
  destruct (Peek1 (skipSpace b)) as [[x|e] b2] eqn:E; [|done].
  apply Peek1_ok in E as (_ & l & Hl). intros _.
  unfold rlen in *. rewrite Hl in Hs. cbn in Hs. lia.
Qed.

Lemma arraySM_valueCheck_body_inv L rD rA m w fn m1 w1 :
  arraySM_valueCheck_body rD rA m w = (fn, m1, w1) ->
  nested_dict_ok L rD -> nested_array_ok L rA ->
  array_inv L array_valueCheck m w -> am_err m1 = None ->
  fn = Some array_commaClose /\ (1 <= wlen w)%nat /\ (wlen w1 <= wlen w)%nat /\
  am_item m1 = am_item m /\ d_name (am_dir m1) = d_name (am_dir m) /\
  isArray (am_dir m1) = true /\ children_ok (tree_ok L) (am_dir m1) /\
  numbered (am_item m + 1) (am_dir m1) /\ Len (am_dir m1) = S (Len (am_dir m)).
Proof.
  unfold arraySM_valueCheck_body.
  intros H HD HA (Herr & Ha & Hc & Hnum & Hitem & Hbound & Hl) Herr1.
  pose proof (skipSpace_len (w_b w)) as Hs. fold (wlen w) in Hs.
  pose proof (valueCheck_len (skipSpace (w_b w))) as Hv.
  revert H. destruct (valueCheck (skipSpace (w_b w))) as [[nxt|e] b] eqn:E; cbn [snd] in Hv;
    [|by intros [= <- <- <-]].
  apply valueCheck_ok_nonempty in E. cbv zeta.
  assert (0 <= am_item m) as Hpos by lia.
  destruct (numbered_fresh _ _ Hpos Hnum) as [Hff Hfd].
  assert (wlen (with_b b w) <= wlen w)%nat as Hb by (rewrite wlen_with_b; lia).
  assert (forall decoded,
    (forall o b1, decoded = (Ok o, b1) ->
       f_name o = Itoa (am_item m) /\ decoded_file o /\
       (rlen b1 <= rlen (w_b (with_b b w)))%nat) ->
    arraySM_store (Itoa (am_item m)) decoded m (with_b b w) = (fn, m1, w1) ->
    fn = Some array_commaClose /\ (1 <= wlen w)%nat /\ (wlen w1 <= wlen w)%nat /\
    am_item m1 = am_item m /\ d_name (am_dir m1) = d_name (am_dir m) /\
    isArray (am_dir m1) = true /\ children_ok (tree_ok L) (am_dir m1) /\
    numbered (am_item m + 1) (am_dir m1) /\ Len (am_dir m1) = S (Len (am_dir m)))
    as Hstore.
  { intros [[o|e] b1] Hdec; unfold arraySM_store; intros [= <- <- <-]; [|done].
    destruct (Hdec o b1 eq_refl) as (Hn & Ho & Hlen).
    rewrite !wlen_with_b. cbn [w_b with_b] in Hlen. rewrite wlen_with_b in Hb.
    split; [done|]. split; [lia|]. split; [lia|]. split; [done|]. split; [done|].
    split; [done|]. cbn [am_dir am_set_dir].
    split; [by apply children_ok_put_file|].
    split; [|by apply Len_put_file].
    apply (numbered_next _ (am_dir m)); [done|done|]. intros k. apply children_put_file. }
  assert (forall x w2,
    tree_ok L x -> d_name x = Itoa (am_item m) -> (wlen w2 <= wlen (with_b b w))%nat ->
    fn = Some array_commaClose -> m1 = am_set_dir (put_dir x (am_dir m)) m -> w1 = w2 ->
    fn = Some array_commaClose /\ (1 <= wlen w)%nat /\ (wlen w1 <= wlen w)%nat /\
    am_item m1 = am_item m /\ d_name (am_dir m1) = d_name (am_dir m) /\
    isArray (am_dir m1) = true /\ children_ok (tree_ok L) (am_dir m1) /\
    numbered (am_item m + 1) (am_dir m1) /\ Len (am_dir m1) = S (Len (am_dir m)))
    as Hnested.
  { intros x w2 Hx Hn Hlen -> -> ->.
    split; [done|]. split; [lia|]. split; [lia|]. split; [done|]. split; [done|].
    split; [done|]. cbn [am_dir am_set_dir].
    split; [apply children_ok_put_dir; rewrite ?Hn; done|].
    split; [|apply Len_put_dir; by rewrite Hn].
    apply (numbered_next _ (am_dir m)); [done|done|]. intros k.
    rewrite <-Hn. apply children_put_dir. }
  destruct nxt.
  - by intros [= <- <- <-].
  - specialize (HD (Itoa (am_item m)) (with_b b w) ltac:(lia)).
    destruct (rD _ _) as [nm w2]. cbn [fst snd] in HD.
    destruct (dm_err nm) as [e|]; intros [= <- <- <-]; [done|].
    destruct (HD eq_refl) as (Hnt & Hnn & Hnl). by eapply Hnested.
  - specialize (HA (Itoa (am_item m)) (am_modTime m) (with_b b w) ltac:(lia)).
    destruct (rA _ _ _) as [na w2]. cbn [fst snd] in HA.
    destruct (am_err na) as [e|]; intros [= <- <- <-]; [done|].
    destruct (HA eq_refl) as (Hnt & Hnn & Hnl). by eapply Hnested.
  - apply Hstore. intros o b1. apply decodeString_file.
  - apply Hstore. intros o b1. apply decodeBool_file.
  - apply Hstore. intros o b1. apply decodeBool_file.
  - apply Hstore. intros o b1. apply decodeNumber_file.
  - apply Hstore. intros o b1. apply decodeNull_file.
Qed.

Lemma arraySM_call_unchanged rD rA st m w fn m1 w1 :
  arraySM_call rD rA st m w = (fn, m1, w1) -> st <> array_valueCheck ->
  am_dir m1 = am_dir m /\ am_item m1 = am_item m /\
  (am_err m1 = None ->
   am_err m = None /\
   match st with
   | array_commaClose => fn = Some array_close \/ fn = Some array_comma
   | array_comma => fn = Some array_valueCheck /\ (wlen w1 + 1 <= wlen w)%nat
   | array_close => fn = None /\ (wlen w1 + 1 <= wlen w)%nat
   | array_start => fn = Some array_openBracket /\ w1 = w
   | _ => True
   end).
Proof.
  intros H Hst. destruct st; try done; cbn [arraySM_call] in H.
  - unfold arraySM_start in H. by injection H as <- <- <-.
  - unfold arraySM_openBracket in H. cbv zeta in H.
    repeat case_match; simplify_eq; done.
  - unfold arraySM_commaClose in H. cbv zeta in H.
    repeat case_match; simplify_eq; cbn; (repeat split; try done); auto.
  - unfold arraySM_close in H. revert H. read_step.
    + split_ifs; intros [= <- <- <-]; [done|]. rewrite wlen_with_b.
      split; [done|]. split; [done|]. intros ?. split; [done|]. split; [done|].
      unfold wlen. lia.
    + by intros [= <- <- <-].
  - unfold arraySM_comma in H. revert H. read_step.
    + split_ifs; intros [= <- <- <-]; [done|]. rewrite wlen_with_b.
      split; [done|]. split; [done|]. intros ?. split; [done|]. split; [done|].
      unfold wlen. lia.
    + by intros [= <- <- <-].
Qed.

Lemma arraySM_call_inv L rD rA st m w fn m1 w1 :
  L < 2 ^ 63 ->
  arraySM_call rD rA st m w = (fn, m1, w1) ->
  nested_dict_ok L rD -> nested_array_ok L rA -> array_inv L st m w ->
  am_err m1 = None ->
  d_name (am_dir m1) = d_name (am_dir m) /\ (wlen w1 <= wlen w)%nat /\
  match fn with
  | Some st' => array_inv L st' m1 w1
  | None => tree_ok L (am_dir m1)
  end.
Proof.
  intros HL H HD HA Hinv Herr1.
  assert (st = array_valueCheck \/ st <> array_valueCheck) as [->|Hst]
    by (destruct st; auto).
  { cbn [arraySM_call] in H. unfold arraySM_valueCheck in H.
    destruct (arraySM_valueCheck_body rD rA m w) as [[fn0 m0] w0] eqn:E.
    injection H as <- <- <-. cbn [am_err] in Herr1.
    pose proof Hinv as (Herr & Ha & Hc & Hnum & Hitem & Hbound & Hl).
    eapply arraySM_valueCheck_body_inv in E
      as (-> & H1 & Hlen & Hi & Hn & Ha0 & Hc0 & Hnum0 & HLen0); [|done..].
    split; [done|]. split; [done|]. cbn [array_slack] in Hbound.
    rewrite Hi, wrap_int_small by lia.
    unfold array_inv. cbn [am_err am_dir am_item array_slack].
    split; [done|]. split; [done|]. split; [done|]. split; [done|].
    split; [lia|]. lia. }
  pose proof Hinv as (Herr & Ha & Hc & Hnum & Hitem & Hbound & Hl).
  assert (wlen w1 <= wlen w)%nat as Hlen.
  { assert (am_err m <> Some ErrFuel) as Hne by congruence.
    destruct st; cbn [arraySM_call] in H; try done.
    - unfold arraySM_start in H. by injection H as <- <- <-.
    - by apply arraySM_openBracket_potential in H as (_ & ? & _).
    - by apply arraySM_commaClose_potential in H as (_ & ? & _).
    - by apply arraySM_close_potential in H as (_ & ? & _).
    - by apply arraySM_comma_potential in H as (_ & ? & _). }
  apply arraySM_call_unchanged in H as (Hd & Hi & Hfn); [|done].
  specialize (Hfn Herr1) as [_ Hfn].
  rewrite Hd. split; [done|]. split; [done|].
  assert (am_item m <= L -> tree_ok L (am_dir m)) as Hfinal.
  { intros Hle. apply tree_ok_array; [done|done|by rewrite <-Hitem|lia]. }
  assert (forall st', array_slack st <= array_slack st' ->
            array_inv L st' m1 w1) as Hkeep.
  { intros st' Hsl. unfold array_inv. rewrite Hd, Hi.
    split; [done|]. split; [done|]. split; [done|]. split; [done|].
    split; [done|]. lia. }
  destruct st; try done.
  - destruct Hfn as [-> ->]. by apply Hkeep.
  - destruct fn as [st'|]; [|apply Hfinal; cbn in Hbound; lia].
    apply Hkeep. cbn. destruct st'; cbn; lia.
  - destruct Hfn as [-> | ->]; by apply Hkeep.
  - destruct Hfn as [-> Hw]. apply Hfinal. cbn in Hbound. lia.
  - destruct Hfn as [-> Hw]. unfold array_inv. rewrite Hd, Hi.
    cbn in Hbound. cbn [array_slack].
    split; [done|]. split; [done|]. split; [done|]. split; [done|].
    split; [done|]. lia.
Qed.

Lemma arraySM_call_err rD rA st m w st' m1 w1 :
  arraySM_call rD rA st m w = (Some st', m1, w1) -> am_err m1 = am_err m.
Proof.
  intros H. destruct st; cbn [arraySM_call] in H;
    unfold arraySM_start, arraySM_openBracket, arraySM_valueCheck,
      arraySM_valueCheck_body, arraySM_store, arraySM_commaClose, arraySM_close,
      arraySM_comma in H; cbv zeta in H;
    repeat case_match; simplify_eq; done.
Qed.

(** ** The runs *)

Lemma children_ok_empty (P : Directory -> Prop) d :
  files d = ∅ -> dirs d = ∅ -> children_ok P d.
Proof.
  intros Hf Hd. unfold children_ok, unique_names, keyed_by_name. rewrite Hf, Hd.
  split; [by left|]. split; [split|split]; intros ? ?; by rewrite lookup_empty.
Qed.

Lemma dict_inv_reset L name w :
  Z.of_nat (wlen w) <= L -> dict_inv L (dictSM_reset name) w.
Proof.
  intros Hl. split; [done|]. split; [|done].
  apply tree_ok_object; [done|by apply children_ok_empty|].
  cbn. intros k [[? H]|[? H]]; by rewrite lookup_empty in H.
Qed.

Lemma array_inv_reset L name t w :
  Z.of_nat (wlen w) <= L -> array_inv L array_start (arraySM_reset name t) w.
Proof.
  intros Hl. split; [done|]. split; [done|]. split; [by apply children_ok_empty|].
  split; [|split; [done|cbn; lia]].
  intros k. cbn. rewrite !lookup_empty. split.
  - intros [[? [=]]|[? [=]]].
  - intros (i & Hi & _). lia.
Qed.

Lemma runSM_inv L : L < 2 ^ 63 -> forall fuel,
  (forall st m w, dict_inv L m w ->
     dm_err (fst (runSM_dict fuel st m w)) = None ->
     tree_ok L (dm_dir (fst (runSM_dict fuel st m w))) /\
     isArray (dm_dir (fst (runSM_dict fuel st m w))) = false /\
     d_name (dm_dir (fst (runSM_dict fuel st m w))) = d_name (dm_dir m) /\
     (wlen (snd (runSM_dict fuel st m w)) <= wlen w)%nat) /\
  (forall st m w, array_inv L st m w ->
     am_err (fst (runSM_array fuel st m w)) = None ->
     tree_ok L (am_dir (fst (runSM_array fuel st m w))) /\
     d_name (am_dir (fst (runSM_array fuel st m w))) = d_name (am_dir m) /\
     (wlen (snd (runSM_array fuel st m w)) <= wlen w)%nat).
Proof.
  intros HL. induction fuel as [|fuel [IHd IHa]]; [split; intros st m w _; done|].
  assert (nested_dict_ok L (fun name w => runSM_dict fuel dict_start (dictSM_reset name) w))
    as HD.
  { intros name w Hl Herr.
    destruct (IHd dict_start (dictSM_reset name) w) as (? & ? & ? & ?);
      [by apply dict_inv_reset|done|done]. }
  assert (nested_array_ok L
            (fun name t w => runSM_array fuel array_start (arraySM_reset name t) w)) as HA.
  { intros name t w Hl Herr. by apply IHa; [apply array_inv_reset|]. }
  split; intros st m w Hinv.
  - rewrite runSM_dict_S.
    destruct (dictSM_call _ _ st m w) as [[fn m1] w1] eqn:E.
    destruct fn as [st'|]; cbn [fst snd].
    + assert (dm_err m1 = None) as Herr1.
      { apply dictSM_call_err in E. rewrite E. apply Hinv. }
      destruct (dictSM_call_inv L _ _ _ _ _ _ _ _ E HD HA Hinv Herr1) as (Hinv1 & Hn & Hl).
      intros Herr. destruct (IHd st' m1 w1 Hinv1 Herr) as (? & ? & ? & ?).
      split; [done|]. split; [done|]. split; [congruence|lia].
    + intros Herr1.
      destruct (dictSM_call_inv L _ _ _ _ _ _ _ _ E HD HA Hinv Herr1) as (Hinv1 & Hn & Hl).
      split; [apply Hinv1|]. split; [apply Hinv1|done].
  - rewrite runSM_array_S.
    destruct (arraySM_call _ _ st m w) as [[fn m1] w1] eqn:E.
    destruct fn as [st'|]; cbn [fst snd].
    + assert (am_err m1 = None) as Herr1.
      { apply arraySM_call_err in E. rewrite E. apply Hinv. }
      destruct (arraySM_call_inv L _ _ _ _ _ _ _ _ HL E HD HA Hinv Herr1) as (Hn & Hl & Hinv1).
      intros Herr. destruct (IHa st' m1 w1 Hinv1 Herr) as (? & ? & ?).
      split; [done|]. split; [congruence|lia].
    + intros Herr1.
      by destruct (arraySM_call_inv L _ _ _ _ _ _ _ _ HL E HD HA Hinv Herr1) as (Hn & Hl & Hinv1).
Qed.

(** What [UnmarshalJSON] returns is a tree of the decoder. *)
Lemma UnmarshalJSON_tree_ok src lr clock d w' :
  fits_int src ->
  UnmarshalJSON (mkWorld (mkReader src lr) clock) = (Ok d, w') ->
  tree_ok (Z.of_nat (length src)) d /\ isArray d = false /\ d_name d = EmptyString.
Proof.
  intros Hfits. unfold UnmarshalJSON.
  set (w := mkWorld (mkReader src lr) clock).
  pose proof (proj1 (runSM_inv (Z.of_nat (length src)) Hfits (decodeFuel (w_b w)))
                dict_start (dictSM_reset EmptyString) w) as H.
  revert H. destruct (runSM_dict _ _ _ _) as [m w1]. cbn [fst snd].
  destruct (dm_err m) as [e|]; [done|]. intros H [= <- <-].
  destruct H as (Ht & Ha & Hn & _); [by apply dict_inv_reset|done|done].
Qed.

(* ===================================================================== *)
(** * C8: the invariants of a decoded tree *)
(* ===================================================================== *)

Lemma tree_ok_children L d : tree_ok L d -> children_ok (tree_ok L) d.
Proof. by intros [? ? ? ?|? ? ? ? ?]. Qed.

Lemma tree_ok_in_tree L d x : tree_ok L d -> in_tree x d -> tree_ok L x.
Proof.
  intros Ht Hin. induction Hin as [|d k sub Hk _ IH]; [done|].
  apply IH. apply tree_ok_children in Ht as (_ & _ & _ & Hd). by eapply Hd.
Qed.

Lemma names_are_keys {A} (g : A -> string) (l : list (string * A)) :
  (forall k a, (k, a) ∈ l -> g a = k) -> g <$> l.*2 = l.*1.
Proof.
  induction l as [|[k a] l IH]; intros H; [done|]. cbn.
  rewrite (H k a) by left. f_equal. apply IH. intros k' a' Hin. apply H. by right.
Qed.

Lemma child_names_keys d :
  keyed_by_name d ->
  child_names d = (map_to_list (files d)).*1 ++ (map_to_list (dirs d)).*1.
Proof.
  intros [Hf Hd]. unfold child_names. f_equal; apply names_are_keys.
  - intros k f Hin%elem_of_map_to_list. by apply Hf.
  - intros k sub Hin%elem_of_map_to_list. by apply Hd.
Qed.

Lemma elem_of_keys {A} (m : gmap string A) k : k ∈ (map_to_list m).*1 <-> is_Some (m !! k).
Proof.
  rewrite list_elem_of_fmap. split.
  - intros ([k' a] & -> & Hin%elem_of_map_to_list). by eexists.
  - intros [a Ha]. exists (k, a). split; [done|]. by apply elem_of_map_to_list.
Qed.

Lemma elem_of_child_names d k :
  keyed_by_name d ->
  k ∈ child_names d <-> is_Some (files d !! k) \/ is_Some (dirs d !! k).
Proof.
  intros Hk. rewrite child_names_keys by done. by rewrite elem_of_app, !elem_of_keys.
Qed.

Lemma tree_ok_model_invariants L d : tree_ok L d -> model_invariants d.
Proof.
  intros Ht. pose proof (tree_ok_children _ _ Ht) as (Hu & Hk & _ & _). split.
  - rewrite child_names_keys by done. apply list.NoDup_app.
    split; [apply NoDup_fst_map_to_list|]. split; [|apply NoDup_fst_map_to_list].
    intros k [f Hf]%elem_of_keys [sub Hsub]%elem_of_keys.
    destruct (Hu k); congruence.
  - intros Ha s. rewrite elem_of_child_names by done.
    destruct Ht as [d Ha' _ _|d _ _ Hnum _]; [congruence|]. apply Hnum.
Qed.

(** C8: for every input that fits Go's [int] and that [UnmarshalJSON]
    decodes without error, every Directory [x] of the tree it returns
    holds every child under the child's own name, has no two children of
    one name (Files and sub-directories together), and, when [isArray] is
    set, has children named exactly by the decimal strings of
    [0 .. Len x - 1]. *)
Theorem C8_decoded_tree_satisfies_the_invariants
    (src : list byte) (clock : Clock) (d x : Directory) :
  fits_int src ->
  fst (UnmarshalJSON (mkWorld (NewReader src) clock)) = Ok d ->
  in_tree x d ->
  keyed_by_name x /\ model_invariants x.
Proof.
  intros Hfits Hdec Hin.
  destruct (UnmarshalJSON _) as [r w'] eqn:E. cbn [fst] in Hdec. subst r.
  apply UnmarshalJSON_tree_ok in E as (Ht & _ & _); [|done].
  pose proof (tree_ok_in_tree _ _ _ Ht Hin) as Hx.
  split; [apply (tree_ok_children _ _ Hx)|by eapply tree_ok_model_invariants].
Qed.

Lemma C8_witness :
  exists d x,
    fits_int (bytes "{'a':[1,{'b':2},'s'],'c':true}") /\
    fst (UnmarshalJSON (world_of (bytes "{'a':[1,{'b':2},'s'],'c':true}"))) = Ok d /\
    in_tree x d /\ isArray x = true /\ Len x = 3%nat /\
    keyed_by_name x /\ model_invariants x.
Proof.
  eexists _, _.
  assert (fits_int (bytes "{'a':[1,{'b':2},'s'],'c':true}")) as Hfits
    by (unfold fits_int; vm_compute; reflexivity).
  split; [exact Hfits|].
  split; [vm_compute; reflexivity|].
  split; [eapply (in_tree_below _ _ "a"%string); [vm_compute; reflexivity|apply in_tree_here]|].
  split; [reflexivity|]. split; [vm_compute; reflexivity|].
  eapply (C8_decoded_tree_satisfies_the_invariants _ testClock);
    [exact Hfits|vm_compute; reflexivity|].
  eapply (in_tree_below _ _ "a"%string); [vm_compute; reflexivity|apply in_tree_here].
Defined.

(* ===================================================================== *)
(** * What the encoder writes for a decoded tree *)
(* ===================================================================== *)

Lemma tree_ok_nested_ind L (P : Directory -> Prop) :
  (forall d, tree_ok L d -> (forall k sub, dirs d !! k = Some sub -> P sub) -> P d) ->
  forall d, tree_ok L d -> P d.
Proof.
  intros HP. fix IH 2. intros d Ht. apply HP; [exact Ht|].
  intros k sub Hk. apply IH.
  destruct Ht as [d _ (_ & _ & _ & Hd) _|d _ (_ & _ & _ & Hd) _ _]; exact (Hd k sub Hk).
Qed.

(** ** Texts between commas *)

Lemma join_close_join ts c : join_close ts c = join_commas ts ++ [c].
Proof.
  induction ts as [|t ts IH]; [done|]. cbn [join_close join_commas].
  destruct ts as [|t' ts]; [by rewrite app_nil_r|].
  rewrite IH. by rewrite <-app_assoc.
Qed.

Lemma join_commas_cons t ts :
  join_commas (t :: ts) = t ++ (if ts is [] then [] else [commaByte]) ++ join_commas ts.
Proof. by destruct ts. Qed.

Lemma join_commas_app ts1 ts2 :
  join_commas (ts1 ++ ts2) =
  join_commas ts1 ++
  (if ts1 is [] then [] else if ts2 is [] then [] else [commaByte]) ++ join_commas ts2.
Proof.
  induction ts1 as [|t ts1 IH]; [done|].
  change ((t :: ts1) ++ ts2) with (t :: (ts1 ++ ts2)).
  rewrite !join_commas_cons, IH. rewrite <-?app_assoc. f_equal.
  destruct ts1 as [|t1 ts1]; [by destruct ts2|done].
Qed.

Lemma join_commas_snoc ts t :
  join_commas (ts ++ [t]) = join_commas ts ++ (if ts is [] then [] else [commaByte]) ++ t.
Proof.
  rewrite join_commas_app. cbn [join_commas]. rewrite app_nil_r. by destruct ts.
Qed.

(** ** Files *)

Lemma File_EncodeJSON_print f w :
  File_EncodeJSON f w = mkOut (written w ++ print (file_value f)) (ranged w).
Proof.
  unfold File_EncodeJSON, file_value. destruct (f_t f); cbn; try done.
  unfold quoted, writeRune, writeBytes. cbn [written ranged]. f_equal.
  rewrite <-!app_assoc. done.
Qed.

Lemma member_text_file kf :
  member_text (file_member kf) =
  quoteByte :: unsafeGetBytes (f_name (snd kf)) ++ quoteByte :: colonByte ::
  print (file_value (snd kf)).
Proof.
  unfold member_text, file_member, quoted. cbn [fst snd]. cbn [app].
  by rewrite <-app_assoc.
Qed.

(** The first loop of [encodeJSONDict] writes the Files as members, a
    comma after each but the last. *)
Lemma encodeDict_files_print fl : forall i n w,
  i + Z.of_nat (length fl) = n ->
  encodeDict_files fl i n w =
  mkOut (written w ++ join_commas (map (fun kf => member_text (file_member kf)) fl))
        (ranged w).
Proof.
  induction fl as [|[k f] fl IH]; intros i n w Hn.
  - cbn. rewrite app_nil_r. by destruct w.
  - cbn [encodeDict_files]. cbv zeta. cbn [length] in Hn.
    rewrite IH by lia. cbn [map]. rewrite join_commas_cons, member_text_file.
    rewrite File_EncodeJSON_print. cbn [snd].
    destruct (Z.ltb_spec i (n - 1)) as [Hlt|Hge].
    + destruct fl as [|kf fl]; [cbn [length] in Hn; lia|].
      cbn [writeRune writeString written ranged]. f_equal.
      rewrite <-?app_assoc. cbn [app]. f_equal. f_equal. rewrite <-?app_assoc. done.
    + destruct fl as [|kf fl]; [|cbn [length] in Hn; lia].
      cbn [writeRune writeString written ranged map join_commas]. f_equal.
      rewrite <-?app_assoc. cbn [app]. f_equal. f_equal. rewrite <-?app_assoc.
      by rewrite !app_nil_r.
Qed.

(* ===================================================================== *)
(** * The Directory of a document whose members stand for the children *)
(* ===================================================================== *)

Lemma directory_eq a b :
  d_name a = d_name b -> d_modTime a = d_modTime b -> dirs a = dirs b ->
  files a = files b -> isArray a = isArray b -> a = b.
Proof. destruct a, b; cbn; congruence. Qed.

Lemma build_child_proj k v acc :
  d_name (build_child build k v acc) = d_name acc /\
  d_modTime (build_child build k v acc) = d_modTime acc /\
  isArray (build_child build k v acc) = isArray acc /\
  files (build_child build k v acc) =
    (if v is JScalar t raw then <[k := mkFile k zeroTime t raw]> (files acc) else files acc) /\
  dirs (build_child build k v acc) =
    (if v is JScalar t raw then dirs acc else <[k := build k v]> (dirs acc)).
Proof.
  destruct v as [t raw|ms|vs]; unfold build_child, put_file, put_dir, set_files, set_dirs;
    cbn [d_name d_modTime isArray files dirs]; rewrite ?build_name by done; done.
Qed.

Lemma build_members_proj ms : forall acc,
  d_name (build_members build ms acc) = d_name acc /\
  d_modTime (build_members build ms acc) = d_modTime acc /\
  isArray (build_members build ms acc) = isArray acc.
Proof.
  induction ms as [|[k v] ms IH]; intros acc; [done|]. cbn [build_members fst snd].
  destruct (IH (build_child build k v acc)) as (-> & -> & ->).
  by destruct (build_child_proj k v acc) as (-> & -> & -> & _).
Qed.

Lemma build_members_files ms : forall acc k f,
  base.NoDup ms.*1 -> (forall k', k' ∈ ms.*1 -> files acc !! k' = None) ->
  files (build_members build ms acc) !! k = Some f <->
  files acc !! k = Some f \/
  exists t raw, (k, JScalar t raw) ∈ ms /\ f = mkFile k zeroTime t raw.
Proof.
  induction ms as [|[k0 v] ms IH]; intros acc k f Hnd Hfresh; cbn [build_members fst snd].
  { split; [auto|]. intros [?|(? & ? & []%elem_of_nil & _)]. done. }
  cbn in Hnd. apply list.NoDup_cons in Hnd as [Hk0 Hnd].
  destruct (build_child_proj k0 v acc) as (_ & _ & _ & Hfiles & _).
  assert (files acc !! k0 = None) as Hacc0 by (apply Hfresh; cbn; left).
  rewrite IH; [|done|].
  2:{ intros k' Hk'. rewrite Hfiles.
      assert (k0 <> k') by (intros ->; done).
      destruct v; rewrite ?lookup_insert_ne by done; apply Hfresh; cbn; by right. }
  rewrite Hfiles. split.
  - intros [H|(t & raw & Hin & ->)].
    + destruct v as [t raw| |]; [|by left..].
      apply lookup_insert_Some in H as [[<- <-]|[_ H]]; [|by left].
      right. exists t, raw. split; [left|done].
    + right. exists t, raw. split; [by right|done].
  - intros [H|(t & raw & Hin & ->)].
    + left. destruct v as [t raw| |]; [|done..].
      rewrite lookup_insert_ne; [done|]. intros <-. congruence.
    + apply elem_of_cons in Hin as [[= <- <-]|Hin].
      * left. by rewrite lookup_insert_eq.
      * right. by exists t, raw.
Qed.

Lemma build_members_dirs ms : forall acc k x,
  base.NoDup ms.*1 -> (forall k', k' ∈ ms.*1 -> dirs acc !! k' = None) ->
  dirs (build_members build ms acc) !! k = Some x <->
  dirs acc !! k = Some x \/
  exists v, (k, v) ∈ ms /\ is_scalar v = false /\ x = build k v.
Proof.
  induction ms as [|[k0 v] ms IH]; intros acc k x Hnd Hfresh; cbn [build_members fst snd].
  { split; [auto|]. intros [?|(? & []%elem_of_nil & _)]. done. }
  cbn in Hnd. apply list.NoDup_cons in Hnd as [Hk0 Hnd].
  destruct (build_child_proj k0 v acc) as (_ & _ & _ & _ & Hdirs).
  assert (dirs acc !! k0 = None) as Hacc0 by (apply Hfresh; cbn; left).
  rewrite IH; [|done|].
  2:{ intros k' Hk'. rewrite Hdirs.
      assert (k0 <> k') by (intros ->; done).
      destruct v; rewrite ?lookup_insert_ne by done; apply Hfresh; cbn; by right. }
  rewrite Hdirs. split.
  - intros [H|(v' & Hin & Hs & ->)].
    + destruct v as [t raw|ms'|vs']; [by left|..];
        (apply lookup_insert_Some in H as [[<- <-]|[_ H]]; [|by left]);
        right; eexists; (split; [left|done]).
    + right. exists v'. split; [by right|done].
  - intros [H|(v' & Hin & Hs & ->)].
    + left. destruct v as [t raw| |]; [done|..];
        (rewrite lookup_insert_ne; [done|]; intros <-; congruence).
    + apply elem_of_cons in Hin as [[= <- <-]|Hin].
      * left. destruct v'; [done|..]; by rewrite lookup_insert_eq.
      * right. by exists v'.
Qed.

Lemma stands_for_build d ms acc :
  unique_names d -> keyed_by_name d -> stands_for d ms ->
  d_name acc = d_name d -> d_modTime acc = zeroTime -> isArray acc = isArray d ->
  files acc = ∅ -> dirs acc = ∅ ->
  build_members build ms acc = untimed d.
Proof.
  intros Hu [Hkf Hkd] (Hnd & Hin & Hall) Hn Ht Ha Hf Hd.
  destruct (build_members_proj ms acc) as (En & Et & Ea).
  rewrite untimed_eq. apply directory_eq; cbn [d_name d_modTime dirs files isArray];
    [congruence|congruence| |  |congruence].
  - apply map_eq. intros k. apply option_eq. intros x.
    rewrite build_members_dirs; [|done|by intros; rewrite Hd].
    rewrite Hd, lookup_empty, lookup_fmap_Some. split.
    + intros [|(v & Hv & Hs & ->)]; [done|].
      destruct (Hin k v Hv) as [(f & _ & ->)|(sub & Hsub & _ & _ & Hb & _)]; [done|].
      exists sub. split; [|done]. by rewrite <-Hb, (Hkd k sub Hsub).
    + intros (sub & <- & Hsub). right.
      assert (k ∈ ms.*1) as Hk by (apply Hall; right; by eexists).
      apply list_elem_of_fmap in Hk as ([k' v] & -> & Hv). cbn in Hsub. cbn.
      destruct (Hin k' v Hv) as [(f & Hf' & ->)|(sub' & Hsub' & _ & _ & Hb & Hs)].
      * destruct (Hu k'); congruence.
      * assert (sub' = sub) as -> by congruence.
        exists v. split; [done|]. split; [done|]. by rewrite <-Hb, (Hkd k' sub Hsub).
  - apply map_eq. intros k. apply option_eq. intros x.
    rewrite build_members_files; [|done|by intros; rewrite Hf].
    rewrite Hf, lookup_empty, lookup_fmap_Some. split.
    + intros [|(t & raw & Hv & ->)]; [done|].
      destruct (Hin k _ Hv) as [(f & Hf' & [= -> ->])|(sub & _ & _ & _ & _ & Hs)]; [|done].
      exists f. split; [|done]. unfold untimed_file. by rewrite (Hkf k f Hf').
    + intros (f & <- & Hf'). right.
      assert (k ∈ ms.*1) as Hk by (apply Hall; left; by eexists).
      apply list_elem_of_fmap in Hk as ([k' v] & -> & Hv). cbn in Hf'. cbn.
      destruct (Hin k' v Hv) as [(f' & Hf'' & ->)|(sub' & Hsub' & _)].
      * assert (f' = f) as -> by congruence.
        exists (f_t f), (f_value f). split; [done|].
        unfold untimed_file. by rewrite (Hkf k' f Hf').
      * destruct (Hu k'); congruence.
Qed.

Lemma first_dup_members_fresh ms : forall seen,
  base.NoDup ms.*1 -> (forall k, k ∈ ms.*1 -> k ∉ seen) ->
  (forall k v, (k, v) ∈ ms -> first_dup v = None) ->
  first_dup_members first_dup seen ms = None.
Proof.
  induction ms as [|[k v] ms IH]; intros seen Hnd Hseen Hsub; [done|].
  cbn in Hnd. apply list.NoDup_cons in Hnd as [Hk Hnd].
  cbn [first_dup_members fst snd].
  rewrite bool_decide_eq_false_2 by (apply Hseen; cbn; left).
  rewrite (Hsub k v) by left. apply IH; [done| |].
  - intros k' Hk' [->|Hin]%elem_of_cons; [done|]. apply (Hseen k'); [cbn; by right|done].
  - intros k' v' Hin. apply (Hsub k' v'). by right.
Qed.

Lemma file_value_first_dup f : first_dup (file_value f) = None.
Proof. done. Qed.

Lemma stands_for_values d ms k v :
  stands_for d ms -> (k, v) ∈ ms ->
  (forall k f, files d !! k = Some f -> scalar_ok (f_t f) (f_value f) = true) ->
  wf_value v = true /\ first_dup v = None.
Proof.
  intros (_ & Hin & _) Hv Hfiles.
  destruct (Hin k v Hv) as [(f & Hf & ->)|(sub & _ & Hwf & Hdup & _)]; [|done].
  split; [|done]. cbn. by eapply Hfiles.
Qed.

(* ===================================================================== *)
(** * [encodeJSONDict] *)
(* ===================================================================== *)

Lemma member_text_pair k j :
  member_text (k, j) =
  quoteByte :: unsafeGetBytes k ++ quoteByte :: colonByte :: print j.
Proof. unfold member_text, quoted. cbn [fst snd app]. by rewrite <-app_assoc. Qed.

(** The second loop of [encodeJSONDict] writes one member for every
    sub-directory, a comma after each but the last. *)
Lemma encodeDict_dirs_print dl :
  Forall (fun e => writes_document (fst (snd e)) (snd (snd e))) dl ->
  forall i n w, i + Z.of_nat (length dl) = n ->
  exists ms n',
    encodeDict_dirs dl i n w
    = (mkOut (written w ++ join_commas (map member_text ms)) n', None) /\
    Forall2 (fun e kv => fst kv = d_name (fst (snd e)) /\
                         reads_back (fst (snd e)) (snd kv)) dl ms.
Proof.
  induction dl as [|[k [sub enc]] dl IH]; intros HF i n w Hn.
  { exists [], (ranged w). cbn. rewrite app_nil_r. by destruct w. }
  apply Forall_cons_iff in HF. destruct HF as [Henc HF]. cbn [fst snd] in Henc.
  cbn [encodeDict_dirs]. cbv zeta. cbn [length] in Hn.
  match goal with
  | |- context [enc ?w0] => destruct (Henc w0) as (j & n1 & -> & Hrb)
  end.
  match goal with
  | |- context [encodeDict_dirs dl ?i1 n ?w1] =>
    destruct (IH HF i1 n w1) as (ms & n' & -> & HF2); [lia|]
  end.
  exists ((d_name sub, j) :: ms), n'. split; [|by constructor].
  f_equal. f_equal. cbn [map]. rewrite join_commas_cons, member_text_pair.
  apply Forall2_length in HF2.
  destruct (Z.ltb_spec i (n - 1)) as [Hlt|Hge].
  - destruct ms as [|kv ms]; [cbn [length] in *; lia|].
    cbn [writeRune writeString written ranged].
    rewrite <-?app_assoc. cbn [app]. f_equal. f_equal. rewrite <-?app_assoc. done.
  - destruct ms as [|kv ms]; [|cbn [length] in *; lia].
    cbn [writeRune writeString written ranged map join_commas].
    rewrite <-?app_assoc. cbn [app]. f_equal. f_equal. rewrite <-?app_assoc.
    by rewrite ?app_nil_r.
Qed.

Lemma file_member_keys (fl : list (string * File)) :
  (forall k f, (k, f) ∈ fl -> f_name f = k) -> (map file_member fl).*1 = fl.*1.
Proof.
  induction fl as [|[k f] fl IH]; intros H; [done|]. cbn.
  rewrite (H k f) by left. f_equal. apply IH. intros k' f' Hin. apply H. by right.
Qed.

Lemma Forall2_keys {A} (R : A -> jvalue -> Prop) (key : A -> string)
    (dl : list A) (ms : list (string * jvalue)) :
  Forall2 (fun e kv => fst kv = key e /\ R e (snd kv)) dl ms -> ms.*1 = key <$> dl.
Proof.
  induction 1 as [|e kv dl ms [Hk _] _ IH]; [done|]. cbn. by rewrite Hk, IH.
Qed.

Lemma Forall2_member {A} (R : A -> string * jvalue -> Prop)
    (dl : list A) (ms : list (string * jvalue)) kv :
  Forall2 R dl ms -> kv ∈ ms -> exists e, e ∈ dl /\ R e kv.
Proof.
  induction 1 as [|e kv' dl ms HR _ IH]; [by intros ?%elem_of_nil|].
  intros [->|Hin]%elem_of_cons.
  - exists e. split; [left|done].
  - destruct (IH Hin) as (e' & ? & ?). exists e'. split; [by right|done].
Qed.

Lemma encodeJSONDict_print mapOrder (d : Directory) (enc : Directory -> Out -> Out * option error) w :
  (forall n A (l : list A), mapOrder n A l ≡ₚ l) ->
  unique_names d -> keyed_by_name d ->
  (forall k sub, dirs d !! k = Some sub -> writes_document sub (enc sub)) ->
  exists ms n',
    encodeJSONDict mapOrder (files d) ((fun sub => (sub, enc sub)) <$> dirs d) w
    = (mkOut (written w ++ print (JObject ms)) n', None) /\ stands_for d ms.
Proof.
  intros Hperm Hu [Hkf Hkd] Henc. unfold encodeJSONDict, rangeMap. cbv zeta.
  set (F := fun sub => (sub, enc sub)).
  set (w0 := writeRune w openBrace).
  set (fl := mapOrder (ranged w0) _ (map_to_list (files d))).
  assert (fl ≡ₚ map_to_list (files d)) as Hfl by apply Hperm.
  assert (Z.of_nat (size (files d)) = Z.of_nat (length fl)) as Hsize.
  { by rewrite Hfl, length_map_to_list. }
  rewrite encodeDict_files_print by lia.
  match goal with
  | |- context [encodeDict_dirs ?dl0 0 _ ?w1] =>
    set (dl := dl0); set (w2 := w1)
  end.
  assert (dl ≡ₚ map_to_list (F <$> dirs d)) as Hdl by apply Hperm.
  assert (forall e, e ∈ dl -> dirs d !! fst e = Some (fst (snd e)) /\
                              snd (snd e) = enc (fst (snd e))) as Hdl_in.
  { intros [k [sub en]]. rewrite Hdl, elem_of_map_to_list, lookup_fmap_Some.
    intros (sub' & [= <- <-] & Hsub). done. }
  assert (Z.of_nat (size (F <$> dirs d)) = Z.of_nat (length dl)) as Hsize2.
  { by rewrite Hdl, length_map_to_list. }
  destruct (encodeDict_dirs_print dl) with (i := 0) (n := Z.of_nat (size (F <$> dirs d)))
    (w := w2) as (msd & n' & -> & HF2); [|lia|].
  { apply List.Forall_forall. intros e He%list_elem_of_In.
    destruct (Hdl_in e He) as [Hsub ->]. by eapply Henc. }
  exists (map file_member fl ++ msd), n'. split.
  - rewrite print_object, join_close_join, map_app, join_commas_app.
    pose proof HF2 as Hlen. apply Forall2_length in Hlen.
    subst w2 w0. cbn [written ranged writeRune].
    assert (forall (A : Type) (l : list A), (0 <? length l)%nat = if l is [] then false else true)
      as Hpos by (by intros A []).
    rewrite <-(Nat2Z.id (size (files d))), Hsize, Nat2Z.id, Hpos.
    rewrite <-(Nat2Z.id (size (F <$> dirs d))), Hsize2, Nat2Z.id, Hpos.
    rewrite map_map.
    destruct fl as [|kf fl'], dl as [|e dl'], msd as [|kv msd']; try done;
      unfold writeRune; cbn [andb written ranged map length] in *; f_equal;
      rewrite <-?app_assoc; cbn [app]; rewrite ?app_nil_r; try done.
  - assert ((map file_member fl).*1 = fl.*1) as Hkeys1.
    { apply file_member_keys. intros k f. rewrite Hfl, elem_of_map_to_list. apply Hkf. }
    assert (msd.*1 = dl.*1) as Hkeys2.
    { rewrite (Forall2_keys (fun e j => reads_back (fst (snd e)) j)
                 (fun e => d_name (fst (snd e))) _ _ HF2).
      apply Forall_fmap_ext, List.Forall_forall. intros e He%list_elem_of_In.
      destruct (Hdl_in e He) as [Hsub _]. by apply Hkd in Hsub. }
    assert (forall k, k ∈ fl.*1 <-> is_Some (files d !! k)) as Hfl_keys.
    { intros k. rewrite Hfl. apply elem_of_keys. }
    assert (forall k, k ∈ dl.*1 <-> is_Some (dirs d !! k)) as Hdl_keys.
    { intros k. by rewrite Hdl, elem_of_keys, lookup_fmap, fmap_is_Some. }
    split; [|split].
    + rewrite fmap_app, Hkeys1, Hkeys2. apply list.NoDup_app. split; [|split].
      * rewrite Hfl. apply NoDup_fst_map_to_list.
      * intros k [f Hf]%Hfl_keys [sub Hsub]%Hdl_keys. destruct (Hu k); congruence.
      * rewrite Hdl. apply NoDup_fst_map_to_list.
    + intros k v [Hin|Hin]%elem_of_app.
      * left. change (map file_member fl) with (file_member <$> fl) in Hin.
        apply list_elem_of_fmap in Hin as ([k0 f] & [= -> ->] & Hin).
        rewrite Hfl in Hin. apply elem_of_map_to_list in Hin.
        exists f. cbn [snd]. by rewrite (Hkf _ _ Hin).
      * right. destruct (Forall2_member _ _ _ _ HF2 Hin) as (e & He & Hk & Hrb).
        cbn [fst snd] in Hk, Hrb. destruct (Hdl_in e He) as [Hsub _].
        exists (fst (snd e)). split; [|done]. by rewrite Hk, (Hkd _ _ Hsub).
    + intros k H. rewrite fmap_app, elem_of_app, Hkeys1, Hkeys2.
      destruct H as [H|H]; [left; by apply Hfl_keys|right; by apply Hdl_keys].
Qed.

(* ===================================================================== *)
(** * [encodeJSONArray] *)
(* ===================================================================== *)

(** The loop of [encodeJSONArray] finds every index and writes the
    items, a comma after each but the last. *)
Lemma encodeArray_loop_print (d : Directory) (enc : Directory -> Out -> Out * option error) :
  (forall k sub, dirs d !! k = Some sub -> writes_document sub (enc sub)) ->
  forall k i n w,
    i + Z.of_nat k = n ->
    (forall p, i <= p < n -> is_Some (files d !! Itoa p) \/ is_Some (dirs d !! Itoa p)) ->
    exists vs n',
      encodeArray_loop (files d) (enc <$> dirs d) k i n w
      = (mkOut (written w ++ join_commas (map print vs)) n', None) /\
      length vs = k /\
      forall p v, vs !! p = Some v ->
        (exists f, files d !! Itoa (i + Z.of_nat p) = Some f /\ v = file_value f) \/
        (exists sub, dirs d !! Itoa (i + Z.of_nat p) = Some sub /\ reads_back sub v).
Proof.
  intros Henc. induction k as [|k IH]; intros i n w Hn Hall.
  { exists [], (ranged w). cbn. rewrite app_nil_r. destruct w. split; [done|].
    split; [done|]. intros p v. by rewrite lookup_nil. }
  cbn [encodeArray_loop]. cbv zeta.
  assert (exists v w1,
    match files d !! Itoa i with
    | Some fv => (File_EncodeJSON fv w, None)
    | None =>
      match (enc <$> dirs d) !! Itoa i with
      | None => (w, Some (ErrMissingIndex i))
      | Some fd_EncodeJSON => fd_EncodeJSON w
      end
    end = (mkOut (written w ++ print v) w1, None) /\
    ((exists f, files d !! Itoa i = Some f /\ v = file_value f) \/
     (exists sub, dirs d !! Itoa i = Some sub /\ reads_back sub v)))
    as (v & n1 & -> & Hv).
  { destruct (files d !! Itoa i) as [f|] eqn:Hf.
    - exists (file_value f), (ranged w). rewrite File_EncodeJSON_print.
      split; [done|]. left. by exists f.
    - destruct (Hall i ltac:(lia)) as [[f Hf']|[sub Hsub]]; [congruence|].
      rewrite lookup_fmap, Hsub. cbn.
      destruct (Henc _ _ Hsub w) as (j & n1 & -> & Hrb).
      exists j, n1. split; [done|]. right. by exists sub. }
  match goal with
  | |- context [encodeArray_loop _ _ k ?i1 n ?w1] =>
    destruct (IH i1 n w1) as (vs & n' & -> & Hlen & Hvs); [lia|intros; apply Hall; lia|]
  end.
  exists (v :: vs), n'. split; [|split; [cbn; by rewrite Hlen|]].
  - f_equal. f_equal. cbn [map]. rewrite join_commas_cons.
    destruct (Z.ltb_spec i (n - 1)) as [Hlt|Hge].
    + destruct vs as [|v' vs]; [cbn [length] in *; lia|].
      unfold writeRune. cbn [written ranged]. by rewrite <-?app_assoc.
    + destruct vs as [|v' vs]; [|cbn [length] in *; lia].
      cbn [written ranged map join_commas]. by rewrite ?app_nil_r.
  - intros [|p] v0; cbn [lookup list_lookup].
    + intros [= <-]. by rewrite Z.add_0_r.
    + intros Hp. destruct (Hvs p v0 Hp) as [H|H]; [left|right];
        by replace (i + Z.of_nat (S p)) with (i + 1 + Z.of_nat p) by lia.
Qed.

Lemma indexed_lookup i vs p :
  indexed i vs !! p = (fun v => (Itoa (i + Z.of_nat p), v)) <$> vs !! p.
Proof. unfold indexed. by rewrite list_lookup_imap. Qed.

Lemma elem_of_indexed i vs k v :
  (k, v) ∈ indexed i vs <-> exists p, vs !! p = Some v /\ k = Itoa (i + Z.of_nat p).
Proof.
  rewrite list_elem_of_lookup. split.
  - intros [p Hp]. rewrite indexed_lookup in Hp.
    destruct (vs !! p) as [v'|] eqn:E; [|done]. injection Hp as <- <-. by exists p.
  - intros (p & Hp & ->). exists p. by rewrite indexed_lookup, Hp.
Qed.

Lemma NoDup_indexed i vs : base.NoDup (indexed i vs).*1.
Proof.
  apply NoDup_alt. intros p q k. rewrite !list_lookup_fmap, !indexed_lookup.
  destruct (vs !! p), (vs !! q); cbn; try done.
  intros [= <-] [= Heq]. apply (inj pretty) in Heq. lia.
Qed.

Lemma build_items_indexed vs : forall i acc,
  build_items build vs i acc = build_members build (indexed i vs) acc.
Proof.
  induction vs as [|v vs IH]; intros i acc; [done|].
  unfold indexed. rewrite imap_cons. cbn [build_items build_members fst snd].
  rewrite IH, Z.add_0_r. f_equal. unfold indexed. apply imap_ext.
  intros p x _. cbn. do 2 f_equal. lia.
Qed.

Lemma encodeJSONArray_print (d : Directory) (enc : Directory -> Out -> Out * option error) w :
  numbered (Z.of_nat (Len d)) d ->
  (forall k sub, dirs d !! k = Some sub -> writes_document sub (enc sub)) ->
  exists vs n',
    encodeJSONArray (files d) (enc <$> dirs d) w
    = (mkOut (written w ++ print (JArray vs)) n', None) /\
    length vs = Len d /\ stands_for d (indexed 0 vs).
Proof.
  intros Hnum Henc. unfold encodeJSONArray. cbv zeta.
  assert ((size (files d) + size (enc <$> dirs d))%nat = Len d) as ->.
  { unfold Len. rewrite map_size_fmap. lia. }
  destruct (encodeArray_loop_print d enc Henc (Len d) 0 (Z.of_nat (Len d))
              (writeRune w openBracket)) as (vs & n' & -> & Hlen & Hvs); [lia| |].
  { intros p Hp. apply Hnum. by exists p. }
  exists vs, n'. split; [|split; [done|]].
  - unfold writeRune. cbn [written ranged]. f_equal. f_equal.
    rewrite print_array, join_close_join. rewrite <-?app_assoc. done.
  - split; [apply NoDup_indexed|]. split.
    + intros k v (p & Hp & ->)%elem_of_indexed. apply (Hvs p v Hp).
    + intros k (i & Hi & ->)%Hnum.
      destruct (lookup_lt_is_Some_2 vs (Z.to_nat i)) as [v Hv]; [lia|].
      apply list_elem_of_fmap. exists (Itoa i, v). split; [done|].
      apply elem_of_indexed. exists (Z.to_nat i). split; [done|]. f_equal. lia.
Qed.

(* ===================================================================== *)
(** * [EncodeJSON] on a tree of the decoder *)
(* ===================================================================== *)

Lemma EncodeJSON_eq mapOrder d w :
  EncodeJSON mapOrder d w =
  if isArray d then encodeJSONArray (files d) (EncodeJSON mapOrder <$> dirs d) w
  else encodeJSONDict mapOrder (files d)
         ((fun sub => (sub, EncodeJSON mapOrder sub)) <$> dirs d) w.
Proof. by destruct d. Qed.

Lemma first_dup_items_fresh vs :
  (forall v, v ∈ vs -> first_dup v = None) -> first_dup_items first_dup vs = None.
Proof.
  induction vs as [|v vs IH]; intros H; [done|]. cbn [first_dup_items].
  rewrite (H v) by left. apply IH. intros v' Hin. apply H. by right.
Qed.

Lemma EncodeJSON_writes mapOrder L d :
  (forall n A (l : list A), mapOrder n A l ≡ₚ l) -> L < 2 ^ 63 ->
  tree_ok L d -> plain_numbers d -> writes_document d (EncodeJSON mapOrder d).
Proof.
  intros Hperm HL Ht. induction Ht as [d Ht IH] using tree_ok_nested_ind.
  intros Hplain w.
  assert (forall k sub, dirs d !! k = Some sub ->
            writes_document sub (EncodeJSON mapOrder sub)) as Henc.
  { intros k sub Hsub. apply (IH k sub Hsub). intros x k' f Hin.
    apply Hplain. by eapply in_tree_below. }
  pose proof (tree_ok_children _ _ Ht) as (Hu & Hk & Hfiles & _).
  assert (forall k f, files d !! k = Some f -> scalar_ok (f_t f) (f_value f) = true)
    as Hscalar.
  { intros k f Hf. specialize (Hfiles k f Hf). unfold decoded_file in Hfiles.
    pose proof (Hplain d k f (in_tree_here d) Hf) as Hp.
    destruct (f_t f); auto. }
  rewrite EncodeJSON_eq.
  destruct Ht as [d Ha _ Hkeys|d Ha _ Hnum Hlen]; rewrite Ha.
  - destruct (encodeJSONDict_print mapOrder d (EncodeJSON mapOrder) w Hperm Hu Hk Henc)
      as (ms & n' & -> & Hst).
    exists (JObject ms), n'. split; [done|].
    pose proof Hst as (Hnd & Hin & Hall).
    split; [|split; [|split; [|done]]].
    + cbn [wf_value]. apply forallb_forall. intros [k v] Hkv%list_elem_of_In.
      cbn [fst snd]. apply andb_true_intro. split.
      * apply Hkeys. destruct (Hin k v Hkv) as [(f & Hf & _)|(sub & Hsub & _)];
          [left|right]; by eexists.
      * by apply (stands_for_values d ms k v).
    + cbn [first_dup]. apply first_dup_members_fresh; [done|by intros ? ? ?%elem_of_nil|].
      intros k v Hkv. by apply (stands_for_values d ms k v).
    + cbn [build]. apply stands_for_build; done.
  - destruct (encodeJSONArray_print d (EncodeJSON mapOrder) w Hnum Henc)
      as (vs & n' & -> & Hvs & Hst).
    exists (JArray vs), n'. split; [done|].
    assert (forall v, v ∈ vs -> wf_value v = true /\ first_dup v = None) as Hvals.
    { intros v [p Hp]%list_elem_of_lookup.
      apply (stands_for_values d (indexed 0 vs) (Itoa (0 + Z.of_nat p)) v); [done| |done].
      apply elem_of_indexed. by exists p. }
    split; [|split; [|split; [|done]]].
    + cbn [wf_value]. apply andb_true_intro. split.
      * apply forallb_forall. intros v Hv%list_elem_of_In. by apply Hvals.
      * apply Z.ltb_lt. lia.
    + cbn [first_dup]. apply first_dup_items_fresh. intros v Hv. by apply Hvals.
    + cbn [build]. rewrite build_items_indexed. apply stands_for_build; done.
Qed.

(* ===================================================================== *)
(** * C2: decoding what the encoder writes *)
(* ===================================================================== *)

Lemma plain_numbersb_sub d k sub :
  plain_numbersb d = true -> dirs d !! k = Some sub -> plain_numbersb sub = true.
Proof.
  destruct d as [n t ds fs a]. cbn [plain_numbersb dirs files].
  intros [_ H]%andb_prop. revert H k sub.
  apply (map_fold_weak_ind
           (fun r m => r = true -> forall k sub, m !! k = Some sub ->
                                   plain_numbersb sub = true)).
  - intros _ k sub. by rewrite lookup_empty.
  - intros i x m r Hi IH [Hx Hr]%andb_prop k sub.
    destruct (decide (i = k)) as [->|Hne].
    + rewrite lookup_insert_eq. by intros [= <-].
    + rewrite lookup_insert_ne by done. by apply IH.
Qed.

Lemma plain_numbersb_sound d : plain_numbersb d = true -> plain_numbers d.
Proof.
  intros Hd x k f Hin. induction Hin as [|d k' sub Hsub _ IH].
  - destruct x as [n t ds fs a]. cbn [plain_numbersb dirs files] in *.
    apply andb_prop in Hd as [Hfs _]. rewrite forallb_forall in Hfs.
    intros Hf%elem_of_map_to_list%list_elem_of_In. specialize (Hfs _ Hf).
    unfold plain_file in Hfs. cbn [snd] in Hfs. intros [H|H]; rewrite H in *; done.
  - apply IH. by eapply plain_numbersb_sub.
Qed.

Lemma reads_back_object d j :
  reads_back d j -> isArray d = false -> exists ms, j = JObject ms.
Proof.
  intros (_ & _ & Hb & Hs) Ha. destruct j as [t raw|ms|vs]; [done|by exists ms|].
  apply (f_equal isArray) in Hb. rewrite untimed_eq in Hb.
  cbn [build isArray] in Hb. rewrite build_items_indexed in Hb.
  destruct (build_members_proj (indexed 0 vs)
              (mkDirectory (d_name d) zeroTime ∅ ∅ true)) as (_ & _ & Hia).
  rewrite Hia in Hb. cbn in Hb. congruence.
Qed.

(** C2: let [d] be the Directory [UnmarshalJSON] returns for an input
    that fits Go's [int], and let every number of [d] be written with
    digits and dots, a digit first, and be a Float exactly when it has a
    dot (as the numbers of valid JSON that the decoder reads are).  Then,
    whatever the order in which the encoder's [range] loops visit the maps,
    [MarshalJSON] encodes [d] without error, [UnmarshalJSON] decodes the
    text, and the Directory it returns is [d] up to the modification
    times: the same tree, the same names, the same kinds and the same raw
    bytes of every File (of the Floats too, which makes them equal as
    numbers). *)
Theorem C2_decode_encode_round_trip
    (mapOrder : nat -> forall A : Type, list A -> list A)
    (src : list byte) (clock clock' : Clock) (d : Directory) :
  (forall n A (l : list A), mapOrder n A l ≡ₚ l) ->
  fits_int src ->
  fst (UnmarshalJSON (mkWorld (NewReader src) clock)) = Ok d ->
  plain_numbers d ->
  exists text d',
    MarshalJSON mapOrder d = (text, None) /\
    fst (UnmarshalJSON (mkWorld (NewReader text) clock')) = Ok d' /\
    untimed d' = untimed d.
Proof.
  intros Hperm Hfits Hdec Hplain.
  destruct (UnmarshalJSON _) as [r w'] eqn:E. cbn [fst] in Hdec. subst r.
  apply UnmarshalJSON_tree_ok in E as (Ht & Ha & Hn); [|done].
  destruct (EncodeJSON_writes mapOrder _ d Hperm Hfits Ht Hplain (mkOut [] 0%nat))
    as (j & n & Henc & Hrb).
  destruct (reads_back_object d j Hrb Ha) as [ms ->].
  destruct Hrb as (Hwf & Hdup & Hb & _).
  exists (print (JObject ms)). unfold MarshalJSON. rewrite Henc. cbn [written app].
  destruct (UnmarshalJSON_print ms [] None clock' Hwf) as [w2 H].
  rewrite Hdup in H. destruct H as (d' & Hd' & Hu & _).
  rewrite app_nil_r in Hd'. exists d'. unfold NewReader. rewrite Hd'.
  split; [done|]. split; [done|]. by rewrite Hu, <-Hn.
Qed.

Lemma C2_witness :
  exists d text d',
    fits_int (bytes "{'a':[1,{'b':2.5},'s'],'c':true,'n':null}") /\
    fst (UnmarshalJSON (world_of (bytes "{'a':[1,{'b':2.5},'s'],'c':true,'n':null}")))
    = Ok d /\
    plain_numbers d /\
    MarshalJSON listOrder d = (text, None) /\
    fst (UnmarshalJSON (mkWorld (NewReader text) testClock)) = Ok d' /\
    untimed d' = untimed d.
Proof.
  eexists.
  assert (fits_int (bytes "{'a':[1,{'b':2.5},'s'],'c':true,'n':null}")) as Hfits
    by (unfold fits_int; vm_compute; reflexivity).
  assert (forall n A (l : list A), listOrder n A l ≡ₚ l) as Hperm by done.
  match goal with
  | |- exists text d', _ /\ fst ?dec = Ok ?d /\ _ =>
    assert (fst dec = Ok d) as Hdec by (vm_compute; reflexivity);
    assert (plain_numbers d) as Hplain
      by (apply plain_numbersb_sound; vm_compute; reflexivity)
  end.
  pose proof (C2_decode_encode_round_trip listOrder _ testClock testClock _
                Hperm Hfits Hdec Hplain) as H.
  destruct H as (text & d' & H1 & H2 & H3).
  exists text, d'.
  split; [exact Hfits|].
  split; [exact Hdec|].
  split; [exact Hplain|].
  split; [exact H1|].
  split; [exact H2|exact H3].
Defined.

(* ===================================================================== *)
(** * [Remove] and [RemoveAll] on sub-directories *)
(* ===================================================================== *)

(** X1: [Remove] removes no sub-directory, not even an empty one: when
    [name] is the name of a sub-directory of [d] (and of no File), it
    returns the error "directory not empty" and leaves [d] as it is. *)
Theorem X1_Remove_refuses_every_directory (d sub : Directory) (name : string) :
  files d !! name = None -> dirs d !! name = Some sub ->
  Remove d name = (d, Some ErrNotEmpty).
Proof.
  intros Hf Hd. unfold Remove, remove. rewrite Hf, Hd.
  assert (size (dirs d) <> 0%nat) as Hsize.
  { intros H%map_size_empty_inv. by rewrite H, lookup_empty in Hd. }
  destruct (Nat.eqb_spec (size (files d) + size (dirs d)) 0) as [H0|_]; [lia|done].
Qed.

Lemma X1_witness :
  Remove (mkDirectory "d" 0 {["e" := zeroDirectory]} ∅ false) "e"
  = (mkDirectory "d" 0 {["e" := zeroDirectory]} ∅ false, Some ErrNotEmpty).
Proof.
  apply (X1_Remove_refuses_every_directory _ zeroDirectory); reflexivity.
Defined.

(** X2: [RemoveAll] never returns an error.  It deletes the File of the
    name when there is one, the sub-directory of the name otherwise (with
    all it holds), and leaves every other child as it is. *)
Theorem X2_RemoveAll_deletes_one_child (d : Directory) (name : string) :
  snd (RemoveAll d name) = None /\
  files (fst (RemoveAll d name)) = delete name (files d) /\
  dirs (fst (RemoveAll d name)) =
    match files d !! name with
    | Some _ => dirs d
    | None => delete name (dirs d)
    end /\
  d_name (fst (RemoveAll d name)) = d_name d /\
  isArray (fst (RemoveAll d name)) = isArray d.
Proof.
  unfold RemoveAll, remove.
  destruct (files d !! name) as [f|] eqn:Hf; [done|].
  destruct (dirs d !! name) as [sub|] eqn:Hd.
  - rewrite andb_false_r. cbn. by rewrite delete_id.
  - cbn. by rewrite !delete_id.
Qed.

(* ===================================================================== *)
(** * [NewDir] *)
(* ===================================================================== *)

Lemma NewDir_loop_spec l : forall d,
  match NewDir_loop d l with
  | Ok d' =>
    Forall named l /\ d' = Set_update d l
  | Err _ => ~ Forall named l
  end.
Proof.
  induction l as [|[f|x|] l IH]; intros d; cbn [NewDir_loop Set_update].
  - done.
  - destruct (decide (f_name f = EmptyString)) as [He|Hne].
    + intros [H _]%Forall_cons_iff. by apply H.
    + specialize (IH (set_files (<[f_name f:=f]> (files d)) d)).
      destruct (NewDir_loop _ l) as [d'|e].
      * destruct IH as [HF ->]. split; [by constructor|done].
      * intros [_ H]%Forall_cons_iff. by apply IH.
  - destruct (decide (d_name x = EmptyString)) as [He|Hne].
    + intros [H _]%Forall_cons_iff. by apply H.
    + specialize (IH (set_dirs (<[d_name x:=x]> (dirs d)) d)).
      destruct (NewDir_loop _ l) as [d'|e].
      * destruct IH as [HF ->]. split; [by constructor|done].
      * intros [_ H]%Forall_cons_iff. by apply IH.
  - by intros [H _]%Forall_cons_iff.
Qed.

(** What the second loop of [Set], which is the loop of [NewDir], leaves
    in the maps: for every name the last argument of the name and of the
    kind, or what the map held. *)
Lemma Set_update_spec l : forall d,
  d_name (Set_update d l) = d_name d /\
  d_modTime (Set_update d l) = d_modTime d /\
  isArray (Set_update d l) = isArray d /\
  (forall k, files (Set_update d l) !! k =
             match last_file l k with Some f => Some f | None => files d !! k end) /\
  (forall k, dirs (Set_update d l) !! k =
             match last_dir l k with Some x => Some x | None => dirs d !! k end).
Proof.
  induction l as [|[f|x|] l IH]; intros d; cbn [Set_update last_file last_dir].
  - done.
  - destruct (IH (set_files (<[f_name f:=f]> (files d)) d)) as (-> & -> & -> & Hf & Hd).
    repeat split; try done.
    + intros k. rewrite Hf. destruct (last_file l k); [done|]. cbn.
      destruct (decide (f_name f = k)) as [->|Hne].
      * by rewrite lookup_insert_eq.
      * by rewrite lookup_insert_ne.
    + intros k. rewrite Hd. by destruct (last_dir l k).
  - destruct (IH (set_dirs (<[d_name x:=x]> (dirs d)) d)) as (-> & -> & -> & Hf & Hd).
    repeat split; try done.
    + intros k. rewrite Hf. by destruct (last_file l k).
    + intros k. rewrite Hd. destruct (last_dir l k); [done|]. cbn.
      destruct (decide (d_name x = k)) as [->|Hne].
      * by rewrite lookup_insert_eq.
      * by rewrite lookup_insert_ne.
  - destruct (IH d) as (-> & -> & -> & Hf & Hd).
    repeat split; try done.
    + intros k. rewrite Hf. by destruct (last_file l k).
    + intros k. rewrite Hd. by destruct (last_dir l k).
Qed.

(** X3: [NewDir] fails exactly when one of its arguments is a File or a
    Directory without a name, or a value of another type.  It does not
    refuse two arguments of one name: the Directory it returns holds, for
    every name, the last File and the last Directory of that name among
    the arguments, and nothing else. *)
Theorem X3_NewDir_keeps_the_last_of_a_name (now : time) (name : string) (l : list any) :
  match NewDir now name l with
  | Ok d =>
    Forall named l /\ d_name d = name /\
    (forall k, files d !! k = last_file l k) /\
    (forall k, dirs d !! k = last_dir l k)
  | Err _ => ~ Forall named l
  end.
Proof.
  unfold NewDir. cbv zeta.
  pose proof (NewDir_loop_spec l (set_isArray true (newDir name now))) as H.
  destruct (NewDir_loop _ l) as [d|e]; [|done].
  destruct H as [HF ->]. split; [done|].
  destruct (Set_update_spec l (set_isArray true (newDir name now)))
    as (-> & _ & _ & Hf & Hd).
  split; [done|]. split.
  - intros k. rewrite Hf. cbn. rewrite lookup_empty. by destruct (last_file l k).
  - intros k. rewrite Hd. cbn. rewrite lookup_empty. by destruct (last_dir l k).
Qed.

(* ===================================================================== *)
(** * Arrays: [NewArray], [Append] and [ArraySet] *)
(* ===================================================================== *)

Lemma well_numbered_fresh d :
  well_numbered d ->
  files d !! Itoa (Z.of_nat (Len d)) = None /\ dirs d !! Itoa (Z.of_nat (Len d)) = None.
Proof. intros [Hc _]. apply numbered_fresh; [lia|exact Hc]. Qed.

Lemma well_numbered_put_file d f :
  well_numbered d ->
  well_numbered (put_file (Itoa (Z.of_nat (Len d))) f d) /\
  Len (put_file (Itoa (Z.of_nat (Len d))) f d) = S (Len d).
Proof.
  intros Hw. destruct (well_numbered_fresh d Hw) as [Hf Hd]. destruct Hw as [Hc Hu].
  rewrite Len_put_file by done. split; [|done]. split.
  - unfold contiguous_names. rewrite Len_put_file by done.
    fold (numbered (Z.of_nat (S (Len d))) (put_file (Itoa (Z.of_nat (Len d))) f d)).
    rewrite Nat2Z.inj_succ. apply (numbered_next _ d); [lia|exact Hc|].
    intros k. apply children_put_file.
  - intros k. destruct (put_file_proj (Itoa (Z.of_nat (Len d))) f d) as (_ & _ & -> & ->).
    destruct (decide (Itoa (Z.of_nat (Len d)) = k)) as [<-|Hne]; [by right|].
    rewrite lookup_insert_ne by done. apply Hu.
Qed.

Lemma well_numbered_put_dir d x :
  well_numbered d -> d_name x = Itoa (Z.of_nat (Len d)) ->
  well_numbered (put_dir x d) /\ Len (put_dir x d) = S (Len d).
Proof.
  intros Hw Hn. destruct (well_numbered_fresh d Hw) as [Hf Hd]. destruct Hw as [Hc Hu].
  rewrite Len_put_dir by (by rewrite Hn). split; [|done]. split.
  - unfold contiguous_names. rewrite Len_put_dir by (by rewrite Hn).
    fold (numbered (Z.of_nat (S (Len d))) (put_dir x d)).
    rewrite Nat2Z.inj_succ. apply (numbered_next _ d); [lia|exact Hc|].
    intros k. rewrite <-Hn. apply children_put_dir.
  - intros k. destruct (put_dir_proj x d) as (_ & _ & -> & ->).
    destruct (decide (d_name x = k)) as [<-|Hne]; [left; by rewrite Hn|].
    rewrite lookup_insert_ne by done. apply Hu.
Qed.

Lemma Itoa_ne (a b : Z) : a <> b -> Itoa a <> Itoa b.
Proof. intros Hne Heq. by apply Hne, (inj pretty). Qed.

Lemma NewArray_loop_spec l : forall d,
  well_numbered d -> Forall supported l ->
  exists d',
    NewArray_loop d (Z.of_nat (Len d)) l = Ok d' /\
    d_name d' = d_name d /\ isArray d' = isArray d /\
    Len d' = (Len d + length l)%nat /\ well_numbered d' /\
    (forall q, (q < Len d)%nat ->
       files d' !! Itoa (Z.of_nat q) = files d !! Itoa (Z.of_nat q) /\
       dirs d' !! Itoa (Z.of_nat q) = dirs d !! Itoa (Z.of_nat q)) /\
    (forall p x, l !! p = Some x ->
       files d' !! Itoa (Z.of_nat (Len d + p)) = array_file (Itoa (Z.of_nat (Len d + p))) x /\
       dirs d' !! Itoa (Z.of_nat (Len d + p)) = array_dir (Itoa (Z.of_nat (Len d + p))) x).
Proof.
  induction l as [|x l IH]; intros d Hw HF.
  { exists d. cbn. rewrite Nat.add_0_r. repeat split; try done; apply Hw. }
  apply Forall_cons_iff in HF as [Hx HF].
  destruct (well_numbered_fresh d Hw) as [Hff Hfd].
  set (n := Z.of_nat (Len d)) in *.
  assert (exists d1,
    (forall rest, NewArray_loop d n (x :: rest) = NewArray_loop d1 (n + 1) rest) /\
    d_name d1 = d_name d /\ isArray d1 = isArray d /\
    well_numbered d1 /\ Len d1 = S (Len d) /\
    files d1 !! Itoa n = array_file (Itoa n) x /\
    dirs d1 !! Itoa n = array_dir (Itoa n) x /\
    (forall k, k <> Itoa n -> files d1 !! k = files d !! k /\ dirs d1 !! k = dirs d !! k))
    as (d1 & Hstep & Hn1 & Ha1 & Hw1 & HL1 & Hf1 & Hd1 & Hold1).
  { destruct x as [f|x|]; [| |done].
    - exists (put_file (Itoa n) (file_set_name (Itoa n) f) d).
      destruct (well_numbered_put_file d (file_set_name (Itoa n) f) Hw) as [? ?].
      destruct (put_file_proj (Itoa n) (file_set_name (Itoa n) f) d) as (? & ? & Ef & Ed).
      split; [done|]. split; [done|]. split; [done|]. split; [done|]. split; [done|].
      rewrite Ef, Ed. split; [by rewrite lookup_insert_eq|]. split; [done|].
      intros k Hk. by rewrite lookup_insert_ne.
    - exists (put_dir (set_name (Itoa n) x) d).
      destruct (well_numbered_put_dir d (set_name (Itoa n) x) Hw eq_refl) as [? ?].
      destruct (put_dir_proj (set_name (Itoa n) x) d) as (? & ? & Ef & Ed).
      split; [done|]. split; [done|]. split; [done|]. split; [done|]. split; [done|].
      rewrite Ef, Ed. cbn [d_name set_name array_file array_dir].
      split; [done|]. split; [by rewrite lookup_insert_eq|].
      intros k Hk. by rewrite lookup_insert_ne. }
  rewrite Hstep.
  replace (n + 1) with (Z.of_nat (Len d1)) by (rewrite HL1; unfold n; lia).
  destruct (IH d1 Hw1 HF) as (d' & -> & Hn & Ha & HL & Hw' & Hold & Hnew).
  exists d'. split; [done|]. split; [congruence|]. split; [congruence|].
  split; [rewrite HL, HL1; cbn [length]; lia|]. split; [done|].
  assert (forall q, (q < Len d1)%nat -> Z.of_nat q <> n ->
    files d' !! Itoa (Z.of_nat q) = files d !! Itoa (Z.of_nat q) /\
    dirs d' !! Itoa (Z.of_nat q) = dirs d !! Itoa (Z.of_nat q)) as Hold'.
  { intros q Hq Hne. destruct (Hold q Hq) as [-> ->]. apply Hold1. by apply Itoa_ne. }
  split.
  - intros q Hq. apply Hold'; unfold n; lia.
  - intros [|p] y Hy.
    + cbn in Hy. injection Hy as <-. rewrite Nat.add_0_r.
      destruct (Hold (Len d)) as [-> ->]; [lia|]. done.
    + cbn in Hy. replace (Len d + S p)%nat with (Len d1 + p)%nat by lia.
      by apply Hnew.
Qed.

(** X4: [NewArray] fails only for an argument that is neither a File nor
    a Directory.  Whatever the names of its arguments, the Directory it
    returns holds the [p]-th argument under the decimal string of [p] and
    with that name: its children are named by [0 .. n-1], [n] the number
    of arguments. *)
Theorem X4_NewArray_numbers_its_arguments (now : time) (name : string) (l : list any) :
  Forall supported l ->
  exists d,
    NewArray now name l = Ok d /\ d_name d = name /\
    Len d = length l /\ well_numbered d /\
    forall p x, l !! p = Some x ->
      files d !! Itoa (Z.of_nat p) = array_file (Itoa (Z.of_nat p)) x /\
      dirs d !! Itoa (Z.of_nat p) = array_dir (Itoa (Z.of_nat p)) x.
Proof.
  intros HF. unfold NewArray. cbv zeta.
  assert (well_numbered (newDir name now)) as Hw.
  { split; [|by left]. intros k. cbn. rewrite !lookup_empty. split.
    - intros [[? [=]]|[? [=]]].
    - intros (i & Hi & _). change (Len (newDir name now)) with 0%nat in Hi. lia. }
  destruct (NewArray_loop_spec l (newDir name now) Hw HF)
    as (d & Hrun & Hn & _ & HL & Hw' & _ & Hnew).
  exists d. split; [exact Hrun|]. split; [done|]. split; [done|]. split; [done|].
  intros p x Hp. by apply (Hnew p x).
Qed.

Lemma X4_witness :
  exists d,
    NewArray 7 "arr" [AnyFile file_a1; AnyDirectory zeroDirectory] = Ok d /\
    d_name d = "arr"%string /\ Len d = 2%nat /\ well_numbered d /\
    forall p x, [AnyFile file_a1; AnyDirectory zeroDirectory] !! p = Some x ->
      files d !! Itoa (Z.of_nat p) = array_file (Itoa (Z.of_nat p)) x /\
      dirs d !! Itoa (Z.of_nat p) = array_dir (Itoa (Z.of_nat p)) x.
Proof.
  apply (X4_NewArray_numbers_its_arguments 7 "arr"
           [AnyFile file_a1; AnyDirectory zeroDirectory]).
  repeat constructor.
Defined.

Lemma well_numbered_empty d : files d = ∅ -> dirs d = ∅ -> well_numbered d.
Proof.
  intros Hf Hd. split.
  - intros k. unfold Len. rewrite Hf, Hd, !lookup_empty, !map_size_empty. split.
    + intros [[? [=]]|[? [=]]].
    + intros (i & Hi & _). lia.
  - intros k. left. by rewrite Hf, lookup_empty.
Qed.




(* ===================================================================== *)
(** * [ArraySet] *)
(* ===================================================================== *)

Lemma has_key_true {V} (m : gmap string V) k : has_key m k = true <-> is_Some (m !! k).
Proof. unfold has_key. destruct (m !! k); split; done. Qed.

Lemma has_key_false {V} (m : gmap string V) k : has_key m k = false <-> m !! k = None.
Proof. unfold has_key. by destruct (m !! k). Qed.







(** X7: [ArraySet] checks its index from above only.  On an array
    numbered without a gap, a negative index is not refused: the call
    returns no error and changes nothing. *)
Theorem X7_ArraySet_accepts_a_negative_index (d : Directory) (index : Z) (fd : FileOrDir) :
  isArray d = true -> well_numbered d -> index < 0 ->
  ArraySet d index fd = (d, None).
Proof.
  intros Ha [Hc _] Hi. unfold ArraySet. rewrite Ha. cbn [negb].
  destruct (Z.leb_spec (Z.of_nat (Len d)) index) as [|_]; [lia|]. cbv zeta.
  assert (~ (is_Some (files d !! Itoa index) \/ is_Some (dirs d !! Itoa index))) as Hno.
  { intros (i & Hi' & Heq)%Hc. apply (inj pretty) in Heq. lia. }
  assert (has_key (files d) (Itoa index) = false) as Hf.
  { apply has_key_false, eq_None_not_Some. tauto. }
  assert (has_key (dirs d) (Itoa index) = false) as Hd.
  { apply has_key_false, eq_None_not_Some. tauto. }
  destruct fd; rewrite ?Hf, ?Hd; cbv beta iota; rewrite ?Hf, ?Hd; done.
Qed.

Lemma X7_witness :
  ArraySet (mkDirectory "arr" 0 ∅ ∅ true) (-1) FD_nil
  = (mkDirectory "arr" 0 ∅ ∅ true, None).
Proof.
  apply X7_ArraySet_accepts_a_negative_index;
    [reflexivity|by apply well_numbered_empty|reflexivity].
Defined.

(* ===================================================================== *)
(** * [Set] *)
(* ===================================================================== *)



(** X9: [Set] keeps the two maps apart: storing a File under the name of
    a sub-directory does not remove the sub-directory.  After the call
    the Directory has a File and a sub-directory of one name.  (A
    Directory that has a sub-directory has maps that are made.) *)
Theorem X9_Set_can_give_one_name_to_two_children
    (d sub : Directory) (f : File) :
  isArray d = false -> f_name f <> EmptyString -> dirs d !! f_name f = Some sub ->
  exists d',
    Directory_Set Made d [AnyFile f] = Returns (d', None) /\
    files d' !! f_name f = Some f /\
    dirs d' !! f_name f = Some sub /\
    ~ unique_names d'.
Proof.
  intros Ha Hn Hsub. unfold Directory_Set. rewrite Ha. cbn [Set_validate].
  destruct (decide (f_name f = EmptyString)) as [|_]; [done|].
  eexists. split; [reflexivity|]. cbn.
  rewrite lookup_insert_eq. repeat split; try done.
  intros Hu. destruct (Hu (f_name f)) as [H|H]; cbn in H.
  - by rewrite lookup_insert_eq in H.
  - congruence.
Qed.

Lemma X9_witness :
  exists d',
    Directory_Set Made (mkDirectory "" 0 {["a" := zeroDirectory]} ∅ false)
      [AnyFile file_a1] = Returns (d', None) /\
    files d' !! "a" = Some file_a1 /\
    dirs d' !! "a" = Some zeroDirectory.
Proof.
  destruct (X9_Set_can_give_one_name_to_two_children
              (mkDirectory "" 0 {["a" := zeroDirectory]} ∅ false) zeroDirectory file_a1
              eq_refl ltac:(discriminate) eq_refl) as (d' & H1 & H2 & H3 & _).
  exists d'. split; [exact H1|]. split; [exact H2|exact H3].
Defined.

(* ===================================================================== *)
(** * Paths of plain elements *)
(* ===================================================================== *)

Lemma span_elem_end e : Forall (fun c => c <> slash) e -> span_elem e = (e, []).
Proof.
  induction 1 as [|c e Hc _ IH]; [done|]. cbn [span_elem].
  destruct (Ascii.eqb_spec c slash) as [|_]; [done|]. by rewrite IH.
Qed.

Lemma span_elem_slash e rest :
  Forall (fun c => c <> slash) e -> span_elem (e ++ slash :: rest) = (e, slash :: rest).
Proof.
  induction 1 as [|c e Hc _ IH]; cbn [span_elem app].
  - by rewrite Ascii.eqb_refl.
  - destruct (Ascii.eqb_spec c slash) as [|_]; [done|]. by rewrite IH.
Qed.

Lemma span_elem_element e rest :
  Forall (fun c => c <> slash) e -> ends_element rest -> span_elem (e ++ rest) = (e, rest).
Proof.
  intros He [->|[rest' ->]].
  - rewrite app_nil_r. by apply span_elem_end.
  - by apply span_elem_slash.
Qed.

(** One round of [Clean_loop] on a plain element copies it. *)
Lemma Clean_loop_element fuel rooted e rest rout dotdot :
  simple_name e -> ends_element rest ->
  Clean_loop (S fuel) rooted (e ++ rest) rout dotdot =
  Clean_loop fuel rooted rest
    (rev e ++ (if needs_slash rooted rout then slash :: rout else rout)) dotdot.
Proof.
  intros (Hne & Hdot & Hdotdot & Hns) Hrest.
  pose proof (span_elem_element e rest Hns Hrest) as Hspan.
  destruct e as [|c e1]; [done|].
  apply Forall_cons_iff in Hns as [Hc Hns1].
  cbn [Clean_loop app]. cbn [app] in Hspan.
  destruct (Ascii.eqb_spec c slash) as [|_]; [done|].
  assert ((Ascii.eqb c dotByte
           && match e1 ++ rest with [] => true | c1 :: _ => Ascii.eqb c1 slash end) = false)
    as ->.
  { destruct (Ascii.eqb_spec c dotByte) as [->|]; [|done]. cbn [andb].
    destruct e1 as [|c1 e2]; [done|]. cbn [app].
    apply Forall_cons_iff in Hns1 as [Hc1 _]. by apply Ascii.eqb_neq. }
  assert ((Ascii.eqb c dotByte
           && match e1 ++ rest with
              | c1 :: p2 =>
                Ascii.eqb c1 dotByte
                && match p2 with [] => true | c2 :: _ => Ascii.eqb c2 slash end
              | [] => false
              end) = false) as ->.
  { destruct (Ascii.eqb_spec c dotByte) as [->|]; [|done]. cbn [andb].
    destruct e1 as [|c1 e2].
    - cbn [app]. destruct Hrest as [->|[rest' ->]]; [done|]. done.
    - cbn [app]. destruct (Ascii.eqb_spec c1 dotByte) as [->|]; [|done]. cbn [andb].
      destruct e2 as [|c2 e3]; [done|]. cbn [app].
      apply Forall_cons_iff in Hns1 as [_ Hns2].
      apply Forall_cons_iff in Hns2 as [Hc2 _]. by apply Ascii.eqb_neq. }
  cbv zeta. rewrite Hspan. unfold needs_slash. done.
Qed.

Lemma Join_slash_cons e e2 es :
  Join_slash (e :: e2 :: es) = e ++ slash :: Join_slash (e2 :: es).
Proof. done. Qed.

Lemma needs_slash_after rooted e rout :
  e <> [] ->
  needs_slash rooted (rev e ++ (if needs_slash rooted rout then slash :: rout else rout))
  = true.
Proof.
  intros He.
  assert (1 <= length e)%nat as Hlen by (destruct e; [done|cbn [length]; lia]).
  set (out := rev e ++ (if needs_slash rooted rout then slash :: rout else rout)).
  assert (1 <= length out /\ (rooted = true -> 2 <= length out))%nat as [H1 H2].
  { subst out. rewrite length_app, length_rev. split.
    - lia.
    - intros ->. unfold needs_slash. cbn [andb orb negb].
      rewrite orb_false_r.
      destruct (Nat.eqb_spec (length rout) 1) as [E|E]; cbn [negb length]; lia. }
  unfold needs_slash. destruct rooted; cbn [andb orb negb]; rewrite ?orb_false_r.
  - specialize (H2 eq_refl). destruct (Nat.eqb_spec (length out) 1); [lia|done].
  - destruct (Nat.eqb_spec (length out) 0); [lia|done].
Qed.

(** [Clean_loop] on a path of plain elements copies the path. *)
Lemma Clean_loop_elems elems : forall fuel rooted rout dotdot,
  elems <> [] -> Forall simple_name elems -> (2 * length elems <= fuel)%nat ->
  Clean_loop fuel rooted (Join_slash elems) rout dotdot =
  rev (Join_slash elems) ++ (if needs_slash rooted rout then slash :: rout else rout).
Proof.
  induction elems as [|e elems IH]; intros fuel rooted rout dotdot Hne HF Hfuel; [done|].
  apply Forall_cons_iff in HF as [He HF]. cbn [length] in Hfuel.
  destruct fuel as [|fuel]; [lia|].
  destruct elems as [|e2 es].
  - cbn [Join_slash]. rewrite <-(app_nil_r e) at 1.
    rewrite Clean_loop_element by (by left || done). by destruct fuel.
  - rewrite Join_slash_cons.
    rewrite Clean_loop_element by (done || right; by eexists).
    destruct fuel as [|fuel]; [cbn [length] in Hfuel; lia|].
    cbn [Clean_loop]. rewrite Ascii.eqb_refl.
    rewrite IH by (done || cbn [length] in *; lia).
    rewrite needs_slash_after by apply He.
    rewrite rev_app_distr. cbn [rev]. rewrite <-!app_assoc. done.
Qed.

Lemma Join_slash_head elems :
  elems <> [] -> Forall simple_name elems ->
  exists c l, Join_slash elems = c :: l /\ c <> slash.
Proof.
  intros Hne HF. destruct elems as [|e es]; [done|].
  apply Forall_cons_iff in HF as [(He & _ & _ & Hns) _].
  destruct e as [|c e1]; [done|]. apply Forall_cons_iff in Hns as [Hc _].
  destruct es; cbn; eauto.
Qed.

Lemma Join_slash_length elems :
  Forall simple_name elems -> (2 * length elems <= S (length (Join_slash elems)))%nat.
Proof.
  induction elems as [|e elems IH]; intros HF; [cbn; lia|].
  apply Forall_cons_iff in HF as [(He & _) HF]. specialize (IH HF).
  assert (1 <= length e)%nat by (destruct e; [done|cbn; lia]).
  destruct elems as [|e2 es]; [cbn [length Join_slash]; lia|].
  rewrite Join_slash_cons, length_app. cbn [length] in *. lia.
Qed.

(** [path.Clean] leaves a path of plain elements as it is, and removes
    nothing but the doubled slash from one that starts with a slash. *)
Lemma Clean_bytes_elems elems :
  elems <> [] -> Forall simple_name elems ->
  Clean_bytes (Join_slash elems) = Join_slash elems /\
  Clean_bytes (slash :: Join_slash elems) = slash :: Join_slash elems.
Proof.
  intros Hne HF. pose proof (Join_slash_length elems HF) as Hlen.
  destruct (Join_slash_head elems Hne HF) as (c & l & Hj & Hc).
  assert (forall out : list byte, out <> [] ->
            match rev out with [] => [dotByte] | _ => rev (rev out) end = out) as Hrev.
  { intros out Hout. destruct (rev out) eqn:E.
    - apply (f_equal (@rev byte)) in E. rewrite rev_involutive in E. done.
    - rewrite <-E. apply rev_involutive. }
  split.
  - unfold Clean_bytes. rewrite Hj. destruct (Ascii.eqb_spec c slash) as [|_]; [done|].
    cbv zeta iota. rewrite <-Hj.
    rewrite Clean_loop_elems by (done || lia).
    change (needs_slash false []) with false. cbv iota. rewrite app_nil_r.
    apply Hrev. by rewrite Hj.
  - unfold Clean_bytes. rewrite Ascii.eqb_refl. cbv zeta iota.
    rewrite Clean_loop_elems by (done || cbn [length]; lia).
    change (needs_slash true [slash]) with false. cbv iota.
    change (rev (Join_slash elems) ++ [slash]) with (rev (Join_slash elems) ++ rev [slash]).
    rewrite <-rev_app_distr. apply Hrev. done.
Qed.

Lemma TrimSlash_elems elems :
  elems <> [] -> Forall simple_name elems ->
  TrimSlash (Join_slash elems) = Join_slash elems.
Proof.
  intros Hne HF. destruct (Join_slash_head elems Hne HF) as (c & l & -> & Hc).
  cbn. by destruct (Ascii.eqb_spec c slash).
Qed.

Lemma ValidPath_loop_elems elems : forall fuel,
  elems <> [] -> Forall simple_name elems -> (length elems <= fuel)%nat ->
  ValidPath_loop fuel (Join_slash elems) = true.
Proof.
  induction elems as [|e elems IH]; intros fuel Hne HF Hfuel; [done|].
  apply Forall_cons_iff in HF as [(He & Hd & Hdd & Hns) HF]. cbn [length] in Hfuel.
  destruct fuel as [|fuel]; [lia|]. cbn [ValidPath_loop].
  destruct elems as [|e2 es].
  - cbn [Join_slash]. rewrite span_elem_end by done.
    rewrite !bool_decide_eq_false_2 by done. done.
  - rewrite Join_slash_cons, span_elem_slash by done.
    rewrite !bool_decide_eq_false_2 by done. cbn [orb].
    apply IH; [done|done|cbn [length] in *; lia].
Qed.

Lemma Split_slash_end e : Forall (fun c => c <> slash) e -> Split_slash e = [e].
Proof.
  induction 1 as [|c e1 Hc _ IHe]; [done|].
  cbn [Split_slash]. destruct (Ascii.eqb_spec c slash) as [|_]; [done|]. by rewrite IHe.
Qed.

Lemma Split_slash_step e rest :
  Forall (fun c => c <> slash) e ->
  Split_slash (e ++ slash :: rest) = e :: Split_slash rest.
Proof.
  induction 1 as [|c e1 Hc _ IHe]; cbn [app Split_slash].
  - by rewrite Ascii.eqb_refl.
  - destruct (Ascii.eqb_spec c slash) as [|_]; [done|]. by rewrite IHe.
Qed.

Lemma Split_slash_elems elems :
  elems <> [] -> Forall simple_name elems -> Split_slash (Join_slash elems) = elems.
Proof.
  induction elems as [|e elems IH]; intros Hne HF; [done|].
  apply Forall_cons_iff in HF as [(He & _ & _ & Hns) HF].
  destruct elems as [|e2 es].
  - cbn [Join_slash]. by apply Split_slash_end.
  - rewrite Join_slash_cons, Split_slash_step by done. by rewrite IH.
Qed.

(** [FS.Open] on a path of plain elements is the walk along them, with or
    without a slash in front. *)
Lemma FS_Open_elems root elems :
  elems <> [] -> Forall simple_name elems -> ValidString (Join_slash elems) = true ->
  FS_Open root (path_of elems) = Open_walk (path_of elems) elems root elems /\
  FS_Open root (String slash (path_of elems)) = Open_walk (path_of elems) elems root elems.
Proof.
  intros Hne HF Hvalid.
  destruct (Clean_bytes_elems elems Hne HF) as [Hc1 Hc2].
  assert (ValidPath (Join_slash elems) = true) as Hvp.
  { unfold ValidPath. rewrite Hvalid. cbn [negb].
    destruct (bool_decide _); [done|].
    apply ValidPath_loop_elems; [done|done|].
    pose proof (Join_slash_length elems HF). lia. }
  unfold FS_Open, path_of.
  change (unsafeGetBytes (String slash (ByteSlice2String (Join_slash elems))))
    with (slash :: unsafeGetBytes (ByteSlice2String (Join_slash elems))).
  rewrite !unsafeGetBytes_ByteSlice2String, Hc1, Hc2.
  change (TrimSlash (slash :: Join_slash elems)) with
    (if Ascii.eqb slash slash then Join_slash elems else slash :: Join_slash elems).
  rewrite Ascii.eqb_refl, TrimSlash_elems, Hvp, Split_slash_elems by done.
  done.
Qed.

Lemma Open_walk_descend name whole p : forall d x fn,
  descend d p = Some x ->
  Open_walk name whole d (p ++ [fn]) =
  match files x !! ByteSlice2String fn with
  | Some v => ROk (OpenedFile v)
  | None =>
    match dirs x !! ByteSlice2String fn with
    | Some y => ROk (OpenedDirectory y)
    | None => RErr (ErrPath "open" name (ErrNoFile (String slash name)))
    end
  end.
Proof.
  induction p as [|e p IH]; intros d x fn Hd.
  - cbn in Hd. by injection Hd as <-.
  - cbn [descend] in Hd. destruct (dirs d !! ByteSlice2String e) as [v|] eqn:Ev; [|done].
    cbn [app Open_walk]. destruct (p ++ [fn]) eqn:E; [by destruct p|].
    rewrite Ev, <-E. by apply IH.
Qed.

Lemma simple_name_snoc p fn : Forall simple_name (p ++ [fn]) -> p ++ [fn] <> [].
Proof. intros _. by destruct p. Qed.

Lemma FS_Open_descend root p fn x :
  Forall simple_name (p ++ [fn]) -> ValidString (Join_slash (p ++ [fn])) = true ->
  descend root p = Some x ->
  FS_Open root (path_of (p ++ [fn])) =
  match files x !! ByteSlice2String fn with
  | Some v => ROk (OpenedFile v)
  | None =>
    match dirs x !! ByteSlice2String fn with
    | Some y => ROk (OpenedDirectory y)
    | None =>
      RErr (ErrPath "open" (path_of (p ++ [fn]))
                    (ErrNoFile (String slash (path_of (p ++ [fn])))))
    end
  end.
Proof.
  intros HF Hvalid Hx.
  destruct (FS_Open_elems root (p ++ [fn]) (simple_name_snoc p fn HF) HF Hvalid) as [-> _].
  by apply Open_walk_descend.
Qed.

(** X10: along a path of plain elements whose directories exist, GetFile
    returns the File named by the last element and GetDir the
    sub-directory of that name; a File hides a sub-directory of the same
    name from GetDir, and a name that is absent is a PathError. *)
Theorem X10_GetFile_and_GetDir_follow_the_path root p fn x :
  Forall simple_name (p ++ [fn]) ->
  ValidString (Join_slash (p ++ [fn])) = true ->
  descend root p = Some x ->
  GetFile root (path_of (p ++ [fn])) =
    match files x !! ByteSlice2String fn with
    | Some f => ROk f
    | None =>
      match dirs x !! ByteSlice2String fn with
      | Some _ => RErr (ErrIsDirectory (path_of (p ++ [fn])))
      | None =>
        RErr (ErrPath "open" (path_of (p ++ [fn]))
                      (ErrNoFile (String slash (path_of (p ++ [fn])))))
      end
    end /\
  GetDir root (path_of (p ++ [fn])) =
    match files x !! ByteSlice2String fn with
    | Some _ => RErr (ErrIsFile (path_of (p ++ [fn])))
    | None =>
      match dirs x !! ByteSlice2String fn with
      | Some y => ROk y
      | None =>
        RErr (ErrPath "open" (path_of (p ++ [fn]))
                      (ErrNoFile (String slash (path_of (p ++ [fn])))))
      end
    end.
Proof.
  intros HF Hvalid Hx. unfold GetFile, GetDir.
  rewrite (FS_Open_descend root p fn x HF Hvalid Hx).
  destruct (files x !! ByteSlice2String fn); [done|].
  by destruct (dirs x !! ByteSlice2String fn).
Qed.

Lemma simple_name_letters (e : list byte) :
  e <> [] -> forallb (fun c => (97 <=? rune_of_byte c) && (rune_of_byte c <=? 122)) e = true ->
  simple_name e.
Proof.
  intros Hne Hall.
  assert (Forall (fun c => 97 <= rune_of_byte c <= 122) e) as HF.
  { apply Forall_forall. intros c Hc. rewrite forallb_forall in Hall.
    specialize (Hall c Hc).
    apply andb_prop in Hall as [H1%Z.leb_le H2%Z.leb_le]. lia. }
  split; [done|]. split; [|split].
  - intros ->. apply Forall_cons_iff in HF as [H _]. vm_compute in H. destruct H as [H _].
    by apply H.
  - intros ->. apply Forall_cons_iff in HF as [H _]. vm_compute in H. destruct H as [H _].
    by apply H.
  - eapply Forall_impl; [|exact HF]. intros c Hc ->. vm_compute in Hc. destruct Hc as [H _].
    by apply H.
Qed.

Ltac plain_names :=
  repeat (apply Forall_cons; [by apply simple_name_letters|]); apply Forall_nil.

Lemma X10_witness :
  GetFile (put_dir (put_file "b" file_a1 (newDir "a" 0)) (newDir EmptyString 0))
          (path_of [bytes "a"; bytes "b"]) = ROk file_a1 /\
  GetDir (put_dir (put_file "b" file_a1 (newDir "a" 0)) (newDir EmptyString 0))
         (path_of [bytes "a"; bytes "b"]) = RErr (ErrIsFile (path_of [bytes "a"; bytes "b"])).
Proof.
  apply (X10_GetFile_and_GetDir_follow_the_path
           (put_dir (put_file "b" file_a1 (newDir "a" 0)) (newDir EmptyString 0))
           [bytes "a"] (bytes "b") (put_file "b" file_a1 (newDir "a" 0))).
  - plain_names.
  - reflexivity.
  - reflexivity.
Defined.

(** X11: a slash in front of a path of plain elements changes nothing:
    Open finds the same File or Directory, or fails with the same
    error. *)
Theorem X11_Open_ignores_a_leading_slash root elems :
  elems <> [] -> Forall simple_name elems -> ValidString (Join_slash elems) = true ->
  FS_Open root (String slash (path_of elems)) = FS_Open root (path_of elems).
Proof.
  intros Hne HF Hvalid.
  destruct (FS_Open_elems root elems Hne HF Hvalid) as [-> ->]. done.
Qed.

Lemma X11_witness :
  FS_Open (put_file "b" file_a1 (newDir EmptyString 0)) (String slash (path_of [bytes "b"])) =
  FS_Open (put_file "b" file_a1 (newDir EmptyString 0)) (path_of [bytes "b"]).
Proof.
  apply (X11_Open_ignores_a_leading_slash (put_file "b" file_a1 (newDir EmptyString 0))
           [bytes "b"]).
  - done.
  - plain_names.
  - reflexivity.
Defined.

Lemma Open_walk_missing name whole p1 : forall d x e rest,
  rest <> [] -> descend d p1 = Some x -> dirs x !! ByteSlice2String e = None ->
  Open_walk name whole d (p1 ++ e :: rest) =
  RErr (ErrPath "open" name (ErrNoDirectory (ByteSlice2String (Join_slash whole)))).
Proof.
  induction p1 as [|e1 p1 IH]; intros d x e rest Hrest Hd He.
  - cbn in Hd. injection Hd as <-. cbn [app Open_walk].
    destruct rest; [done|]. by rewrite He.
  - cbn [descend] in Hd. destruct (dirs d !! ByteSlice2String e1) as [v|] eqn:Ev; [|done].
    cbn [app Open_walk]. destruct (p1 ++ e :: rest) eqn:E; [by destruct p1|].
    rewrite Ev, <-E. by eapply IH.
Qed.

(** X12: when a directory on the way is missing, Open fails with a
    PathError whose message names the whole path, also when a File of the
    missing directory's name is there. *)
Theorem X12_Open_reports_a_missing_directory root p1 e rest x :
  rest <> [] ->
  Forall simple_name (p1 ++ e :: rest) ->
  ValidString (Join_slash (p1 ++ e :: rest)) = true ->
  descend root p1 = Some x ->
  dirs x !! ByteSlice2String e = None ->
  FS_Open root (path_of (p1 ++ e :: rest)) =
  RErr (ErrPath "open" (path_of (p1 ++ e :: rest))
                (ErrNoDirectory (path_of (p1 ++ e :: rest)))).
Proof.
  intros Hrest HF Hvalid Hx He.
  assert (p1 ++ e :: rest <> []) as Hne by (by destruct p1).
  destruct (FS_Open_elems root (p1 ++ e :: rest) Hne HF Hvalid) as [-> _].
  by eapply Open_walk_missing.
Qed.

Lemma X12_witness :
  FS_Open (put_file "a" file_a1 (newDir EmptyString 0)) (path_of [bytes "a"; bytes "b"]) =
  RErr (ErrPath "open" (path_of [bytes "a"; bytes "b"])
                (ErrNoDirectory (path_of [bytes "a"; bytes "b"]))).
Proof.
  apply (X12_Open_reports_a_missing_directory (put_file "a" file_a1 (newDir EmptyString 0))
           [] (bytes "a") [bytes "b"] (put_file "a" file_a1 (newDir EmptyString 0))).
  - done.
  - plain_names.
  - reflexivity.
  - reflexivity.
  - reflexivity.
Defined.

(* ===================================================================== *)
(** * [Directory.WriteFile] and [dataToFile] *)
(* ===================================================================== *)

Lemma Split_bytes_simple k :
  Forall (fun c => c <> slash) k -> Split_bytes k = ([], k).
Proof.
  intros Hk. unfold Split_bytes.
  rewrite span_elem_end by (by apply Forall_rev).
  cbn [rev]. by rewrite rev_involutive.
Qed.

Lemma path_Clean_simple name :
  simple_name (unsafeGetBytes name) -> path_Clean name = name.
Proof.
  intros Hk. unfold path_Clean.
  destruct (Clean_bytes_elems [unsafeGetBytes name]) as [H _]; [done|by constructor|].
  cbn [Join_slash] in H. rewrite H. apply ByteSlice2String_unsafeGetBytes.
Qed.

Lemma WriteFile_simple mp now d name data :
  simple_name (unsafeGetBytes name) ->
  Directory_WriteFile mp now d name data =
  match dataToFile now name data with
  | RErr e => Returns (d, Some e)
  | ROk o =>
    match mp with
    | Nil => Panics
    | Made => Returns (put_file name o d, None)
    end
  end.
Proof.
  intros Hk. unfold Directory_WriteFile.
  rewrite (path_Clean_simple name Hk). unfold path_Split.
  destruct Hk as (_ & _ & _ & Hns). rewrite (Split_bytes_simple _ Hns).
  change (ByteSlice2String []) with EmptyString. cbn [String.eqb negb].
  by rewrite ByteSlice2String_unsafeGetBytes.
Qed.

(** X13: WriteFile under a plain name, with data that dataToFile accepts,
    panics on a Directory with nil maps (the zero Directory, or one that
    FS.MkdirAll built).  On a Directory whose maps are made it returns no
    error, stores the File that dataToFile makes of the data among the
    Files of the Directory and touches no sub-directory; GetFile with that
    name then returns this File, and GetDir refuses the name as that of a
    File, whatever sub-directory bears it. *)
Theorem X13_WriteFile_then_GetFile now d name data o :
  simple_name (unsafeGetBytes name) ->
  ValidString (unsafeGetBytes name) = true ->
  dataToFile now name data = ROk o ->
  Directory_WriteFile Nil now d name data = Panics /\
  exists d',
    Directory_WriteFile Made now d name data = Returns (d', None) /\
    files d' = <[name := o]> (files d) /\
    dirs d' = dirs d /\
    GetFile d' name = ROk o /\
    GetDir d' name = RErr (ErrIsFile name).
Proof.
  intros Hk Hvalid Ho. rewrite !(WriteFile_simple _ now d name data Hk), Ho.
  split; [done|]. exists (put_file name o d).
  split; [done|]. split; [by destruct d|]. split; [by destruct d|].
  pose proof (X := FS_Open_descend (put_file name o d) [] (unsafeGetBytes name)
                     (put_file name o d)).
  cbn [app Join_slash descend] in X. unfold path_of in X. cbn [Join_slash] in X.
  rewrite ByteSlice2String_unsafeGetBytes in X.
  specialize (X ltac:(by constructor) Hvalid eq_refl).
  assert (files (put_file name o d) !! name = Some o) as Hf.
  { destruct d. cbn. apply lookup_insert_eq. }
  rewrite Hf in X. unfold GetFile, GetDir. by rewrite X.
Qed.

Lemma X13_witness :
  Directory_WriteFile Nil 7 zeroDirectory "b" (bytes "1") = Panics /\
  exists d',
    Directory_WriteFile Made 7 (put_dir (newDir "b" 0) (newDir EmptyString 0)) "b" (bytes "1")
      = Returns (d', None) /\
    GetFile d' "b" = ROk (mkFile "b" 7 FTInt (bytes "1")) /\
    GetDir d' "b" = RErr (ErrIsFile "b").
Proof.
  split.
  - apply (X13_WriteFile_then_GetFile 7 zeroDirectory "b" (bytes "1")
             (mkFile "b" 7 FTInt (bytes "1"))).
    + by apply simple_name_letters.
    + reflexivity.
    + reflexivity.
  - destruct (X13_WriteFile_then_GetFile 7 (put_dir (newDir "b" 0) (newDir EmptyString 0))
                "b" (bytes "1") (mkFile "b" 7 FTInt (bytes "1")))
      as (_ & d' & H1 & _ & _ & H4 & H5).
    + by apply simple_name_letters.
    + reflexivity.
    + reflexivity.
    + exists d'. split; [exact H1|]. split; [exact H4|exact H5].
Defined.

Lemma Join_slash_snoc p fn :
  p <> [] -> Join_slash (p ++ [fn]) = Join_slash p ++ slash :: fn.
Proof.
  induction p as [|e p IH]; intros Hne; [done|].
  destruct p as [|e2 p]; [done|].
  change ((e :: e2 :: p) ++ [fn]) with (e :: e2 :: (p ++ [fn])).
  rewrite !Join_slash_cons. change (e2 :: p ++ [fn]) with ((e2 :: p) ++ [fn]).
  rewrite IH by done. by rewrite <-app_assoc.
Qed.

(** X14: WriteFile refuses a name of more than one path element and
    leaves the Directory as it was: it writes into the Directory itself
    only.  The name is refused before any write, on nil maps too. *)
Theorem X14_WriteFile_refuses_a_path mp now d p fn data :
  p <> [] -> Forall simple_name (p ++ [fn]) ->
  Directory_WriteFile mp now d (path_of (p ++ [fn])) data =
  Returns (d, Some (ErrNameIsPath (path_of (p ++ [fn])))).
Proof.
  intros Hne HF. unfold Directory_WriteFile, path_Clean, path_of.
  rewrite unsafeGetBytes_ByteSlice2String.
  destruct (Clean_bytes_elems (p ++ [fn]) (simple_name_snoc p fn HF) HF) as [-> _].
  unfold path_Split. rewrite unsafeGetBytes_ByteSlice2String.
  rewrite Join_slash_snoc by done. unfold Split_bytes.
  rewrite rev_app_distr. cbn [rev]. rewrite <-app_assoc. cbn [app].
  apply Forall_app in HF as [_ Hfn]. apply Forall_cons_iff in Hfn as [(_ & _ & _ & Hns) _].
  rewrite span_elem_slash by (by apply Forall_rev).
  cbn [rev]. rewrite rev_involutive.
  destruct (Join_slash p ++ [slash]) as [|c l] eqn:E.
  { by destruct (Join_slash p). }
  done.
Qed.

Lemma X14_witness :
  Directory_WriteFile Made 7 (newDir EmptyString 0) (path_of [bytes "a"; bytes "b"])
    (bytes "1") =
  Returns (newDir EmptyString 0, Some (ErrNameIsPath (path_of [bytes "a"; bytes "b"]))).
Proof.
  apply (X14_WriteFile_refuses_a_path Made 7 (newDir EmptyString 0) [bytes "a"] (bytes "b")
           (bytes "1")).
  - done.
  - plain_names.
Defined.

Lemma is_dot_ascii c : is_dot c = true -> rune_of_byte c < 128.
Proof. unfold is_dot, dot. intros H%Z.eqb_eq. lia. Qed.

Lemma is_dot_not_number c : is_dot c = true -> IsNumber (rune_of_byte c) = false.
Proof. unfold is_dot, dot. intros H%Z.eqb_eq. by rewrite H. Qed.

Lemma is_digit_not_dot c : is_digit c = true -> (rune_of_byte c =? dot) = false.
Proof.
  unfold is_digit, dot. intros [H1%Z.leb_le H2%Z.leb_le]%andb_prop.
  apply Z.eqb_neq. lia.
Qed.

(** X15: of the texts of numbers (digits and dots, a digit first),
    dataToFile stores a lone digit as an Int and a digit followed by one
    dot as a Float; every other number, such as 12 or 1.5, becomes a File
    of type String.  The File keeps the name and the data. *)
Theorem X15_dataToFile_types_of_numbers now name data :
  number_ok data = true ->
  dataToFile now name data = ROk (mkFile name now (stored_type data) data).
Proof.
  unfold number_ok. destruct data as [|c rest]; [done|].
  intros [Hc Hall]%andb_prop. cbn [forallb] in Hall. apply andb_prop in Hall as [_ Hrest].
  unfold dataToFile, NewReader. rewrite ReadRune_ascii by (by apply is_digit_ascii).
  pose proof Hc as Hrange. unfold is_digit in Hrange.
  apply andb_prop in Hrange as [H1%Z.leb_le H2%Z.leb_le].
  unfold openBrace, openBracket.
  rewrite !(proj2 (Z.eqb_neq (rune_of_byte c) _)) by lia. cbn [andb].
  rewrite (IsNumber_digit c Hc).
  destruct rest as [|d rest'].
  - cbn [dataToFile_loop length]. by rewrite ReadRune_nil.
  - cbn [forallb] in Hrest. apply andb_prop in Hrest as [Hd Hrest'].
    cbn [length dataToFile_loop].
    destruct (is_digit d) eqn:Hdig.
    + rewrite ReadRune_ascii by (by apply is_digit_ascii).
      rewrite (IsNumber_digit d Hdig). cbn [stored_type].
      assert (is_dot d = false) as Hnd.
      { unfold is_dot. by apply is_digit_not_dot. }
      rewrite Hnd. by destruct rest'.
    + cbn [orb] in Hd. rewrite ReadRune_ascii by (by apply is_dot_ascii).
      rewrite (is_dot_not_number d Hd).
      assert ((rune_of_byte d =? dot) = true) as -> by exact Hd.
      cbn [andb negb].
      destruct rest' as [|e rest''].
      * rewrite ReadRune_nil. cbn [stored_type]. by rewrite Hd.
      * cbn [forallb] in Hrest'. apply andb_prop in Hrest' as [He _].
        cbn [stored_type].
        destruct (is_digit e) eqn:Hedig.
        -- rewrite ReadRune_ascii by (by apply is_digit_ascii).
           by rewrite (IsNumber_digit e Hedig).
        -- cbn [orb] in He. rewrite ReadRune_ascii by (by apply is_dot_ascii).
           rewrite (is_dot_not_number e He).
           assert ((rune_of_byte e =? dot) = true) as -> by exact He. done.
Qed.

Lemma X15_witness :
  dataToFile 7 "n" (bytes "12") = ROk (mkFile "n" 7 FTString (bytes "12")).
Proof.
  apply (X15_dataToFile_types_of_numbers 7 "n" (bytes "12")). reflexivity.
Defined.

(* ===================================================================== *)
(** * The decoder on the text of a document *)
(* ===================================================================== *)

(** X16: on the compact text of a well-formed object in which no key
    stands twice, followed by any bytes, UnmarshalJSON returns the
    Directory the object stands for (up to the modification times) and
    reads exactly the object: the bytes after its closing brace are left
    unread. *)
Theorem X16_UnmarshalJSON_reads_exactly_one_object
    (ms : list (string * jvalue)) (rest : list byte) (lr : option (list byte)) (c : Clock) :
  wf_value (JObject ms) = true -> first_dup (JObject ms) = None ->
  exists d w',
    UnmarshalJSON (mkWorld (mkReader (print (JObject ms) ++ rest) lr) c) = (Ok d, w') /\
    untimed d = build EmptyString (JObject ms) /\
    unread (w_b w') = rest.
Proof.
  intros Hwf Hdup.
  destruct (UnmarshalJSON_print ms rest lr c Hwf) as [w' H].
  rewrite Hdup in H. destruct H as (d & H1 & H2 & H3). by exists d, w'.
Qed.

Lemma X16_witness :
  exists d w',
    UnmarshalJSON (mkWorld (mkReader (print (JObject [("a", JScalar FTInt (bytes "1"))])
                                      ++ bytes "{'b':2}") None) testClock) = (Ok d, w') /\
    untimed d = build EmptyString (JObject [("a", JScalar FTInt (bytes "1"))]) /\
    unread (w_b w') = bytes "{'b':2}".
Proof.
  apply (X16_UnmarshalJSON_reads_exactly_one_object
           [("a", JScalar FTInt (bytes "1"))] (bytes "{'b':2}") None testClock).
  - reflexivity.
  - reflexivity.
Defined.

Lemma UnmarshalJSON_at_end lr clock :
  UnmarshalJSON (mkWorld (mkReader [] lr) clock) =
  (Ok (emptyDirectory (fst (timeNow clock))),
   mkWorld (mkReader [] None) (snd (timeNow clock))).
Proof.
  unfold UnmarshalJSON.
  destruct (decodeFuel_SS (w_b (mkWorld (mkReader [] lr) clock))) as [k ->].
  rewrite runSM_dict_S. cbn [dictSM_call dictSM_start w_clock w_b timeNow].
  rewrite runSM_dict_S. cbn [dictSM_call].
  unfold dictSM_openBrace, skipSpace. cbn [w_b unread].
  rewrite (skipSpace_loop_only_space []) by (constructor || (cbn; lia)).
  rewrite ReadRune_nil. reflexivity.
Qed.

Lemma build_members_not_empty ms : forall acc,
  ms <> [] \/ (size (files acc) + size (dirs acc) <> 0)%nat ->
  (size (files (build_members build ms acc)) +
   size (dirs (build_members build ms acc)) <> 0)%nat.
Proof.
  induction ms as [|[k v] ms IH]; intros acc H.
  - destruct H as [H|H]; [done|]. exact H.
  - cbn [build_members fst snd]. apply IH. right.
    destruct (build_child_proj k v acc) as (_ & _ & _ & Hf & Hd).
    rewrite Hf, Hd. destruct v as [t raw|ms'|vs].
    + assert (size (<[k := mkFile k zeroTime t raw]> (files acc)) <> 0)%nat.
      { apply map_size_non_empty_iff, insert_non_empty. }
      lia.
    + assert (size (<[k := build k (JObject ms')]> (dirs acc)) <> 0)%nat.
      { apply map_size_non_empty_iff, insert_non_empty. }
      lia.
    + assert (size (<[k := build k (JArray vs)]> (dirs acc)) <> 0)%nat.
      { apply map_size_non_empty_iff, insert_non_empty. }
      lia.
Qed.

Lemma untimed_sizes d :
  size (files (untimed d)) = size (files d) /\ size (dirs (untimed d)) = size (dirs d).
Proof. rewrite untimed_eq. cbn [files dirs]. by rewrite !map_size_fmap. Qed.

Lemma stream_text_length docs :
  Forall document docs -> (length docs <= length (stream_text docs))%nat.
Proof.
  induction 1 as [|ms docs _ _ IH]; [done|].
  unfold stream_text in *. cbn [map concat]. rewrite length_app.
  assert (1 <= length (print (JObject ms)))%nat by (cbn [print length]; lia).
  cbn [length]. lia.
Qed.

Lemma UnmarshalStream_loop_documents docs : forall fuel lr c,
  Forall document docs -> (length docs < fuel)%nat ->
  exists out w',
    UnmarshalStream_loop fuel (mkWorld (mkReader (stream_text docs) lr) c) = (out, w') /\
    map s_Err out = map (fun _ => None) docs /\
    map (fun s => untimed (s_Dir s)) out =
      map (fun ms => build EmptyString (JObject ms)) docs /\
    unread (w_b w') = [].
Proof.
  induction docs as [|ms docs IH]; intros fuel lr c HF Hfuel.
  - destruct fuel as [|fuel]; [cbn in Hfuel; lia|].
    cbn [UnmarshalStream_loop stream_text map concat].
    rewrite UnmarshalJSON_at_end. unfold emptyDirectory. cbn [d_name files dirs String.eqb andb].
    rewrite !map_size_empty. cbn [Nat.add Nat.eqb].
    eexists [], _. split; [reflexivity|]. done.
  - apply Forall_cons_iff in HF as [(Hne & Hwf & Hdup) HF].
    destruct fuel as [|fuel]; [cbn in Hfuel; lia|].
    cbn [UnmarshalStream_loop].
    change (stream_text (ms :: docs)) with (print (JObject ms) ++ stream_text docs).
    destruct (UnmarshalJSON_print ms (stream_text docs) lr c Hwf) as [w1 H].
    rewrite Hdup in H. destruct H as (d & -> & Hd & Hrest).
    assert ((size (files d) + size (dirs d) =? 0)%nat = false) as ->.
    { apply Nat.eqb_neq. destruct (untimed_sizes d) as [<- <-]. rewrite Hd.
      cbn [build]. apply build_members_not_empty. by left. }
    rewrite andb_false_r.
    destruct w1 as [[u lr1] c1]. cbn [w_b unread] in Hrest. subst u.
    destruct (IH fuel lr1 c1 HF) as (out & w' & -> & He & Hb & Hu).
    { cbn [length] in Hfuel. lia. }
    exists (mkStream d None :: out), w'. cbn [map s_Err s_Dir].
    split; [done|]. split; [by rewrite He|]. split; [by rewrite Hd, Hb|done].
Qed.

(** X17: on the text of a stream of objects, each with at least one
    member, well formed and without a key that stands twice,
    UnmarshalStream yields one value for every object, in the order of
    the text: the Directory the object stands for (up to the modification
    times), and no error.  The whole input is read. *)
Theorem X17_UnmarshalStream_yields_every_object
    (docs : list (list (string * jvalue))) (lr : option (list byte)) (c : Clock) :
  Forall document docs ->
  map s_Err (fst (UnmarshalStream (mkWorld (mkReader (stream_text docs) lr) c))) =
    map (fun _ => None) docs /\
  map (fun s => untimed (s_Dir s))
      (fst (UnmarshalStream (mkWorld (mkReader (stream_text docs) lr) c))) =
    map (fun ms => build EmptyString (JObject ms)) docs /\
  unread (w_b (snd (UnmarshalStream (mkWorld (mkReader (stream_text docs) lr) c)))) = [].
Proof.
  intros HF. unfold UnmarshalStream. cbn [w_b unread].
  destruct (UnmarshalStream_loop_documents docs (S (length (stream_text docs))) lr c HF)
    as (out & w' & -> & H1 & H2 & H3).
  { pose proof (stream_text_length docs HF). lia. }
  done.
Qed.

Lemma X17_witness :
  map s_Err (fst (UnmarshalStream (mkWorld (mkReader
        (stream_text [[("a", JScalar FTInt (bytes "1"))]; [("b", JArray [])]]) None)
        testClock))) = [None; None] /\
  map (fun s => untimed (s_Dir s)) (fst (UnmarshalStream (mkWorld (mkReader
        (stream_text [[("a", JScalar FTInt (bytes "1"))]; [("b", JArray [])]]) None)
        testClock))) =
    [build EmptyString (JObject [("a", JScalar FTInt (bytes "1"))]);
     build EmptyString (JObject [("b", JArray [])])] /\
  unread (w_b (snd (UnmarshalStream (mkWorld (mkReader
        (stream_text [[("a", JScalar FTInt (bytes "1"))]; [("b", JArray [])]]) None)
        testClock)))) = [].
Proof.
  apply (X17_UnmarshalStream_yields_every_object
           [[("a", JScalar FTInt (bytes "1"))]; [("b", JArray [])]] None testClock).
  apply Forall_cons; [split; [done|split; reflexivity]|].
  apply Forall_cons; [split; [done|split; reflexivity]|].
  apply Forall_nil.
Defined.

(* ===================================================================== *)
(** * The encoder on an array with a gap *)
(* ===================================================================== *)

Section EncoderErrors.
Variable mapOrder : nat -> forall A : Type, list A -> list A.

Lemma encodeArray_loop_missing fs ds i n k : forall j w,
  j <= i < j + Z.of_nat k ->
  (forall x, j <= x < i -> is_Some (fs !! Itoa x)) ->
  fs !! Itoa i = None -> ds !! Itoa i = None ->
  snd (encodeArray_loop fs ds k j n w) = Some (ErrMissingIndex i).
Proof.
  induction k as [|k IH]; intros j w Hi Hbelow Hf Hd; [lia|].
  cbn [encodeArray_loop]. destruct (Z.eq_dec j i) as [->|Hne].
  - by rewrite Hf, Hd.
  - destruct (Hbelow j ltac:(lia)) as [fv ->]. cbv zeta iota.
    apply IH; [lia| |done|done]. intros x Hx. apply Hbelow. lia.
Qed.

(** X18: an array is encoded by index, not by what its maps hold: when the
    children named 0 .. i-1 are Files and no child is named i, though the
    array has more than i children, EncodeJSON fails with the error
    "missing array index i". *)
Theorem X18_EncodeJSON_stops_at_a_missing_index (d : Directory) (i : Z) (w : Out) :
  isArray d = true -> 0 <= i < Z.of_nat (Len d) ->
  (forall x, 0 <= x < i -> is_Some (files d !! Itoa x)) ->
  files d !! Itoa i = None -> dirs d !! Itoa i = None ->
  snd (EncodeJSON mapOrder d w) = Some (ErrMissingIndex i).
Proof.
  intros Ha Hi Hbelow Hf Hd. destruct d as [n t ds fs a]. cbn in Ha. subst a.
  cbn [EncodeJSON isArray files dirs] in *. unfold encodeJSONArray.
  set (ds' := EncodeJSON mapOrder <$> ds).
  assert (size ds' = size ds) as Hsz by apply map_size_fmap.
  pose proof (encodeArray_loop_missing fs ds' i (Z.of_nat (size fs + size ds'))
                (size fs + size ds') 0 (writeRune w openBracket)) as H.
  destruct (encodeArray_loop _ _ _ _ _ _) as [w1 [e|]]; cbn [snd] in *.
  - apply H; [unfold Len in Hi; cbn [files dirs] in Hi; lia|done|done|].
    subst ds'. by rewrite lookup_fmap, Hd.
  - exfalso. enough (@None error = Some (ErrMissingIndex i)) by done.
    apply H; [unfold Len in Hi; cbn [files dirs] in Hi; lia|done|done|].
    subst ds'. by rewrite lookup_fmap, Hd.
Qed.
End EncoderErrors.

Lemma X18_witness :
  snd (EncodeJSON listOrder (mkDirectory "obj" 0 ∅ {["a" := file_a1]} true) (mkOut [] 0))
  = Some (ErrMissingIndex 0).
Proof.
  apply (X18_EncodeJSON_stops_at_a_missing_index listOrder
           (mkDirectory "obj" 0 ∅ {["a" := file_a1]} true) 0 (mkOut [] 0)).
  - reflexivity.
  - vm_compute. split; [discriminate|reflexivity].
  - intros x Hx. lia.
  - reflexivity.
  - reflexivity.
Defined.

(* ===================================================================== *)
(** * The constructors and the operations on their results *)
(* ===================================================================== *)

(** X19: what NewArray returns is not flagged as an array, so Append and
    ArraySet refuse it and leave it unchanged. *)
Theorem X19_NewArray_result_refuses_Append_and_ArraySet
    now name l d (more : list FileOrDir) (index : Z) (fd : FileOrDir) :
  NewArray now name l = Ok d ->
  Append d more = (d, Some ErrAppendNotArray) /\
  ArraySet d index fd = (d, Some ErrArraySetNotArray).
Proof.
  intros H%NewArray_isArray. unfold Append, ArraySet. by rewrite H.
Qed.

Lemma X19_witness :
  exists d, NewArray 7 "arr" [AnyFile file_a1] = Ok d /\
    Append d [FD_File file_a1] = (d, Some ErrAppendNotArray) /\
    ArraySet d 0 (FD_File file_a1) = (d, Some ErrArraySetNotArray).
Proof.
  eexists. split; [reflexivity|].
  apply (X19_NewArray_result_refuses_Append_and_ArraySet 7 "arr" [AnyFile file_a1] _
           [FD_File file_a1] 0 (FD_File file_a1)).
  reflexivity.
Defined.

(** X20: what NewDir returns is flagged as an array, so Set refuses it,
    whatever it is given, and leaves it unchanged. *)
Theorem X20_NewDir_result_refuses_Set now name l d (mp : maps) (more : list any) :
  NewDir now name l = Ok d ->
  Directory_Set mp d more = Returns (d, Some ErrSetOnArray).
Proof.
  intros H%NewDir_isArray. unfold Directory_Set. by rewrite H.
Qed.

Lemma X20_witness :
  exists d, NewDir 7 "obj" [AnyFile file_a1] = Ok d /\
    Directory_Set Made d [AnyFile file_a1] = Returns (d, Some ErrSetOnArray).
Proof.
  eexists. split; [reflexivity|].
  apply (X20_NewDir_result_refuses_Set 7 "obj" [AnyFile file_a1] _ Made [AnyFile file_a1]).
  reflexivity.
Defined.

(* ===================================================================== *)
(** * The accessors of a File *)
(* ===================================================================== *)

(** X21: on a File of a tree that UnmarshalJSON returned, Bool never
    reports a malformed value: for a File of type Bool it returns the
    bool whose text the File holds, and for any other File the error that
    names its type. *)
Theorem X21_Bool_reads_every_decoded_bool
    (src : list byte) (lr : option (list byte)) (clock : Clock) (d : Directory) (w' : World)
    (x : Directory) (k : string) (f : File) :
  fits_int src ->
  UnmarshalJSON (mkWorld (mkReader src lr) clock) = (Ok d, w') ->
  in_tree x d -> files x !! k = Some f ->
  match f_t f with
  | FTBool =>
    exists b, File_Bool f = ROk b /\ f_value f = (if b then bytes "true" else bytes "false")
  | t => File_Bool f = RErr (ErrNotBool t)
  end.
Proof.
  intros Hfits Hdec Hin Hf.
  destruct (UnmarshalJSON_tree_ok src lr clock d w' Hfits Hdec) as (Ht & _ & _).
  pose proof (tree_ok_in_tree _ d x Ht Hin) as Hx.
  apply tree_ok_children in Hx as (_ & _ & Hfiles & _).
  specialize (Hfiles k f Hf). unfold decoded_file in Hfiles. unfold File_Bool.
  destruct (f_t f); try done.
  unfold scalar_ok in Hfiles. apply orb_prop in Hfiles as [H|H];
    apply bool_decide_eq_true in H; rewrite H.
  - by exists true.
  - by exists false.
Qed.

Lemma X21_witness :
  exists d w' f,
    UnmarshalJSON (world_of (bytes "{'a':{'b':true}}")) = (Ok d, w') /\
    File_Bool f = ROk true.
Proof.
  pose (src := bytes "{'a':{'b':true}}").
  destruct (UnmarshalJSON (world_of src)) as [r w'] eqn:E.
  assert (exists d sub f, r = Ok d /\ dirs d !! "a" = Some sub /\ files sub !! "b" = Some f
                          /\ f_t f = FTBool /\ f_value f = bytes "true")
    as (d & sub & f & -> & Hsub & Hf & Ht & Hv).
  { vm_compute in E. injection E as <- _. do 3 eexists.
    split; [reflexivity|]. split; [reflexivity|]. split; [reflexivity|]. split; reflexivity. }
  exists d, w', f. split; [done|].
  assert (fits_int src) as Hfits by (unfold fits_int; vm_compute; reflexivity).
  pose proof (X21_Bool_reads_every_decoded_bool src None testClock d w' sub "b" f Hfits E
                (in_tree_below sub d "a" sub Hsub (in_tree_here sub)) Hf) as H.
  rewrite Ht in H. destruct H as (b & Hb & Hval). rewrite Hb. f_equal.
  rewrite Hv in Hval. by destruct b.
Defined.

(** X22: NewFile keeps a bool as Bool reads it back, but a string [s] it
    stores between double quotes: String returns the quoted text, not
    [s], and EncodeJSON writes it between a second pair of quotes. *)
Theorem X22_NewFile_stores_a_string_in_quotes now name (b : bool) (s : string) (w : Out) :
  (exists f, NewFile now name (VBool b) = ROk f /\ File_Bool f = ROk b) /\
  (exists f, NewFile now name (VString s) = ROk f /\
     File_String f = ROk (String (byte_of_rune doubleQuote)
                            (s ++ String (byte_of_rune doubleQuote) EmptyString)) /\
     written (File_EncodeJSON f w) =
       written w ++ [byte_of_rune doubleQuote; byte_of_rune doubleQuote] ++ unsafeGetBytes s
                 ++ [byte_of_rune doubleQuote; byte_of_rune doubleQuote]).
Proof.
  split.
  - eexists. split; [reflexivity|]. by destruct b.
  - eexists. split; [reflexivity|]. split.
    + unfold File_String. cbn [f_t f_value app]. f_equal.
      unfold ByteSlice2String, unsafeGetBytes. cbn [string_of_list_ascii]. f_equal.
      induction s as [|c s IH]; [done|].
      cbn [list_ascii_of_string app string_of_list_ascii String.append]. by rewrite IH.
    + unfold File_EncodeJSON, writeRune, writeBytes. cbn [f_t f_value written app].
      rewrite <-!app_assoc. cbn [app]. by rewrite <-app_assoc.
Qed.

(* ===================================================================== *)
(** * Writing and removing, encoding what was decoded *)
(* ===================================================================== *)

(** X23: Remove undoes WriteFile: when a Directory has no File of the
    plain name [name], writing a File under that name and removing the
    name again gives the Directory back as it was, without an error,
    also when a sub-directory bears the name. *)
Theorem X23_Remove_undoes_WriteFile mp now d name data d' :
  simple_name (unsafeGetBytes name) ->
  files d !! name = None ->
  Directory_WriteFile mp now d name data = Returns (d', None) ->
  Remove d' name = (d, None).
Proof.
  intros Hk Hnone. rewrite (WriteFile_simple mp now d name data Hk).
  destruct (dataToFile now name data) as [o|e]; [|done]. destruct mp; [|done].
  intros [= <-].
  unfold Remove, remove, put_file, set_files. cbn [files dirs].
  rewrite lookup_insert_eq. cbn [d_name d_modTime dirs isArray].
  rewrite delete_insert_id by done. by destruct d.
Qed.

Lemma X23_witness :
  exists d',
    Directory_WriteFile Made 7 (put_dir (newDir "b" 0) (newDir EmptyString 0)) "b" (bytes "1")
      = Returns (d', None) /\
    Remove d' "b" = (put_dir (newDir "b" 0) (newDir EmptyString 0), None).
Proof.
  eexists. split; [reflexivity|].
  apply (X23_Remove_undoes_WriteFile Made 7 (put_dir (newDir "b" 0) (newDir EmptyString 0))
           "b" (bytes "1")).
  - by apply simple_name_letters.
  - reflexivity.
  - reflexivity.
Defined.

(** X24: MarshalJSON never fails on a Directory that UnmarshalJSON
    returned and whose numbers are written with digits and dots, and what
    it writes is compact JSON: the text, without white space, of an object
    whose scalars and keys are well formed, in which no key stands twice,
    and which stands for the Directory (up to the modification times),
    whatever the order in which the maps are visited. *)
Theorem X24_MarshalJSON_writes_the_document
    (mapOrder : nat -> forall A : Type, list A -> list A)
    (src : list byte) (lr : option (list byte)) (clock : Clock) (d : Directory) (w' : World) :
  (forall n A (l : list A), mapOrder n A l ≡ₚ l) ->
  fits_int src ->
  UnmarshalJSON (mkWorld (mkReader src lr) clock) = (Ok d, w') ->
  plain_numbers d ->
  exists ms,
    MarshalJSON mapOrder d = (print (JObject ms), None) /\
    wf_value (JObject ms) = true /\ first_dup (JObject ms) = None /\
    build EmptyString (JObject ms) = untimed d.
Proof.
  intros Hperm Hfits Hdec Hplain.
  destruct (UnmarshalJSON_tree_ok src lr clock d w' Hfits Hdec) as (Ht & Ha & Hn).
  destruct (EncodeJSON_writes mapOrder _ d Hperm Hfits Ht Hplain (mkOut [] 0))
    as (j & n & Henc & Hrb).
  destruct (reads_back_object d j Hrb Ha) as [ms ->].
  destruct Hrb as (Hwf & Hdup & Hb & _). rewrite Hn in Hb.
  exists ms. unfold MarshalJSON. rewrite Henc. done.
Qed.

Lemma X24_witness :
  exists d w' ms,
    UnmarshalJSON (world_of (bytes "{'a':[1,{'b':2.5}],'c':null}")) = (Ok d, w') /\
    MarshalJSON listOrder d = (print (JObject ms), None) /\
    build EmptyString (JObject ms) = untimed d.
Proof.
  pose (src := bytes "{'a':[1,{'b':2.5}],'c':null}").
  destruct (UnmarshalJSON (world_of src)) as [r w'] eqn:E.
  assert (exists d, r = Ok d /\ plain_numbersb d = true) as (d & -> & Hpl).
  { vm_compute in E. injection E as <- _. eexists. split; [reflexivity|].
    vm_compute. reflexivity. }
  assert (fits_int src) as Hfits by (unfold fits_int; vm_compute; reflexivity).
  assert (forall n A (l : list A), listOrder n A l ≡ₚ l) as Hperm by done.
  pose proof (X24_MarshalJSON_writes_the_document listOrder src None testClock d w'
                Hperm Hfits E (plain_numbersb_sound d Hpl)) as H.
  destruct H as (ms & H1 & _ & _ & H4).
  exists d, w', ms. split; [exact E|]. split; [exact H1|exact H4].
Defined.

(* ===================================================================== *)
(** * [FS.Sub] *)
(* ===================================================================== *)

(** [FS.Open] on a path of plain elements, valid or not. *)
Lemma FS_Open_plain root elems :
  elems <> [] -> Forall simple_name elems ->
  FS_Open root (path_of elems) =
  if ValidString (Join_slash elems) then Open_walk (path_of elems) elems root elems
  else RErr ErrInvalidPath.
Proof.
  intros Hne HF. destruct (ValidString (Join_slash elems)) eqn:Hvalid.
  - by destruct (FS_Open_elems root elems Hne HF Hvalid) as [-> _].
  - destruct (Clean_bytes_elems elems Hne HF) as [Hc _].
    unfold FS_Open, path_of. rewrite unsafeGetBytes_ByteSlice2String, Hc.
    rewrite TrimSlash_elems by done. unfold ValidPath. by rewrite Hvalid.
Qed.

Lemma Open_walk_directory name whole p : forall d e y,
  Open_walk name whole d (p ++ [e]) = ROk (OpenedDirectory y) ->
  exists x, descend d p = Some x /\
            files x !! ByteSlice2String e = None /\ dirs x !! ByteSlice2String e = Some y.
Proof.
  induction p as [|e1 p IH]; intros d e y.
  - cbn [app Open_walk descend]. intros H. exists d. split; [done|].
    destruct (files d !! ByteSlice2String e); [done|].
    destruct (dirs d !! ByteSlice2String e); [|done]. by injection H as ->.
  - cbn [app Open_walk descend]. destruct (p ++ [e]) eqn:E; [by destruct p|]. rewrite <-E.
    destruct (dirs d !! ByteSlice2String e1) as [v|]; [|done]. apply IH.
Qed.

Lemma descend_snoc p : forall d x e y,
  descend d p = Some x -> dirs x !! ByteSlice2String e = Some y ->
  descend d (p ++ [e]) = Some y.
Proof.
  induction p as [|e1 p IH]; intros d x e y Hx Hy.
  - cbn in Hx. injection Hx as <-. cbn. by rewrite Hy.
  - cbn [descend app] in *. destruct (dirs d !! ByteSlice2String e1); [|done]. by eapply IH.
Qed.

Lemma Open_walk_below name whole p : forall d y rest,
  rest <> [] -> descend d p = Some y ->
  Open_walk name whole d (p ++ rest) = Open_walk name whole y rest.
Proof.
  induction p as [|e1 p IH]; intros d y rest Hrest Hy.
  - cbn in Hy. by injection Hy as <-.
  - cbn [descend] in Hy. destruct (dirs d !! ByteSlice2String e1) as [v|] eqn:Ev; [|done].
    cbn [app Open_walk]. destruct (p ++ rest) eqn:E.
    { apply app_eq_nil in E as [_ ->]. done. }
    rewrite Ev, <-E. by apply IH.
Qed.

(** What [Open] finds does not depend on the names it keeps for its
    errors. *)
Lemma Open_walk_found name whole name' whole' p : forall d r,
  Open_walk name whole d p = ROk r -> Open_walk name' whole' d p = ROk r.
Proof.
  induction p as [|e p IH]; intros d r; [done|].
  cbn [Open_walk]. destruct p as [|e2 p].
  - destruct (files d !! ByteSlice2String e); [done|].
    by destruct (dirs d !! ByteSlice2String e).
  - destruct (dirs d !! ByteSlice2String e); [|done]. apply IH.
Qed.

(** X25: what Open finds in the file system that Sub returns for a
    directory, Open finds from the root under the joined path: for paths
    of plain elements, when Sub succeeds on [dir] and Open on the result
    succeeds on [name], then Open on the root succeeds on [dir/name] with
    the same File or Directory.  (Not conversely: Sub refuses a directory
    whose name a File bears.) *)
Theorem X25_Open_through_Sub root p e q fn y r :
  Forall simple_name (p ++ e :: q ++ [fn]) ->
  ValidString (Join_slash (p ++ e :: q ++ [fn])) = true ->
  FS_Sub root (path_of (p ++ [e])) = ROk y ->
  FS_Open y (path_of (q ++ [fn])) = ROk r ->
  FS_Open root (path_of (p ++ e :: q ++ [fn])) = ROk r.
Proof.
  intros HF Hvalid Hsub Hopen.
  assert (Forall simple_name (p ++ [e]) /\ Forall simple_name (q ++ [fn])) as [HF1 HF2].
  { apply Forall_app in HF as [Hp Hq]. apply Forall_cons_iff in Hq as [He Hq].
    split; [|done]. apply Forall_app. split; [done|]. by apply Forall_cons. }
  unfold FS_Sub in Hsub.
  rewrite (FS_Open_plain root (p ++ [e])) in Hsub by (by destruct p || done).
  destruct (ValidString (Join_slash (p ++ [e]))); [|done].
  destruct (Open_walk _ _ root (p ++ [e])) as [[f|y']|err] eqn:Hwalk; try done.
  injection Hsub as ->.
  apply Open_walk_directory in Hwalk as (x & Hx & _ & Hy).
  pose proof (descend_snoc p root x e y Hx Hy) as Hdesc.
  rewrite (FS_Open_plain y (q ++ [fn])) in Hopen by (by destruct q || done).
  destruct (ValidString (Join_slash (q ++ [fn]))); [|done].
  rewrite (FS_Open_plain root (p ++ e :: q ++ [fn])) by (by destruct p || done).
  rewrite Hvalid.
  change (p ++ e :: q ++ [fn]) with (p ++ [e] ++ (q ++ [fn])) at 3.
  rewrite app_assoc.
  rewrite (Open_walk_below _ _ (p ++ [e]) root y (q ++ [fn])) by (by destruct q || done).
  by eapply Open_walk_found.
Qed.

Lemma X25_witness :
  FS_Sub (put_dir (put_file "b" file_a1 (newDir "a" 0)) (newDir EmptyString 0))
         (path_of [bytes "a"])
    = ROk (put_file "b" file_a1 (newDir "a" 0)) /\
  FS_Open (put_dir (put_file "b" file_a1 (newDir "a" 0)) (newDir EmptyString 0))
          (path_of [bytes "a"; bytes "b"]) = ROk (OpenedFile file_a1).
Proof.
  assert (FS_Sub (put_dir (put_file "b" file_a1 (newDir "a" 0)) (newDir EmptyString 0))
                 (path_of [bytes "a"]) = ROk (put_file "b" file_a1 (newDir "a" 0))) as Hsub
    by reflexivity.
  split; [exact Hsub|].
  apply (X25_Open_through_Sub
           (put_dir (put_file "b" file_a1 (newDir "a" 0)) (newDir EmptyString 0))
           [] (bytes "a") [] (bytes "b") (put_file "b" file_a1 (newDir "a" 0))).
  - plain_names.
  - reflexivity.
  - exact Hsub.
  - reflexivity.
Defined.

(* ===================================================================== *)
(** * What [dataToFile] refuses *)
(* ===================================================================== *)

Lemma lor_ge_l x y : 0 <= y -> x <= Z.lor x y.
Proof.
  intros Hy. pose proof (Z.sub_lor_l_same_l y x) as H.
  assert (0 <= Z.land y (Z.lnot x)) by (apply Z.land_nonneg; by left). lia.
Qed.

Lemma lor_ge_r x y : 0 <= x -> y <= Z.lor x y.
Proof. intros Hx. rewrite Z.lor_comm. by apply lor_ge_l. Qed.

Lemma shifted_low m n k : 0 <= n -> 0 <= k ->
  Z.shiftl (Z.land m (Z.ones n)) k = (m mod 2 ^ n) * 2 ^ k /\ 0 <= (m mod 2 ^ n) * 2 ^ k.
Proof.
  intros Hn Hk. rewrite Z.land_ones, Z.shiftl_mul_pow2 by done. split; [done|].
  apply Z.mul_nonneg_nonneg; [apply Z.mod_pos_bound|]; lia.
Qed.

Lemma utf8_first_cases p0 sz lo hi :
  utf8_first p0 = Some (sz, lo, hi) ->
  hi <= 191 /\
  ((sz = 2%nat /\ 194 <= p0 <= 223) \/
  (sz = 3%nat /\ (p0 = 224 /\ lo = 160 \/ 225 <= p0 <= 239)) \/
  (sz = 4%nat /\ (p0 = 240 /\ lo = 144 \/ 241 <= p0 <= 244))).
Proof.
  unfold utf8_first.
  repeat match goal with
  | |- context [if ?b then _ else _] => destruct b eqn:?
  end; intros [= <- <- <-]; (split; [lia|]); lia.
Qed.

(** A rune of more than one byte is not an ASCII rune. *)
Lemma DecodeRune_not_ascii c l :
  128 <= rune_of_byte c -> 128 <= fst (DecodeRune (c :: l)).
Proof.
  intros Hc. unfold DecodeRune.
  destruct (Z.ltb_spec (rune_of_byte c) 128) as [|_]; [lia|].
  assert (128 <= RuneError) as Herr by (by vm_compute).
  set (p0 := rune_of_byte c) in *.
  destruct (utf8_first p0) as [[[sz lo] hi]|] eqn:U; [|exact Herr].
  apply utf8_first_cases in U as [Hhi191 U].
  destruct (length (c :: l) <? sz)%nat; [exact Herr|].
  destruct l as [|c1 l]; [exact Herr|]. set (b1 := rune_of_byte c1).
  destruct (Z.ltb_spec b1 lo) as [|Hlo]; [exact Herr|].
  destruct (Z.ltb_spec hi b1) as [|Hhi]; [exact Herr|]. cbn [orb].
  change 31 with (Z.ones 5). change 15 with (Z.ones 4). change 7 with (Z.ones 3).
  change 63 with (Z.ones 6).
  assert (b1 < 256) as Hb1 by apply rune_of_byte_range.
  destruct U as [[-> Hp]|[[-> Hp]|[-> Hp]]]; cbn [Nat.leb].
  - destruct (shifted_low p0 5 6) as [-> _]; [lia|lia|].
    cbn [fst]. etransitivity; [|apply lor_ge_l; rewrite Z.land_ones by lia;
                                 apply Z.mod_pos_bound; lia].
    Z.div_mod_to_equations. lia.
  - destruct l as [|c2 l]; [exact Herr|]. destruct (negb _); [exact Herr|]. cbn [fst].
    destruct (shifted_low p0 4 12) as [-> ?]; [lia|lia|].
    destruct (shifted_low b1 6 6) as [-> ?]; [lia|lia|].
    etransitivity; [|apply lor_ge_l; rewrite Z.land_ones by lia; apply Z.mod_pos_bound; lia].
    destruct Hp as [[Hp ->]|Hp].
    + etransitivity; [|apply lor_ge_r; done]. Z.div_mod_to_equations. lia.
    + etransitivity; [|apply lor_ge_l; done]. Z.div_mod_to_equations. lia.
  - destruct l as [|c2 l]; [exact Herr|]. destruct (negb _); [exact Herr|].
    destruct l as [|c3 l]; [exact Herr|]. destruct (negb _); [exact Herr|]. cbn [fst].
    destruct (shifted_low p0 3 18) as [-> ?]; [lia|lia|].
    destruct (shifted_low b1 6 12) as [-> ?]; [lia|lia|].
    destruct (shifted_low (rune_of_byte c2) 6 6) as [-> ?]; [lia|lia|].
    etransitivity; [|apply lor_ge_l; rewrite Z.land_ones by lia; apply Z.mod_pos_bound; lia].
    etransitivity; [|apply lor_ge_l; done].
    destruct Hp as [[Hp ->]|Hp].
    + etransitivity; [|apply lor_ge_r; done]. Z.div_mod_to_equations. lia.
    + etransitivity; [|apply lor_ge_l; done]. Z.div_mod_to_equations. lia.
Qed.

(** X26: dataToFile refuses three inputs only: data that is empty, and
    data whose first byte is an opening brace or an opening bracket.
    Whatever else it is given, text that is no JSON value included, it
    returns a File of the given name whose value is the data. *)
Theorem X26_dataToFile_refuses_only_three_inputs now name data :
  match data with
  | [] => dataToFile now name data = RErr (ErrCouldNotReadRune EOF)
  | c :: _ =>
    if Ascii.eqb c "{" then dataToFile now name data = RErr ErrFileIsObject
    else if Ascii.eqb c "[" then dataToFile now name data = RErr ErrFileIsArray
    else exists t, dataToFile now name data = ROk (mkFile name now t data)
  end.
Proof.
  destruct data as [|c rest]; [done|].
  unfold dataToFile, NewReader. rewrite ReadRune_cons.
  set (r := fst (DecodeRune (c :: rest))). set (b := mkReader _ _).
  assert (forall x : byte, rune_of_byte x < 128 -> (r =? rune_of_byte x) = Ascii.eqb c x)
    as Hr.
  { intros x Hx. destruct (Ascii.eqb_spec c x) as [->|Hne].
    - subst r. unfold DecodeRune. destruct (Z.ltb_spec (rune_of_byte x) 128); [|lia].
      apply Z.eqb_refl.
    - apply Z.eqb_neq. intros Heq. subst r.
      destruct (Z.lt_ge_cases (rune_of_byte c) 128) as [Hlt|Hge].
      + unfold DecodeRune in Heq.
        destruct (Z.ltb_spec (rune_of_byte c) 128); [|lia]. cbn [fst] in Heq.
        by apply rune_of_byte_inj in Heq.
      + pose proof (DecodeRune_not_ascii c rest Hge). lia. }
  change openBrace with (rune_of_byte "{"). change openBracket with (rune_of_byte "[").
  rewrite !Hr by (by vm_compute).
  destruct (Ascii.eqb c "{"); [done|]. destruct (Ascii.eqb c "["); [done|].
  repeat match goal with
  | |- context [if ?b then ROk _ else _] => destruct b; [by eexists|]
  end.
  destruct (if IsNumber r then _ else _); by eexists.
Qed.

(* ===================================================================== *)
(** * A stream with an object that is refused *)
(* ===================================================================== *)

Lemma UnmarshalStream_loop_duplicate docs bad k tail : forall fuel lr c,
  Forall document docs ->
  wf_value (JObject bad) = true -> first_dup (JObject bad) = Some k ->
  (length docs < fuel)%nat ->
  exists out w',
    UnmarshalStream_loop fuel
      (mkWorld (mkReader (stream_text docs ++ print (JObject bad) ++ tail) lr) c) = (out, w') /\
    map s_Err out = map (fun _ => None) docs ++ [Some (ErrDuplicateField k)] /\
    map (fun s => untimed (s_Dir s)) out =
      map (fun ms => build EmptyString (JObject ms)) docs ++ [zeroDirectory].
Proof.
  intros fuel lr c HF Hwf Hdup. revert fuel lr c.
  induction HF as [|ms docs (Hne & Hwfm & Hdupm) HF IH]; intros fuel lr c Hfuel.
  - destruct fuel as [|fuel]; [cbn in Hfuel; lia|].
    cbn [UnmarshalStream_loop stream_text map concat app].
    destruct (UnmarshalJSON_print bad tail lr c Hwf) as [w1 H].
    rewrite Hdup in H. rewrite H. by eexists _, _.
  - destruct fuel as [|fuel]; [cbn in Hfuel; lia|].
    cbn [UnmarshalStream_loop].
    change (stream_text (ms :: docs)) with (print (JObject ms) ++ stream_text docs).
    rewrite <-app_assoc.
    destruct (UnmarshalJSON_print ms (stream_text docs ++ print (JObject bad) ++ tail) lr c
                Hwfm) as [w1 H].
    rewrite Hdupm in H. destruct H as (d & -> & Hd & Hrest).
    assert ((size (files d) + size (dirs d) =? 0)%nat = false) as ->.
    { apply Nat.eqb_neq. destruct (untimed_sizes d) as [<- <-]. rewrite Hd.
      cbn [build]. apply build_members_not_empty. by left. }
    rewrite andb_false_r.
    destruct w1 as [[u lr1] c1]. cbn [w_b unread] in Hrest. subst u.
    destruct (IH fuel lr1 c1) as (out & w' & -> & He & Hb).
    { cbn [length] in Hfuel. lia. }
    exists (mkStream d None :: out), w'. cbn [map s_Err s_Dir app].
    split; [done|]. split; [by rewrite He|by rewrite Hd, Hb].
Qed.

(** X27: a stream ends at the first object that is refused.  When the
    objects [docs] (each with a member, well formed, no key twice) are
    followed by a well-formed object in which the key [k] is the first to
    stand twice, UnmarshalStream yields the Directories of [docs], in
    order and without error, then one value that holds the error
    "had duplicate field named k" and the zero Directory, and nothing
    more, whatever follows in the input. *)
Theorem X27_UnmarshalStream_ends_at_a_duplicate_key
    (docs : list (list (string * jvalue))) (bad : list (string * jvalue)) (k : string)
    (tail : list byte) (lr : option (list byte)) (c : Clock) :
  Forall document docs ->
  wf_value (JObject bad) = true -> first_dup (JObject bad) = Some k ->
  map s_Err (fst (UnmarshalStream
      (mkWorld (mkReader (stream_text docs ++ print (JObject bad) ++ tail) lr) c))) =
    map (fun _ => None) docs ++ [Some (ErrDuplicateField k)] /\
  map (fun s => untimed (s_Dir s)) (fst (UnmarshalStream
      (mkWorld (mkReader (stream_text docs ++ print (JObject bad) ++ tail) lr) c))) =
    map (fun ms => build EmptyString (JObject ms)) docs ++ [zeroDirectory].
Proof.
  intros HF Hwf Hdup. unfold UnmarshalStream. cbn [w_b unread].
  destruct (UnmarshalStream_loop_duplicate docs bad k tail
              (S (length (stream_text docs ++ print (JObject bad) ++ tail))) lr c HF Hwf Hdup)
    as (out & w' & -> & H1 & H2).
  { pose proof (stream_text_length docs HF). rewrite length_app. lia. }
  done.
Qed.

Lemma X27_witness :
  map s_Err (fst (UnmarshalStream (mkWorld (mkReader
      (stream_text [[("a", JScalar FTInt (bytes "1"))]]
       ++ print (JObject [("b", JScalar FTInt (bytes "1")); ("b", JScalar FTInt (bytes "2"))])
       ++ bytes "{'c':3}") None) testClock))) =
    [None; Some (ErrDuplicateField "b")] /\
  map (fun s => untimed (s_Dir s)) (fst (UnmarshalStream (mkWorld (mkReader
      (stream_text [[("a", JScalar FTInt (bytes "1"))]]
       ++ print (JObject [("b", JScalar FTInt (bytes "1")); ("b", JScalar FTInt (bytes "2"))])
       ++ bytes "{'c':3}") None) testClock))) =
    [build EmptyString (JObject [("a", JScalar FTInt (bytes "1"))]); zeroDirectory].
Proof.
  apply (X27_UnmarshalStream_ends_at_a_duplicate_key
           [[("a", JScalar FTInt (bytes "1"))]]
           [("b", JScalar FTInt (bytes "1")); ("b", JScalar FTInt (bytes "2"))] "b"
           (bytes "{'c':3}") None testClock).
  - apply Forall_cons; [split; [done|split; reflexivity]|]. apply Forall_nil.
  - reflexivity.
  - reflexivity.
Defined.
